(** * Content security toolkit: event mediator, overlay and content coordinators

    A shallow embedding of the TypeScript sources
    - [core/mediator/protection-event.ts] (class [ContentProtectionMediator]),
    - the security overlay manager (class [SecurityOverlayManager]),
    - the protected content manager (class [ProtectedContentManager]),
    - the strategy event handlers and the detection strategies,
    - the interval manager (class [IntervalManager]),
    together with the properties the specification states about them and
    further properties of the same code.

    Conventions.  JavaScript objects that are only reached through one
    container are stored by value in that container.  Arrays that are
    reachable through two names at once (the per-type subscription arrays of
    the mediator, which [publish] iterates while handlers run) live in an
    explicit store and are named by references.  [Date.now()] is an input of
    the operations that read it.  A DOM element is the string its [innerHTML]
    getter returns together with what the getter returns after an assignment
    to [innerHTML]. *)

From Stdlib Require Import ZArith Lia.
From stdpp Require Import base decidable option list strings pretty numbers sorting.

(* ===================================================================== *)
(** * JavaScript library behaviour used by the sources *)
(* ===================================================================== *)

Module Js.

Section Sort.
Context {A : Type}.
Variable compare : A -> A -> Z.

(** One step of a stable insertion: [x] is younger than every element of
    [l]; it moves in front of the first [y] with [compare y x > 0]. *)
Fixpoint sort_insert (x : A) (l : list A) : list A :=
  match l with
  | [] => [x]
  | y :: l' => if (0 <? compare y x)%Z then x :: y :: l' else y :: sort_insert x l'
  end.

(** [Array.prototype.sort(compare)]: a stable sort.  For a comparator that is
    a consistent ordering every stable sort returns this list. *)
Definition sort (l : list A) : list A :=
  foldl (fun acc x => sort_insert x acc) [] l.

End Sort.

Section Map.
Context {K V : Type} `{EqDecision K}.

(** [Map.prototype.get]. *)
Fixpoint mget (k : K) (m : list (K * V)) : option V :=
  match m with
  | [] => None
  | (k', v) :: m' => if decide (k' = k) then Some v else mget k m'
  end.

(** [Map.prototype.set]: an existing key keeps its place in the iteration
    order, a new key goes last. *)
Fixpoint mset (k : K) (v : V) (m : list (K * V)) : list (K * V) :=
  match m with
  | [] => [(k, v)]
  | (k', v') :: m' =>
      if decide (k' = k) then (k', v) :: m' else (k', v') :: mset k v m'
  end.

(** [Map.prototype.delete]. *)
Fixpoint mdelete (k : K) (m : list (K * V)) : list (K * V) :=
  match m with
  | [] => []
  | (k', v) :: m' =>
      if decide (k' = k) then mdelete k m' else (k', v) :: mdelete k m'
  end.

Definition mhas (k : K) (m : list (K * V)) : bool :=
  match mget k m with Some _ => true | None => false end.

Definition mkeys (m : list (K * V)) : list K := m.*1.

End Map.

(** [x || d] on an optional number: [undefined] and [0] are falsy. *)
Definition num_or (x : option Z) (d : Z) : Z :=
  match x with
  | Some v => if (v =? 0)%Z then d else v
  | None => d
  end.

(** Truthiness of an optional boolean ([undefined], [null], [false] are falsy). *)
Definition truthy (b : option bool) : bool :=
  match b with Some true => true | _ => false end.

(** Truthiness of a string: the empty string is falsy. *)
Definition nonempty (s : string) : bool :=
  match s with EmptyString => false | _ => true end.

(** ** Facts about [sort] *)

Section SortFacts.
Context {A : Type} (compare : A -> A -> Z).

Lemma sort_snoc (l : list A) (x : A) :
  sort compare (l ++ [x]) = sort_insert compare x (sort compare l).
Proof. unfold sort. by rewrite foldl_app. Qed.

Lemma sort_insert_perm (x : A) (l : list A) :
  sort_insert compare x l ≡ₚ x :: l.
Proof.
  induction l as [|y l IH]; simpl; [done|].
  destruct (0 <? compare y x)%Z; [done|].
  rewrite IH. apply Permutation_swap.
Qed.

(** [sort] only rearranges. *)
Lemma sort_perm (l : list A) : sort compare l ≡ₚ l.
Proof.
  induction l as [|x l IH] using rev_ind; [done|].
  rewrite sort_snoc, sort_insert_perm, IH.
  by rewrite Permutation_cons_append.
Qed.

Lemma sort_insert_last (x : A) (l : list A) :
  Forall (fun y => (compare y x <= 0)%Z) l ->
  sort_insert compare x l = l ++ [x].
Proof.
  induction 1 as [|y l Hy _ IH]; simpl; [done|].
  destruct (Z.ltb_spec 0 (compare y x)); [lia|]. by rewrite IH.
Qed.

Section Sorted.
Variable R : relation A.
Context `{!Transitive R}.

(** Inserting a young element keeps a list sorted for [R] when the comparator
    agrees with [R] on that element. *)
Lemma sort_insert_sorted (x : A) (l : list A) :
  StronglySorted R l ->
  Forall (fun y => ((compare y x <= 0)%Z -> R y x) /\ ((0 < compare y x)%Z -> R x y)) l ->
  StronglySorted R (sort_insert compare x l).
Proof.
  induction 1 as [|y l Hl IH Hy]; intros Hx; simpl.
  - repeat constructor.
  - apply Forall_cons in Hx as [[Hle Hgt] Hx].
    destruct (Z.ltb_spec 0 (compare y x)) as [Hc|Hc].
    + constructor; [by constructor|].
      constructor; [by apply Hgt|].
      eapply Forall_impl; [exact Hy|]. intros z Hz. by trans y; [apply Hgt|].
    + constructor; [by apply IH|].
      rewrite sort_insert_perm. constructor; [by apply Hle|done].
Qed.

(** A list that is sorted for [R], where [R] implies the comparator's order,
    is left as it is. *)
Lemma sort_sorted_id (l : list A) :
  (forall y z, R y z -> (compare y z <= 0)%Z) ->
  StronglySorted R l -> sort compare l = l.
Proof.
  intros HR. induction l as [|x l IH] using rev_ind; [done|].
  intros Hs. apply StronglySorted_app in Hs as (Hlx & Hl & _).
  rewrite sort_snoc, (IH Hl). apply sort_insert_last.
  apply Forall_forall. intros y Hy. apply HR, Hlx; [done|].
  by apply list_elem_of_singleton.
Qed.

End Sorted.
End SortFacts.

(** ** Facts about the [Map] operations *)

Section MapFacts.
Context {K V : Type} `{EqDecision K}.
Implicit Types (m : list (K * V)) (k : K) (v : V).

Lemma mget_mset_eq k v m : mget k (mset k v m) = Some v.
Proof.
  induction m as [|[k' v'] m IH]; simpl.
  - by rewrite decide_True.
  - destruct (decide (k' = k)) as [->|Hne]; simpl.
    + by rewrite decide_True.
    + by rewrite decide_False.
Qed.

Lemma mget_mset_ne k k' v m : k ≠ k' -> mget k' (mset k v m) = mget k' m.
Proof.
  intros Hne. induction m as [|[k'' v'] m IH]; simpl.
  - by rewrite decide_False.
  - destruct (decide (k'' = k)) as [->|Hne']; simpl.
    + by rewrite !decide_False.
    + destruct (decide (k'' = k')); [done|apply IH].
Qed.

Lemma mget_mdelete_eq k m : mget k (mdelete k m) = None.
Proof.
  induction m as [|[k' v'] m IH]; simpl; [done|].
  destruct (decide (k' = k)) as [->|Hne]; simpl; [done|].
  by rewrite decide_False.
Qed.

Lemma mget_mdelete_ne k k' m : k ≠ k' -> mget k' (mdelete k m) = mget k' m.
Proof.
  intros Hne. induction m as [|[k'' v'] m IH]; simpl; [done|].
  destruct (decide (k'' = k)) as [->|Hne']; simpl.
  - by rewrite decide_False.
  - destruct (decide (k'' = k')); [done|apply IH].
Qed.

Lemma mget_Some_elem k v m : mget k m = Some v -> (k, v) ∈ m.
Proof.
  induction m as [|[k' v'] m IH]; simpl; [done|].
  destruct (decide (k' = k)) as [->|Hne].
  - intros [= ->]. apply elem_of_cons. by left.
  - intros Hg. apply elem_of_cons. right. by apply IH.
Qed.

Lemma elem_mget_is_Some k v m : (k, v) ∈ m -> is_Some (mget k m).
Proof.
  induction m as [|[k' v'] m IH]; simpl; [by intros ?%elem_of_nil|].
  intros [[= -> ->]|Hin]%elem_of_cons.
  - rewrite decide_True; eauto.
  - destruct (decide (k' = k)); eauto.
Qed.

Lemma mget_mset k k' v m :
  mget k' (mset k v m) = if decide (k = k') then Some v else mget k' m.
Proof.
  case_decide as Hk; [subst; apply mget_mset_eq|by apply mget_mset_ne].
Qed.

Lemma mget_mdelete k k' m :
  mget k' (mdelete k m) = if decide (k = k') then None else mget k' m.
Proof.
  case_decide as Hk; [subst; apply mget_mdelete_eq|by apply mget_mdelete_ne].
Qed.

Lemma mget_None_keys k m : mget k m = None <-> k ∉ mkeys m.
Proof.
  unfold mkeys. induction m as [|[k' v'] m IH]; simpl.
  - split; [intros _; apply not_elem_of_nil|done].
  - rewrite not_elem_of_cons. destruct (decide (k' = k)) as [->|Hne].
    + split; [done|]. by intros [? _].
    + rewrite IH. split; [by intros ?|by intros [_ ?]].
Qed.

Lemma mget_is_Some_keys k m : is_Some (mget k m) <-> k ∈ mkeys m.
Proof.
  destruct (mget k m) eqn:Hg.
  - split; [|eauto]. intros _. destruct (decide (k ∈ mkeys m)) as [|Hn]; [done|].
    apply mget_None_keys in Hn. congruence.
  - split; [by intros [? ?]|]. intros Hin. by apply mget_None_keys in Hg.
Qed.

Lemma mkeys_mset_in k v m : k ∈ mkeys m -> mkeys (mset k v m) = mkeys m.
Proof.
  unfold mkeys. induction m as [|[k' v'] m IH]; simpl; [by intros ?%elem_of_nil|].
  destruct (decide (k' = k)) as [->|Hne]; [done|].
  intros [?|Hin]%elem_of_cons; [congruence|]. simpl. f_equal. by apply IH.
Qed.

Lemma mkeys_mset_notin k v m : k ∉ mkeys m -> mkeys (mset k v m) = mkeys m ++ [k].
Proof.
  unfold mkeys. induction m as [|[k' v'] m IH]; simpl; [done|].
  intros [Hne Hin]%not_elem_of_cons.
  rewrite decide_False by done. simpl. f_equal. by apply IH.
Qed.

Lemma NoDup_mkeys_mset k v m : NoDup (mkeys m) -> NoDup (mkeys (mset k v m)).
Proof.
  intros Hnd. destruct (decide (k ∈ mkeys m)) as [Hin|Hin].
  - by rewrite mkeys_mset_in.
  - rewrite mkeys_mset_notin by done. apply NoDup_app. split; [done|].
    split; [|apply NoDup_singleton].
    intros x Hx ->%list_elem_of_singleton. done.
Qed.

Lemma mkeys_mdelete_sublist k m : mkeys (mdelete k m) `sublist_of` mkeys m.
Proof.
  unfold mkeys. induction m as [|[k' v'] m IH]; simpl; [done|].
  destruct (decide (k' = k)); simpl; [by apply sublist_cons|by apply sublist_skip].
Qed.

Lemma NoDup_mkeys_mdelete k m : NoDup (mkeys m) -> NoDup (mkeys (mdelete k m)).
Proof. intros Hnd. exact (sublist_NoDup _ _ Hnd (mkeys_mdelete_sublist k m)). Qed.

Lemma elem_mget k v m : NoDup (mkeys m) -> (k, v) ∈ m -> mget k m = Some v.
Proof.
  unfold mkeys. induction m as [|[k' v'] m IH]; simpl; [by intros _ ?%elem_of_nil|].
  intros [Hk Hnd]%NoDup_cons [[= -> ->]|Hin]%elem_of_cons.
  - by rewrite decide_True.
  - rewrite decide_False; [by apply IH|].
    intros ->. apply Hk. apply list_elem_of_fmap. by exists (k, v).
Qed.

Lemma filter_none {A} (P : A -> Prop) `{!forall x, Decision (P x)} (l : list A) :
  Forall (fun x => ~ P x) l -> filter P l = [].
Proof.
  induction 1 as [|x l Hx _ IH]; [done|]. by rewrite filter_cons_False.
Qed.

(** With distinct keys, at most one entry has a given key. *)
Lemma filter_key_length (P : K * V -> Prop) `{!forall e, Decision (P e)} k m :
  NoDup (mkeys m) ->
  (forall e, e ∈ m -> P e -> e.1 = k) ->
  length (filter P m) <= 1.
Proof.
  unfold mkeys. induction m as [|e m IH]; simpl; [lia|].
  intros [Hk Hnd]%NoDup_cons HP. rewrite filter_cons.
  assert (forall e', e' ∈ m -> P e' -> e'.1 = k) as HP'.
  { intros e' He'. apply HP. by apply elem_of_cons; right. }
  case_decide as He; [|by apply IH].
  assert (filter P m = []) as ->; [|simpl; lia].
  apply filter_none. apply Forall_forall. intros e' He' HPe'. apply Hk.
  apply list_elem_of_fmap. exists e'. split; [|done].
  rewrite (HP' e' He' HPe'). apply HP; [by apply elem_of_cons; left|done].
Qed.

End MapFacts.

End Js.

(* ===================================================================== *)
(** * Events *)
(* ===================================================================== *)

(** [enum ProtectionEventType]. *)
Inductive ProtectionEventType :=
  | STRATEGY_APPLIED | STRATEGY_REMOVED | STRATEGY_UPDATED
  | CONTEXT_MENU_ATTEMPT | SELECTION_ATTEMPT | DRAG_ATTEMPT
  | KEYBOARD_SHORTCUT_BLOCKED
  | PRINT_ATTEMPT | SCREENSHOT_ATTEMPT | DEVTOOLS_STATE_CHANGE
  | EXTENSION_DETECTED | FRAME_EMBEDDING_DETECTED | FULLSCREEN_CHANGE
  | WATERMARK_TAMPERED
  | OVERLAY_SHOWN | OVERLAY_REMOVED | OVERLAY_RESTORED
  | CONTENT_HIDDEN | CONTENT_RESTORED | WATERMARK_CREATED | WATERMARK_REMOVED
  | MEDIATOR_INITIALIZED | MEDIATOR_DISPOSED
  | ERROR_OCCURRED | DEBUG_MESSAGE | CONFIG_UPDATED
  | KEYBOARD_SHORTCUTS_REQUESTED | KEYBOARD_SHORTCUTS_PROVIDED
  | KEYBOARD_SHORTCUTS_UPDATED.

#[global] Instance ProtectionEventType_eq_dec : EqDecision ProtectionEventType.
Proof. solve_decision. Defined.

(** [interface OverlayOptions]: the fields the coordinators and handlers read. *)
Record OverlayOptions := {
  oo_title : option string;
  oo_message : option string;
  oo_secondaryMessage : option string;
  oo_textColor : option string;
  oo_backgroundColor : option string;
  oo_duration : option Z;
  oo_blockEvents : option bool;
  oo_autoRestore : option bool;
  oo_showCloseButton : option bool;
  oo_additionalContent : option string;
}.

Definition no_overlay_options : OverlayOptions :=
  {| oo_title := None; oo_message := None; oo_secondaryMessage := None;
     oo_textColor := None; oo_backgroundColor := None; oo_duration := None;
     oo_blockEvents := None; oo_autoRestore := None;
     oo_showCloseButton := None; oo_additionalContent := None |}.

(** [interface PlaceholderOptions]. *)
Record PlaceholderOptions := {
  po_title : option string;
  po_message : option string;
  po_secondaryMessage : option string;
  po_textColor : option string;
  po_backgroundColor : option string;
}.

(** [interface ExtensionConfig]: name and risk. *)
Record ExtensionConfig := {
  ext_name : string;
  ext_risk : string;
}.

(** A DOM element handle, as events carry it in [target]/[targetElement]. *)
Definition ElementRef := nat.

(** The payloads of [EventDataMap] that the modelled code reads or writes.
    Optional fields ([?], [| null]) are options. *)
Inductive EventData :=
  | DevToolsData (isOpen : bool) (target : option ElementRef)
      (showOverlay : option bool) (overlayOptions : option OverlayOptions)
      (hideContent : option bool)
  | ExtensionData (extension : option ExtensionConfig)
      (showOverlay : option bool) (overlayOptions : option OverlayOptions)
      (hideContent : option bool) (priority : option Z) (reason : string)
      (target : option ElementRef)
  | ScreenshotData (showOverlay hideContent : option bool)
      (overlayOptions : option OverlayOptions) (duration : option Z)
      (priority : option Z) (reason : string) (target : option ElementRef)
  | FrameEmbeddingData (isEmbedded isExternalFrame : bool)
      (parentDomain : option string) (targetElement : option ElementRef)
      (showOverlay hideContent : option bool)
      (overlayOptions : option OverlayOptions)
  | ContentHiddenData (strategyName reason : string)
      (options : option PlaceholderOptions)
      (targetElement : option ElementRef) (priority : option Z)
  | ContentRestoredData (strategyName : string)
      (targetElement : option ElementRef)
  | OverlayShownData (strategyName overlayType : string)
      (options : option OverlayOptions) (priority : option Z)
      (duration : option Z)
  | OverlayRemovedData (strategyName overlayType : string)
      (reason : option string)
  | OverlayRestoredData (strategyName overlayType : string)
      (reason : option string)
  | StrategyData (strategyName : string) (reason : option string)
  | OtherData.

(** [interface ProtectionEvent].  At run time [type], [timestamp] and [data]
    can be missing, which [publish] and the handlers test for. *)
Record ProtectionEvent := {
  ev_type : option ProtectionEventType;
  ev_source : string;
  ev_timestamp : option Z;
  ev_data : option EventData;
}.

(** [isEventType(event, eventType)]. *)
Definition isEventType (e : ProtectionEvent) (t : ProtectionEventType) : bool :=
  bool_decide (ev_type e = Some t).

(* ===================================================================== *)
(** * The event mediator ([ContentProtectionMediator]) *)
(* ===================================================================== *)

Module Mediator.

(** [interface SubscriptionOptions].  Filters and handlers are closures; they
    are named by numbers and their behaviour is given by tables (below). *)
Record SubscriptionOptions := {
  so_filter : option nat;
  so_priority : option Z;
  so_context : option string;
}.

(** [interface Subscription], as [subscribe] builds it. *)
Record Subscription := {
  sub_id : string;
  sub_eventType : ProtectionEventType;
  sub_handler : nat;
  sub_filter : option nat;
  sub_priority : Z;
  sub_context : option string;
}.

(** The state of a mediator.  [subscriptions] is the [Map] from event type to
    an array; the arrays themselves are in the store [arrays] and the map holds
    their references, because [publish] keeps the array it fetched while the
    handlers it calls may grow that array ([subscribe] pushes and sorts in
    place) or make the map point to another one ([unsubscribe] stores a
    filtered copy).  [invoked] and [errors] observe the run: the handler calls
    made, in order, and the number of [console.error] reports. *)
Record Mediator := {
  subscriptions : list (ProtectionEventType * nat);
  arrays : list (list Subscription);
  subscriptionCounter : nat;
  eventHistory : list ProtectionEvent;
  invoked : list (Subscription * ProtectionEvent);
  errors : nat;
}.

Definition MAX_HISTORY_SIZE : nat := 100.

Definition new_mediator : Mediator :=
  {| subscriptions := []; arrays := []; subscriptionCounter := 0;
     eventHistory := []; invoked := []; errors := 0 |}.

Definition with_subscriptions (s : list (ProtectionEventType * nat)) (m : Mediator) : Mediator :=
  {| subscriptions := s; arrays := arrays m;
     subscriptionCounter := subscriptionCounter m;
     eventHistory := eventHistory m; invoked := invoked m; errors := errors m |}.

Definition with_arrays (a : list (list Subscription)) (m : Mediator) : Mediator :=
  {| subscriptions := subscriptions m; arrays := a;
     subscriptionCounter := subscriptionCounter m;
     eventHistory := eventHistory m; invoked := invoked m; errors := errors m |}.

Definition with_counter (n : nat) (m : Mediator) : Mediator :=
  {| subscriptions := subscriptions m; arrays := arrays m;
     subscriptionCounter := n;
     eventHistory := eventHistory m; invoked := invoked m; errors := errors m |}.

Definition with_history (h : list ProtectionEvent) (m : Mediator) : Mediator :=
  {| subscriptions := subscriptions m; arrays := arrays m;
     subscriptionCounter := subscriptionCounter m;
     eventHistory := h; invoked := invoked m; errors := errors m |}.

(** The call [subscription.handler(event)] is about to be made. *)
Definition record_call (s : Subscription) (e : ProtectionEvent) (m : Mediator) : Mediator :=
  {| subscriptions := subscriptions m; arrays := arrays m;
     subscriptionCounter := subscriptionCounter m;
     eventHistory := eventHistory m; invoked := invoked m ++ [(s, e)];
     errors := errors m |}.

(** [console.error(...)]. *)
Definition log_error (m : Mediator) : Mediator :=
  {| subscriptions := subscriptions m; arrays := arrays m;
     subscriptionCounter := subscriptionCounter m;
     eventHistory := eventHistory m; invoked := invoked m;
     errors := S (errors m) |}.

(** The array a reference names. *)
Definition array_at (r : nat) (m : Mediator) : list Subscription :=
  default [] (arrays m !! r).

(** A new array object. *)
Definition new_array (a : list Subscription) (m : Mediator) : nat * Mediator :=
  (length (arrays m), with_arrays (arrays m ++ [a]) m).

(** The subscriptions of a type, as [this.subscriptions.get(t) || []]. *)
Definition subscriptions_of (t : ProtectionEventType) (m : Mediator) : list Subscription :=
  match Js.mget t (subscriptions m) with
  | Some r => array_at r m
  | None => []
  end.

(** [`sub_${n}`]. *)
Definition subscription_id (n : nat) : string := "sub_" +:+ pretty n.

(** The comparator of [subscribe]: [(b.priority || 0) - (a.priority || 0)]. *)
Definition compare_priority (a b : Subscription) : Z :=
  (Js.num_or (Some (sub_priority b)) 0 - Js.num_or (Some (sub_priority a)) 0)%Z.

(** [subscribe(eventType, handler, options)].  [handler = None] stands for a
    value that is not a function. *)
Definition subscribe (eventType : ProtectionEventType) (handler : option nat)
    (options : option SubscriptionOptions) (m : Mediator) : string * Mediator :=
  match handler with
  | None => (EmptyString, log_error m)
  | Some h =>
      let n := S (subscriptionCounter m) in
      let m := with_counter n m in
      let subscriptionId := subscription_id n in
      let subscription :=
        {| sub_id := subscriptionId;
           sub_eventType := eventType;
           sub_handler := h;
           sub_filter := options ≫= so_filter;
           sub_priority := Js.num_or (options ≫= so_priority) 0;
           sub_context := options ≫= so_context |} in
      let m :=
        if Js.mhas eventType (subscriptions m) then m
        else
          let '(r, m) := new_array [] m in
          with_subscriptions (Js.mset eventType r (subscriptions m)) m in
      match Js.mget eventType (subscriptions m) with
      | Some r =>
          let pushed := array_at r m ++ [subscription] in
          (subscriptionId,
           with_arrays (<[r := Js.sort compare_priority pushed]> (arrays m)) m)
      | None => (subscriptionId, m)
      end
  end.

(** The loop of [unsubscribe] over the entries of the map: the first type
    whose array loses an element gets the filtered copy, and the loop breaks. *)
Fixpoint unsubscribe_scan (subscriptionId : string)
    (entries : list (ProtectionEventType * nat)) (m : Mediator) : bool * Mediator :=
  match entries with
  | [] => (false, m)
  | (eventType, r) :: rest =>
      let subs := array_at r m in
      let filteredSubscriptions := filter (fun s => sub_id s ≠ subscriptionId) subs in
      if length filteredSubscriptions <? length subs then
        let '(r', m) := new_array filteredSubscriptions m in
        (true, with_subscriptions (Js.mset eventType r' (subscriptions m)) m)
      else unsubscribe_scan subscriptionId rest m
  end.

(** [unsubscribe(subscriptionId)]. *)
Definition unsubscribe (subscriptionId : string) (m : Mediator) : bool * Mediator :=
  if Js.nonempty subscriptionId then
    unsubscribe_scan subscriptionId (subscriptions m) m
  else (false, m).

(** The loop of [unsubscribeByContext]. *)
Fixpoint unsubscribeByContext_scan (context : string)
    (entries : list (ProtectionEventType * nat)) (removedCount : nat)
    (m : Mediator) : nat * Mediator :=
  match entries with
  | [] => (removedCount, m)
  | (eventType, r) :: rest =>
      let subs := array_at r m in
      let filteredSubscriptions :=
        filter (fun s => sub_context s ≠ Some context) subs in
      if length filteredSubscriptions <? length subs then
        let removed := length subs - length filteredSubscriptions in
        let '(r', m) := new_array filteredSubscriptions m in
        unsubscribeByContext_scan context rest (removedCount + removed)
          (with_subscriptions (Js.mset eventType r' (subscriptions m)) m)
      else unsubscribeByContext_scan context rest removedCount m
  end.

(** [unsubscribeByContext(context)]. *)
Definition unsubscribeByContext (context : string) (m : Mediator) : nat * Mediator :=
  if Js.nonempty context then
    unsubscribeByContext_scan context (subscriptions m) 0 m
  else (0, m).

(** [clearAllSubscriptions()]. *)
Definition clearAllSubscriptions (m : Mediator) : nat * Mediator :=
  (sum_list (map (fun e => length (array_at e.2 m)) (subscriptions m)),
   with_subscriptions [] m).

(** [getSubscriptions(eventType)]: a copy of the array. *)
Definition getSubscriptions (t : ProtectionEventType) (m : Mediator) : list Subscription :=
  subscriptions_of t m.

(** [addToEventHistory(event)]: [unshift], then [pop] above the bound. *)
Definition addToEventHistory (e : ProtectionEvent) (m : Mediator) : Mediator :=
  let h := e :: eventHistory m in
  with_history (if MAX_HISTORY_SIZE <? length h then removelast h else h) m.

(** [if (!event.timestamp) event.timestamp = Date.now()]. *)
Definition backfill (now : Z) (e : ProtectionEvent) : ProtectionEvent :=
  match ev_timestamp e with
  | Some t =>
      if (t =? 0)%Z then
        {| ev_type := ev_type e; ev_source := ev_source e;
           ev_timestamp := Some now; ev_data := ev_data e |}
      else e
  | None =>
      {| ev_type := ev_type e; ev_source := ev_source e;
         ev_timestamp := Some now; ev_data := ev_data e |}
  end.

(** What a handler does with the mediator while it runs: calls of the
    mediator's methods, in order, possibly ended by an exception. *)
Inductive action :=
  | ASubscribe (eventType : ProtectionEventType) (handler : option nat)
      (options : option SubscriptionOptions)
  | AUnsubscribe (subscriptionId : string)
  | AUnsubscribeByContext (context : string)
  | AClearAll
  | APublish (event : ProtectionEvent)
  | AThrow.

(** How a call of a handler (or a run of [publish]) ends. *)
Inductive completion :=
  | Normal (m : Mediator)
  | Throws (m : Mediator).

Section Dispatch.

(** The body of handler [h] on an event, and the result of filter [f] on an
    event ([None]: the filter throws). *)
Variable handler_body : nat -> ProtectionEvent -> list action.
Variable filter_body : nat -> ProtectionEvent -> option bool.
(** [Date.now()] during the run. *)
Variable now : Z.

Section Body.
(** The meaning of a nested [this.mediator.publish(e)]. *)
Variable publish_rec : ProtectionEvent -> Mediator -> option Mediator.

(** The statements of a handler. *)
Fixpoint run_actions (acts : list action) (m : Mediator) : option completion :=
  match acts with
  | [] => Some (Normal m)
  | ASubscribe t h o :: acts' => run_actions acts' (subscribe t h o m).2
  | AUnsubscribe id :: acts' => run_actions acts' (unsubscribe id m).2
  | AUnsubscribeByContext c :: acts' => run_actions acts' (unsubscribeByContext c m).2
  | AClearAll :: acts' => run_actions acts' (clearAllSubscriptions m).2
  | APublish e :: acts' =>
      match publish_rec e m with
      | Some m' => run_actions acts' m'
      | None => None
      end
  | AThrow :: _ => Some (Throws m)
  end.

(** One turn of [for (const subscription of subscriptions)]: the [try] block
    with its [catch]. *)
Definition dispatch_one (event : ProtectionEvent) (s : Subscription) (m : Mediator)
    : option Mediator :=
  let call :=
    match run_actions (handler_body (sub_handler s) event) (record_call s event m) with
    | Some (Normal m') => Some m'
    | Some (Throws m') => Some (log_error m')
    | None => None
    end in
  match sub_filter s with
  | None => call
  | Some f =>
      match filter_body f event with
      | Some true => call
      | Some false => Some m
      | None => Some (log_error m)
      end
  end.

(** The [for ... of] loop over the array named [r]: the array iterator reads
    index [i] of the array as it is when the turn starts.  [steps] bounds the
    number of turns. *)
Fixpoint dispatch (event : ProtectionEvent) (r : nat) (steps i : nat) (m : Mediator)
    : option Mediator :=
  match steps with
  | O => None
  | S steps' =>
      match array_at r m !! i with
      | None => Some m
      | Some s =>
          match dispatch_one event s m with
          | Some m' => dispatch event r steps' (S i) m'
          | None => None
          end
      end
  end.

(** The body of [publish(event)]. *)
Definition publish_body (steps : nat) (event : ProtectionEvent) (m : Mediator)
    : option Mediator :=
  match ev_type event with
  | None => Some (log_error m)
  | Some t =>
      let event := backfill now event in
      let m := addToEventHistory event m in
      match Js.mget t (subscriptions m) with
      | None => Some m
      | Some r =>
          if length (array_at r m) =? 0 then Some m
          else dispatch event r steps 0 m
      end
  end.

End Body.

(** [publish(event)].  Handlers can publish again and can make the array
    being iterated grow without end, so the run is bounded by [fuel]: it
    limits the nesting of [publish] and the turns of each loop.  [None] means
    the bound was hit. *)
Fixpoint publish (fuel : nat) : ProtectionEvent -> Mediator -> option Mediator :=
  match fuel with
  | O => fun _ _ => None
  | S fuel' => publish_body (publish fuel') fuel'
  end.

End Dispatch.

(** States of a mediator that calls of its public methods reach. *)
Inductive op :=
  | OpSubscribe (eventType : ProtectionEventType) (handler : option nat)
      (options : option SubscriptionOptions)
  | OpUnsubscribe (subscriptionId : string)
  | OpUnsubscribeByContext (context : string)
  | OpClearAll
  | OpPublish (fuel : nat) (now : Z) (event : ProtectionEvent).

Section Run.
Variable handler_body : nat -> ProtectionEvent -> list action.
Variable filter_body : nat -> ProtectionEvent -> option bool.

Definition step (o : op) (m : Mediator) : option Mediator :=
  match o with
  | OpSubscribe t h opts => Some (subscribe t h opts m).2
  | OpUnsubscribe id => Some (unsubscribe id m).2
  | OpUnsubscribeByContext c => Some (unsubscribeByContext c m).2
  | OpClearAll => Some (clearAllSubscriptions m).2
  | OpPublish fuel now e => publish handler_body filter_body now fuel e m
  end.

Fixpoint run (ops : list op) (m : Mediator) : option Mediator :=
  match ops with
  | [] => Some m
  | o :: ops' =>
      match step o m with
      | Some m' => run ops' m'
      | None => None
      end
  end.

End Run.

(** ** Handlers that leave the iterated array alone *)

(** Calls that never write into an existing array: the unsubscribing methods
    store filtered copies, and an exception ends the handler. *)
Definition passive_action (a : action) : bool :=
  match a with
  | AUnsubscribe _ | AUnsubscribeByContext _ | AClearAll | AThrow => true
  | ASubscribe _ _ _ | APublish _ => false
  end.

Definition passive (acts : list action) : Prop :=
  Forall (fun a => passive_action a = true) acts.

(** The store only grew, and no handler was called. *)
Definition quiet (m m' : Mediator) : Prop :=
  arrays m `prefix_of` arrays m' /\ invoked m' = invoked m /\
  eventHistory m' = eventHistory m /\ subscriptionCounter m' = subscriptionCounter m.

Definition state_of (c : completion) : Mediator :=
  match c with Normal m | Throws m => m end.

Lemma quiet_refl m : quiet m m.
Proof. by repeat split. Qed.

Lemma quiet_trans m1 m2 m3 : quiet m1 m2 -> quiet m2 m3 -> quiet m1 m3.
Proof.
  intros (?&?&?&?) (?&?&?&?). repeat split; [by etrans|congruence..].
Qed.

Lemma quiet_unsubscribe_scan id entries m :
  quiet m (unsubscribe_scan id entries m).2.
Proof.
  induction entries as [|[t r] entries IH]; simpl; [apply quiet_refl|].
  case_match; [|apply IH]. simpl. repeat split; simpl. by apply prefix_app_r.
Qed.

Lemma quiet_unsubscribe id m : quiet m (unsubscribe id m).2.
Proof.
  unfold unsubscribe. case_match; [apply quiet_unsubscribe_scan|apply quiet_refl].
Qed.

Lemma quiet_unsubscribeByContext_scan c entries n m :
  quiet m (unsubscribeByContext_scan c entries n m).2.
Proof.
  revert n m. induction entries as [|[t r] entries IH]; intros n m; simpl;
    [apply quiet_refl|].
  case_match; [|apply IH].
  eapply quiet_trans; [|apply IH]. repeat split; simpl. by apply prefix_app_r.
Qed.

Lemma quiet_unsubscribeByContext c m : quiet m (unsubscribeByContext c m).2.
Proof.
  unfold unsubscribeByContext.
  case_match; [apply quiet_unsubscribeByContext_scan|apply quiet_refl].
Qed.

Lemma quiet_clearAllSubscriptions m : quiet m (clearAllSubscriptions m).2.
Proof. by repeat split. Qed.

Lemma quiet_log_error m : quiet m (log_error m).
Proof. by repeat split. Qed.

Lemma quiet_array_at r a m m' :
  quiet m m' -> arrays m !! r = Some a -> arrays m' !! r = Some a.
Proof. intros [Hp _] Hr. by eapply prefix_lookup_Some. Qed.

Section Passive.
Variable handler_body : nat -> ProtectionEvent -> list action.
Variable filter_body : nat -> ProtectionEvent -> option bool.
Variable publish_rec : ProtectionEvent -> Mediator -> option Mediator.

(** A passive handler always completes, and leaves a quiet trace. *)
Lemma run_actions_passive acts m :
  passive acts ->
  exists c, run_actions publish_rec acts m = Some c /\ quiet m (state_of c).
Proof.
  intros Hp. revert m. induction Hp as [|a acts Ha _ IH]; intros m; simpl.
  - eexists. split; [done|apply quiet_refl].
  - destruct a; try discriminate Ha.
    + destruct (IH (unsubscribe subscriptionId m).2) as (c & -> & Hq).
      eexists. split; [done|]. eapply quiet_trans; [apply quiet_unsubscribe|done].
    + destruct (IH (unsubscribeByContext context m).2) as (c & -> & Hq).
      eexists. split; [done|].
      eapply quiet_trans; [apply quiet_unsubscribeByContext|done].
    + destruct (IH (clearAllSubscriptions m).2) as (c & Hc & Hq).
      simpl in Hc |- *. rewrite Hc.
      eexists. split; [done|].
      eapply quiet_trans; [apply quiet_clearAllSubscriptions|done].
    + eexists. split; [done|apply quiet_refl].
Qed.

(** Whether the filter of a subscription lets the event through. *)
Definition accepts (e : ProtectionEvent) (s : Subscription) : bool :=
  match sub_filter s with
  | None => true
  | Some f =>
      match filter_body f e with
      | Some true => true
      | Some false | None => false
      end
  end.

(** The handler calls one [publish] of [e] owes to the array [subs]. *)
Definition deliveries (e : ProtectionEvent) (subs : list Subscription)
    : list (Subscription * ProtectionEvent) :=
  map (fun s => (s, e)) (filter (fun s => accepts e s = true) subs).

Lemma dispatch_one_passive e s m :
  passive (handler_body (sub_handler s) e) ->
  exists m', dispatch_one handler_body filter_body publish_rec e s m = Some m' /\
    arrays m `prefix_of` arrays m' /\
    invoked m' = invoked m ++ deliveries e [s] /\
    eventHistory m' = eventHistory m /\
    subscriptionCounter m' = subscriptionCounter m.
Proof.
  intros Hp. unfold dispatch_one, deliveries, accepts.
  destruct (run_actions_passive _ (record_call s e m) Hp) as (c & Hc & Hq).
  rewrite Hc. clear Hc.
  assert (exists m', match c with Normal m' => Some m' | Throws m' => Some (log_error m') end = Some m' /\
     arrays m `prefix_of` arrays m' /\ invoked m' = invoked m ++ [(s, e)] /\
     eventHistory m' = eventHistory m /\ subscriptionCounter m' = subscriptionCounter m)
    as (m' & Hm' & Hcall).
  { destruct Hq as (?&?&?&?). destruct c; eexists; (split; [done|]); by repeat split. }
  rewrite filter_cons, filter_nil.
  destruct (sub_filter s) as [f|]; [destruct (filter_body f e) as [[]|]|];
    rewrite ?decide_True, ?decide_False by done; simpl.
  - by exists m'.
  - exists m. by rewrite app_nil_r.
  - exists (log_error m). by rewrite app_nil_r.
  - by exists m'.
Qed.

(** The loop over an array of passive handlers calls, in the order of the
    array, each handler whose filter accepts the event, whatever the other
    handlers throw. *)
Lemma dispatch_passive e r subs i steps m :
  arrays m !! r = Some subs ->
  Forall (fun s => passive (handler_body (sub_handler s) e)) (drop i subs) ->
  length (drop i subs) < steps ->
  exists m', dispatch handler_body filter_body publish_rec e r steps i m = Some m' /\
    arrays m `prefix_of` arrays m' /\
    invoked m' = invoked m ++ deliveries e (drop i subs) /\
    eventHistory m' = eventHistory m /\
    subscriptionCounter m' = subscriptionCounter m.
Proof.
  revert i m. induction steps as [|steps IH]; intros i m Hr Hp Hlen; [lia|].
  simpl. unfold array_at. rewrite Hr. simpl.
  destruct (subs !! i) as [s|] eqn:Hi.
  - rewrite (drop_S _ _ _ Hi) in Hp, Hlen |- *.
    apply Forall_cons in Hp as [Hs Hp]. simpl in Hlen.
    destruct (dispatch_one_passive e s m Hs) as (m1 & -> & Hpre & Hinv & Hh & Hc).
    destruct (IH (S i) m1) as (m2 & -> & Hpre2 & Hinv2 & Hh2 & Hc2);
      [by eapply prefix_lookup_Some|done|lia|].
    exists m2. split; [done|]. split; [by etrans|].
    split; [|split; congruence].
    rewrite Hinv2, Hinv. unfold deliveries. rewrite <-app_assoc, <-map_app.
    f_equal. f_equal. by rewrite <-filter_app.
  - exists m. rewrite (drop_ge subs i) by by apply lookup_ge_None.
    unfold deliveries. simpl. by rewrite app_nil_r.
Qed.

End Passive.

(** ** The arrays stay in dispatch order *)

Lemma num_or_Some_0 v : Js.num_or (Some v) 0 = v.
Proof. unfold Js.num_or. destruct (Z.eqb_spec v 0); congruence. Qed.

Lemma compare_priority_eq a b :
  compare_priority a b = (sub_priority b - sub_priority a)%Z.
Proof. unfold compare_priority. by rewrite !num_or_Some_0. Qed.

Lemma subscription_id_inj i j : subscription_id i = subscription_id j -> i = j.
Proof.
  unfold subscription_id. intros H. apply (inj (String.app "sub_")) in H.
  by apply (inj pretty) in H.
Qed.

(** [a] was subscribed before [b]: identifiers are numbered by the counter. *)
Definition subscribed_before (a b : Subscription) : Prop :=
  exists i j, sub_id a = subscription_id i /\ sub_id b = subscription_id j /\ i < j.

(** The order of dispatch: higher priority first, and among equal priorities
    the older subscription first. *)
Definition dispatch_before (a b : Subscription) : Prop :=
  (sub_priority b < sub_priority a)%Z \/
  (sub_priority a = sub_priority b /\ subscribed_before a b).

#[local] Instance subscribed_before_trans : Transitive subscribed_before.
Proof.
  intros a b c (i & j & Ha & Hb & Hij) (j' & k & Hb' & Hc & Hjk).
  rewrite Hb in Hb'. apply subscription_id_inj in Hb' as <-.
  exists i, k. repeat split; [done..|lia].
Qed.

#[local] Instance dispatch_before_trans : Transitive dispatch_before.
Proof.
  intros a b c [H1|[H1 S1]] [H2|[H2 S2]].
  - left. lia.
  - left. lia.
  - left. lia.
  - right. split; [congruence|by etrans].
Qed.

(** Every array is in dispatch order, and identifiers are numbered up to the
    counter. *)
Definition numbered (n : nat) (s : Subscription) : Prop :=
  exists k, sub_id s = subscription_id k /\ k <= n.

Definition ordered_upto (n : nat) (m : Mediator) : Prop :=
  Forall (fun a => StronglySorted dispatch_before a /\ Forall (numbered n) a)
    (arrays m).

Definition ordered (m : Mediator) : Prop :=
  ordered_upto (subscriptionCounter m) m.

Lemma ordered_new : ordered new_mediator.
Proof. constructor. Qed.

Lemma ordered_upto_alloc n a m :
  ordered_upto n m -> StronglySorted dispatch_before a ->
  Forall (numbered n) a ->
  ordered_upto n (new_array a m).2.
Proof.
  intros Ho Hs Hn. unfold ordered_upto. simpl. apply Forall_app. split; [done|].
  by repeat constructor.
Qed.

Lemma ordered_upto_array_at n r m :
  ordered_upto n m ->
  StronglySorted dispatch_before (array_at r m) /\
  Forall (numbered n) (array_at r m).
Proof.
  intros Ho. unfold array_at. destruct (arrays m !! r) as [a|] eqn:Hr; simpl.
  - exact (Forall_lookup_1 _ _ _ _ Ho Hr).
  - split; constructor.
Qed.

Lemma ordered_upto_mono n n' m : n <= n' -> ordered_upto n m -> ordered_upto n' m.
Proof.
  intros Hle Ho. eapply Forall_impl; [exact Ho|]. intros a [Hs Hn].
  split; [done|]. eapply Forall_impl; [exact Hn|].
  intros s (k & ? & ?). exists k. split; [done|lia].
Qed.

Lemma Forall_filter {A} (Q P : A -> Prop) `{!forall x, Decision (P x)} (l : list A) :
  Forall Q l -> Forall Q (filter P l).
Proof.
  rewrite !Forall_forall. intros HQ x [_ Hx]%list_elem_of_filter. by apply HQ.
Qed.

Lemma StronglySorted_filter {A} (R : relation A) (P : A -> Prop)
    `{!forall x, Decision (P x)} (l : list A) :
  StronglySorted R l -> StronglySorted R (filter P l).
Proof.
  induction 1 as [|x l Hl IH Hx]; [constructor|].
  rewrite filter_cons. case_decide; [|done].
  constructor; [done|]. by apply Forall_filter.
Qed.

Lemma ordered_subscribe t h o m : ordered m -> ordered (subscribe t h o m).2.
Proof.
  unfold ordered. intros Ho. unfold subscribe. destruct h as [h|]; [|done].
  set (c := subscriptionCounter m) in *.
  set (x := Build_Subscription _ _ _ _ _ _).
  set (m1 := with_counter (S c) m).
  assert (ordered_upto c m1) as Ho1 by done.
  assert (subscriptionCounter m1 = S c) as Hc1 by done.
  clearbody m1.
  set (m2 := if Js.mhas t (subscriptions m1) then m1 else _).
  assert (ordered_upto c m2 /\ subscriptionCounter m2 = S c) as [Ho2 Hc2].
  { subst m2. destruct (Js.mhas t (subscriptions m1)); [done|].
    simpl. split; [|done]. apply (ordered_upto_alloc c [] m1 Ho1); constructor. }
  clearbody m2. destruct (Js.mget t (subscriptions m2)) as [r|]; simpl;
    [|rewrite Hc2; eapply ordered_upto_mono; [|done]; lia].
  rewrite Hc2. unfold ordered_upto. simpl.
  destruct (ordered_upto_array_at c r m2 Ho2) as [Hs Hn].
  apply (ordered_upto_mono c (S c)) in Ho2; [|lia].
  destruct (arrays m2 !! r) as [a|] eqn:Hr.
  2:{ rewrite list_insert_ge; [done|]. by apply lookup_ge_None. }
  apply Forall_insert; [done|].
  rewrite Js.sort_snoc.
  rewrite (Js.sort_sorted_id compare_priority dispatch_before); [|..|done].
  2:{ intros y z. rewrite compare_priority_eq. intros [?|[? _]]; lia. }
  split.
  - apply Js.sort_insert_sorted; [apply _|done|].
    eapply Forall_impl; [exact Hn|].
    intros y (k & Hk & Hle). rewrite compare_priority_eq. split; intros Hcmp.
    + destruct (decide (sub_priority x < sub_priority y)%Z); [by left|].
      right. split; [lia|]. exists k, (S c). split; [done|]. split; [done|lia].
    + left. lia.
  - rewrite Js.sort_insert_perm. constructor.
    + exists (S c). split; [done|lia].
    + eapply Forall_impl; [exact Hn|].
      intros s (k & ? & ?). exists k. split; [done|lia].
Qed.

Lemma ordered_unsubscribe_scan n id entries m :
  ordered_upto n m -> ordered_upto n (unsubscribe_scan id entries m).2.
Proof.
  intros Ho. induction entries as [|[t r] entries IH]; simpl; [done|].
  case_match; [|done]. simpl.
  destruct (ordered_upto_array_at n r m Ho) as [Hs Hn].
  apply (ordered_upto_alloc n _ m Ho).
  - by apply StronglySorted_filter.
  - by apply Forall_filter.
Qed.

Lemma unsubscribe_scan_counter id entries m :
  subscriptionCounter (unsubscribe_scan id entries m).2 = subscriptionCounter m.
Proof.
  induction entries as [|[t r] entries IH]; simpl; [done|]. by case_match.
Qed.

Lemma ordered_unsubscribe id m : ordered m -> ordered (unsubscribe id m).2.
Proof.
  unfold ordered, unsubscribe. case_match; [|done].
  rewrite unsubscribe_scan_counter. apply ordered_unsubscribe_scan.
Qed.

Lemma ordered_unsubscribeByContext_scan k c entries n m :
  ordered_upto k m -> ordered_upto k (unsubscribeByContext_scan c entries n m).2.
Proof.
  revert n m. induction entries as [|[t r] entries IH]; intros n m Ho; simpl; [done|].
  case_match; [|by apply IH]. apply IH.
  destruct (ordered_upto_array_at k r m Ho) as [Hs Hn].
  apply (ordered_upto_alloc k _ m Ho).
  - by apply StronglySorted_filter.
  - by apply Forall_filter.
Qed.

Lemma unsubscribeByContext_scan_counter c entries n m :
  subscriptionCounter (unsubscribeByContext_scan c entries n m).2 = subscriptionCounter m.
Proof.
  revert n m. induction entries as [|[t r] entries IH]; intros n m; simpl; [done|].
  case_match; [|done]. by rewrite IH.
Qed.

Lemma ordered_unsubscribeByContext c m :
  ordered m -> ordered (unsubscribeByContext c m).2.
Proof.
  unfold ordered, unsubscribeByContext. case_match; [|done].
  rewrite unsubscribeByContext_scan_counter.
  apply ordered_unsubscribeByContext_scan.
Qed.

(** ** Properties kept by every run of [publish] *)

Section Preserve.
Variable handler_body : nat -> ProtectionEvent -> list action.
Variable filter_body : nat -> ProtectionEvent -> option bool.
Variable P : Mediator -> Prop.
Hypothesis P_subscribe : forall t h o m, P m -> P (subscribe t h o m).2.
Hypothesis P_unsubscribe : forall id m, P m -> P (unsubscribe id m).2.
Hypothesis P_unsubscribeByContext : forall c m, P m -> P (unsubscribeByContext c m).2.
Hypothesis P_clear : forall m, P m -> P (clearAllSubscriptions m).2.
Hypothesis P_log_error : forall m, P m -> P (log_error m).
Hypothesis P_record_call : forall s e m, P m -> P (record_call s e m).
Hypothesis P_history : forall e m, P m -> P (addToEventHistory e m).

Section Body.
Variable publish_rec : ProtectionEvent -> Mediator -> option Mediator.
Hypothesis P_rec : forall e m m', P m -> publish_rec e m = Some m' -> P m'.

Lemma run_actions_preserves acts m c :
  P m -> run_actions publish_rec acts m = Some c -> P (state_of c).
Proof.
  revert m. induction acts as [|a acts IH]; intros m Hm; simpl.
  - by intros [= <-].
  - destruct a as [t h o|id|ctx| |e|]; try (apply IH; auto; fail).
    + apply IH, (P_clear m Hm).
    + destruct (publish_rec e m) as [m1|] eqn:Hrec; [|done].
      apply IH. by eapply P_rec.
    + by intros [= <-].
Qed.

Lemma dispatch_one_preserves e s m m' :
  P m -> dispatch_one handler_body filter_body publish_rec e s m = Some m' -> P m'.
Proof.
  intros Hm. unfold dispatch_one.
  assert (forall m1,
    match run_actions publish_rec (handler_body (sub_handler s) e) (record_call s e m) with
    | Some (Normal m') => Some m'
    | Some (Throws m') => Some (log_error m')
    | None => None
    end = Some m1 -> P m1) as Hcall.
  { intros m1.
    destruct (run_actions _ _ _) as [c|] eqn:Hrun; [|done].
    apply run_actions_preserves in Hrun; [|by apply P_record_call].
    destruct c; intros [= <-]; auto. }
  destruct (sub_filter s) as [f|]; [|by apply Hcall].
  destruct (filter_body f e) as [[]|]; [by apply Hcall|by intros [= <-]|].
  intros [= <-]. auto.
Qed.

Lemma dispatch_preserves e r steps i m m' :
  P m -> dispatch handler_body filter_body publish_rec e r steps i m = Some m' -> P m'.
Proof.
  revert i m. induction steps as [|steps IH]; intros i m Hm; simpl; [done|].
  destruct (array_at r m !! i) as [s|]; [|by intros [= <-]].
  destruct (dispatch_one _ _ _ e s m) as [m1|] eqn:H1; [|done].
  apply IH. by eapply dispatch_one_preserves.
Qed.

Lemma publish_body_preserves now steps e m m' :
  P m -> publish_body handler_body filter_body now publish_rec steps e m = Some m' -> P m'.
Proof.
  intros Hm. unfold publish_body.
  destruct (ev_type e) as [t|]; [|intros [= <-]; auto].
  destruct (Js.mget t _) as [r|]; [|intros [= <-]; auto].
  case_match; [intros [= <-]; auto|].
  apply dispatch_preserves. auto.
Qed.

End Body.

Lemma publish_preserves now fuel e m m' :
  P m -> publish handler_body filter_body now fuel e m = Some m' -> P m'.
Proof.
  revert e m m'. induction fuel as [|fuel IH]; intros e m m' Hm; simpl; [done|].
  apply publish_body_preserves; [|done]. intros e1 m1 m1' H1. by apply IH.
Qed.

Lemma run_preserves ops m m' :
  P m -> run handler_body filter_body ops m = Some m' -> P m'.
Proof.
  revert m. induction ops as [|o ops IH]; intros m Hm; simpl; [by intros [= <-]|].
  destruct (step _ _ o m) as [m1|] eqn:Hs; [|done].
  apply IH. destruct o as [t h o|id|ctx| |fuel now e]; simpl in Hs.
  - injection Hs as <-. auto.
  - injection Hs as <-. auto.
  - injection Hs as <-. auto.
  - injection Hs as <-. apply (P_clear m Hm).
  - by eapply publish_preserves.
Qed.

End Preserve.

(** Every state that calls of the public methods reach from a new mediator
    has its arrays in dispatch order. *)
Lemma run_ordered handler_body filter_body ops m :
  run handler_body filter_body ops new_mediator = Some m -> ordered m.
Proof.
  apply (run_preserves handler_body filter_body ordered);
    auto using ordered_subscribe, ordered_unsubscribe,
      ordered_unsubscribeByContext, ordered_new.
Qed.

Lemma ordered_subscriptions_of t m :
  ordered m -> StronglySorted dispatch_before (subscriptions_of t m).
Proof.
  intros Ho. unfold subscriptions_of. destruct (Js.mget t _) as [r|]; [|constructor].
  apply (ordered_upto_array_at _ r m Ho).
Qed.

Section Publish.
Variable handler_body : nat -> ProtectionEvent -> list action.
Variable filter_body : nat -> ProtectionEvent -> option bool.

(** [publish] with passive handlers: it returns, and it has called exactly
    the accepted subscriptions of the event's type, in the order of the
    array. *)
Lemma publish_passive now fuel e t m :
  ev_type e = Some t ->
  Forall (fun s => passive (handler_body (sub_handler s) (backfill now e)))
    (subscriptions_of t m) ->
  length (subscriptions_of t m) + 2 <= fuel ->
  exists m', publish handler_body filter_body now fuel e m = Some m' /\
    invoked m' = invoked m ++ deliveries filter_body (backfill now e) (subscriptions_of t m).
Proof.
  intros Ht Hp Hfuel. destruct fuel as [|fuel]; [lia|]. simpl.
  unfold publish_body. rewrite Ht.
  set (e' := backfill now e) in *. set (m1 := addToEventHistory e' m).
  assert (subscriptions_of t m1 = subscriptions_of t m) as Hsubs by done.
  assert (invoked m1 = invoked m) as Hinv by done.
  rewrite <-Hsubs in Hp, Hfuel |- *. rewrite <-Hinv. clearbody m1.
  unfold subscriptions_of in *.
  destruct (Js.mget t (subscriptions m1)) as [r|].
  - unfold array_at in *. destruct (arrays m1 !! r) as [subs|] eqn:Hr; simpl in *.
    + destruct (Nat.eqb_spec (length subs) 0) as [H0|H0].
      * apply nil_length_inv in H0 as ->. exists m1. by rewrite app_nil_r.
      * destruct (dispatch_passive handler_body filter_body
          (publish handler_body filter_body now fuel) e' r subs 0 fuel m1)
          as (m' & Hd & _ & Hi & _); [done|done|rewrite drop_0; lia|].
        exists m'. by rewrite drop_0 in Hi.
    + exists m1. by rewrite app_nil_r.
  - exists m1. by rewrite app_nil_r.
Qed.

End Publish.

(** ** Handlers that publish and unsubscribe, but never subscribe *)

Section Tame.
Variable handler_body : nat -> ProtectionEvent -> list action.
Variable filter_body : nat -> ProtectionEvent -> option bool.
(** A bound on the nesting of [publish]: handlers of an event only publish
    events of types of lower rank. *)
Variable rank : ProtectionEventType -> nat.

Definition event_rank (e : ProtectionEvent) : nat :=
  match ev_type e with
  | Some t => S (rank t)
  | None => 0
  end.

(** A call a handler may make while it handles [e]. *)
Definition tame_action (e : ProtectionEvent) (a : action) : Prop :=
  match a with
  | ASubscribe _ _ _ => False
  | APublish e' => event_rank e' < event_rank e
  | AUnsubscribe _ | AUnsubscribeByContext _ | AClearAll | AThrow => True
  end.

Definition tame_subscription (s : Subscription) : Prop :=
  forall e, Forall (tame_action e) (handler_body (sub_handler s) e).

(** Every array of the store holds at most [L] subscriptions, all tame. *)
Definition tame_store (L : nat) (m : Mediator) : Prop :=
  Forall (fun a => length a <= L /\ Forall tame_subscription a) (arrays m).

(** The calls [new] were added to the trace, all for events of rank at most
    [k], and the store only grew. *)
Definition extends (L k : nat) (m m' : Mediator)
    (new : list (Subscription * ProtectionEvent)) : Prop :=
  arrays m `prefix_of` arrays m' /\ tame_store L m' /\
  invoked m' = invoked m ++ new /\
  Forall (fun c => event_rank c.2 <= k) new.

Lemma extends_refl L k m : tame_store L m -> extends L k m m [].
Proof. intros Ht. split; [done|]. split; [done|]. by rewrite app_nil_r. Qed.

Lemma extends_trans L k m1 m2 m3 new1 new2 :
  extends L k m1 m2 new1 -> extends L k m2 m3 new2 ->
  extends L k m1 m3 (new1 ++ new2).
Proof.
  intros (Hp1 & _ & Hi1 & Hr1) (Hp2 & Ht2 & Hi2 & Hr2).
  split; [by etrans|]. split; [done|].
  split; [by rewrite Hi2, Hi1, app_assoc|by apply Forall_app].
Qed.

Lemma extends_mono L k k' m m' new :
  k <= k' -> extends L k m m' new -> extends L k' m m' new.
Proof.
  intros Hk (Hp & Ht & Hi & Hr). repeat (split; [done|]).
  eapply Forall_impl; [exact Hr|]. simpl. intros c Hc. lia.
Qed.

Lemma tame_store_array_at L r m :
  tame_store L m ->
  length (array_at r m) <= L /\ Forall tame_subscription (array_at r m).
Proof.
  intros Ht. unfold array_at. destruct (arrays m !! r) as [a|] eqn:Hr; simpl.
  - exact (Forall_lookup_1 _ _ _ _ Ht Hr).
  - split; [lia|constructor].
Qed.

Lemma extends_alloc_filter L k (P : Subscription -> Prop)
    `{!forall s, Decision (P s)} r t m :
  tame_store L m ->
  extends L k m
    (with_subscriptions
       (Js.mset t (new_array (filter P (array_at r m)) m).1
          (subscriptions (new_array (filter P (array_at r m)) m).2))
       (new_array (filter P (array_at r m)) m).2) [].
Proof.
  intros Ht. destruct (tame_store_array_at L r m Ht) as [Hl Hs].
  split; [by apply prefix_app_r|]. split; [|split; [by rewrite app_nil_r|constructor]].
  unfold tame_store. simpl. apply Forall_app. split; [done|].
  constructor; [|constructor]. split.
  - etrans; [apply length_filter|done].
  - by apply Forall_filter.
Qed.

Lemma extends_unsubscribe_scan L k id entries m :
  tame_store L m -> extends L k m (unsubscribe_scan id entries m).2 [].
Proof.
  intros Ht. induction entries as [|[t r] entries IH]; simpl;
    [by apply extends_refl|].
  case_match; [|done]. by apply extends_alloc_filter.
Qed.

Lemma extends_unsubscribe L k id m :
  tame_store L m -> extends L k m (unsubscribe id m).2 [].
Proof.
  intros Ht. unfold unsubscribe.
  case_match; [by apply extends_unsubscribe_scan|by apply extends_refl].
Qed.

Lemma extends_unsubscribeByContext_scan L k c entries n m :
  tame_store L m -> extends L k m (unsubscribeByContext_scan c entries n m).2 [].
Proof.
  revert n m. induction entries as [|[t r] entries IH]; intros n m Ht; simpl;
    [by apply extends_refl|].
  case_match; [|by apply IH].
  pose proof (extends_alloc_filter L k
    (fun s => sub_context s ≠ Some c) r t m Ht) as He.
  exact (extends_trans L k _ _ _ [] [] He (IH _ _ (proj1 (proj2 He)))).
Qed.

Lemma extends_unsubscribeByContext L k c m :
  tame_store L m -> extends L k m (unsubscribeByContext c m).2 [].
Proof.
  intros Ht. unfold unsubscribeByContext.
  case_match; [by apply extends_unsubscribeByContext_scan|by apply extends_refl].
Qed.

Section Body.
Variable L : nat.
Variable now : Z.
Variable fuel : nat.
(** Nested runs of [publish] with the remaining fuel behave. *)
Hypothesis publish_fuel :
  forall e m, tame_store L m -> L + event_rank e + 1 <= fuel ->
    exists m' new, publish handler_body filter_body now fuel e m = Some m' /\
      extends L (event_rank e) m m' new.

Lemma run_actions_tame e acts m :
  Forall (tame_action e) acts -> tame_store L m ->
  L + event_rank e <= fuel ->
  exists c new,
    run_actions (publish handler_body filter_body now fuel) acts m = Some c /\
    extends L (event_rank e - 1) m (state_of c) new /\
    Forall (fun c => event_rank c.2 < event_rank e) new.
Proof.
  intros Hacts. revert m. induction Hacts as [|a acts Ha _ IH]; intros m Ht Hf.
  - exists (Normal m), []. split; [done|]. split; [by apply extends_refl|constructor].
  - assert (forall m1, extends L (event_rank e - 1) m m1 [] ->
      exists c new,
        run_actions (publish handler_body filter_body now fuel) acts m1 = Some c /\
        extends L (event_rank e - 1) m (state_of c) new /\
        Forall (fun c => event_rank c.2 < event_rank e) new) as Hstep.
    { intros m1 He1. destruct (IH m1) as (c & new & Hrun & He & Hr);
        [apply He1|done|].
      exists c, new. split; [done|]. split; [|done].
      by apply (extends_trans _ _ m m1 (state_of c) [] new). }
    destruct a as [t h o|id|ctx| |e'|]; simpl in *.
    + done.
    + by apply Hstep, extends_unsubscribe.
    + by apply Hstep, extends_unsubscribeByContext.
    + apply Hstep. split; [done|]. split; [done|].
      split; [by rewrite app_nil_r|constructor].
    + destruct (publish_fuel e' m Ht) as (m1 & new1 & -> & He1); [lia|].
      destruct (IH m1) as (c & new & Hrun & He & Hr); [apply He1|done|].
      exists c, (new1 ++ new). split; [done|]. split.
      * eapply extends_trans; [|done]. eapply extends_mono; [|done]. lia.
      * apply Forall_app. split; [|done]. destruct He1 as (_ & _ & _ & Hr1).
        eapply Forall_impl; [exact Hr1|]. simpl. intros c1 Hc1. lia.
    + exists (Throws m), []. split; [done|].
      split; [by apply extends_refl|constructor].
Qed.

(** The calls of one turn of the loop: the subscription itself when its
    filter accepts, then what its handler made happen. *)
Lemma dispatch_one_tame e s m :
  tame_subscription s -> tame_store L m -> L + event_rank e <= fuel ->
  exists m' nested,
    dispatch_one handler_body filter_body
      (publish handler_body filter_body now fuel) e s m = Some m' /\
    extends L (event_rank e) m m' (deliveries filter_body e [s] ++ nested) /\
    (accepts filter_body e s = false -> nested = []) /\
    Forall (fun c => event_rank c.2 < event_rank e) nested.
Proof.
  intros Hs Ht Hf. unfold dispatch_one.
  assert (tame_store L (record_call s e m)) as Ht' by done.
  destruct (run_actions_tame e _ (record_call s e m) (Hs e) Ht' Hf)
    as (c & nested & -> & (Hp & Ht2 & Hi & Hr) & Hlt).
  assert (exists m',
    match c with Normal m' => Some m' | Throws m' => Some (log_error m') end = Some m' /\
    extends L (event_rank e) m m' ([(s, e)] ++ nested)) as (m1 & Hm1 & He1).
  { assert (Forall (fun c => event_rank c.2 <= event_rank e) ([(s, e)] ++ nested)).
    { apply Forall_app. split; [by repeat constructor|].
      eapply Forall_impl; [exact Hlt|]. simpl. intros ? ?. lia. }
    simpl in Hi. rewrite <-app_assoc in Hi.
    destruct c; eexists; (split; [done|]); by repeat split. }
  unfold deliveries, accepts. rewrite filter_cons, filter_nil.
  destruct (sub_filter s) as [f|]; [destruct (filter_body f e) as [[]|]|];
    rewrite ?decide_True, ?decide_False by done; simpl.
  - exists m1, nested. by rewrite Hm1.
  - exists m, []. split; [done|]. split; [by apply extends_refl|]. split; [done|constructor].
  - exists (log_error m), []. split; [done|].
    split; [by apply (extends_refl L _ (log_error m))|]. split; [done|constructor].
  - exists m1, nested. by rewrite Hm1.
Qed.

(** The calls for events of the rank of [e]: those of the loop itself. *)
Definition own (e : ProtectionEvent) (new : list (Subscription * ProtectionEvent))
    : list (Subscription * ProtectionEvent) :=
  filter (fun c => event_rank e <= event_rank c.2) new.

Lemma own_nested e nested :
  Forall (fun c => event_rank c.2 < event_rank e) nested -> own e nested = [].
Proof.
  intros Hn. apply Js.filter_none. eapply Forall_impl; [exact Hn|].
  simpl. intros c Hc. lia.
Qed.

Lemma own_deliveries e subs : own e (deliveries filter_body e subs) = deliveries filter_body e subs.
Proof.
  unfold own, deliveries. induction (filter _ subs) as [|s l IH]; [done|].
  simpl. rewrite filter_cons_True by (simpl; lia). by rewrite IH.
Qed.

Lemma dispatch_tame e r subs i steps m :
  arrays m !! r = Some subs -> tame_store L m ->
  L + event_rank e <= fuel ->
  length (drop i subs) < steps ->
  exists m' new,
    dispatch handler_body filter_body
      (publish handler_body filter_body now fuel) e r steps i m = Some m' /\
    extends L (event_rank e) m m' new /\
    own e new = deliveries filter_body e (drop i subs).
Proof.
  revert i m. induction steps as [|steps IH]; intros i m Hr Ht Hf Hlen; [lia|].
  simpl. unfold array_at. rewrite Hr. simpl.
  destruct (subs !! i) as [s|] eqn:Hi.
  - rewrite (drop_S _ _ _ Hi) in Hlen |- *. simpl in Hlen.
    assert (tame_subscription s) as Hs.
    { pose proof (Forall_lookup_1 _ _ _ _ Ht Hr) as [_ Hall].
      exact (Forall_lookup_1 _ _ _ _ Hall Hi). }
    destruct (dispatch_one_tame e s m Hs Ht Hf) as (m1 & nested & -> & He1 & _ & Hn).
    destruct (IH (S i) m1) as (m2 & new2 & -> & He2 & Hown);
      [eapply prefix_lookup_Some; [done|apply He1]|apply He1|done|lia|].
    exists m2, ((deliveries filter_body e [s] ++ nested) ++ new2).
    split; [done|]. split; [by eapply extends_trans|].
    unfold own in *. rewrite !filter_app. fold (own e nested).
    rewrite (own_nested e nested Hn), app_nil_r, Hown.
    fold (own e (deliveries filter_body e [s])). rewrite own_deliveries.
    unfold deliveries. rewrite <-map_app. f_equal.
    by rewrite <-filter_app.
  - exists m, []. rewrite (drop_ge subs i) by by apply lookup_ge_None.
    split; [done|]. split; [by apply extends_refl|done].
Qed.

End Body.

(** [publish] with tame handlers returns, given fuel for the longest array
    and the rank of the event, and the calls it makes for events of the rank
    of [e] are the deliveries of its own loop. *)
Lemma publish_tame L now fuel e m :
  tame_store L m -> L + event_rank e + 1 <= fuel ->
  exists m' new, publish handler_body filter_body now fuel e m = Some m' /\
    extends L (event_rank e) m m' new /\
    own e new
    = match ev_type e with
      | Some t => deliveries filter_body (backfill now e) (subscriptions_of t m)
      | None => []
      end.
Proof.
  revert e m. induction fuel as [|f IH]; intros e m Ht Hf; [lia|].
  simpl. unfold publish_body.
  destruct (ev_type e) as [t|] eqn:Hty.
  2:{ exists (log_error m), []. split; [done|].
      split; [by apply (extends_refl L _ (log_error m))|done]. }
  set (e' := backfill now e).
  assert (event_rank e' = event_rank e) as Hrank.
  { unfold event_rank, e', backfill. destruct (ev_timestamp e) as [ts|]; [|done].
    by destruct (ts =? 0)%Z. }
  assert (own e = own e') as Hown.
  { unfold own. by rewrite Hrank. }
  assert (event_rank e = S (rank t)) as Hk by (unfold event_rank; by rewrite Hty).
  set (m1 := addToEventHistory e' m).
  assert (tame_store L m1) as Ht1 by done.
  assert (extends L (event_rank e) m m1 []) as He1.
  { split; [done|]. split; [done|]. split; [by rewrite app_nil_r|constructor]. }
  assert (subscriptions_of t m = subscriptions_of t m1) as -> by done.
  unfold subscriptions_of. clearbody m1.
  destruct (Js.mget t (subscriptions m1)) as [r|]; [|by exists m1, []].
  unfold array_at. destruct (arrays m1 !! r) as [subs|] eqn:Hr; simpl;
    [|by exists m1, []].
  destruct (Nat.eqb_spec (length subs) 0) as [H0|H0].
  { apply nil_length_inv in H0 as ->. by exists m1, []. }
  pose proof (Forall_lookup_1 _ _ _ _ Ht1 Hr) as [Hlen _].
  assert (forall e2 m2, tame_store L m2 -> L + event_rank e2 + 1 <= f ->
    exists m' new, publish handler_body filter_body now f e2 m2 = Some m' /\
      extends L (event_rank e2) m2 m' new) as Hnested.
  { intros e2 m2 Ht2 Hf2. destruct (IH e2 m2 Ht2 Hf2) as (m' & new & H1 & H2 & _).
    by exists m', new. }
  destruct (dispatch_tame L now f Hnested e' r subs 0 f m1 Hr Ht1)
    as (m2 & new & Hd & He2 & Hown2); [lia|rewrite drop_0; lia|].
  exists m2, new. split; [done|]. rewrite drop_0 in Hown2.
  split; [|by rewrite Hown].
  rewrite Hrank in He2.
  by apply (extends_trans L _ m m1 m2 [] new).
Qed.

End Tame.

(** [publish] with tame handlers, for an event of type [t]. *)
Lemma publish_tame_deliveries
    (handler_body : nat -> ProtectionEvent -> list action)
    (filter_body : nat -> ProtectionEvent -> option bool)
    (rank : ProtectionEventType -> nat) (L : nat)
    (now : Z) (fuel : nat) (e : ProtectionEvent) (t : ProtectionEventType)
    (m : Mediator) :
  ev_type e = Some t ->
  tame_store handler_body rank L m ->
  L + rank t + 2 <= fuel ->
  exists m' new,
    publish handler_body filter_body now fuel e m = Some m' /\
    invoked m' = invoked m ++ new /\
    own rank (backfill now e) new
      = deliveries filter_body (backfill now e) (subscriptions_of t m).
Proof.
  intros Ht Htame Hfuel.
  destruct (publish_tame handler_body filter_body rank L now fuel e m Htame)
    as (m' & new & Hpub & (_ & _ & Hinv & _) & Hown).
  { unfold event_rank. rewrite Ht. lia. }
  rewrite Ht in Hown.
  assert (own rank (backfill now e) new = own rank e new) as Hown'.
  { unfold own, event_rank, backfill. destruct (ev_timestamp e) as [ts|]; [|done].
    by destruct (ts =? 0)%Z. }
  exists m', new. split; [done|]. split; [done|]. by rewrite Hown'.
Qed.

(** ** Examples used below: two subscribers of [OVERLAY_SHOWN] *)

Definition example_event : ProtectionEvent :=
  {| ev_type := Some OVERLAY_SHOWN; ev_source := "test";
     ev_timestamp := Some 1%Z; ev_data := None |}.

Definition example_options (p : Z) : option SubscriptionOptions :=
  Some {| so_filter := None; so_priority := Some p; so_context := None |}.

(** Subscriber A (handler 0, priority 10), then subscriber B (handler 1,
    priority 5). *)
Definition example_ops : list op :=
  [OpSubscribe OVERLAY_SHOWN (Some 0) (example_options 10);
   OpSubscribe OVERLAY_SHOWN (Some 1) (example_options 5)].

Definition example_mediator : Mediator :=
  (subscribe OVERLAY_SHOWN (Some 1) (example_options 5)
     (subscribe OVERLAY_SHOWN (Some 0) (example_options 10) new_mediator).2).2.

(** Handler 0 throws; the others return. *)
Definition throwing_handlers (h : nat) (_ : ProtectionEvent) : list action :=
  match h with 0 => [AThrow] | _ => [] end.

(** Handler 0 unsubscribes B; the others return. *)
Definition unsubscribing_handlers (h : nat) (_ : ProtectionEvent) : list action :=
  match h with 0 => [AUnsubscribe "sub_2"] | _ => [] end.

(** Handler 0 subscribes handler 2 to the same type, with priority 1. *)
Definition subscribing_handlers (h : nat) (_ : ProtectionEvent) : list action :=
  match h with
  | 0 => [ASubscribe OVERLAY_SHOWN (Some 2) (example_options 1)]
  | _ => []
  end.

Definition no_filters (_ : nat) (_ : ProtectionEvent) : option bool := Some true.

(** Handler 0 answers an [OVERLAY_SHOWN] event by publishing a
    [CONTENT_HIDDEN] event and then throwing; the others return. *)
Definition hidden_event : ProtectionEvent :=
  {| ev_type := Some CONTENT_HIDDEN; ev_source := "handler";
     ev_timestamp := Some 2%Z; ev_data := None |}.

Definition publishing_handlers (h : nat) (e : ProtectionEvent) : list action :=
  match h, ev_type e with
  | 0, Some OVERLAY_SHOWN => [APublish hidden_event; AThrow]
  | _, _ => []
  end.

Definition example_rank (t : ProtectionEventType) : nat :=
  match t with OVERLAY_SHOWN => 1 | _ => 0 end.

(** The identifiers of the subscriptions whose handlers were called. *)
Definition invoked_ids (m : Mediator) : list string :=
  map (fun c => sub_id c.1) (invoked m).

(** ** Fault isolation *)

Lemma publishing_handlers_tame :
  tame_store publishing_handlers example_rank 2 example_mediator.
Proof.
  repeat constructor; intros e; unfold publishing_handlers; simpl;
    destruct (ev_type e) as [[]|] eqn:Ht; repeat constructor.
  unfold tame_action, event_rank. rewrite Ht. simpl. lia.
Qed.



Example publish_fault_isolation_run :
  (fun m => (invoked_ids m, errors m)) <$>
    publish publishing_handlers no_filters 0 5 example_event example_mediator
  = Some (["sub_1"; "sub_2"], 1).
Proof. vm_compute. reflexivity. Qed.

Example publish_throwing_run :
  (fun m => (invoked_ids m, errors m)) <$>
    publish throwing_handlers no_filters 0 4 example_event example_mediator
  = Some (["sub_1"; "sub_2"], 1).
Proof. vm_compute. reflexivity. Qed.

(** ** Dispatch order *)

(** Equal priorities: the older subscription is called first, and a higher
    priority subscribed last is called first of all. *)
Example publish_dispatch_order_ties :
  invoked_ids <$>
    (run throwing_handlers no_filters
       [OpSubscribe OVERLAY_SHOWN (Some 1) (example_options 5);
        OpSubscribe OVERLAY_SHOWN (Some 2) (example_options 5);
        OpSubscribe OVERLAY_SHOWN (Some 3) None;
        OpSubscribe OVERLAY_SHOWN (Some 4) (example_options 7);
        OpPublish 6 0 example_event] new_mediator)
  = Some ["sub_4"; "sub_1"; "sub_2"; "sub_3"].
Proof. vm_compute. reflexivity. Qed.

(** ** Unsubscribing during a run of [publish] *)

(** The claim of C6 fails: handler A (priority 10) unsubscribes B (priority
    5) while [publish] runs; B is called in that same run all the same, and
    is gone from the subscriptions only afterwards. *)
Lemma unsubscribe_during_publish_not_seen :
  (fun m => (invoked_ids m, map sub_id (subscriptions_of OVERLAY_SHOWN m))) <$>
    publish unsubscribing_handlers no_filters 0 4 example_event example_mediator
  = Some (["sub_1"; "sub_2"], ["sub_1"]).
Proof. vm_compute. reflexivity. Qed.

(** A subscription made by a handler, in contrast, is pushed on the array
    being iterated and is called in the same run. *)
Example subscribe_during_publish_seen :
  invoked_ids <$>
    publish subscribing_handlers no_filters 0 5 example_event example_mediator
  = Some ["sub_1"; "sub_2"; "sub_3"].
Proof. vm_compute. reflexivity. Qed.

End Mediator.

(* ===================================================================== *)
(** * The overlay coordinator ([SecurityOverlayManager]) *)
(* ===================================================================== *)

Module Overlay.

(** [interface StoredOverlay].  The DOM nodes [element] and [blocker] and the
    timer [timeoutId] are kept as "is set" flags. *)
Record StoredOverlay := {
  ov_id : string;
  ov_overlayType : string;
  ov_options : OverlayOptions;
  ov_owner : string;
  ov_priority : Z;
  ov_element : bool;
  ov_blocker : bool;
  ov_timeoutId : bool;
  ov_isVisible : bool;
  ov_createdAt : N;
}.

(** The fields of a [SecurityOverlayManager]: the [Map] of stored overlays in
    insertion order, the active overlay, the waiting queue, the overlay the
    DOM observer watches (one observer at a time), and whether the page-wide
    blocking listeners are installed. *)
Record Manager := {
  overlays : list (string * StoredOverlay);
  activeOverlayId : option string;
  overlayQueue : list string;
  domObserver : option string;
  globalListeners : bool;
}.

Definition new_manager : Manager :=
  {| overlays := []; activeOverlayId := None; overlayQueue := [];
     domObserver := None; globalListeners := false |}.

Definition with_overlays (o : list (string * StoredOverlay)) (m : Manager) : Manager :=
  {| overlays := o; activeOverlayId := activeOverlayId m;
     overlayQueue := overlayQueue m; domObserver := domObserver m;
     globalListeners := globalListeners m |}.

Definition with_active (a : option string) (m : Manager) : Manager :=
  {| overlays := overlays m; activeOverlayId := a;
     overlayQueue := overlayQueue m; domObserver := domObserver m;
     globalListeners := globalListeners m |}.

Definition with_queue (q : list string) (m : Manager) : Manager :=
  {| overlays := overlays m; activeOverlayId := activeOverlayId m;
     overlayQueue := q; domObserver := domObserver m;
     globalListeners := globalListeners m |}.

Definition with_observer (d : option string) (m : Manager) : Manager :=
  {| overlays := overlays m; activeOverlayId := activeOverlayId m;
     overlayQueue := overlayQueue m; domObserver := d;
     globalListeners := globalListeners m |}.

Definition with_listeners (g : bool) (m : Manager) : Manager :=
  {| overlays := overlays m; activeOverlayId := activeOverlayId m;
     overlayQueue := overlayQueue m; domObserver := domObserver m;
     globalListeners := g |}.

(** The assignments of [showOverlayById] to the stored object. *)
Definition shown (o : StoredOverlay) : StoredOverlay :=
  {| ov_id := ov_id o; ov_overlayType := ov_overlayType o;
     ov_options := ov_options o; ov_owner := ov_owner o;
     ov_priority := ov_priority o;
     ov_element := true;
     ov_blocker := Js.truthy (oo_blockEvents (ov_options o));
     ov_timeoutId :=
       match oo_duration (ov_options o) with
       | Some d => (0 <? d)%Z
       | None => false
       end;
     ov_isVisible := true;
     ov_createdAt := ov_createdAt o |}.

(** The assignments of [hideOverlayById] (and of the observer's callback) to
    the stored object. *)
Definition hidden (keep_timer : bool) (o : StoredOverlay) : StoredOverlay :=
  {| ov_id := ov_id o; ov_overlayType := ov_overlayType o;
     ov_options := ov_options o; ov_owner := ov_owner o;
     ov_priority := ov_priority o;
     ov_element := false;
     ov_blocker := false;
     ov_timeoutId := keep_timer && ov_timeoutId o;
     ov_isVisible := false;
     ov_createdAt := ov_createdAt o |}.

(** [`overlay-${owner}-${overlayType}-${Date.now()}`]. *)
Definition overlay_id (owner overlayType : string) (now : N) : string :=
  "overlay-" +:+ owner +:+ "-" +:+ overlayType +:+ "-" +:+ pretty now.

(** [!this.activeOverlayId] is false. *)
Definition has_active (m : Manager) : bool :=
  match activeOverlayId m with
  | Some a => Js.nonempty a
  | None => false
  end.

(** [options.autoRestore !== false]. *)
Definition auto_restores (o : StoredOverlay) : bool :=
  match oo_autoRestore (ov_options o) with
  | Some false => false
  | _ => true
  end.

Section Code.

(** [isBrowser()]: whether [window] and [document] exist. *)
Variable isBrowser : bool.

(** [hasOverlayByOwnerAndType(owner, overlayType)]. *)
Definition hasOverlayByOwnerAndType (owner overlayType : string) (m : Manager) : bool :=
  existsb (fun e => bool_decide (ov_owner e.2 = owner) &&
                    bool_decide (ov_overlayType e.2 = overlayType))
    (overlays m).

(** The comparator of [addToQueue]. *)
Definition compare_queued (m : Manager) (a b : string) : Z :=
  match Js.mget a (overlays m), Js.mget b (overlays m) with
  | Some overlayA, Some overlayB => (ov_priority overlayB - ov_priority overlayA)%Z
  | _, _ => 0%Z
  end.

(** [addToQueue(overlayId)]. *)
Definition addToQueue (overlayId : string) (m : Manager) : Manager :=
  if bool_decide (overlayId ∈ overlayQueue m) then m
  else with_queue (Js.sort (compare_queued m) (overlayQueue m ++ [overlayId])) m.

(** [removeGlobalEventListeners()]. *)
Definition removeGlobalEventListeners (m : Manager) : Manager :=
  if isBrowser then with_listeners false m else m.

(** [showOverlayById(overlayId)].  [createOverlayElements] yields no element
    outside a browser; in a browser it appends the nodes and, when
    [blockEvents] is set, installs the page-wide listeners. *)
Definition showOverlayById (overlayId : string) (m : Manager) : bool * Manager :=
  match Js.mget overlayId (overlays m) with
  | None => (false, m)
  | Some overlay =>
      if negb isBrowser then (false, m)
      else
        let m :=
          if Js.truthy (oo_blockEvents (ov_options overlay))
          then with_listeners true m else m in
        let m := with_overlays (Js.mset overlayId (shown overlay) (overlays m)) m in
        let m := with_active (Some overlayId) m in
        let m :=
          with_queue (filter (fun id => id ≠ overlayId) (overlayQueue m)) m in
        let m :=
          if auto_restores overlay then with_observer (Some overlayId) m else m in
        (true, m)
  end.

(** [hideOverlayById(overlayId, processQueue)]. *)
Definition hideOverlayById (overlayId : string) (processQueue : bool) (m : Manager)
    : bool * Manager :=
  match Js.mget overlayId (overlays m) with
  | None => (false, m)
  | Some overlay =>
      if negb (ov_isVisible overlay) then (false, m)
      else
        let m := with_overlays (Js.mset overlayId (hidden false overlay) (overlays m)) m in
        if bool_decide (activeOverlayId m = Some overlayId) then
          let m := with_active None m in
          let m := removeGlobalEventListeners m in
          if processQueue then
            match overlayQueue m with
            | nextOverlayId :: rest =>
                let m := with_queue rest m in
                if Js.nonempty nextOverlayId
                then (true, (showOverlayById nextOverlayId m).2)
                else (true, m)
            | [] => (true, m)
            end
          else (true, m)
        else (true, m)
  end.

(** [registerOverlay(owner, overlayType, options, priority)], with the value
    of [Date.now()]. *)
Definition registerOverlay (owner overlayType : string) (options : OverlayOptions)
    (priority : Z) (now : N) (m : Manager) : string * Manager :=
  if negb isBrowser then (EmptyString, m)
  else
    let overlayId := overlay_id owner overlayType now in
    let storedOverlay :=
      {| ov_id := overlayId; ov_overlayType := overlayType;
         ov_options := options; ov_owner := owner; ov_priority := priority;
         ov_element := false; ov_blocker := false; ov_timeoutId := false;
         ov_isVisible := false; ov_createdAt := now |} in
    let m := with_overlays (Js.mset overlayId storedOverlay (overlays m)) m in
    if negb (has_active m) then (overlayId, (showOverlayById overlayId m).2)
    else
      let m := addToQueue overlayId m in
      match activeOverlayId m with
      | Some active =>
          match Js.mget active (overlays m), Js.mget overlayId (overlays m) with
          | Some activeOverlay, Some newOverlay =>
              if (ov_priority activeOverlay <? ov_priority newOverlay)%Z then
                let m := (hideOverlayById active false m).2 in
                (overlayId, (showOverlayById overlayId m).2)
              else (overlayId, m)
          | _, _ => (overlayId, m)
          end
      | None => (overlayId, m)
      end.

(** [removeOverlayById(overlayId)]: the observer is stopped first. *)
Definition removeOverlayById (overlayId : string) (m : Manager) : bool * Manager :=
  match Js.mget overlayId (overlays m) with
  | None => (false, m)
  | Some _ =>
      let isActive := bool_decide (activeOverlayId m = Some overlayId) in
      let m := with_observer None m in
      let m := (hideOverlayById overlayId true m).2 in
      let m := if isActive then removeGlobalEventListeners m else m in
      (true, with_overlays (Js.mdelete overlayId (overlays m)) m)
  end.

(** The loop [for (const overlayId of ids) if (removeOverlayById(overlayId)) count++]. *)
Fixpoint remove_each (ids : list string) (removedCount : nat) (m : Manager)
    : nat * Manager :=
  match ids with
  | [] => (removedCount, m)
  | overlayId :: rest =>
      let '(removed, m) := removeOverlayById overlayId m in
      remove_each rest (if removed then S removedCount else removedCount) m
  end.

(** [getOverlaysByOwner(owner)]. *)
Definition getOverlaysByOwner (owner : string) (m : Manager) : list string :=
  Js.mkeys (filter (fun e => ov_owner e.2 = owner) (overlays m)).

(** [getActiveOverlays()]. *)
Definition getActiveOverlays (m : Manager) : list string :=
  Js.mkeys (filter (fun e => ov_isVisible e.2 = true) (overlays m)).

(** [removeOverlaysByOwner(owner)]. *)
Definition removeOverlaysByOwner (owner : string) (m : Manager) : nat * Manager :=
  if negb isBrowser then (0, m)
  else remove_each (getOverlaysByOwner owner m) 0 m.

(** The loop of [checkAndRestoreOverlaysByOwner] over the entries of the map;
    each turn reads the stored object as it is then. *)
Fixpoint restore_each (owner : string) (ids : list string) (restoredCount : nat)
    (m : Manager) : nat * Manager :=
  match ids with
  | [] => (restoredCount, m)
  | overlayId :: rest =>
      match Js.mget overlayId (overlays m) with
      | Some overlay =>
          if bool_decide (ov_owner overlay = owner) && auto_restores overlay
             && negb (ov_isVisible overlay) then
            if has_active m then
              restore_each owner rest restoredCount (addToQueue overlayId m)
            else
              let '(ok, m) := showOverlayById overlayId m in
              restore_each owner rest (if ok then S restoredCount else restoredCount) m
          else restore_each owner rest restoredCount m
      | None => restore_each owner rest restoredCount m
      end
  end.

(** [checkAndRestoreOverlaysByOwner(owner)]. *)
Definition checkAndRestoreOverlaysByOwner (owner : string) (m : Manager) : nat * Manager :=
  if negb isBrowser then (0, m)
  else restore_each owner (Js.mkeys (overlays m)) 0 m.

(** [clearAllOverlays()]. *)
Definition clearAllOverlays (m : Manager) : nat * Manager :=
  if negb isBrowser then (0, m)
  else
    let '(removedCount, m) := remove_each (Js.mkeys (overlays m)) 0 m in
    (removedCount, removeGlobalEventListeners (with_active None (with_queue [] m))).

(** The first stored overlay of an owner and type, in the order of the map. *)
Definition find_owner_type (owner overlayType : string) (m : Manager) : option string :=
  fst <$> find (fun e => bool_decide (ov_owner e.2 = owner) &&
                         bool_decide (ov_overlayType e.2 = overlayType))
            (overlays m).

(** [handleOverlayShown(event)], with the value of [Date.now()]. *)
Definition handleOverlayShown (event : ProtectionEvent) (now : N) (m : Manager) : Manager :=
  if negb (isEventType event OVERLAY_SHOWN) then m
  else
    match ev_data event with
    | Some (OverlayShownData strategyName overlayType (Some options) priority _) =>
        let m :=
          if hasOverlayByOwnerAndType strategyName overlayType m then
            match find_owner_type strategyName overlayType m with
            | Some overlayId => (removeOverlayById overlayId m).2
            | None => m
            end
          else m in
        (registerOverlay strategyName overlayType options (Js.num_or priority 0) now m).2
    | _ => m
    end.

(** [handleOverlayRemoved(event)]. *)
Definition handleOverlayRemoved (event : ProtectionEvent) (m : Manager) : Manager :=
  if negb (isEventType event OVERLAY_REMOVED) then m
  else
    match ev_data event with
    | Some (OverlayRemovedData strategyName _ _) => (removeOverlaysByOwner strategyName m).2
    | _ => m
    end.

(** [handleOverlayRestored(event)]: it reads [data.strategyName] without a
    test of the event's type. *)
Definition handleOverlayRestored (event : ProtectionEvent) (m : Manager) : Manager :=
  match ev_data event with
  | Some (OverlayRestoredData strategyName _ _)
  | Some (OverlayRemovedData strategyName _ _)
  | Some (OverlayShownData strategyName _ _ _ _)
  | Some (ContentHiddenData strategyName _ _ _ _)
  | Some (ContentRestoredData strategyName _)
  | Some (StrategyData strategyName _) =>
      (checkAndRestoreOverlaysByOwner strategyName m).2
  | _ => m
  end.

(** The callback of the DOM observer ([handleElementsRemoved] in
    [setupObserver]): the nodes of the watched overlay left the document. *)
Definition elementsRemoved (m : Manager) : Manager :=
  match domObserver m with
  | None => m
  | Some watched =>
      match Js.mget watched (overlays m) with
      | Some currentOverlay =>
          if auto_restores currentOverlay then
            let m := with_overlays
                       (Js.mset watched (hidden true currentOverlay) (overlays m)) m in
            if bool_decide (activeOverlayId m = Some watched)
            then (showOverlayById watched m).2
            else addToQueue watched m
          else m
      | None => m
      end
  end.

(** What happens to a manager: the calls of its public methods, the events
    it subscribed to, the callback of its observer.  A timer that expires and
    a click on the close button call [removeOverlayById]. *)
Inductive op :=
  | RegisterOverlay (owner overlayType : string) (options : OverlayOptions)
      (priority : Z) (now : N)
  | RemoveOverlayById (overlayId : string)
  | RemoveOverlaysByOwner (owner : string)
  | CheckAndRestoreOverlaysByOwner (owner : string)
  | ClearAllOverlays
  | OverlayShownEvent (event : ProtectionEvent) (now : N)
  | OverlayRemovedEvent (event : ProtectionEvent)
  | OverlayRestoredEvent (event : ProtectionEvent)
  | ElementsRemoved.

Definition step (o : op) (m : Manager) : Manager :=
  match o with
  | RegisterOverlay owner overlayType options priority now =>
      (registerOverlay owner overlayType options priority now m).2
  | RemoveOverlayById overlayId => (removeOverlayById overlayId m).2
  | RemoveOverlaysByOwner owner => (removeOverlaysByOwner owner m).2
  | CheckAndRestoreOverlaysByOwner owner => (checkAndRestoreOverlaysByOwner owner m).2
  | ClearAllOverlays => (clearAllOverlays m).2
  | OverlayShownEvent event now => handleOverlayShown event now m
  | OverlayRemovedEvent event => handleOverlayRemoved event m
  | OverlayRestoredEvent event => handleOverlayRestored event m
  | ElementsRemoved => elementsRemoved m
  end.

Definition run (ops : list op) (m : Manager) : Manager :=
  foldl (fun m o => step o m) m ops.

End Code.

(** ** The invariant of the manager *)

(** A visible stored overlay is the active one. *)
Definition visible_is_active (m : Manager) : Prop :=
  forall id o, Js.mget id (overlays m) = Some o -> ov_isVisible o = true ->
    activeOverlayId m = Some id.

(** A visible stored overlay does not wait in the queue. *)
Definition visible_not_queued (m : Manager) : Prop :=
  forall id o, Js.mget id (overlays m) = Some o -> ov_isVisible o = true ->
    id ∉ overlayQueue m.

(** Stored identifiers are not empty, and the map has each key once. *)
Definition keys_ok (m : Manager) : Prop :=
  (EmptyString ∉ Js.mkeys (overlays m)) /\ NoDup (Js.mkeys (overlays m)).

Definition wf (m : Manager) : Prop :=
  visible_is_active m /\ visible_not_queued m /\ keys_ok m.

(** No stored overlay is visible. *)
Definition none_visible (m : Manager) : Prop :=
  forall id o, Js.mget id (overlays m) = Some o -> ov_isVisible o = false.

Lemma wf_new : wf new_manager.
Proof.
  split; [done|]. split; [done|]. split; [apply not_elem_of_nil|constructor].
Qed.

Lemma none_visible_wf m :
  none_visible m -> keys_ok m -> wf m.
Proof.
  intros Hn Hk. split; [|split; [|done]]; intros id o Hg Hv;
    rewrite (Hn id o Hg) in Hv; discriminate.
Qed.

Lemma overlay_id_nonempty owner overlayType now :
  overlay_id owner overlayType now ≠ EmptyString.
Proof. done. Qed.

Lemma keys_ok_mset id o m :
  id ≠ EmptyString -> keys_ok m -> keys_ok (with_overlays (Js.mset id o (overlays m)) m).
Proof.
  intros Hid [Hne Hnd]. split; simpl; [|by apply Js.NoDup_mkeys_mset].
  destruct (decide (id ∈ Js.mkeys (overlays m))).
  - by rewrite Js.mkeys_mset_in.
  - rewrite Js.mkeys_mset_notin by done. rewrite not_elem_of_app.
    split; [done|]. intros ?%list_elem_of_singleton. congruence.
Qed.

Lemma keys_ok_stored id o m :
  keys_ok m -> Js.mget id (overlays m) = Some o -> id ≠ EmptyString.
Proof.
  intros [Hne _] Hg ->. apply Hne. apply Js.mget_is_Some_keys. eauto.
Qed.

Lemma has_active_false_none_visible m :
  wf m -> has_active m = false -> none_visible m.
Proof.
  intros (Ha & _ & Hk) Hact id o Hg.
  destruct (ov_isVisible o) eqn:Hv; [|done].
  pose proof (Ha id o Hg Hv) as Hid. pose proof (keys_ok_stored id o m Hk Hg).
  unfold has_active in Hact. rewrite Hid in Hact. by destruct id.
Qed.

Section Invariant.
Variable isBrowser : bool.

Lemma removeGlobalEventListeners_fields m :
  overlays (removeGlobalEventListeners isBrowser m) = overlays m /\
  activeOverlayId (removeGlobalEventListeners isBrowser m) = activeOverlayId m /\
  overlayQueue (removeGlobalEventListeners isBrowser m) = overlayQueue m.
Proof. unfold removeGlobalEventListeners. by destruct isBrowser. Qed.

Lemma wf_removeGlobalEventListeners m :
  wf m -> wf (removeGlobalEventListeners isBrowser m).
Proof. unfold removeGlobalEventListeners. by destruct isBrowser. Qed.

(** [showOverlayById] is only called when nothing is visible. *)
Lemma wf_showOverlayById id m :
  none_visible m -> keys_ok m -> wf (showOverlayById isBrowser id m).2.
Proof.
  intros Hn Hk. unfold showOverlayById.
  destruct (Js.mget id (overlays m)) as [o|] eqn:Hg; [|by apply none_visible_wf].
  destruct isBrowser; simpl; [|by apply none_visible_wf].
  assert (id ≠ EmptyString) as Hid by by eapply keys_ok_stored.
  set (m1 := if Js.truthy _ then with_listeners true m else m).
  assert (overlays m1 = overlays m /\ activeOverlayId m1 = activeOverlayId m /\
          overlayQueue m1 = overlayQueue m) as (Ho1 & Ha1 & Hq1).
  { subst m1. by destruct (Js.truthy _). }
  clearbody m1.
  set (m2 := with_queue _ _).
  assert (wf m2) as Hwf2.
  { subst m2. split; [|split].
    - intros id' o'. simpl. rewrite Ho1, Js.mget_mset.
      case_decide as Hd; [by subst|]. intros Hg' Hv'.
      rewrite (Hn id' o' Hg') in Hv'. discriminate.
    - intros id' o'. simpl. rewrite Ho1, Js.mget_mset.
      case_decide as Hd.
      + subst id'. intros _ _ Hc. apply list_elem_of_filter in Hc as [Hc _]. done.
      + intros Hg' Hv'. rewrite (Hn id' o' Hg') in Hv'. discriminate.
    - pose proof (keys_ok_mset id (shown o) m Hid Hk) as Hk'.
      unfold keys_ok in *. simpl in *. by rewrite Ho1. }
  clearbody m2. by destruct (auto_restores o).
Qed.

Lemma wf_hideOverlayById id pq m :
  wf m -> wf (hideOverlayById isBrowser id pq m).2.
Proof.
  intros Hwf. pose proof Hwf as (Ha & Hq & Hk). unfold hideOverlayById.
  destruct (Js.mget id (overlays m)) as [o|] eqn:Hg; [|done].
  destruct (ov_isVisible o) eqn:Hv; simpl; [|done].
  assert (id ≠ EmptyString) as Hid by by eapply keys_ok_stored.
  pose proof (Ha id o Hg Hv) as Hact.
  rewrite bool_decide_true by done.
  set (m1 := with_overlays _ m).
  assert (none_visible m1) as Hn1.
  { intros id' o'. subst m1. simpl. rewrite Js.mget_mset.
    case_decide as Hd; [by intros [= <-]|]. intros Hg'.
    destruct (ov_isVisible o') eqn:Hv'; [|done].
    pose proof (Ha id' o' Hg' Hv'). congruence. }
  assert (keys_ok m1) as Hk1 by by apply keys_ok_mset.
  clearbody m1.
  set (m2 := removeGlobalEventListeners isBrowser (with_active None m1)).
  assert (none_visible m2 /\ keys_ok m2) as [Hn2 Hk2].
  { subst m2. unfold removeGlobalEventListeners. by destruct isBrowser. }
  clearbody m2.
  destruct pq; [|by apply none_visible_wf].
  destruct (overlayQueue m2) as [|next rest] eqn:Hq2; [by apply none_visible_wf|].
  destruct (Js.nonempty next); simpl; [|by apply none_visible_wf].
  by apply wf_showOverlayById.
Qed.

Lemma wf_addToQueue id m :
  wf m ->
  (forall o, Js.mget id (overlays m) = Some o -> ov_isVisible o = false) ->
  wf (addToQueue id m).
Proof.
  intros (Ha & Hq & Hk) Hid. unfold addToQueue. case_bool_decide; [done|].
  split; [done|]. split; [|done].
  intros id' o' Hg' Hv'. simpl in *. rewrite Js.sort_perm.
  rewrite not_elem_of_app. split; [by eapply Hq|].
  intros ->%list_elem_of_singleton. rewrite (Hid o' Hg') in Hv'. discriminate.
Qed.

Lemma addToQueue_fields id m :
  overlays (addToQueue id m) = overlays m /\
  activeOverlayId (addToQueue id m) = activeOverlayId m.
Proof. unfold addToQueue. by case_bool_decide. Qed.

Lemma wf_set_hidden id o m :
  wf m -> id ≠ EmptyString -> ov_isVisible o = false ->
  wf (with_overlays (Js.mset id o (overlays m)) m).
Proof.
  intros (Ha & Hq & Hk) Hid Hv. split; [|split; [|by apply keys_ok_mset]].
  - intros id' o'. simpl. rewrite Js.mget_mset. case_decide; [|by apply Ha].
    intros [= <-]. congruence.
  - intros id' o'. simpl. rewrite Js.mget_mset. case_decide; [|by apply Hq].
    intros [= <-]. congruence.
Qed.

(** Hiding the active overlay without processing the queue leaves nothing
    visible. *)
Lemma hideOverlayById_active_none_visible id o m :
  wf m -> activeOverlayId m = Some id -> Js.mget id (overlays m) = Some o ->
  none_visible (hideOverlayById isBrowser id false m).2 /\
  keys_ok (hideOverlayById isBrowser id false m).2.
Proof.
  intros (Ha & Hq & Hk) Hact Hg. unfold hideOverlayById. rewrite Hg.
  assert (id ≠ EmptyString) as Hid by by eapply keys_ok_stored.
  destruct (ov_isVisible o) eqn:Hv; simpl.
  - rewrite bool_decide_true by done.
    assert (none_visible (with_overlays (Js.mset id (hidden false o) (overlays m)) m))
      as Hn.
    { intros id' o'. simpl. rewrite Js.mget_mset.
      case_decide as Hd; [by intros [= <-]|]. intros Hg'.
      destruct (ov_isVisible o') eqn:Hv'; [|done].
      pose proof (Ha id' o' Hg' Hv'). congruence. }
    pose proof (keys_ok_mset id (hidden false o) m Hid Hk) as Hk'.
    unfold removeGlobalEventListeners. by destruct isBrowser.
  - split; [|done]. intros id' o' Hg'.
    destruct (ov_isVisible o') eqn:Hv'; [|done].
    pose proof (Ha id' o' Hg' Hv') as Heq. rewrite Hact in Heq.
    injection Heq as <-. congruence.
Qed.

Lemma wf_registerOverlay owner overlayType options priority now m :
  wf m -> wf (registerOverlay isBrowser owner overlayType options priority now m).2.
Proof.
  intros Hwf. unfold registerOverlay. destruct isBrowser eqn:Hb; simpl; [|done].
  set (id := overlay_id owner overlayType now).
  set (o := Build_StoredOverlay _ _ _ _ _ _ _ _ _ _).
  set (m1 := with_overlays _ m).
  assert (wf m1) as Hwf1 by (by apply wf_set_hidden).
  assert (Js.mget id (overlays m1) = Some o) as Hg1 by apply Js.mget_mset_eq.
  clearbody m1.
  destruct (has_active m1) eqn:Hact; simpl.
  - pose proof (addToQueue_fields id m1) as [Ho2 Ha2].
    assert (wf (addToQueue id m1)) as Hwf2.
    { apply wf_addToQueue; [done|]. intros o'. rewrite Hg1. by intros [= <-]. }
    set (m2 := addToQueue id m1) in *. clearbody m2.
    destruct (activeOverlayId m2) as [active|] eqn:Hact2; [|done].
    destruct (Js.mget active (overlays m2)) as [ao|] eqn:Hga; [|done].
    destruct (Js.mget id (overlays m2)) as [no|]; [|done].
    case_match; [|done]. simpl.
    rewrite <-Hb.
    destruct (hideOverlayById_active_none_visible active ao m2 Hwf2 Hact2 Hga).
    by apply wf_showOverlayById.
  - rewrite <-Hb. apply wf_showOverlayById; [|apply Hwf1].
    by apply has_active_false_none_visible.
Qed.

Lemma wf_mdelete id m :
  wf m -> wf (with_overlays (Js.mdelete id (overlays m)) m).
Proof.
  intros (Ha & Hq & Hne & Hnd). split; [|split; [|split]]; simpl.
  - intros id' o'. simpl. rewrite Js.mget_mdelete. case_decide; [done|apply Ha].
  - intros id' o'. simpl. rewrite Js.mget_mdelete. case_decide; [done|apply Hq].
  - intros Hin. apply Hne. eapply elem_of_sublist; [done|].
    apply Js.mkeys_mdelete_sublist.
  - by apply Js.NoDup_mkeys_mdelete.
Qed.

Lemma wf_removeOverlayById id m :
  wf m -> wf (removeOverlayById isBrowser id m).2.
Proof.
  intros Hwf. unfold removeOverlayById.
  destruct (Js.mget id (overlays m)); [|done]. simpl.
  apply wf_mdelete.
  assert (wf (hideOverlayById isBrowser id true (with_observer None m)).2) as Hh
    by by apply wf_hideOverlayById.
  case_bool_decide; [by apply wf_removeGlobalEventListeners|done].
Qed.

Lemma wf_remove_each ids n m :
  wf m -> wf (remove_each isBrowser ids n m).2.
Proof.
  revert n m. induction ids as [|id ids IH]; intros n m Hwf; simpl; [done|].
  pose proof (wf_removeOverlayById id m Hwf).
  destruct (removeOverlayById isBrowser id m) as [removed m']. by apply IH.
Qed.

Lemma wf_removeOverlaysByOwner owner m :
  wf m -> wf (removeOverlaysByOwner isBrowser owner m).2.
Proof.
  intros Hwf. unfold removeOverlaysByOwner.
  destruct (negb isBrowser); [done|]. by apply wf_remove_each.
Qed.

Lemma wf_restore_each owner ids n m :
  wf m -> wf (restore_each isBrowser owner ids n m).2.
Proof.
  revert n m. induction ids as [|id ids IH]; intros n m Hwf; simpl; [done|].
  destruct (Js.mget id (overlays m)) as [o|] eqn:Hg; [|by apply IH].
  destruct (bool_decide (ov_owner o = owner) && auto_restores o
            && negb (ov_isVisible o)) eqn:Hc; [|by apply IH].
  apply andb_prop in Hc as [_ Hv%negb_true_iff].
  destruct (has_active m) eqn:Hact.
  - apply IH, wf_addToQueue; [done|]. intros o'. rewrite Hg. by intros [= <-].
  - pose proof (wf_showOverlayById id m
      (has_active_false_none_visible m Hwf Hact) (proj2 (proj2 Hwf))).
    destruct (showOverlayById isBrowser id m) as [ok m']. by apply IH.
Qed.

Lemma wf_checkAndRestoreOverlaysByOwner owner m :
  wf m -> wf (checkAndRestoreOverlaysByOwner isBrowser owner m).2.
Proof.
  intros Hwf. unfold checkAndRestoreOverlaysByOwner.
  destruct (negb isBrowser); [done|]. by apply wf_restore_each.
Qed.

(** ** Which overlays are stored, and for whom *)

(** The owner and type an identifier is stored for.  No method changes the
    owner or the type of a stored overlay. *)
Definition identity_of (m : Manager) (id : string) : option (string * string) :=
  (fun o => (ov_owner o, ov_overlayType o)) <$> Js.mget id (overlays m).

Lemma identity_of_mset id o o' m :
  Js.mget id (overlays m) = Some o ->
  ov_owner o' = ov_owner o -> ov_overlayType o' = ov_overlayType o ->
  forall id', identity_of (with_overlays (Js.mset id o' (overlays m)) m) id'
            = identity_of m id'.
Proof.
  intros Hg Ho Ht id'. unfold identity_of. simpl. rewrite Js.mget_mset.
  case_decide; [|done]. subst. rewrite Hg. simpl. congruence.
Qed.

Lemma identity_of_removeGlobalEventListeners m id' :
  identity_of (removeGlobalEventListeners isBrowser m) id' = identity_of m id'.
Proof. unfold removeGlobalEventListeners. by destruct isBrowser. Qed.

Lemma identity_of_showOverlayById id m id' :
  identity_of (showOverlayById isBrowser id m).2 id' = identity_of m id'.
Proof.
  unfold showOverlayById.
  destruct (Js.mget id (overlays m)) as [o|] eqn:Hg; [|done].
  destruct isBrowser; simpl; [|done].
  set (m1 := if Js.truthy _ then with_listeners true m else m).
  assert (overlays m1 = overlays m) as Ho1 by (subst m1; by destruct (Js.truthy _)).
  clearbody m1.
  assert (forall m2, overlays m2 = Js.mset id (shown o) (overlays m) ->
            identity_of m2 id' = identity_of m id') as Hm2.
  { intros m2 Ho2. rewrite <-(identity_of_mset id o (shown o) m Hg eq_refl eq_refl id').
    unfold identity_of. by rewrite Ho2. }
  destruct (auto_restores o); apply Hm2; simpl; by rewrite Ho1.
Qed.

Lemma identity_of_hideOverlayById id pq m id' :
  identity_of (hideOverlayById isBrowser id pq m).2 id' = identity_of m id'.
Proof.
  unfold hideOverlayById.
  destruct (Js.mget id (overlays m)) as [o|] eqn:Hg; [|done].
  destruct (ov_isVisible o); simpl; [|done].
  pose proof (identity_of_mset id o (hidden false o) m Hg eq_refl eq_refl id') as Hm1.
  set (m1 := with_overlays _ m) in *. clearbody m1.
  case_bool_decide; [|done].
  set (m2 := removeGlobalEventListeners isBrowser (with_active None m1)).
  assert (identity_of m2 id' = identity_of m id') as Hm2.
  { rewrite <-Hm1. subst m2. unfold removeGlobalEventListeners. by destruct isBrowser. }
  clearbody m2. destruct pq; [|done].
  destruct (overlayQueue m2) as [|next rest] eqn:Hq; [done|].
  destruct (Js.nonempty next); simpl; [|done].
  by rewrite identity_of_showOverlayById.
Qed.

Lemma identity_of_addToQueue id m id' :
  identity_of (addToQueue id m) id' = identity_of m id'.
Proof. unfold addToQueue. by case_bool_decide. Qed.

Lemma identity_of_removeOverlayById id m id' :
  identity_of (removeOverlayById isBrowser id m).2 id'
  = if decide (id = id') then None else identity_of m id'.
Proof.
  unfold removeOverlayById.
  destruct (Js.mget id (overlays m)) as [o|] eqn:Hg; simpl.
  - set (m1 := if bool_decide _ then _ else _).
    assert (identity_of m1 id' = identity_of m id') as Hm1.
    { subst m1. case_bool_decide.
      - rewrite identity_of_removeGlobalEventListeners.
        apply (identity_of_hideOverlayById id true (with_observer None m) id').
      - apply (identity_of_hideOverlayById id true (with_observer None m) id'). }
    clearbody m1. unfold identity_of in *. simpl. rewrite Js.mget_mdelete.
    by case_decide.
  - case_decide; [|done]. subst. unfold identity_of. by rewrite Hg.
Qed.

Lemma identity_of_remove_each ids n m id' :
  identity_of (remove_each isBrowser ids n m).2 id'
  = if bool_decide (id' ∈ ids) then None else identity_of m id'.
Proof.
  revert n m. induction ids as [|id ids IH]; intros n m; simpl; [done|].
  pose proof (identity_of_removeOverlayById id m id') as Hr.
  destruct (removeOverlayById isBrowser id m) as [removed m']. simpl in Hr.
  rewrite IH, Hr. case_decide as Hd.
  - subst. rewrite (bool_decide_true (_ ∈ _ :: _)) by (by apply elem_of_cons; left).
    by case_bool_decide.
  - destruct (decide (id' ∈ ids)) as [Hin|Hin].
    + rewrite !bool_decide_true; [done|by apply elem_of_cons; right|done].
    + rewrite !bool_decide_false; [done| |done].
      intros [?|?]%elem_of_cons; [congruence|done].
Qed.

Lemma identity_of_restore_each owner ids n m id' :
  identity_of (restore_each isBrowser owner ids n m).2 id' = identity_of m id'.
Proof.
  revert n m. induction ids as [|id ids IH]; intros n m; simpl; [done|].
  destruct (Js.mget id (overlays m)) as [o|]; [|apply IH].
  case_match; [|apply IH].
  destruct (has_active m).
  - by rewrite IH, identity_of_addToQueue.
  - pose proof (identity_of_showOverlayById id m id') as Hs.
    destruct (showOverlayById isBrowser id m) as [ok m']. simpl in Hs.
    by rewrite IH.
Qed.

Lemma identity_of_None_none_visible m :
  (forall id, identity_of m id = None) -> none_visible m.
Proof.
  intros Hn id o Hg. specialize (Hn id). unfold identity_of in Hn.
  by rewrite Hg in Hn.
Qed.

Lemma wf_clearAllOverlays m : wf m -> wf (clearAllOverlays isBrowser m).2.
Proof.
  intros Hwf. unfold clearAllOverlays. destruct (negb isBrowser); [done|].
  pose proof (wf_remove_each (Js.mkeys (overlays m)) 0 m Hwf) as Hr.
  pose proof (fun id => identity_of_remove_each (Js.mkeys (overlays m)) 0 m id) as Hi.
  destruct (remove_each _ _ _ _) as [n m']. simpl in *.
  apply wf_removeGlobalEventListeners.
  assert (none_visible m') as Hn.
  { apply identity_of_None_none_visible. intros id. rewrite Hi.
    case_bool_decide as Hin; [done|].
    unfold identity_of. apply Js.mget_None_keys in Hin. by rewrite Hin. }
  apply none_visible_wf; [done|]. apply Hr.
Qed.

Lemma wf_handleOverlayShown event now m :
  wf m -> wf (handleOverlayShown isBrowser event now m).
Proof.
  intros Hwf. unfold handleOverlayShown.
  destruct (negb (isEventType event OVERLAY_SHOWN)); [done|].
  destruct (ev_data event) as [[]|]; try done.
  destruct options as [options|]; [|done].
  apply wf_registerOverlay.
  destruct (hasOverlayByOwnerAndType _ _ _); [|done].
  destruct (find_owner_type _ _ _); [|done].
  by apply wf_removeOverlayById.
Qed.

Lemma wf_handleOverlayRemoved event m :
  wf m -> wf (handleOverlayRemoved isBrowser event m).
Proof.
  intros Hwf. unfold handleOverlayRemoved.
  destruct (negb (isEventType event OVERLAY_REMOVED)); [done|].
  destruct (ev_data event) as [[]|]; try done.
  by apply wf_removeOverlaysByOwner.
Qed.

Lemma wf_handleOverlayRestored event m :
  wf m -> wf (handleOverlayRestored isBrowser event m).
Proof.
  intros Hwf. unfold handleOverlayRestored.
  destruct (ev_data event) as [[]|]; try done;
    by apply wf_checkAndRestoreOverlaysByOwner.
Qed.

Lemma wf_elementsRemoved m : wf m -> wf (elementsRemoved isBrowser m).
Proof.
  intros Hwf. pose proof Hwf as (Ha & Hq & Hk). unfold elementsRemoved.
  destruct (domObserver m) as [watched|]; [|done].
  destruct (Js.mget watched (overlays m)) as [o|] eqn:Hg; [|done].
  destruct (auto_restores o); [|done].
  assert (watched ≠ EmptyString) as Hid by by eapply keys_ok_stored.
  assert (wf (with_overlays (Js.mset watched (hidden true o) (overlays m)) m)) as Hwf1
    by by apply wf_set_hidden.
  simpl. case_bool_decide as Hact.
  - apply wf_showOverlayById; [|apply Hwf1].
    intros id' o'. simpl. rewrite Js.mget_mset.
    case_decide as Hd; [by intros [= <-]|]. intros Hg'.
    destruct (ov_isVisible o') eqn:Hv'; [|done].
    pose proof (Ha id' o' Hg' Hv'). congruence.
  - apply wf_addToQueue; [done|]. intros o'. simpl.
    rewrite Js.mget_mset_eq. by intros [= <-].
Qed.

Lemma wf_step o m : wf m -> wf (step isBrowser o m).
Proof.
  destruct o; simpl;
    auto using wf_registerOverlay, wf_removeOverlayById,
      wf_removeOverlaysByOwner, wf_checkAndRestoreOverlaysByOwner,
      wf_clearAllOverlays, wf_handleOverlayShown, wf_handleOverlayRemoved,
      wf_handleOverlayRestored, wf_elementsRemoved.
Qed.

Lemma wf_run ops m : wf m -> wf (run isBrowser ops m).
Proof.
  revert m. induction ops as [|o ops IH]; intros m Hwf; [done|].
  apply IH. by apply wf_step.
Qed.

End Invariant.

Lemma addToQueue_elem id m q :
  q ∈ overlayQueue (addToQueue id m) <-> q ∈ overlayQueue m \/ q = id.
Proof.
  unfold addToQueue. case_bool_decide as Hin; simpl.
  - split; [by left|]. by intros [?| ->].
  - rewrite Js.sort_perm, elem_of_app, list_elem_of_singleton. done.
Qed.

(** What [showOverlayById] does to a stored overlay in a browser. *)
Lemma showOverlayById_browser id o m :
  Js.mget id (overlays m) = Some o ->
  activeOverlayId (showOverlayById true id m).2 = Some id /\
  overlays (showOverlayById true id m).2 = Js.mset id (shown o) (overlays m) /\
  overlayQueue (showOverlayById true id m).2
    = filter (fun x => x ≠ id) (overlayQueue m).
Proof.
  intros Hg. unfold showOverlayById. rewrite Hg. simpl.
  by destruct (Js.truthy _), (auto_restores o).
Qed.

(** What [hideOverlayById(id, false)] does to the visible active overlay. *)
Lemma hideOverlayById_active id o m :
  Js.mget id (overlays m) = Some o -> ov_isVisible o = true ->
  activeOverlayId m = Some id ->
  activeOverlayId (hideOverlayById true id false m).2 = None /\
  overlays (hideOverlayById true id false m).2
    = Js.mset id (hidden false o) (overlays m) /\
  overlayQueue (hideOverlayById true id false m).2 = overlayQueue m.
Proof.
  intros Hg Hv Ha. unfold hideOverlayById. rewrite Hg, Hv. simpl.
  by rewrite bool_decide_true.
Qed.

(** Removing the visible active overlay promotes only an overlay of the
    queue. *)
Lemma removeOverlayById_promotes_queued id o m next :
  Js.mget id (overlays m) = Some o -> ov_isVisible o = true ->
  activeOverlayId m = Some id ->
  activeOverlayId (removeOverlayById true id m).2 = Some next ->
  next ∈ overlayQueue m.
Proof.
  intros Hg Hv Ha. unfold removeOverlayById. rewrite Hg.
  rewrite (bool_decide_true _ Ha). cbn [snd].
  unfold hideOverlayById.
  change (overlays (with_observer None m)) with (overlays m).
  rewrite Hg, Hv. cbn [negb].
  change (activeOverlayId (with_overlays _ (with_observer None m)))
    with (activeOverlayId m).
  rewrite (bool_decide_true _ Ha).
  cbn [removeGlobalEventListeners overlayQueue with_listeners with_active
       with_overlays with_observer].
  destruct (overlayQueue m) as [|head rest]; [done|].
  destruct (Js.nonempty head); [|done].
  unfold showOverlayById. destruct (Js.mget head _) as [oh|]; [|done].
  simpl. destruct (Js.truthy _), (auto_restores oh); simpl;
    intros [= <-]; by left.
Qed.


(** ** One stored overlay for an owner and type *)

Definition unique_owner_type (m : Manager) : Prop :=
  forall id1 id2 x,
    identity_of m id1 = Some x -> identity_of m id2 = Some x -> id1 = id2.

(** The operations that are not a direct call of [registerOverlay]. *)
Definition is_register (o : op) : bool :=
  match o with
  | RegisterOverlay _ _ _ _ _ => true
  | _ => false
  end.

Definition shrinks (m m' : Manager) : Prop :=
  forall id x, identity_of m' id = Some x -> identity_of m id = Some x.

Lemma unique_owner_type_shrinks m m' :
  shrinks m m' -> unique_owner_type m -> unique_owner_type m'.
Proof. intros Hs Hu id1 id2 x H1 H2. apply (Hu id1 id2 x); by apply Hs. Qed.

Lemma shrinks_same m m' :
  (forall id, identity_of m' id = identity_of m id) -> shrinks m m'.
Proof. intros He id x. by rewrite He. Qed.

Section Unique.
Variable isBrowser : bool.

Lemma identity_of_registerOverlay owner overlayType options priority now m id' :
  identity_of (registerOverlay true owner overlayType options priority now m).2 id'
  = if decide (overlay_id owner overlayType now = id')
    then Some (owner, overlayType) else identity_of m id'.
Proof.
  unfold registerOverlay. simpl.
  set (id := overlay_id owner overlayType now).
  set (new := Build_StoredOverlay _ _ _ _ _ _ _ _ _ _).
  set (m1 := with_overlays _ m).
  assert (identity_of m1 id' =
    if decide (id = id') then Some (owner, overlayType) else identity_of m id')
    as <-.
  { unfold identity_of. subst m1. simpl. rewrite Js.mget_mset. by case_decide. }
  clearbody m1.
  destruct (has_active m1); simpl; [|apply identity_of_showOverlayById].
  pose proof (identity_of_addToQueue id m1 id') as <-.
  set (m2 := addToQueue id m1). clearbody m2.
  destruct (activeOverlayId m2) as [active|]; [|done].
  destruct (Js.mget active (overlays m2)); [|done].
  destruct (Js.mget id (overlays m2)); [|done].
  case_match; [|done]. simpl.
  by rewrite identity_of_showOverlayById, identity_of_hideOverlayById.
Qed.

Lemma registerOverlay_not_browser owner overlayType options priority now m :
  (registerOverlay false owner overlayType options priority now m).2 = m.
Proof. done. Qed.

Lemma find_owner_type_Some owner overlayType m id :
  NoDup (Js.mkeys (overlays m)) ->
  find_owner_type owner overlayType m = Some id ->
  identity_of m id = Some (owner, overlayType).
Proof.
  intros Hnd. unfold find_owner_type, identity_of.
  destruct (find _ _) as [[id0 o0]|] eqn:Hf; [|done]. intros [= <-].
  apply find_some in Hf as [Hin Hp].
  apply andb_prop in Hp as [Ho%bool_decide_eq_true Ht%bool_decide_eq_true].
  simpl in *. rewrite (Js.elem_mget id0 o0); [|done|by apply list_elem_of_In].
  simpl. by rewrite Ho, Ht.
Qed.

Lemma hasOverlayByOwnerAndType_false owner overlayType m id :
  hasOverlayByOwnerAndType owner overlayType m = false ->
  identity_of m id ≠ Some (owner, overlayType).
Proof.
  unfold hasOverlayByOwnerAndType, identity_of. intros Hex.
  destruct (Js.mget id (overlays m)) as [o|] eqn:Hg; [|done]. simpl.
  intros [= Ho Ht].
  apply Js.mget_Some_elem, list_elem_of_In in Hg.
  assert (existsb (fun e => bool_decide (ov_owner e.2 = owner) &&
                            bool_decide (ov_overlayType e.2 = overlayType))
            (overlays m) = true) as Hex'; [|congruence].
  apply existsb_exists. exists (id, o). split; [done|]. simpl.
  by rewrite !bool_decide_true.
Qed.

Lemma hasOverlayByOwnerAndType_true owner overlayType m :
  hasOverlayByOwnerAndType owner overlayType m = true ->
  is_Some (find_owner_type owner overlayType m).
Proof.
  unfold hasOverlayByOwnerAndType, find_owner_type.
  intros (e & Hin & Hp)%existsb_exists.
  destruct (find _ _) as [e'|] eqn:Hf; [by eexists|].
  by rewrite (find_none _ _ Hf e Hin) in Hp.
Qed.

(** The state in which [handleOverlayShown] calls [registerOverlay]: a stored
    overlay of the event's owner and type, if any, has been removed. *)
Lemma handleOverlayShown_removes owner overlayType m :
  wf m -> unique_owner_type m ->
  let m1 :=
    if hasOverlayByOwnerAndType owner overlayType m then
      match find_owner_type owner overlayType m with
      | Some overlayId => (removeOverlayById isBrowser overlayId m).2
      | None => m
      end
    else m in
  shrinks m m1 /\ forall id, identity_of m1 id ≠ Some (owner, overlayType).
Proof.
  intros Hwf Hu. simpl.
  destruct (hasOverlayByOwnerAndType owner overlayType m) eqn:Hhas.
  - destruct (hasOverlayByOwnerAndType_true _ _ _ Hhas) as [id0 Hf].
    rewrite Hf.
    pose proof (find_owner_type_Some _ _ _ _ (proj2 (proj2 (proj2 Hwf))) Hf) as Hid0.
    split.
    + intros id x. rewrite identity_of_removeOverlayById. by case_decide.
    + intros id. rewrite identity_of_removeOverlayById.
      case_decide as Hd; [done|]. intros Hid. apply Hd.
      by apply (Hu id0 id (owner, overlayType)).
  - split; [by intros ? ?|]. intros id.
    by apply hasOverlayByOwnerAndType_false.
Qed.

Lemma unique_owner_type_handleOverlayShown event now m :
  wf m -> unique_owner_type m ->
  unique_owner_type (handleOverlayShown isBrowser event now m).
Proof.
  intros Hwf Hu. unfold handleOverlayShown.
  destruct (negb (isEventType event OVERLAY_SHOWN)); [done|].
  destruct (ev_data event) as [[]|]; try done.
  destruct options as [options|]; [|done].
  destruct (handleOverlayShown_removes strategyName overlayType m Hwf Hu)
    as [Hs1 Hno1].
  set (m1 := if hasOverlayByOwnerAndType _ _ _ then _ else _) in *.
  pose proof (unique_owner_type_shrinks m m1 Hs1 Hu) as Hu1.
  clearbody m1. destruct isBrowser; [|done].
  intros id1 id2 x. rewrite !identity_of_registerOverlay.
  do 2 case_decide; subst; try done.
  - intros [= <-] H2. by apply Hno1 in H2.
  - intros H1 [= <-]. by apply Hno1 in H1.
  - apply Hu1.
Qed.

Lemma identity_of_elementsRemoved m id' :
  identity_of (elementsRemoved isBrowser m) id' = identity_of m id'.
Proof.
  unfold elementsRemoved.
  destruct (domObserver m) as [watched|]; [|done].
  destruct (Js.mget watched (overlays m)) as [o|] eqn:Hg; [|done].
  destruct (auto_restores o); [|done].
  pose proof (identity_of_mset watched o (hidden true o) m Hg eq_refl eq_refl id')
    as <-.
  simpl. case_bool_decide.
  - apply identity_of_showOverlayById.
  - apply identity_of_addToQueue.
Qed.

Lemma unique_owner_type_step o m :
  is_register o = false ->
  wf m -> unique_owner_type m -> unique_owner_type (step isBrowser o m).
Proof.
  intros Hreg Hwf Hu. destruct o; try discriminate Hreg; simpl.
  - eapply unique_owner_type_shrinks; [|done].
    intros id x. rewrite identity_of_removeOverlayById. by case_decide.
  - eapply unique_owner_type_shrinks; [|done].
    unfold removeOverlaysByOwner. destruct (negb isBrowser); [by intros ? ?|].
    intros id x. rewrite identity_of_remove_each. by case_bool_decide.
  - eapply unique_owner_type_shrinks; [|done].
    unfold checkAndRestoreOverlaysByOwner. destruct (negb isBrowser); [by intros ? ?|].
    apply shrinks_same, identity_of_restore_each.
  - eapply unique_owner_type_shrinks; [|done].
    unfold clearAllOverlays. destruct (negb isBrowser); [by intros ? ?|].
    pose proof (fun id => identity_of_remove_each isBrowser (Js.mkeys (overlays m)) 0 m id) as Hi.
    destruct (remove_each _ _ _ _) as [n m']. simpl in *.
    intros id x. rewrite identity_of_removeGlobalEventListeners.
    change (identity_of m' id = Some x -> identity_of m id = Some x).
    rewrite Hi. by case_bool_decide.
  - by apply unique_owner_type_handleOverlayShown.
  - unfold handleOverlayRemoved.
    destruct (negb (isEventType event OVERLAY_REMOVED)); [done|].
    destruct (ev_data event) as [[]|]; try done.
    eapply unique_owner_type_shrinks; [|done].
    unfold removeOverlaysByOwner. destruct (negb isBrowser); [by intros ? ?|].
    intros id x. rewrite identity_of_remove_each. by case_bool_decide.
  - unfold handleOverlayRestored.
    destruct (ev_data event) as [[]|]; try done;
      (eapply unique_owner_type_shrinks; [|done];
       unfold checkAndRestoreOverlaysByOwner; destruct (negb isBrowser); [by intros ? ?|];
       apply shrinks_same, identity_of_restore_each).
  - eapply unique_owner_type_shrinks; [|done].
    apply shrinks_same, identity_of_elementsRemoved.
Qed.

(** Without direct calls of [registerOverlay], an owner and type are stored
    at most once. *)
Lemma unique_owner_type_run ops m :
  Forall (fun o => is_register o = false) ops ->
  wf m -> unique_owner_type m ->
  wf (run isBrowser ops m) /\ unique_owner_type (run isBrowser ops m).
Proof.
  intros Hops. revert m. induction Hops as [|o ops Ho _ IH]; intros m Hwf Hu; [done|].
  apply IH; [by apply wf_step|by apply unique_owner_type_step].
Qed.

End Unique.

Lemma unique_owner_type_new : unique_owner_type new_manager.
Proof. intros id1 id2 x H1. discriminate H1. Qed.


(** ** Examples used below *)

Definition low_banner : op := RegisterOverlay "low" "banner" no_overlay_options 1 1.
Definition high_banner : op := RegisterOverlay "high" "banner" no_overlay_options 2 2.

(** What a test observes of a manager: identifier, visibility and priority of
    each stored overlay, the active identifier, the queue. *)
Definition view (m : Manager)
    : list (string * bool * Z) * option string * list string :=
  (map (fun e => (e.1, ov_isVisible e.2, ov_priority e.2)) (overlays m),
   activeOverlayId m, overlayQueue m).

(** The scenario of the specification: "devtools" (10) becomes active,
    "screenshot" (5) queues, removing "devtools" promotes "screenshot",
    removing "screenshot" leaves nothing. *)
Example scenario_devtools_screenshot :
  view (run true [RegisterOverlay "devtools" "devtools" no_overlay_options 10 1;
                  RegisterOverlay "screenshot" "screenshot" no_overlay_options 5 2]
          new_manager)
  = ([("overlay-devtools-devtools-1", true, 10%Z);
      ("overlay-screenshot-screenshot-2", false, 5%Z)],
     Some "overlay-devtools-devtools-1", ["overlay-screenshot-screenshot-2"]) /\
  view (run true [RegisterOverlay "devtools" "devtools" no_overlay_options 10 1;
                  RegisterOverlay "screenshot" "screenshot" no_overlay_options 5 2;
                  RemoveOverlaysByOwner "devtools"] new_manager)
  = ([("overlay-screenshot-screenshot-2", true, 5%Z)],
     Some "overlay-screenshot-screenshot-2", []) /\
  view (run true [RegisterOverlay "devtools" "devtools" no_overlay_options 10 1;
                  RegisterOverlay "screenshot" "screenshot" no_overlay_options 5 2;
                  RemoveOverlaysByOwner "devtools";
                  RemoveOverlaysByOwner "screenshot"] new_manager)
  = ([], None, []).
Proof. vm_compute. done. Qed.

(** ** Single active overlay *)

(** C1.  Single active overlay: after every sequence of [registerOverlay]
    calls, of the other public methods, of the overlay events the manager
    handles and of observer callbacks, at most one stored overlay has
    [isVisible = true], and a visible overlay is the one [activeOverlayId]
    names. *)
Theorem single_active_overlay (isBrowser : bool) (ops : list op) :
  length (getActiveOverlays (run isBrowser ops new_manager)) <= 1 /\
  forall id, id ∈ getActiveOverlays (run isBrowser ops new_manager) ->
    activeOverlayId (run isBrowser ops new_manager) = Some id.
Proof.
  pose proof (wf_run isBrowser ops new_manager wf_new) as (Ha & _ & _ & Hnd).
  set (m := run isBrowser ops new_manager) in *. clearbody m.
  assert (forall e, e ∈ overlays m -> ov_isVisible e.2 = true ->
            activeOverlayId m = Some e.1) as Hact.
  { intros [id o] Hin Hv. apply (Ha id o); [|done]. by apply Js.elem_mget. }
  unfold getActiveOverlays, Js.mkeys. split.
  - rewrite length_fmap.
    apply (Js.filter_key_length _ (default EmptyString (activeOverlayId m)));
      [done|].
    intros e He Hv. by rewrite (Hact e He Hv).
  - intros id (e & -> & [Hv He]%list_elem_of_filter)%list_elem_of_fmap.
    by apply Hact.
Qed.


(** The part of the queue discipline that holds in every reachable state: a
    queued identifier that is stored names a hidden overlay. *)
Lemma queued_overlays_hidden (isBrowser : bool) (ops : list op) (id : string)
    (o : StoredOverlay) :
  id ∈ overlayQueue (run isBrowser ops new_manager) ->
  Js.mget id (overlays (run isBrowser ops new_manager)) = Some o ->
  ov_isVisible o = false.
Proof.
  pose proof (wf_run isBrowser ops new_manager wf_new) as (_ & Hq & _).
  intros Hin Hg. destruct (ov_isVisible o) eqn:Hv; [|done].
  by destruct (Hq id o Hg Hv).
Qed.

(** ** Preemption *)

(** C2, as the code has it.  Preemption: when [registerOverlay] is called in a
    browser with a priority strictly greater than that of the visible active
    overlay, and the new identifier differs from the active one, the new
    overlay is the active one afterwards (visible, named by
    [activeOverlayId]); the overlay that was active stays stored, hidden, and
    is not put in the waiting queue, which otherwise keeps its elements; so
    removing the new active overlay right after the call does not make the
    overlay that was active the active one again. *)
Theorem preemption_replaces_active
    (ops : list op) (owner overlayType : string) (options : OverlayOptions)
    (priority : Z) (now : N) (a : string) (oa : StoredOverlay) :
  let m := run true ops new_manager in
  let id := overlay_id owner overlayType now in
  let m' := (registerOverlay true owner overlayType options priority now m).2 in
  activeOverlayId m = Some a ->
  Js.mget a (overlays m) = Some oa ->
  ov_isVisible oa = true ->
  (ov_priority oa < priority)%Z ->
  id ≠ a ->
  activeOverlayId m' = Some id /\
  (exists o, Js.mget id (overlays m') = Some o /\ ov_isVisible o = true /\
             ov_owner o = owner /\ ov_overlayType o = overlayType /\
             ov_priority o = priority) /\
  Js.mget a (overlays m') = Some (hidden false oa) /\
  (a ∉ overlayQueue m') /\
  (forall q, q ∈ overlayQueue m' <-> q ∈ overlayQueue m /\ q ≠ id) /\
  activeOverlayId (removeOverlayById true id m').2 ≠ Some a.
Proof.
  intros m id m' Hact Hga Hva Hprio Hne.
  pose proof (wf_run true ops new_manager wf_new) as (Ha & Hq & Hk).
  fold m in Ha, Hq, Hk.
  assert (a ≠ EmptyString) as Hane by by eapply keys_ok_stored.
  assert (a ∉ overlayQueue m) as Haq by by eapply Hq.
  clearbody m.
  set (new := Build_StoredOverlay id overlayType options owner priority
                false false false false now).
  set (m1 := with_overlays (Js.mset id new (overlays m)) m).
  set (m2 := addToQueue id m1).
  pose proof (addToQueue_fields id m1) as [Ho2 Ha2].
  pose proof (addToQueue_elem id m1) as Hq2. fold m2 in Ho2, Ha2, Hq2.
  assert (Js.mget a (overlays m2) = Some oa) as Hga2.
  { rewrite Ho2. simpl. by rewrite Js.mget_mset_ne. }
  assert (Js.mget id (overlays m2) = Some new) as Hgn2.
  { rewrite Ho2. simpl. by rewrite Js.mget_mset_eq. }
  assert (activeOverlayId m2 = Some a) as Hact2 by by rewrite Ha2.
  assert (m' = (showOverlayById true id (hideOverlayById true a false m2).2).2)
    as ->.
  { subst m'. unfold registerOverlay. simpl. fold id new m1.
    assert (has_active m1 = true) as ->.
    { unfold has_active. simpl. rewrite Hact. by destruct a. }
    simpl. fold m2. rewrite Hact2, Hga2, Hgn2.
    by replace (ov_priority oa <? ov_priority new)%Z with true
      by (symmetry; apply Z.ltb_lt; done). }
  destruct (hideOverlayById_active a oa m2 Hga2 Hva Hact2) as (Ha3 & Ho3 & Hq3).
  set (m3 := (hideOverlayById true a false m2).2) in *. clearbody m3.
  assert (Js.mget id (overlays m3) = Some new) as Hgn3.
  { rewrite Ho3. by rewrite Js.mget_mset_ne. }
  destruct (showOverlayById_browser id new m3 Hgn3) as (Ha4 & Ho4 & Hq4).
  set (m4 := (showOverlayById true id m3).2) in *. clearbody m4.
  assert (forall q, q ∈ overlayQueue m4 <-> q ∈ overlayQueue m /\ q ≠ id) as Hmem.
  { intros q. rewrite Hq4, Hq3, list_elem_of_filter, Hq2. simpl.
    split; [intros [? [?|?]]; done|intros [? ?]; eauto]. }
  assert (a ∉ overlayQueue m4) as Haq4.
  { rewrite Hmem. by intros [? _]. }
  split; [done|]. split.
  { exists (shown new). rewrite Ho4. by rewrite Js.mget_mset_eq. }
  split.
  { rewrite Ho4, Js.mget_mset_ne, Ho3 by done. by rewrite Js.mget_mset_eq. }
  split; [done|]. split; [done|].
  intros Hpromoted. apply Haq4.
  apply (removeOverlayById_promotes_queued id (shown new) m4 a); try done.
  rewrite Ho4. by rewrite Js.mget_mset_eq.
Qed.

Lemma preemption_replaces_active_witness :
  activeOverlayId
    (registerOverlay true "high" "banner" no_overlay_options 2 2
       (run true [low_banner] new_manager)).2
  = Some (overlay_id "high" "banner" 2) /\
  (exists o,
     Js.mget (overlay_id "high" "banner" 2)
       (overlays (registerOverlay true "high" "banner" no_overlay_options 2 2
                    (run true [low_banner] new_manager)).2) = Some o /\
     ov_isVisible o = true /\ ov_owner o = "high" /\
     ov_overlayType o = "banner" /\ ov_priority o = 2%Z) /\
  Js.mget "overlay-low-banner-1"
    (overlays (registerOverlay true "high" "banner" no_overlay_options 2 2
                 (run true [low_banner] new_manager)).2)
  = Some (hidden false
            (shown (Build_StoredOverlay "overlay-low-banner-1" "banner"
                      no_overlay_options "low" 1 false false false false 1))) /\
  ("overlay-low-banner-1" ∉
     overlayQueue (registerOverlay true "high" "banner" no_overlay_options 2 2
                     (run true [low_banner] new_manager)).2) /\
  (forall q,
     q ∈ overlayQueue (registerOverlay true "high" "banner" no_overlay_options 2 2
                         (run true [low_banner] new_manager)).2
     <-> q ∈ overlayQueue (run true [low_banner] new_manager) /\
         q ≠ overlay_id "high" "banner" 2) /\
  activeOverlayId
    (removeOverlayById true (overlay_id "high" "banner" 2)
       (registerOverlay true "high" "banner" no_overlay_options 2 2
          (run true [low_banner] new_manager)).2).2
  ≠ Some "overlay-low-banner-1".
Proof.
  apply (preemption_replaces_active [low_banner] "high" "banner"
           no_overlay_options 2 2 "overlay-low-banner-1"
           (shown (Build_StoredOverlay "overlay-low-banner-1" "banner"
                     no_overlay_options "low" 1 false false false false 1))).
  - vm_compute. reflexivity.
  - vm_compute. reflexivity.
  - reflexivity.
  - vm_compute. reflexivity.
  - vm_compute. discriminate.
Defined.

(** The claim of C2 fails.  After "high" (2) preempts "low" (1) the queue is
    empty, so "low" is not at its front, and removing "high" leaves "low"
    hidden with no active overlay.  And when the two registrations get the
    same identifier (same owner, type and millisecond), the stored overlay is
    overwritten and nothing is visible afterwards. *)
Lemma preemption_does_not_requeue :
  view (run true [low_banner; high_banner] new_manager)
  = ([("overlay-low-banner-1", false, 1%Z); ("overlay-high-banner-2", true, 2%Z)],
     Some "overlay-high-banner-2", []) /\
  view (run true [low_banner; high_banner;
                  RemoveOverlayById "overlay-high-banner-2"] new_manager)
  = ([("overlay-low-banner-1", false, 1%Z)], None, []) /\
  view (run true [low_banner;
                  RegisterOverlay "low" "banner" no_overlay_options 2 1]
          new_manager)
  = ([("overlay-low-banner-1", false, 2%Z)], Some "overlay-low-banner-1",
     ["overlay-low-banner-1"]).
Proof. vm_compute. done. Qed.

(** The overlay that was active can come back later: an overlay "high" that
    does not restore itself leaves the DOM observer on "low"; when the nodes
    of "low" are seen to leave the document the observer's callback puts
    "low" in the queue, and removing "high" then shows it. *)
Definition plain_options : OverlayOptions :=
  {| oo_title := None; oo_message := None; oo_secondaryMessage := None;
     oo_textColor := None; oo_backgroundColor := None; oo_duration := None;
     oo_blockEvents := None; oo_autoRestore := Some false;
     oo_showCloseButton := None; oo_additionalContent := None |}.

Example preempted_overlay_requeued_by_observer :
  view (run true [low_banner; RegisterOverlay "high" "banner" plain_options 2 2;
                  ElementsRemoved] new_manager)
  = ([("overlay-low-banner-1", false, 1%Z); ("overlay-high-banner-2", true, 2%Z)],
     Some "overlay-high-banner-2", ["overlay-low-banner-1"]) /\
  view (run true [low_banner; RegisterOverlay "high" "banner" plain_options 2 2;
                  ElementsRemoved; RemoveOverlayById "overlay-high-banner-2"]
          new_manager)
  = ([("overlay-low-banner-1", true, 1%Z)], Some "overlay-low-banner-1", []).
Proof. vm_compute. done. Qed.

(** ** Duplicate registrations *)

(** C8, as the code has it.  The duplicate check is in the handler of
    [OVERLAY_SHOWN], not in [registerOverlay]: in every state reached without
    direct calls of [registerOverlay], handling an [OVERLAY_SHOWN] event for an
    owner and type removes the stored overlay of that owner and type, if any,
    and registers the new one, so that afterwards this owner and type are
    stored exactly once, under the new identifier, and every owner and type
    at most once. *)
Theorem overlay_shown_replaces_duplicate
    (ops : list op) (source : string) (ts : option Z)
    (owner overlayType : string) (options : OverlayOptions)
    (priority duration : option Z) (now : N) :
  let m := run true ops new_manager in
  let event :=
    {| ev_type := Some OVERLAY_SHOWN; ev_source := source; ev_timestamp := ts;
       ev_data := Some (OverlayShownData owner overlayType (Some options)
                          priority duration) |} in
  let m' := handleOverlayShown true event now m in
  Forall (fun o => is_register o = false) ops ->
  (forall id, identity_of m' id = Some (owner, overlayType) <->
              id = overlay_id owner overlayType now) /\
  unique_owner_type m'.
Proof.
  intros m event m' Hops.
  destruct (unique_owner_type_run true ops new_manager Hops wf_new
              unique_owner_type_new) as [Hwf Hu].
  fold m in Hwf, Hu. split.
  - subst m'. unfold handleOverlayShown. simpl.
    destruct (handleOverlayShown_removes true owner overlayType m Hwf Hu)
      as [_ Hno1].
    set (m1 := if hasOverlayByOwnerAndType _ _ _ then _ else _) in *.
    clearbody m1. intros id. rewrite identity_of_registerOverlay.
    case_decide as Hd; [by subst|].
    split; [by intros ?%Hno1|congruence].
  - by apply unique_owner_type_handleOverlayShown.
Qed.


Definition shown_event (owner overlayType : string) : ProtectionEvent :=
  {| ev_type := Some OVERLAY_SHOWN; ev_source := owner; ev_timestamp := Some 1%Z;
     ev_data := Some (OverlayShownData owner overlayType (Some no_overlay_options)
                        (Some 10%Z) None) |}.

Lemma overlay_shown_replaces_duplicate_witness :
  (forall id,
     identity_of
       (handleOverlayShown true (shown_event "devtools" "devtools") 2
          (run true [OverlayShownEvent (shown_event "devtools" "devtools") 1]
             new_manager)) id
     = Some ("devtools", "devtools")
     <-> id = overlay_id "devtools" "devtools" 2) /\
  unique_owner_type
    (handleOverlayShown true (shown_event "devtools" "devtools") 2
       (run true [OverlayShownEvent (shown_event "devtools" "devtools") 1]
          new_manager)).
Proof.
  apply (overlay_shown_replaces_duplicate
           [OverlayShownEvent (shown_event "devtools" "devtools") 1]
           "devtools" (Some 1%Z) "devtools" "devtools" no_overlay_options
           (Some 10%Z) None 2).
  repeat constructor.
Defined.

Example overlay_shown_replaces_duplicate_run :
  view (run true [OverlayShownEvent (shown_event "devtools" "devtools") 1;
                  OverlayShownEvent (shown_event "devtools" "devtools") 2]
          new_manager)
  = ([("overlay-devtools-devtools-2", true, 10%Z)],
     Some "overlay-devtools-devtools-2", []).
Proof. vm_compute. reflexivity. Qed.

(** The claim of C8 fails for [registerOverlay] itself: two calls for the
    same owner and type leave two stored overlays of that owner and type. *)
Lemma registerOverlay_keeps_duplicate :
  map (fun e => (ov_owner e.2, ov_overlayType e.2))
    (overlays (run true [RegisterOverlay "low" "banner" no_overlay_options 1 1;
                         RegisterOverlay "low" "banner" no_overlay_options 1 2]
                 new_manager))
  = [("low", "banner"); ("low", "banner")].
Proof. vm_compute. reflexivity. Qed.

(** ** The queue and removed overlays *)

(** C10 on the code.  [removeOverlayById] of a queued overlay deletes it from
    the map and leaves its identifier in the queue: with "a" (10) active and
    "b" (5), "c" (3) queued, removing "b" leaves the queue [b; c] with "b" no
    longer stored.  Removing "a" then takes the stale "b" from the queue,
    fails to show it, and ends with no active overlay while "c" waits. *)
Theorem removed_overlay_stays_queued :
  view (run true [RegisterOverlay "a" "t" no_overlay_options 10 1;
                  RegisterOverlay "b" "t" no_overlay_options 5 2;
                  RegisterOverlay "c" "t" no_overlay_options 3 3;
                  RemoveOverlayById "overlay-b-t-2"] new_manager)
  = ([("overlay-a-t-1", true, 10%Z); ("overlay-c-t-3", false, 3%Z)],
     Some "overlay-a-t-1", ["overlay-b-t-2"; "overlay-c-t-3"]) /\
  view (run true [RegisterOverlay "a" "t" no_overlay_options 10 1;
                  RegisterOverlay "b" "t" no_overlay_options 5 2;
                  RegisterOverlay "c" "t" no_overlay_options 3 3;
                  RemoveOverlayById "overlay-b-t-2";
                  RemoveOverlayById "overlay-a-t-1"] new_manager)
  = ([("overlay-c-t-3", false, 3%Z)], None, ["overlay-c-t-3"]).
Proof. vm_compute. done. Qed.

End Overlay.

(* ===================================================================== *)
(** * The content-state coordinator ([ProtectedContentManager]) *)
(* ===================================================================== *)

Module Content.

(** [interface StoredContentState]. *)
Record StoredContentState := {
  cs_id : string;
  cs_owner : string;
  cs_reason : string;
  cs_options : PlaceholderOptions;
  cs_priority : Z;
  cs_hiddenAt : N;
}.

(** A callback given to [setContentCallbacks] receives the target element and
    may rewrite it, and may throw: its result is the [innerHTML] it leaves and
    how it ended. *)
Inductive callback_result :=
  | Returned (innerHTML : string)
  | Raised (innerHTML : string).

Definition html_after (r : callback_result) : string :=
  match r with Returned h | Raised h => h end.

(** A DOM element, as far as the manager uses it: the string its [innerHTML]
    getter returns, and the string the getter returns once the setter has been
    given a string.  The setter parses the string into a tree and the getter
    serialises the tree, so what is read back need not be what was assigned
    (a [tr] assigned directly under a [table] is read back inside a
    [tbody]). *)
Record Element := {
  el_innerHTML : string;
  el_parsed : string -> string;
}.

(** The element after something left [html] as its [innerHTML]. *)
Definition holding (html : string) (element : Element) : Element :=
  {| el_innerHTML := html; el_parsed := el_parsed element |}.

(** [element.innerHTML = html]. *)
Definition set_innerHTML (html : string) (element : Element) : Element :=
  holding (el_parsed element html) element.

(** An element whose content reads back as assigned. *)
Definition plain_element (html : string) : Element :=
  {| el_innerHTML := html; el_parsed := fun assigned => assigned |}.

(** The fields of a [ProtectedContentManager] ([targetElement] is [None] when
    there is no element). *)
Record Manager := {
  targetElement : option Element;
  originalContent : option string;
  contentStates : list (string * StoredContentState);
  activeStateId : option string;
  stateQueue : list string;
  lastHideReason : string;
  onContentHiddenCallback : option (string -> string -> callback_result);
  onContentRestoredCallback : option (string -> callback_result);
  errors : nat;
}.

Definition new_manager (element : Element) : Manager :=
  {| targetElement := Some element; originalContent := None;
     contentStates := []; activeStateId := None; stateQueue := [];
     lastHideReason := EmptyString;
     onContentHiddenCallback := None; onContentRestoredCallback := None;
     errors := 0 |}.

Definition with_target (t : option Element) (m : Manager) : Manager :=
  {| targetElement := t; originalContent := originalContent m;
     contentStates := contentStates m; activeStateId := activeStateId m;
     stateQueue := stateQueue m; lastHideReason := lastHideReason m;
     onContentHiddenCallback := onContentHiddenCallback m;
     onContentRestoredCallback := onContentRestoredCallback m;
     errors := errors m |}.

Definition with_original (o : option string) (m : Manager) : Manager :=
  {| targetElement := targetElement m; originalContent := o;
     contentStates := contentStates m; activeStateId := activeStateId m;
     stateQueue := stateQueue m; lastHideReason := lastHideReason m;
     onContentHiddenCallback := onContentHiddenCallback m;
     onContentRestoredCallback := onContentRestoredCallback m;
     errors := errors m |}.

Definition with_states (s : list (string * StoredContentState)) (m : Manager) : Manager :=
  {| targetElement := targetElement m; originalContent := originalContent m;
     contentStates := s; activeStateId := activeStateId m;
     stateQueue := stateQueue m; lastHideReason := lastHideReason m;
     onContentHiddenCallback := onContentHiddenCallback m;
     onContentRestoredCallback := onContentRestoredCallback m;
     errors := errors m |}.

Definition with_active (a : option string) (m : Manager) : Manager :=
  {| targetElement := targetElement m; originalContent := originalContent m;
     contentStates := contentStates m; activeStateId := a;
     stateQueue := stateQueue m; lastHideReason := lastHideReason m;
     onContentHiddenCallback := onContentHiddenCallback m;
     onContentRestoredCallback := onContentRestoredCallback m;
     errors := errors m |}.

Definition with_queue (q : list string) (m : Manager) : Manager :=
  {| targetElement := targetElement m; originalContent := originalContent m;
     contentStates := contentStates m; activeStateId := activeStateId m;
     stateQueue := q; lastHideReason := lastHideReason m;
     onContentHiddenCallback := onContentHiddenCallback m;
     onContentRestoredCallback := onContentRestoredCallback m;
     errors := errors m |}.

Definition with_reason (r : string) (m : Manager) : Manager :=
  {| targetElement := targetElement m; originalContent := originalContent m;
     contentStates := contentStates m; activeStateId := activeStateId m;
     stateQueue := stateQueue m; lastHideReason := r;
     onContentHiddenCallback := onContentHiddenCallback m;
     onContentRestoredCallback := onContentRestoredCallback m;
     errors := errors m |}.

(** [logger.error(...)] in a [catch]. *)
Definition log_error (m : Manager) : Manager :=
  {| targetElement := targetElement m; originalContent := originalContent m;
     contentStates := contentStates m; activeStateId := activeStateId m;
     stateQueue := stateQueue m; lastHideReason := lastHideReason m;
     onContentHiddenCallback := onContentHiddenCallback m;
     onContentRestoredCallback := onContentRestoredCallback m;
     errors := S (errors m) |}.

(** [setContentCallbacks(onHidden, onRestored)]. *)
Definition setContentCallbacks
    (onHidden : option (string -> string -> callback_result))
    (onRestored : option (string -> callback_result)) (m : Manager) : Manager :=
  {| targetElement := targetElement m; originalContent := originalContent m;
     contentStates := contentStates m; activeStateId := activeStateId m;
     stateQueue := stateQueue m; lastHideReason := lastHideReason m;
     onContentHiddenCallback := onHidden;
     onContentRestoredCallback := onRestored;
     errors := errors m |}.

(** [s || d] on an optional string: [undefined] and the empty string are falsy. *)
Definition str_or (s : option string) (d : string) : string :=
  match s with
  | Some v => if Js.nonempty v then v else d
  | None => d
  end.

Definition dquote : string := String (Ascii.ascii_of_nat 34) EmptyString.
Definition nl : string := String (Ascii.ascii_of_nat 10) EmptyString.

(** The inline style of the placeholder: the entries of [placeholderStyles]
    as [key: value], joined by [; ]. *)
Definition styleString (options : PlaceholderOptions) : string :=
  "padding: 20px; textAlign: center; color: "
  +:+ str_or (po_textColor options) "white"
  +:+ "; backgroundColor: "
  +:+ str_or (po_backgroundColor options) "rgba(0, 0, 0, 0.05)"
  +:+ "; borderRadius: 8px; margin: 20px; boxShadow: 0 2px 10px rgba(0, 0, 0, 0.1)".

(** The template literal assigned to [innerHTML] by [hideContent]. *)
Definition placeholder (options : PlaceholderOptions) : string :=
  let color := str_or (po_textColor options) "black" in
  nl +:+ "      <div style=" +:+ dquote +:+ styleString options +:+ dquote +:+ ">"
  +:+ nl +:+ "        <h2 style=" +:+ dquote
  +:+ "font-size: 24px; margin-bottom: 20px; color: " +:+ color +:+ ";"
  +:+ dquote +:+ ">"
  +:+ nl +:+ "          " +:+ str_or (po_title options) "Content Protected"
  +:+ nl +:+ "        </h2>"
  +:+ nl +:+ "        <p style=" +:+ dquote
  +:+ "font-size: 16px; margin-bottom: 15px; color: " +:+ color +:+ ";"
  +:+ dquote +:+ ">"
  +:+ nl +:+ "          "
  +:+ str_or (po_message options) "This content is protected for security reasons."
  +:+ nl +:+ "        </p>"
  +:+ nl +:+ "        "
  +:+ (match po_secondaryMessage options with
       | Some s =>
           if Js.nonempty s then
             nl +:+ "          <p style=" +:+ dquote
             +:+ "font-size: 16px; color: " +:+ color +:+ ";" +:+ dquote +:+ ">"
             +:+ nl +:+ "            " +:+ s
             +:+ nl +:+ "          </p>"
             +:+ nl +:+ "        "
           else EmptyString
       | None => EmptyString
       end)
  +:+ nl +:+ "        <div style=" +:+ dquote
  +:+ "margin-top: 20px; padding-top: 20px; border-top: 1px solid rgba(255, 255, 255, 0.2);"
  +:+ dquote +:+ ">"
  +:+ nl +:+ "          <p style=" +:+ dquote
  +:+ "font-size: 14px; color: " +:+ color +:+ "; opacity: 0.8;" +:+ dquote +:+ ">"
  +:+ nl +:+ "            This content is protected by ContentSecurityToolkit"
  +:+ nl +:+ "          </p>"
  +:+ nl +:+ "        </div>"
  +:+ nl +:+ "      </div>"
  +:+ nl +:+ "    ".

(** [hideContent(options)]. *)
Definition hideContent (options : PlaceholderOptions) (m : Manager) : bool * Manager :=
  match targetElement m with
  | None => (false, m)
  | Some element =>
      let m :=
        match originalContent m with
        | None => with_original (Some (el_innerHTML element)) m
        | Some _ => m
        end in
      let element := set_innerHTML (placeholder options) element in
      let m := with_target (Some element) m in
      match onContentHiddenCallback m with
      | Some callback =>
          match callback (str_or (Some (lastHideReason m)) "unknown")
                  (el_innerHTML element) with
          | Returned h => (true, with_target (Some (holding h element)) m)
          | Raised h => (true, log_error (with_target (Some (holding h element)) m))
          end
      | None => (true, m)
      end
  end.

(** [restoreContent()]. *)
Definition restoreContent (m : Manager) : bool * Manager :=
  match targetElement m, originalContent m with
  | Some element, Some original =>
      let element := set_innerHTML original element in
      let m := with_target (Some element) m in
      let m := with_original None m in
      match onContentRestoredCallback m with
      | Some callback =>
          match callback (el_innerHTML element) with
          | Returned h => (true, with_target (Some (holding h element)) m)
          | Raised h => (true, log_error (with_target (Some (holding h element)) m))
          end
      | None => (true, m)
      end
  | _, _ => (false, m)
  end.

(** The [innerHTML] of the target element. *)
Definition innerHTML (m : Manager) : option string :=
  el_innerHTML <$> targetElement m.

(** [isContentHidden()]. *)
Definition isContentHidden (m : Manager) : bool :=
  match originalContent m with Some _ => true | None => false end.

(** [`content-state-${owner}-${reason}-${Date.now()}`]. *)
Definition state_id (owner reason : string) (now : N) : string :=
  "content-state-" +:+ owner +:+ "-" +:+ reason +:+ "-" +:+ pretty now.

(** The comparator of [addToQueue]. *)
Definition compare_queued (m : Manager) (a b : string) : Z :=
  match Js.mget a (contentStates m), Js.mget b (contentStates m) with
  | Some stateA, Some stateB => (cs_priority stateB - cs_priority stateA)%Z
  | _, _ => 0%Z
  end.

(** [addToQueue(stateId)]. *)
Definition addToQueue (stateId : string) (m : Manager) : Manager :=
  if bool_decide (stateId ∈ stateQueue m) then m
  else with_queue (Js.sort (compare_queued m) (stateQueue m ++ [stateId])) m.

(** [applyContentStateById(stateId)]. *)
Definition applyContentStateById (stateId : string) (m : Manager) : bool * Manager :=
  match Js.mget stateId (contentStates m) with
  | None => (false, m)
  | Some state =>
      let m := with_reason (cs_reason state) m in
      let m := (hideContent (cs_options state) m).2 in
      let m := with_active (Some stateId) m in
      (true, with_queue (filter (fun id => id ≠ stateId) (stateQueue m)) m)
  end.

(** [registerContentState(owner, reason, options, priority)], with the value
    of [Date.now()]. *)
Definition registerContentState (owner reason : string)
    (options : PlaceholderOptions) (priority : Z) (now : N) (m : Manager)
    : string * Manager :=
  let stateId := state_id owner reason now in
  let contentState :=
    {| cs_id := stateId; cs_owner := owner; cs_reason := reason;
       cs_options := options; cs_priority := priority; cs_hiddenAt := now |} in
  let m := with_states (Js.mset stateId contentState (contentStates m)) m in
  match activeStateId m with
  | Some active =>
      if Js.nonempty active then
        let m := addToQueue stateId m in
        match Js.mget active (contentStates m), Js.mget stateId (contentStates m) with
        | Some activeState, Some newState =>
            if (cs_priority activeState <? cs_priority newState)%Z
            then (stateId, (applyContentStateById stateId m).2)
            else (stateId, m)
        | _, _ => (stateId, m)
        end
      else (stateId, (applyContentStateById stateId m).2)
  | None => (stateId, (applyContentStateById stateId m).2)
  end.

(** The loop of [removeContentStatesByOwner] over the collected identifiers. *)
Fixpoint remove_each (ids : list string) (removedCount : nat) (m : Manager)
    : nat * Manager :=
  match ids with
  | [] => (removedCount, m)
  | stateId :: rest =>
      let m := with_states (Js.mdelete stateId (contentStates m)) m in
      let m :=
        if bool_decide (activeStateId m = Some stateId) then
          let m := with_active None m in
          match stateQueue m with
          | nextStateId :: queue =>
              let m := with_queue queue m in
              if Js.nonempty nextStateId
              then (applyContentStateById nextStateId m).2
              else m
          | [] => (restoreContent m).2
          end
        else with_queue (filter (fun id => id ≠ stateId) (stateQueue m)) m in
      remove_each rest (S removedCount) m
  end.

(** [removeContentStatesByOwner(owner)]. *)
Definition removeContentStatesByOwner (owner : string) (m : Manager) : nat * Manager :=
  remove_each
    (Js.mkeys (filter (fun e => cs_owner e.2 = owner) (contentStates m))) 0 m.

(** Consecutive calls of [hideContent], one for each element of [options]. *)
Definition hide_all (options : list PlaceholderOptions) (m : Manager) : Manager :=
  foldl (fun m o => (hideContent o m).2) m options.

(** ** Content round trip *)

(** The callback for restored content, when one is registered, leaves the
    [innerHTML] of the element as it finds it. *)
Definition restored_callback_keeps_element (m : Manager) : Prop :=
  forall callback h,
    onContentRestoredCallback m = Some callback -> html_after (callback h) = h.

(** What a hide keeps of a manager that is already hidden. *)
Lemma hideContent_hidden options m element original :
  targetElement m = Some element -> originalContent m = Some original ->
  (exists h, targetElement (hideContent options m).2 = Some (holding h element)) /\
  originalContent (hideContent options m).2 = Some original /\
  onContentHiddenCallback (hideContent options m).2 = onContentHiddenCallback m /\
  onContentRestoredCallback (hideContent options m).2 = onContentRestoredCallback m.
Proof.
  intros Hh Ho. unfold hideContent. rewrite Hh, Ho. simpl.
  destruct (onContentHiddenCallback m) as [callback|] eqn:Hcb;
    [destruct (callback _ _)|]; simpl; (split; [by eexists|done]).
Qed.

(** The first hide captures the content of the element. *)
Lemma hideContent_first options m element :
  targetElement m = Some element -> originalContent m = None ->
  (exists h, targetElement (hideContent options m).2 = Some (holding h element)) /\
  originalContent (hideContent options m).2 = Some (el_innerHTML element) /\
  onContentHiddenCallback (hideContent options m).2 = onContentHiddenCallback m /\
  onContentRestoredCallback (hideContent options m).2 = onContentRestoredCallback m.
Proof.
  intros Hh Ho. unfold hideContent. rewrite Hh, Ho. simpl.
  destruct (onContentHiddenCallback m) as [callback|] eqn:Hcb;
    [destruct (callback _ _)|]; simpl; (split; [by eexists|done]).
Qed.

Lemma hide_all_hidden options m element original :
  targetElement m = Some element -> originalContent m = Some original ->
  (exists h, targetElement (hide_all options m) = Some (holding h element)) /\
  originalContent (hide_all options m) = Some original /\
  onContentRestoredCallback (hide_all options m) = onContentRestoredCallback m.
Proof.
  revert m element. induction options as [|o options IH]; intros m element Ht Ho.
  { split; [|done]. exists (el_innerHTML element). simpl. by destruct element. }
  destruct (hideContent_hidden o m element original Ht Ho) as ([h Ht1] & Ho1 & _ & Hc2).
  destruct (IH (hideContent o m).2 _ Ht1 Ho1) as ([h' Ht2] & Ho2 & Hc3).
  split; [by exists h'|]. split; [done|]. simpl. by rewrite <-Hc2.
Qed.

(** C3.  Content round trip: for every target element and every sequence of
    one or more consecutive [hideContent] calls, with arbitrary placeholder
    options, on a manager that is not hidden, the first hide captures the
    [innerHTML] of the element (the later ones capture nothing, since
    [originalContent] is no longer [null]); [restoreContent] then succeeds,
    clears [originalContent] and assigns the captured string to
    [innerHTML], so that the element holds what its setter and getter make of
    the captured string, and after that what the callback for restored
    content, when one is registered, leaves in it.  It is exactly the
    [innerHTML] before the first hide when the captured string reads back as
    assigned and the callback does not rewrite the element. *)
Theorem content_round_trip (m : Manager) (element : Element)
    (first : PlaceholderOptions) (more : list PlaceholderOptions) :
  targetElement m = Some element ->
  originalContent m = None ->
  let hidden := hide_all (first :: more) m in
  let read_back := el_parsed element (el_innerHTML element) in
  originalContent hidden = Some (el_innerHTML element) /\
  (restoreContent hidden).1 = true /\
  innerHTML (restoreContent hidden).2
  = Some (match onContentRestoredCallback m with
          | Some callback => html_after (callback read_back)
          | None => read_back
          end) /\
  originalContent (restoreContent hidden).2 = None /\
  (read_back = el_innerHTML element -> restored_callback_keeps_element m ->
   innerHTML (restoreContent hidden).2 = Some (el_innerHTML element)).
Proof.
  intros Ht Ho hidden read_back.
  destruct (hideContent_first first m element Ht Ho) as ([h1 Ht1] & Ho1 & _ & Hc1).
  destruct (hide_all_hidden more (hideContent first m).2 _ _ Ht1 Ho1)
    as ([h Ht2] & Ho2 & Hc2).
  change (hide_all more (hideContent first m).2) with hidden in Ht2, Ho2, Hc2.
  assert (Hread : innerHTML (restoreContent hidden).2
                  = Some (match onContentRestoredCallback m with
                          | Some callback => html_after (callback read_back)
                          | None => read_back
                          end)).
  { unfold restoreContent, innerHTML. rewrite Ht2, Ho2. simpl.
    rewrite Hc2, Hc1.
    destruct (onContentRestoredCallback m) as [callback|]; [|done].
    fold read_back. by destruct (callback read_back). }
  split; [done|]. split.
  { unfold restoreContent. rewrite Ht2, Ho2. simpl.
    destruct (onContentRestoredCallback hidden) as [callback|]; [|done].
    by destruct (callback _). }
  split; [done|]. split.
  { unfold restoreContent. rewrite Ht2, Ho2. simpl.
    destruct (onContentRestoredCallback hidden) as [callback|]; [|done].
    by destruct (callback _). }
  intros Hsame Hcb. rewrite Hread.
  destruct (onContentRestoredCallback m) as [callback|] eqn:Hc.
  - by rewrite (Hcb callback read_back Hc), Hsame.
  - by rewrite Hsame.
Qed.

Definition title_options (t : string) : PlaceholderOptions :=
  {| po_title := Some t; po_message := None; po_secondaryMessage := None;
     po_textColor := None; po_backgroundColor := None |}.

Definition secret : Element := plain_element "<p>secret</p>".

(** The scenario of the specification: hide with title "A", hide with title
    "B", restore. *)
Lemma content_round_trip_witness :
  originalContent (hide_all [title_options "A"; title_options "B"] (new_manager secret))
  = Some "<p>secret</p>" /\
  (restoreContent
     (hide_all [title_options "A"; title_options "B"] (new_manager secret))).1
  = true /\
  innerHTML
    (restoreContent
       (hide_all [title_options "A"; title_options "B"] (new_manager secret))).2
  = Some "<p>secret</p>" /\
  originalContent
    (restoreContent
       (hide_all [title_options "A"; title_options "B"] (new_manager secret))).2
  = None /\
  innerHTML
    (restoreContent
       (hide_all [title_options "A"; title_options "B"] (new_manager secret))).2
  = Some "<p>secret</p>".
Proof.
  pose proof (content_round_trip (new_manager secret) secret
                (title_options "A") [title_options "B"] eq_refl eq_refl)
    as (H1 & H2 & H3 & H4 & H5).
  split; [exact H1|]. split; [exact H2|]. split; [exact H3|]. split; [exact H4|].
  apply H5; [reflexivity|]. intros callback h. discriminate.
Defined.

(** A [table] whose rows were appended to it through the DOM serialises with
    a [tr] directly under the [table]; the parser puts the rows of a table in
    a [tbody]. *)
Definition table_rows : string := "<table><tr><td>secret</td></tr></table>".
Definition table_body : string :=
  "<table><tbody><tr><td>secret</td></tr></tbody></table>".

Definition table_element : Element :=
  {| el_innerHTML := table_rows;
     el_parsed := fun assigned =>
       if bool_decide (assigned = table_rows) then table_body else assigned |}.

(** The claim of C3 fails for an element whose content does not read back as
    assigned, and for a callback that mounts something else in the element
    it is given: one hide and one restore leave the element with another
    [innerHTML] than it had. *)
Lemma content_round_trip_altered :
  (innerHTML (new_manager table_element) = Some table_rows /\
   (restoreContent (hide_all [title_options "A"] (new_manager table_element))).1 = true /\
   innerHTML (restoreContent (hide_all [title_options "A"] (new_manager table_element))).2
   = Some table_body /\
   table_body <> table_rows) /\
  innerHTML
    (restoreContent
       (hide_all [title_options "A"]
          (setContentCallbacks None (Some (fun _ => Returned "<main></main>"))
             (new_manager secret)))).2
  = Some "<main></main>".
Proof. vm_compute. repeat split. discriminate. Qed.

(** Removing the only content state restores the content; removing a queued
    state takes it out of the queue. *)
Example remove_last_state_restores :
  (fun m => (innerHTML m, activeStateId m, stateQueue m)) 
    (removeContentStatesByOwner "devtools"
       (registerContentState "devtools" "devtools_opened" (title_options "A") 10 1
          (new_manager secret)).2).2
  = (Some "<p>secret</p>", None, []).
Proof. vm_compute. reflexivity. Qed.

Example remove_queued_state_dequeues :
  (fun m => (activeStateId m, stateQueue m))
    (removeContentStatesByOwner "screenshot"
       (registerContentState "screenshot" "attempt" (title_options "B") 5 2
          (registerContentState "devtools" "devtools_opened" (title_options "A") 10 1
             (new_manager secret)).2).2).2
  = (Some "content-state-devtools-devtools_opened-1", []).
Proof. vm_compute. reflexivity. Qed.

End Content.

(* ===================================================================== *)
(** * The strategy event handlers *)
(* ===================================================================== *)

Module Handlers.

Import Mediator.

(** Reading a field of [event.data]: a payload without the field gives
    [undefined]. *)
Definition data_isOpen (d : EventData) : option bool :=
  match d with
  | DevToolsData isOpen _ _ _ _ => Some isOpen
  | _ => None
  end.

Definition data_showOverlay (d : EventData) : option bool :=
  match d with
  | DevToolsData _ _ showOverlay _ _ => showOverlay
  | ExtensionData _ showOverlay _ _ _ _ _ => showOverlay
  | ScreenshotData showOverlay _ _ _ _ _ _ => showOverlay
  | FrameEmbeddingData _ _ _ _ showOverlay _ _ => showOverlay
  | _ => None
  end.

Definition data_hideContent (d : EventData) : option bool :=
  match d with
  | DevToolsData _ _ _ _ hideContent => hideContent
  | ExtensionData _ _ _ hideContent _ _ _ => hideContent
  | ScreenshotData _ hideContent _ _ _ _ _ => hideContent
  | FrameEmbeddingData _ _ _ _ _ hideContent _ => hideContent
  | _ => None
  end.

Definition data_overlayOptions (d : EventData) : option OverlayOptions :=
  match d with
  | DevToolsData _ _ _ overlayOptions _ => overlayOptions
  | ExtensionData _ _ overlayOptions _ _ _ _ => overlayOptions
  | ScreenshotData _ _ overlayOptions _ _ _ _ => overlayOptions
  | FrameEmbeddingData _ _ _ _ _ _ overlayOptions => overlayOptions
  | _ => None
  end.

Definition data_target (d : EventData) : option ElementRef :=
  match d with
  | DevToolsData _ target _ _ _ => target
  | ExtensionData _ _ _ _ _ _ target => target
  | ScreenshotData _ _ _ _ _ _ target => target
  | _ => None
  end.

Definition data_targetElement (d : EventData) : option ElementRef :=
  match d with
  | FrameEmbeddingData _ _ _ targetElement _ _ _ => targetElement
  | ContentHiddenData _ _ _ targetElement _ => targetElement
  | ContentRestoredData _ targetElement => targetElement
  | _ => None
  end.

Definition data_priority (d : EventData) : option Z :=
  match d with
  | ExtensionData _ _ _ _ priority _ _ => priority
  | ScreenshotData _ _ _ _ priority _ _ => priority
  | ContentHiddenData _ _ _ _ priority => priority
  | OverlayShownData _ _ _ priority _ => priority
  | _ => None
  end.

Definition data_extension (d : EventData) : option ExtensionConfig :=
  match d with
  | ExtensionData extension _ _ _ _ _ _ => extension
  | _ => None
  end.

Definition data_isEmbedded (d : EventData) : option bool :=
  match d with
  | FrameEmbeddingData isEmbedded _ _ _ _ _ _ => Some isEmbedded
  | _ => None
  end.

Definition data_isExternalFrame (d : EventData) : option bool :=
  match d with
  | FrameEmbeddingData _ isExternalFrame _ _ _ _ _ => Some isExternalFrame
  | _ => None
  end.

(** [{ ...overlayOptions, blockEvents, autoRestore }]. *)
Definition spread_overlay (o : option OverlayOptions) (blockEvents autoRestore : bool)
    (additionalContent : option string) : OverlayOptions :=
  let o := default no_overlay_options o in
  {| oo_title := oo_title o; oo_message := oo_message o;
     oo_secondaryMessage := oo_secondaryMessage o;
     oo_textColor := oo_textColor o;
     oo_backgroundColor := oo_backgroundColor o;
     oo_duration := oo_duration o;
     oo_blockEvents := Some blockEvents;
     oo_autoRestore := Some autoRestore;
     oo_showCloseButton := oo_showCloseButton o;
     oo_additionalContent :=
       match additionalContent with
       | Some c => Some c
       | None => oo_additionalContent o
       end |}.

(** An event as the handlers build it: the timestamp is [Date.now()]. *)
Definition make_event (t : ProtectionEventType) (source : string) (now : Z)
    (d : EventData) : ProtectionEvent :=
  {| ev_type := Some t; ev_source := source; ev_timestamp := Some now;
     ev_data := Some d |}.

(** A string [s || d] whose left side may be [undefined]. *)
Definition str_or (s : option string) (d : string) : option string :=
  match s with
  | Some v => if Js.nonempty v then Some v else Some d
  | None => Some d
  end.

(** ** [DevToolsEventHandler] *)

Definition DEVTOOLS_HANDLER : string := "DevToolsEventHandler".

(** [handleDevToolsOpened(event)]. *)
Definition handleDevToolsOpened (data : EventData) (now : Z) : list action :=
  (if bool_decide (data_showOverlay data ≠ Some false) then
     [APublish (make_event OVERLAY_SHOWN DEVTOOLS_HANDLER now
        (OverlayShownData DEVTOOLS_HANDLER "devtools"
           (Some (spread_overlay (data_overlayOptions data) true true None))
           (Some 10%Z) None))]
   else []) ++
  (if bool_decide (data_hideContent data = Some true) then
     [APublish (make_event CONTENT_HIDDEN DEVTOOLS_HANDLER now
        (ContentHiddenData DEVTOOLS_HANDLER "devtools_opened"
           (Some {| po_title := data_overlayOptions data ≫= oo_title;
                    po_message := data_overlayOptions data ≫= oo_message;
                    po_secondaryMessage :=
                      data_overlayOptions data ≫= oo_secondaryMessage;
                    po_textColor := Some "black";
                    po_backgroundColor :=
                      data_overlayOptions data ≫= oo_backgroundColor |})
           (data_target data) (Some 10%Z)))]
   else []).

(** [handleDevToolsClosed(event)]. *)
Definition handleDevToolsClosed (data : EventData) (now : Z) : list action :=
  (if bool_decide (data_showOverlay data ≠ Some false) then
     [APublish (make_event OVERLAY_REMOVED DEVTOOLS_HANDLER now
        (OverlayRemovedData DEVTOOLS_HANDLER "devtools" (Some "devtools_closed")))]
   else []) ++
  (if bool_decide (data_hideContent data = Some true) then
     [APublish (make_event CONTENT_RESTORED DEVTOOLS_HANDLER now
        (ContentRestoredData DEVTOOLS_HANDLER (data_target data)))]
   else []).

(** [handleDevToolsStateChange(event)].  Reading [event.data.isOpen] of an
    event without data throws. *)
Definition handleDevToolsStateChange (event : ProtectionEvent) (now : Z) : list action :=
  if negb (isEventType event DEVTOOLS_STATE_CHANGE) then []
  else
    match ev_data event with
    | None => [AThrow]
    | Some data =>
        if Js.truthy (data_isOpen data) then handleDevToolsOpened data now
        else handleDevToolsClosed data now
    end.

(** ** [FrameEmbeddingEventHandler] *)

Definition FRAME_HANDLER : string := "FrameEmbeddingEventHandler".

(** [handleFrameEmbeddingDetected(event)]. *)
Definition handleFrameEmbeddingDetected (event : ProtectionEvent) (now : Z) : list action :=
  match ev_data event with
  | None => []
  | Some data =>
      if Js.truthy (data_isEmbedded data) && Js.truthy (data_isExternalFrame data) then
        (if Js.truthy (data_showOverlay data) then
           [APublish (make_event OVERLAY_SHOWN FRAME_HANDLER now
              (OverlayShownData FRAME_HANDLER "frame_embedding"
                 (Some (spread_overlay (data_overlayOptions data) true true None))
                 (Some 9%Z) None))]
         else []) ++
        (if Js.truthy (data_hideContent data) then
           [APublish (make_event CONTENT_HIDDEN FRAME_HANDLER now
              (ContentHiddenData FRAME_HANDLER "frame_embedding"
                 (Some {| po_title := data_overlayOptions data ≫= oo_title;
                          po_message := data_overlayOptions data ≫= oo_message;
                          po_secondaryMessage :=
                            data_overlayOptions data ≫= oo_secondaryMessage;
                          po_textColor := Some "black";
                          po_backgroundColor := Some "rgba(0, 0, 0, 0.05)" |})
                 (data_targetElement data) (Some 9%Z)))]
         else [])
      else []
  end.

(** ** [BrowserExtensionEventHandler] *)

Definition EXTENSION_HANDLER : string := "BrowserExtensionEventHandler".

(** [String.prototype.toUpperCase] on the letters a to z. *)
Definition upper_char (c : Ascii.ascii) : Ascii.ascii :=
  let n := Ascii.nat_of_ascii c in
  if (97 <=? n) && (n <=? 122) then Ascii.ascii_of_nat (n - 32) else c.

Fixpoint toUpperCase (s : string) : string :=
  match s with
  | EmptyString => EmptyString
  | String c s' => String (upper_char c) (toUpperCase s')
  end.

(** The [additionalContent] of the extension overlay. *)
Definition extension_content (extensionConfig : ExtensionConfig) : string :=
  Content.nl
  +:+ "        <p style=" +:+ Content.dquote
  +:+ "font-size: 18px; margin-top: 20px;" +:+ Content.dquote
  +:+ ">Detected: " +:+ ext_name extensionConfig +:+ "</p>" +:+ Content.nl
  +:+ "        <p style=" +:+ Content.dquote
  +:+ "font-size: 14px; margin-top: 10px;" +:+ Content.dquote
  +:+ ">Risk Level: " +:+ toUpperCase (ext_risk extensionConfig) +:+ "</p>"
  +:+ Content.nl
  +:+ "        <button id=" +:+ Content.dquote +:+ "extension-protection-close"
  +:+ Content.dquote +:+ " style=" +:+ Content.dquote
  +:+ "margin-top: 20px; padding: 10px 20px; background-color: white; color: black; border: none; border-radius: 4px; cursor: pointer; pointer-events: auto;"
  +:+ Content.dquote +:+ ">" +:+ Content.nl
  +:+ "          I've Disabled the Extension" +:+ Content.nl
  +:+ "        </button>" +:+ Content.nl
  +:+ "      ".

(** [applyExtensionProtection(event)].  With [showOverlay] set it reads
    [extensionConfig.name] of [data.extension], which throws when there is
    none. *)
Definition applyExtensionProtection (data : EventData) (now : Z) : list action :=
  (if Js.truthy (data_hideContent data) then
     [APublish (make_event CONTENT_HIDDEN EXTENSION_HANDLER now
        (ContentHiddenData EXTENSION_HANDLER "extension_detected"
           (Some {| po_title := data_overlayOptions data ≫= oo_title;
                    po_message := data_overlayOptions data ≫= oo_message;
                    po_secondaryMessage :=
                      Some (Content.dquote
                            +:+ match data_extension data with
                                | Some c => ext_name c
                                | None => "undefined"
                                end
                            +:+ Content.dquote +:+ " triggered this warning");
                    po_textColor := Some "black";
                    po_backgroundColor := Some "rgba(0, 0, 0, 0.05)" |})
           (data_target data) (Some 8%Z)))]
   else []) ++
  (if Js.truthy (data_showOverlay data) then
     match data_extension data with
     | None => [AThrow]
     | Some extensionConfig =>
         [APublish (make_event OVERLAY_SHOWN EXTENSION_HANDLER now
            (OverlayShownData EXTENSION_HANDLER "extension"
               (Some (spread_overlay (data_overlayOptions data) true true
                        (Some (extension_content extensionConfig))))
               (Some 8%Z) None))]
     end
   else []).

(** [removeExtensionProtection(event)]. *)
Definition removeExtensionProtection (data : EventData) (now : Z) : list action :=
  (if Js.truthy (data_hideContent data) then
     [APublish (make_event CONTENT_RESTORED EXTENSION_HANDLER now
        (ContentRestoredData EXTENSION_HANDLER (data_target data)))]
   else []) ++
  (if Js.truthy (data_showOverlay data) then
     [APublish (make_event OVERLAY_REMOVED EXTENSION_HANDLER now
        (OverlayRemovedData EXTENSION_HANDLER "extension" (Some "extension_removed")))]
   else []).

(** [handleExtensionDetected(event)]. *)
Definition handleExtensionDetected (event : ProtectionEvent) (now : Z) : list action :=
  if negb (isEventType event EXTENSION_DETECTED) then []
  else
    match ev_data event with
    | None => [AThrow]
    | Some data =>
        match data_extension data with
        | Some _ => applyExtensionProtection data now
        | None => removeExtensionProtection data now
        end
    end.

(** ** [ScreenshotEventHandler] *)

(** [handleScreenshotAttempt(event)].  The timer that later publishes
    [CONTENT_RESTORED] is not part of this call. *)
Definition handleScreenshotAttempt (event : ProtectionEvent) (now : Z) : list action :=
  match ev_data event with
  | None => [AThrow]
  | Some data =>
      (if Js.truthy (data_showOverlay data) then
         [APublish (make_event OVERLAY_SHOWN (ev_source event) now
            (OverlayShownData (ev_source event) "screenshot"
               (Some (spread_overlay (data_overlayOptions data) false true None))
               (Some (Js.num_or (data_priority data) 5))
               (Some (Js.num_or (data_overlayOptions data ≫= oo_duration) 3000))))]
       else []) ++
      (if Js.truthy (data_hideContent data) then
         [APublish (make_event CONTENT_HIDDEN (ev_source event) now
            (ContentHiddenData (ev_source event) "screenshot_attempt"
               (Some {| po_title := data_overlayOptions data ≫= oo_title;
                        po_message := data_overlayOptions data ≫= oo_message;
                        po_secondaryMessage :=
                          data_overlayOptions data ≫= oo_secondaryMessage;
                        po_textColor := Some "black";
                        po_backgroundColor :=
                          str_or (data_overlayOptions data ≫= oo_backgroundColor)
                            "rgba(0, 0, 0, 0.05)" |})
               (data_target data)
               (Some (Js.num_or (data_priority data) 5))))]
       else [])
  end.

(** ** The priorities the handlers publish *)

(** The events a handler publishes, in order. *)
Definition published (acts : list action) : list ProtectionEvent :=
  omap (fun a => match a with APublish e => Some e | _ => None end) acts.

(** The [OVERLAY_SHOWN] and [CONTENT_HIDDEN] events among them. *)
Definition protections (acts : list action) : list ProtectionEvent :=
  filter (fun e => isEventType e OVERLAY_SHOWN || isEventType e CONTENT_HIDDEN = true)
    (published acts).

(** The [priority] an event carries in its data. *)
Definition event_priority (e : ProtectionEvent) : option Z :=
  ev_data e ≫= data_priority.

Lemma protections_app a b : protections (a ++ b) = protections a ++ protections b.
Proof. unfold protections, published. by rewrite omap_app, filter_app. Qed.

Lemma Forall_protections_if (P : ProtectionEvent -> Prop) (c : bool) (acts : list action) :
  Forall P (protections acts) -> Forall P (protections (if c then acts else [])).
Proof. destruct c; [done|]. intros _. constructor. Qed.

(** C9, as the code has it.  Static per-feature priorities: every
    [OVERLAY_SHOWN] or [CONTENT_HIDDEN] event published by the DevTools, the
    frame-embedding and the extension event handler carries the constant
    priority 10, 9 and 8, whatever the triggering event holds; the screenshot
    event handler publishes the [priority] of the triggering event's data,
    and 5 when that is absent or zero. *)
Theorem handler_priorities (event : ProtectionEvent) (now : Z) :
  Forall (fun e => event_priority e = Some 10%Z)
    (protections (handleDevToolsStateChange event now)) /\
  Forall (fun e => event_priority e = Some 9%Z)
    (protections (handleFrameEmbeddingDetected event now)) /\
  Forall (fun e => event_priority e = Some 8%Z)
    (protections (handleExtensionDetected event now)) /\
  Forall (fun e => event_priority e
                   = Some (Js.num_or (ev_data event ≫= data_priority) 5))
    (protections (handleScreenshotAttempt event now)).
Proof.
  repeat split.
  - unfold handleDevToolsStateChange.
    destruct (negb _); [constructor|].
    destruct (ev_data event) as [data|]; [|constructor].
    destruct (Js.truthy _).
    + unfold handleDevToolsOpened. rewrite protections_app. apply Forall_app.
      split; apply Forall_protections_if; by repeat constructor.
    + unfold handleDevToolsClosed. rewrite protections_app. apply Forall_app.
      split; apply Forall_protections_if; constructor.
  - unfold handleFrameEmbeddingDetected.
    destruct (ev_data event) as [data|]; [|constructor].
    destruct (_ && _); [|constructor]. rewrite protections_app. apply Forall_app.
    split; apply Forall_protections_if; by repeat constructor.
  - unfold handleExtensionDetected.
    destruct (negb _); [constructor|].
    destruct (ev_data event) as [data|]; [|constructor].
    destruct (data_extension data) as [c|] eqn:Hc.
    + unfold applyExtensionProtection. rewrite Hc, protections_app.
      apply Forall_app.
      split; apply Forall_protections_if; by repeat constructor.
    + unfold removeExtensionProtection. rewrite protections_app. apply Forall_app.
      split; apply Forall_protections_if; constructor.
  - unfold handleScreenshotAttempt.
    destruct (ev_data event) as [data|]; [|constructor].
    rewrite protections_app. apply Forall_app.
    split; apply Forall_protections_if; by repeat constructor.
Qed.

Definition screenshot_event (priority : option Z) : ProtectionEvent :=
  make_event SCREENSHOT_ATTEMPT "ScreenshotStrategy" 1
    (ScreenshotData (Some true) (Some true) None None priority
       "screenshot_attempt" None).

(** The claim of C9 fails for the screenshot handler: a triggering event
    with [priority: 20] makes it publish both events with priority 20, not 5. *)
Lemma screenshot_priority_from_event :
  map event_priority (protections (handleScreenshotAttempt (screenshot_event (Some 20%Z)) 2))
  = [Some 20%Z; Some 20%Z].
Proof. vm_compute. reflexivity. Qed.

Example screenshot_priority_default :
  map event_priority (protections (handleScreenshotAttempt (screenshot_event None) 2))
  = [Some 5%Z; Some 5%Z].
Proof. vm_compute. reflexivity. Qed.

End Handlers.

(* ===================================================================== *)
(** * The detection strategies *)
(* ===================================================================== *)

Module Strategies.

(** How a user-supplied custom handler ends. *)
Inductive outcome := Ok | Fails.

(** ** [DevToolsStrategy] *)

(** The fields [handleDevToolsStateChange] reads and writes.  [mediator] tells
    whether a mediator was set; [errors] counts the reports of [handleError]. *)
Record DevToolsStrategy := {
  isDevToolsOpen : bool;
  dt_mediator : bool;
  dt_showOverlay : option bool;
  dt_overlayOptions : option OverlayOptions;
  dt_hideContent : option bool;
  dt_targetElement : option ElementRef;
  dt_customHandler : option (bool -> outcome);
  dt_errors : nat;
}.

Definition DEVTOOLS_STRATEGY : string := "DevToolsStrategy".

(** [handleDevToolsStateChange(isOpen)], inside [safeExecute]: the new state
    and the events published on the mediator. *)
Definition handleDevToolsStateChange (isOpen : bool) (now : Z) (s : DevToolsStrategy)
    : DevToolsStrategy * list ProtectionEvent :=
  if bool_decide (isOpen ≠ isDevToolsOpen s) then
    let published :=
      if dt_mediator s then
        [Handlers.make_event DEVTOOLS_STATE_CHANGE DEVTOOLS_STRATEGY now
           (DevToolsData isOpen (dt_targetElement s) (dt_showOverlay s)
              (dt_overlayOptions s) (dt_hideContent s))]
      else [] in
    let failed :=
      match dt_customHandler s with
      | Some handler => match handler isOpen with Ok => 0 | Fails => 1 end
      | None => 0
      end in
    ({| isDevToolsOpen := isOpen; dt_mediator := dt_mediator s;
        dt_showOverlay := dt_showOverlay s;
        dt_overlayOptions := dt_overlayOptions s;
        dt_hideContent := dt_hideContent s;
        dt_targetElement := dt_targetElement s;
        dt_customHandler := dt_customHandler s;
        dt_errors := dt_errors s + failed |}, published)
  else (s, []).

(** ** [BrowserExtensionDetectionStrategy] *)

Record ExtensionStrategy := {
  detectedExtensions : list string;
  extensionsConfig : list (string * ExtensionConfig);
  ex_mediator : bool;
  ex_showOverlay : option bool;
  ex_overlayOptions : option OverlayOptions;
  ex_hideContent : option bool;
  ex_targetElement : option ElementRef;
  ex_customHandler : option (string -> string -> string -> outcome);
  ex_errors : nat;
}.

Definition EXTENSION_STRATEGY : string := "BrowserExtensionDetectionStrategy".

Definition unknown_extension : ExtensionConfig :=
  {| ext_name := "Unknown Extension"; ext_risk := "medium" |}.

(** [handleDetection(extensionId, detectionType, details)], inside
    [safeExecute]. *)
Definition handleDetection (extensionId : string) (now : Z) (s : ExtensionStrategy)
    : ExtensionStrategy * list ProtectionEvent :=
  if negb (Js.nonempty extensionId) then
    ({| detectedExtensions := detectedExtensions s;
        extensionsConfig := extensionsConfig s; ex_mediator := ex_mediator s;
        ex_showOverlay := ex_showOverlay s;
        ex_overlayOptions := ex_overlayOptions s;
        ex_hideContent := ex_hideContent s;
        ex_targetElement := ex_targetElement s;
        ex_customHandler := ex_customHandler s;
        ex_errors := S (ex_errors s) |}, [])
  else if bool_decide (extensionId ∈ detectedExtensions s) then (s, [])
  else
    let extensionConfig :=
      default unknown_extension (Js.mget extensionId (extensionsConfig s)) in
    let failed :=
      match ex_customHandler s with
      | Some handler =>
          match handler extensionId (ext_name extensionConfig) (ext_risk extensionConfig) with
          | Ok => 0
          | Fails => 1
          end
      | None => 0
      end in
    let published :=
      if ex_mediator s then
        [Handlers.make_event EXTENSION_DETECTED EXTENSION_STRATEGY now
           (ExtensionData (Some extensionConfig) (ex_showOverlay s)
              (ex_overlayOptions s) (ex_hideContent s) (Some 8%Z)
              "extension_detected" (ex_targetElement s))]
      else [] in
    ({| detectedExtensions := detectedExtensions s ++ [extensionId];
        extensionsConfig := extensionsConfig s; ex_mediator := ex_mediator s;
        ex_showOverlay := ex_showOverlay s;
        ex_overlayOptions := ex_overlayOptions s;
        ex_hideContent := ex_hideContent s;
        ex_targetElement := ex_targetElement s;
        ex_customHandler := ex_customHandler s;
        ex_errors := ex_errors s + failed |}, published).

(** ** [FrameEmbeddingProtectionStrategy] *)

(** What the strategy observes of the window: whether [window.self] differs
    from [window.top], the host name of the parent ([None]: reading it throws
    a security exception), and the host name of the page. *)
Record Window := {
  in_frame : bool;
  parentHostname : option string;
  currentHostname : string;
}.

Record FrameStrategy := {
  isEmbedded : bool;
  isExternalFrame : bool;
  parentDomain : option string;
  fr_allowedDomains : option (list string);
  fr_blockAllFrames : option bool;
  fr_showOverlay : option bool;
  fr_hideContent : option bool;
  fr_overlayOptions : option OverlayOptions;
  fr_targetElement : option ElementRef;
  fr_mediator : bool;
  fr_customHandler : option (bool -> bool -> outcome);
  fr_errors : nat;
}.

Definition FRAME_STRATEGY : string := "FrameEmbeddingProtectionStrategy".

Definition with_frame (e x : bool) (p : option string) (s : FrameStrategy) : FrameStrategy :=
  {| isEmbedded := e; isExternalFrame := x; parentDomain := p;
     fr_allowedDomains := fr_allowedDomains s;
     fr_blockAllFrames := fr_blockAllFrames s;
     fr_showOverlay := fr_showOverlay s; fr_hideContent := fr_hideContent s;
     fr_overlayOptions := fr_overlayOptions s;
     fr_targetElement := fr_targetElement s; fr_mediator := fr_mediator s;
     fr_customHandler := fr_customHandler s; fr_errors := fr_errors s |}.

(** [checkIfEmbedded()] in a browser. *)
Definition checkIfEmbedded (w : Window) (s : FrameStrategy) : bool * FrameStrategy :=
  if in_frame w then
    let '(external, parent) :=
      match parentHostname w with
      | Some parentHostname =>
          let external := bool_decide (parentHostname ≠ currentHostname w) in
          let external :=
            match fr_allowedDomains s with
            | Some allowed =>
                if external && (0 <? length allowed)
                then negb (bool_decide (parentHostname ∈ allowed))
                else external
            | None => external
            end in
          (external, Some parentHostname)
      | None => (true, None)
      end in
    let external := if Js.truthy (fr_blockAllFrames s) then true else external in
    (external, with_frame true external parent s)
  else (false, with_frame false (isExternalFrame s) (parentDomain s) s).

(** [publishFrameEmbeddingEvent()] in a browser. *)
Definition publishFrameEmbeddingEvent (now : Z) (s : FrameStrategy)
    : FrameStrategy * list ProtectionEvent :=
  if fr_mediator s then
    let failed :=
      match fr_customHandler s with
      | Some handler =>
          match handler (isEmbedded s) (isExternalFrame s) with Ok => 0 | Fails => 1 end
      | None => 0
      end in
    ({| isEmbedded := isEmbedded s; isExternalFrame := isExternalFrame s;
        parentDomain := parentDomain s;
        fr_allowedDomains := fr_allowedDomains s;
        fr_blockAllFrames := fr_blockAllFrames s;
        fr_showOverlay := fr_showOverlay s; fr_hideContent := fr_hideContent s;
        fr_overlayOptions := fr_overlayOptions s;
        fr_targetElement := fr_targetElement s; fr_mediator := fr_mediator s;
        fr_customHandler := fr_customHandler s;
        fr_errors := fr_errors s + failed |},
     [Handlers.make_event FRAME_EMBEDDING_DETECTED FRAME_STRATEGY now
        (FrameEmbeddingData (isEmbedded s) (isExternalFrame s)
           (match parentDomain s with
            | Some d => if Js.nonempty d then Some d else None
            | None => None
            end)
           (fr_targetElement s) (fr_showOverlay s) (fr_hideContent s)
           (fr_overlayOptions s))])
  else (s, []).

(** The periodic task registered by [apply()]: every two seconds. *)
Definition intervalTask (w : Window) (now : Z) (s : FrameStrategy)
    : FrameStrategy * list ProtectionEvent :=
  let '(currentlyEmbedded, s) := checkIfEmbedded w s in
  if currentlyEmbedded then publishFrameEmbeddingEvent now s else (s, []).

(** ** Two observations of the same condition *)

(** The events of two consecutive observations. *)
Definition twice {S A : Type} (f : S -> S * list A) (s : S) : list A * list A :=
  ((f s).2, (f (f s).1).2).

(** The events the DevTools event handler publishes for a detection event of
    the DevTools strategy. *)
Definition devtools_protections (e : ProtectionEvent) (now : Z) : list ProtectionEvent :=
  Handlers.protections (Handlers.handleDevToolsStateChange e now).

Lemma handleDevToolsStateChange_again isOpen now now' d :
  (handleDevToolsStateChange isOpen now' (handleDevToolsStateChange isOpen now d).1).2 = [].
Proof.
  unfold handleDevToolsStateChange at 2.
  case_bool_decide as Hne; simpl.
  - unfold handleDevToolsStateChange. simpl.
    rewrite bool_decide_false; [done|]. intros Hc. by apply Hc.
  - unfold handleDevToolsStateChange.
    rewrite bool_decide_false; [done|]. intros Hc. by apply Hc.
Qed.

Lemma handleDevToolsStateChange_first isOpen now d :
  length (handleDevToolsStateChange isOpen now d).2
  = (if dt_mediator d && bool_decide (isOpen ≠ isDevToolsOpen d) then 1 else 0).
Proof.
  unfold handleDevToolsStateChange.
  case_bool_decide; simpl; [|by rewrite andb_false_r].
  rewrite andb_true_r. by destruct (dt_mediator d).
Qed.

Lemma handleDetection_again extensionId now now' x :
  (handleDetection extensionId now' (handleDetection extensionId now x).1).2 = [].
Proof.
  unfold handleDetection at 2.
  destruct (Js.nonempty extensionId) eqn:Hid; simpl.
  - case_bool_decide as Hin; simpl.
    + unfold handleDetection. rewrite Hid. simpl. by rewrite bool_decide_true.
    + unfold handleDetection. rewrite Hid. simpl.
      by rewrite bool_decide_true
        by (apply elem_of_app; right; by apply list_elem_of_singleton).
  - unfold handleDetection. by rewrite Hid.
Qed.

Lemma handleDetection_first extensionId now x :
  length (handleDetection extensionId now x).2
  = (if ex_mediator x && Js.nonempty extensionId
        && negb (bool_decide (extensionId ∈ detectedExtensions x))
     then 1 else 0).
Proof.
  unfold handleDetection.
  destruct (Js.nonempty extensionId); simpl; [|by rewrite andb_false_r].
  case_bool_decide; simpl; [by rewrite andb_false_r|].
  rewrite !andb_true_r. by destruct (ex_mediator x).
Qed.

(** The events the extension event handler publishes for a detection event
    of the extension strategy. *)
Definition extension_protections (e : ProtectionEvent) (now : Z) : list ProtectionEvent :=
  Handlers.protections (Handlers.handleExtensionDetected e now).

(** The number of events of one type among published events. *)
Definition count_of (t : ProtectionEventType) (events : list ProtectionEvent) : nat :=
  length (filter (fun p => isEventType p t = true) events).

Lemma devtools_protections_once isOpen now now' d :
  Forall (fun e =>
            count_of OVERLAY_SHOWN (devtools_protections e now')
            = (if isOpen && bool_decide (dt_showOverlay d ≠ Some false) then 1 else 0) /\
            count_of CONTENT_HIDDEN (devtools_protections e now')
            = (if isOpen && bool_decide (dt_hideContent d = Some true) then 1 else 0))
    (handleDevToolsStateChange isOpen now d).2.
Proof.
  unfold handleDevToolsStateChange.
  destruct (bool_decide (isOpen ≠ isDevToolsOpen d)); [|constructor]. simpl.
  destruct (dt_mediator d); [|constructor].
  constructor; [|constructor].
  unfold devtools_protections, Handlers.handleDevToolsStateChange. simpl.
  destruct isOpen; simpl.
  - unfold Handlers.handleDevToolsOpened. simpl.
    destruct (dt_showOverlay d) as [[]|], (dt_hideContent d) as [[]|];
      vm_compute; done.
  - unfold Handlers.handleDevToolsClosed. simpl.
    destruct (dt_showOverlay d) as [[]|], (dt_hideContent d) as [[]|];
      vm_compute; done.
Qed.

Lemma extension_protections_once extensionId now now' x :
  Forall (fun e =>
            count_of OVERLAY_SHOWN (extension_protections e now')
            = (if Js.truthy (ex_showOverlay x) then 1 else 0) /\
            count_of CONTENT_HIDDEN (extension_protections e now')
            = (if Js.truthy (ex_hideContent x) then 1 else 0))
    (handleDetection extensionId now x).2.
Proof.
  unfold handleDetection.
  destruct (Js.nonempty extensionId); simpl; [|constructor].
  case_bool_decide; simpl; [constructor|].
  destruct (ex_mediator x); [|constructor].
  constructor; [|constructor].
  unfold extension_protections, Handlers.handleExtensionDetected. simpl.
  unfold Handlers.applyExtensionProtection. simpl.
  destruct (Js.truthy (ex_showOverlay x)), (Js.truthy (ex_hideContent x));
    vm_compute; done.
Qed.

(** C7, as the code has it.  Idempotent detection holds for the DevTools
    strategy and for [handleDetection] of the extension strategy: of two
    consecutive observations of the same condition the second publishes no
    detection event, and the first publishes exactly one when it is a change
    of state and a mediator is set, and none otherwise.  For each detection
    event so published the event handler of the strategy publishes at most
    one [OVERLAY_SHOWN] and at most one [CONTENT_HIDDEN]: the DevTools event
    handler one [OVERLAY_SHOWN] when DevTools are open and [showOverlay] is
    not [false], and one [CONTENT_HIDDEN] when DevTools are open and
    [hideContent] is [true]; the extension event handler one [OVERLAY_SHOWN]
    when [showOverlay] is truthy and one [CONTENT_HIDDEN] when [hideContent]
    is truthy. *)
Theorem detection_published_once
    (d : DevToolsStrategy) (isOpen : bool)
    (x : ExtensionStrategy) (extensionId : string) (now now' : Z) :
  ((handleDevToolsStateChange isOpen now' (handleDevToolsStateChange isOpen now d).1).2
     = [] /\
   length (handleDevToolsStateChange isOpen now d).2
     = (if dt_mediator d && bool_decide (isOpen ≠ isDevToolsOpen d) then 1 else 0)) /\
  ((handleDetection extensionId now' (handleDetection extensionId now x).1).2 = [] /\
   length (handleDetection extensionId now x).2
     = (if ex_mediator x && Js.nonempty extensionId
           && negb (bool_decide (extensionId ∈ detectedExtensions x))
        then 1 else 0)) /\
  Forall (fun e =>
            count_of OVERLAY_SHOWN (devtools_protections e now')
            = (if isOpen && bool_decide (dt_showOverlay d ≠ Some false) then 1 else 0) /\
            count_of CONTENT_HIDDEN (devtools_protections e now')
            = (if isOpen && bool_decide (dt_hideContent d = Some true) then 1 else 0))
    (handleDevToolsStateChange isOpen now d).2 /\
  Forall (fun e =>
            count_of OVERLAY_SHOWN (extension_protections e now')
            = (if Js.truthy (ex_showOverlay x) then 1 else 0) /\
            count_of CONTENT_HIDDEN (extension_protections e now')
            = (if Js.truthy (ex_hideContent x) then 1 else 0))
    (handleDetection extensionId now x).2.
Proof.
  split; [|split; [|split]].
  - split; [apply handleDevToolsStateChange_again|apply handleDevToolsStateChange_first].
  - split; [apply handleDetection_again|apply handleDetection_first].
  - apply devtools_protections_once.
  - apply extension_protections_once.
Qed.

Definition embedded_window : Window :=
  {| in_frame := true; parentHostname := Some "evil.example";
     currentHostname := "site.example" |}.

Definition frame_strategy : FrameStrategy :=
  {| isEmbedded := false; isExternalFrame := false; parentDomain := None;
     fr_allowedDomains := Some []; fr_blockAllFrames := Some false;
     fr_showOverlay := Some true; fr_hideContent := Some true;
     fr_overlayOptions := None; fr_targetElement := None; fr_mediator := true;
     fr_customHandler := None; fr_errors := 0 |}.

Definition devtools_strategy : DevToolsStrategy :=
  {| isDevToolsOpen := false; dt_mediator := true; dt_showOverlay := Some true;
     dt_overlayOptions := None; dt_hideContent := Some false;
     dt_targetElement := None; dt_customHandler := None; dt_errors := 0 |}.

(** The claim of C7 fails for the frame-embedding strategy: two consecutive
    periodic checks that find the page embedded in an external frame publish
    [FRAME_EMBEDDING_DETECTED] twice.  And a detection is not always followed
    by a pair of events: for a DevTools strategy that does not hide content
    the event handler publishes [OVERLAY_SHOWN] and no [CONTENT_HIDDEN]. *)
Lemma detection_twice_or_unpaired :
  (fun r => (map ev_type r.1, map ev_type r.2))
    (twice (intervalTask embedded_window 1) frame_strategy)
  = ([Some FRAME_EMBEDDING_DETECTED], [Some FRAME_EMBEDDING_DETECTED]) /\
  map (fun e => map ev_type (devtools_protections e 2))
    (handleDevToolsStateChange true 1 devtools_strategy).2
  = [[Some OVERLAY_SHOWN]].
Proof. vm_compute. done. Qed.

Example devtools_detection_once :
  (fun r => (map ev_type r.1, map ev_type r.2))
    (twice (handleDevToolsStateChange true 1) devtools_strategy)
  = ([Some DEVTOOLS_STATE_CHANGE], []).
Proof. vm_compute. reflexivity. Qed.

End Strategies.

(* ===================================================================== *)
(** * The mediator as a table of subscription lists *)
(* ===================================================================== *)

Module MediatorLaws.

Import Mediator.

(** [getAllSubscriptions()]: every type of the map with a copy of its array. *)
Definition getAllSubscriptions (m : Mediator)
    : list (ProtectionEventType * list Subscription) :=
  map (fun e => (e.1, array_at e.2 m)) (subscriptions m).

(** The result of [getDebugInfo()]. *)
Record DebugInfo := {
  subscriptionCount : nat;
  eventTypeCount : nat;
  eventTypes : list ProtectionEventType;
  recentEvents : list ProtectionEvent;
}.

(** [getDebugInfo()]. *)
Definition getDebugInfo (m : Mediator) : DebugInfo :=
  {| subscriptionCount :=
       foldl (fun total e => total + length (array_at e.2 m)) 0 (subscriptions m);
     eventTypeCount := length (subscriptions m);
     eventTypes := Js.mkeys (subscriptions m);
     recentEvents := eventHistory m |}.

(** The subscription object [subscribe] builds in state [m]. *)
Definition new_subscription (eventType : ProtectionEventType) (h : nat)
    (options : option SubscriptionOptions) (m : Mediator) : Subscription :=
  {| sub_id := subscription_id (S (subscriptionCounter m));
     sub_eventType := eventType;
     sub_handler := h;
     sub_filter := options ≫= so_filter;
     sub_priority := Js.num_or (options ≫= so_priority) 0;
     sub_context := options ≫= so_context |}.

(** ** The map and the array store *)

(** Each type of the map names an array of the store, and two types never
    name the same array. *)
Definition linked (m : Mediator) : Prop :=
  NoDup (Js.mkeys (subscriptions m)) /\
  (forall t r, Js.mget t (subscriptions m) = Some r -> r < length (arrays m)) /\
  (forall t1 t2 r, Js.mget t1 (subscriptions m) = Some r ->
     Js.mget t2 (subscriptions m) = Some r -> t1 = t2).

Lemma linked_new : linked new_mediator.
Proof. split; [constructor|]. split; intros; discriminate. Qed.

Lemma array_at_alloc r a m :
  array_at r (new_array a m).2 =
    if decide (r = length (arrays m)) then a
    else array_at r m.
Proof.
  unfold array_at, new_array. simpl. case_decide as Hr.
  - subst. rewrite lookup_app_r by lia. by rewrite Nat.sub_diag.
  - destruct (decide (r < length (arrays m))).
    + by rewrite lookup_app_l.
    + rewrite !(proj2 (lookup_ge_None _ _)); [done|lia|].
      rewrite length_app. simpl. lia.
Qed.

(** The update both unsubscribing methods make: the type [t] gets a new
    array object holding [a]. *)
Definition replaced (t : ProtectionEventType) (a : list Subscription)
    (m : Mediator) : Mediator :=
  with_subscriptions (Js.mset t (new_array a m).1 (subscriptions (new_array a m).2))
    (new_array a m).2.

Lemma linked_replaced t a m : linked m -> linked (replaced t a m).
Proof.
  intros (Hk & Hb & Hi). unfold replaced, linked. simpl.
  split; [by apply Js.NoDup_mkeys_mset|]. split.
  - intros t' r. rewrite Js.mget_mset, length_app. simpl.
    case_decide; [intros [= <-]; lia|]. intros Hr%Hb. lia.
  - intros t1 t2 r. rewrite !Js.mget_mset.
    repeat case_decide; subst; try done.
    + intros [= <-] Hr%Hb. lia.
    + intros Hr%Hb [= <-]. lia.
    + apply Hi.
Qed.

Lemma subscriptions_of_replaced t' t a m :
  linked m ->
  subscriptions_of t' (replaced t a m) =
    if decide (t' = t) then a else subscriptions_of t' m.
Proof.
  intros (Hk & Hb & Hi). unfold subscriptions_of, replaced. simpl.
  rewrite Js.mget_mset. case_decide as Ht.
  - subst. rewrite decide_True by done.
    change (array_at (length (arrays m)) (new_array a m).2 = a).
    rewrite array_at_alloc. by rewrite decide_True.
  - rewrite decide_False by done.
    destruct (Js.mget t' (subscriptions m)) as [r|] eqn:Hr; [|done].
    change (array_at r (new_array a m).2 = array_at r m).
    rewrite array_at_alloc. rewrite decide_False; [done|].
    apply Hb in Hr. lia.
Qed.

(** What [subscribe] does to the lists. *)
Lemma subscribe_spec t h o m :
  linked m ->
  (subscribe t (Some h) o m).1 = subscription_id (S (subscriptionCounter m)) /\
  subscriptionCounter (subscribe t (Some h) o m).2 = S (subscriptionCounter m) /\
  linked (subscribe t (Some h) o m).2 /\
  forall t', subscriptions_of t' (subscribe t (Some h) o m).2 =
    if decide (t' = t)
    then Js.sort compare_priority (subscriptions_of t m ++ [new_subscription t h o m])
    else subscriptions_of t' m.
Proof.
  intros Hl. unfold subscribe.
  fold (new_subscription t h o m).
  set (x := new_subscription t h o m).
  set (m1 := with_counter (S (subscriptionCounter m)) m).
  assert (linked m1) as Hl1 by done.
  assert (forall t', subscriptions_of t' m1 = subscriptions_of t' m) as Hs1 by done.
  assert (subscriptionCounter m1 = S (subscriptionCounter m)) as Hc1 by done.
  clearbody m1.
  set (m2 := if Js.mhas t (subscriptions m1) then m1 else _).
  assert (linked m2 /\ subscriptionCounter m2 = S (subscriptionCounter m) /\
          (forall t', subscriptions_of t' m2 = subscriptions_of t' m) /\
          is_Some (Js.mget t (subscriptions m2))) as (Hl2 & Hc2 & Hs2 & [r Hr]).
  { assert (m2 = if Js.mhas t (subscriptions m1) then m1 else replaced t [] m1)
      as -> by done.
    unfold Js.mhas.
    destruct (Js.mget t (subscriptions m1)) as [r|] eqn:Hr; [by eauto|].
    split; [by apply linked_replaced|]. split; [done|]. split.
    - intros t'. rewrite subscriptions_of_replaced by done.
      case_decide; [|done]. subst. rewrite <-Hs1. unfold subscriptions_of.
      by rewrite Hr.
    - simpl. rewrite Js.mget_mset_eq. by eauto. }
  clearbody m2. rewrite Hr. simpl. split; [done|]. split; [done|].
  destruct Hl2 as (Hk2 & Hb2 & Hi2).
  split.
  { split; [done|]. split; simpl.
    - intros t' r'. rewrite length_insert. apply Hb2.
    - apply Hi2. }
  intros t'. unfold subscriptions_of at 1. simpl.
  case_decide as Ht.
  - subst. rewrite Hr. unfold array_at at 1. simpl.
    rewrite list_lookup_insert_eq by (by eapply Hb2). simpl.
    rewrite <-Hs2. unfold subscriptions_of. by rewrite Hr.
  - rewrite <-Hs2. unfold subscriptions_of.
    destruct (Js.mget t' (subscriptions m2)) as [r'|] eqn:Hr'; [|done].
    unfold array_at. simpl. rewrite list_lookup_insert_ne; [done|].
    intros ->. apply Ht. by eapply Hi2.
Qed.

(** ** The unsubscribing methods *)

Lemma filter_all {A} (P : A -> Prop) `{!forall x, Decision (P x)} (l : list A) :
  Forall P l -> filter P l = l.
Proof.
  induction 1 as [|x l Hx _ IH]; [done|]. by rewrite filter_cons_True, IH.
Qed.

(** The test [filtered.length < initialLength]. *)
Lemma filter_shrinks_cases {A} (P : A -> Prop) `{!forall x, Decision (P x)}
    (l : list A) :
  ((length (filter P l) <? length l) = true /\ exists x, x ∈ l /\ ~ P x) \/
  ((length (filter P l) <? length l) = false /\ filter P l = l /\ Forall P l).
Proof.
  destruct (decide (Forall P l)) as [Hall|Hex].
  - right. rewrite (filter_all P l Hall). split; [|done].
    apply Nat.ltb_ge. lia.
  - left. apply not_Forall_Exists in Hex; [|apply _].
    apply Exists_exists in Hex as (x & Hx & HP).
    split; [|by eauto]. apply Nat.ltb_lt. by eapply length_filter_lt.
Qed.

Lemma length_filter_complement {A} (P : A -> Prop) `{!forall x, Decision (P x)}
    (l : list A) :
  length l - length (filter (fun x => ~ P x) l) = length (filter P l).
Proof.
  induction l as [|x l IH]; [done|].
  rewrite !filter_cons. pose proof (length_filter (fun x => ~ P x) l).
  destruct (decide (P x)) as [HP|HP].
  - rewrite decide_False by (intros Hn; by apply Hn). simpl. lia.
  - rewrite decide_True by done. simpl. lia.
Qed.

Lemma subscriptions_of_entry t r m :
  Js.mget t (subscriptions m) = Some r -> subscriptions_of t m = array_at r m.
Proof. intros Hr. unfold subscriptions_of. by rewrite Hr. Qed.

Lemma entries_mget m t r :
  linked m -> (t, r) ∈ subscriptions m -> Js.mget t (subscriptions m) = Some r.
Proof. intros (Hk & _) Hin. by apply Js.elem_mget. Qed.

(** The loop of [unsubscribe] either finds no subscription with the
    identifier in the types it visits and changes nothing, or gives one type
    that holds such a subscription a filtered copy of its array. *)
Lemma unsubscribe_scan_spec id entries m :
  (forall t r, (t, r) ∈ entries -> Js.mget t (subscriptions m) = Some r) ->
  (unsubscribe_scan id entries m = (false, m) /\
   forall t r s, (t, r) ∈ entries -> s ∈ subscriptions_of t m -> sub_id s ≠ id) \/
  (exists t,
     unsubscribe_scan id entries m
       = (true, replaced t (filter (fun s => sub_id s ≠ id) (subscriptions_of t m)) m) /\
     exists s, s ∈ subscriptions_of t m /\ sub_id s = id).
Proof.
  induction entries as [|[t r] entries IH]; intros Hget; simpl.
  - left. split; [done|]. by intros t r s ?%elem_of_nil.
  - assert (subscriptions_of t m = array_at r m) as Hsubs.
    { apply subscriptions_of_entry, Hget. by apply elem_of_cons; left. }
    rewrite <-Hsubs.
    destruct (filter_shrinks_cases (fun s => sub_id s ≠ id) (subscriptions_of t m))
      as [[-> (s & Hs & Hid)]|[-> [_ Hall]]].
    + right. exists t. split; [done|]. exists s. split; [done|].
      by destruct (decide (sub_id s = id)).
    + destruct IH as [[-> Hno]|(t0 & -> & Hhit)].
      { intros t' r' Hin. apply Hget. by apply elem_of_cons; right. }
      * left. split; [done|]. intros t' r' s [[= -> ->]|Hin]%elem_of_cons Hs.
        -- by apply (proj1 (Forall_forall _ _) Hall).
        -- by eapply Hno.
      * right. by exists t0.
Qed.

(** No two types hold a subscription with the same identifier. *)
Definition unique_ids (m : Mediator) : Prop :=
  forall t1 t2 s1 s2, s1 ∈ subscriptions_of t1 m -> s2 ∈ subscriptions_of t2 m ->
    sub_id s1 = sub_id s2 -> t1 = t2.

(** No subscription has the empty identifier. *)
Definition named (m : Mediator) : Prop :=
  forall t s, s ∈ subscriptions_of t m -> sub_id s ≠ EmptyString.

Lemma subscriptions_of_elem t s m :
  s ∈ subscriptions_of t m ->
  exists r, (t, r) ∈ subscriptions m /\ Js.mget t (subscriptions m) = Some r.
Proof.
  unfold subscriptions_of.
  destruct (Js.mget t (subscriptions m)) as [r|] eqn:Hr; [|by intros ?%elem_of_nil].
  intros _. exists r. split; [by apply Js.mget_Some_elem|done].
Qed.

Lemma unsubscribe_cases id m :
  linked m ->
  (unsubscribe id m = (false, m) /\
   (id = EmptyString \/ forall t s, s ∈ subscriptions_of t m -> sub_id s ≠ id)) \/
  (id ≠ EmptyString /\
   exists t,
     unsubscribe id m
       = (true, replaced t (filter (fun s => sub_id s ≠ id) (subscriptions_of t m)) m) /\
     exists s, s ∈ subscriptions_of t m /\ sub_id s = id).
Proof.
  intros Hl. unfold unsubscribe.
  destruct id as [|c id]; simpl; [left; by eauto|].
  destruct (unsubscribe_scan_spec (String c id) (subscriptions m) m)
    as [[-> Hno]|(t & -> & Hhit)].
  - intros t r. by apply entries_mget.
  - left. split; [done|]. right. intros t s Hs.
    destruct (subscriptions_of_elem t s m Hs) as (r & Hin & _). by eapply Hno.
  - right. split; [done|]. by exists t.
Qed.

(** [unsubscribe(id)] on the lists: the subscription with the identifier
    leaves the list of its type. *)
Lemma unsubscribe_lists id m :
  linked m -> unique_ids m -> named m ->
  linked (unsubscribe id m).2 /\
  forall t', subscriptions_of t' (unsubscribe id m).2
    = filter (fun s => sub_id s ≠ id) (subscriptions_of t' m).
Proof.
  intros Hl Hu Hn.
  destruct (unsubscribe_cases id m Hl) as [[-> Hno]|(Hid & t & -> & s & Hs & Hsid)];
    simpl.
  - split; [done|]. intros t'. symmetry. apply filter_all, Forall_forall.
    intros s Hs. destruct Hno as [->|Hno]; [by eapply Hn|by eapply Hno].
  - split; [by apply linked_replaced|]. intros t'.
    rewrite subscriptions_of_replaced by done.
    case_decide as Ht; [by subst|].
    symmetry. apply filter_all, Forall_forall. intros s' Hs' Heq.
    apply Ht. eapply Hu; [done..|congruence].
Qed.

(** The loop of [unsubscribeByContext]. *)
Lemma unsubscribeByContext_scan_spec c entries n m :
  linked m -> NoDup entries.*1 ->
  (forall t r, (t, r) ∈ entries -> Js.mget t (subscriptions m) = Some r) ->
  linked (unsubscribeByContext_scan c entries n m).2 /\
  (unsubscribeByContext_scan c entries n m).1
    = n + length (filter (fun s => sub_context s = Some c)
                    (concat (map (fun e => subscriptions_of e.1 m) entries))) /\
  forall t', subscriptions_of t' (unsubscribeByContext_scan c entries n m).2
    = if decide (t' ∈ entries.*1)
      then filter (fun s => sub_context s ≠ Some c) (subscriptions_of t' m)
      else subscriptions_of t' m.
Proof.
  revert n m. induction entries as [|[t r] entries IH]; intros n m Hl Hnd Hget;
    cbn [unsubscribeByContext_scan map concat fst snd].
  - split; [done|]. split; [simpl; lia|]. intros t'. rewrite decide_False; [done|].
    apply not_elem_of_nil.
  - apply NoDup_cons in Hnd as [Ht Hnd].
    assert (subscriptions_of t m = array_at r m) as Hsubs.
    { apply subscriptions_of_entry, Hget. by apply elem_of_cons; left. }
    rewrite <-Hsubs, filter_app, length_app.
    destruct (filter_shrinks_cases (fun s => sub_context s ≠ Some c)
                (subscriptions_of t m)) as [[-> _]|[-> [Hsame Hall]]].
    + change (let '(r', m0) := new_array ?a m in
              unsubscribeByContext_scan c entries ?k
                (with_subscriptions (Js.mset t r' (subscriptions m0)) m0))
        with (unsubscribeByContext_scan c entries k (replaced t a m)).
      set (a := filter _ (subscriptions_of t m)).
      assert (forall t', t' ≠ t ->
                subscriptions_of t' (replaced t a m) = subscriptions_of t' m) as Hother.
      { intros t' Hne. rewrite subscriptions_of_replaced by done.
        by rewrite decide_False. }
      destruct (IH (n + (length (subscriptions_of t m) - length a)) (replaced t a m))
        as (Hl' & Hcount & Hlists); [by apply linked_replaced|done| |].
      { intros t' r' Hin. unfold replaced. simpl. rewrite Js.mget_mset.
        rewrite decide_False; [apply Hget; by apply elem_of_cons; right|].
        intros ->. apply Ht. apply list_elem_of_fmap. by exists (t', r'). }
      split; [done|]. split.
      * rewrite Hcount. subst a.
        rewrite length_filter_complement.
        assert (map (fun e => subscriptions_of e.1 (replaced t
                  (filter (fun s => sub_context s ≠ Some c) (subscriptions_of t m)) m))
                  entries
                = map (fun e => subscriptions_of e.1 m) entries) as ->; [|lia].
        apply map_ext_in. intros [t' r'] Hin. simpl. apply Hother.
        intros ->. apply Ht. apply list_elem_of_fmap. exists (t, r').
        split; [done|]. by apply list_elem_of_In.
      * intros t'. rewrite Hlists.
        change (((t, r) :: entries).*1) with (t :: entries.*1).
        destruct (decide (t' = t)) as [->|Hne].
        -- rewrite decide_False by done.
           rewrite decide_True by (by apply elem_of_cons; left).
           rewrite subscriptions_of_replaced by done. by rewrite decide_True.
        -- rewrite Hother by done.
           destruct (decide (t' ∈ entries.*1)) as [Hin|Hin].
           ++ by rewrite decide_True by (by apply elem_of_cons; right).
           ++ rewrite decide_False; [done|].
              by intros [?|?]%elem_of_cons.
    + destruct (IH n m) as (Hl' & Hcount & Hlists); [done|done| |].
      { intros t' r' Hin. apply Hget. by apply elem_of_cons; right. }
      split; [done|]. split.
      * rewrite Hcount.
        assert (filter (fun s => sub_context s = Some c) (subscriptions_of t m) = [])
          as ->; [|simpl; lia].
        apply Js.filter_none. eapply Forall_impl; [exact Hall|]. by intros s Hs.
      * intros t'. rewrite Hlists.
        change (((t, r) :: entries).*1) with (t :: entries.*1).
        destruct (decide (t' = t)) as [->|Hne].
        -- rewrite decide_False by done.
           rewrite decide_True by (by apply elem_of_cons; left). by rewrite Hsame.
        -- destruct (decide (t' ∈ entries.*1)) as [Hin|Hin].
           ++ by rewrite decide_True by (by apply elem_of_cons; right).
           ++ rewrite decide_False; [done|].
              by intros [?|?]%elem_of_cons.
Qed.

Lemma subscriptions_of_absent t m :
  (t ∉ Js.mkeys (subscriptions m)) -> subscriptions_of t m = [].
Proof.
  intros Hk%Js.mget_None_keys. unfold subscriptions_of. by rewrite Hk.
Qed.

Lemma all_subscriptions_entries m :
  linked m ->
  map (fun e => subscriptions_of e.1 m) (subscriptions m) = (getAllSubscriptions m).*2.
Proof.
  intros Hl. unfold getAllSubscriptions. rewrite <-list_fmap_compose.
  apply map_ext_in. intros [t r] Hin%list_elem_of_In. simpl.
  apply subscriptions_of_entry. by apply entries_mget.
Qed.

(** [unsubscribeByContext(context)] on the lists. *)
Lemma unsubscribeByContext_lists c m :
  linked m -> c ≠ EmptyString ->
  linked (unsubscribeByContext c m).2 /\
  (unsubscribeByContext c m).1
    = length (filter (fun s => sub_context s = Some c)
                (concat (getAllSubscriptions m).*2)) /\
  forall t', subscriptions_of t' (unsubscribeByContext c m).2
    = filter (fun s => sub_context s ≠ Some c) (subscriptions_of t' m).
Proof.
  intros Hl Hc. unfold unsubscribeByContext.
  destruct c as [|a c]; [done|]. simpl.
  destruct (unsubscribeByContext_scan_spec (String a c) (subscriptions m) 0 m)
    as (Hl' & Hcount & Hlists); [done|apply Hl| |].
  { intros t r. by apply entries_mget. }
  split; [done|]. split.
  - by rewrite Hcount, all_subscriptions_entries.
  - intros t'. rewrite Hlists. case_decide as Hin; [done|].
    by rewrite (subscriptions_of_absent t' m Hin).
Qed.

(** ** States reached by the public methods *)

(** The arrays are in dispatch order with numbered identifiers, the map and
    the store are linked, and identifiers are unique. *)
Definition sound (m : Mediator) : Prop :=
  ordered m /\ linked m /\ unique_ids m.

Lemma ordered_numbered t s m :
  ordered m -> s ∈ subscriptions_of t m -> numbered (subscriptionCounter m) s.
Proof.
  intros Ho Hs. unfold subscriptions_of in Hs.
  destruct (Js.mget t (subscriptions m)) as [r|]; [|by apply elem_of_nil in Hs].
  destruct (ordered_upto_array_at _ r m Ho) as [_ Hn].
  by apply (proj1 (Forall_forall _ _) Hn).
Qed.

Lemma ordered_named m : ordered m -> named m.
Proof.
  intros Ho t s Hs. destruct (ordered_numbered t s m Ho Hs) as (k & -> & _).
  done.
Qed.

(** The identifier the next [subscribe] returns is not in use. *)
Lemma ordered_fresh t s m :
  ordered m -> s ∈ subscriptions_of t m ->
  sub_id s ≠ subscription_id (S (subscriptionCounter m)).
Proof.
  intros Ho Hs. destruct (ordered_numbered t s m Ho Hs) as (k & -> & Hk).
  intros Heq%subscription_id_inj. lia.
Qed.

Lemma elem_of_subscribe t' s t h o m :
  linked m ->
  s ∈ subscriptions_of t' (subscribe t (Some h) o m).2 ->
  s ∈ subscriptions_of t' m \/ (t' = t /\ s = new_subscription t h o m).
Proof.
  intros Hl. destruct (subscribe_spec t h o m Hl) as (_ & _ & _ & Hlists).
  rewrite Hlists. case_decide as Ht; [|by left]. subst.
  rewrite Js.sort_perm.
  intros [?|Hx%list_elem_of_singleton]%elem_of_app; [by left|subst; by right].
Qed.

Lemma sound_new : sound new_mediator.
Proof.
  split; [apply ordered_new|]. split; [apply linked_new|].
  intros t1 t2 s1 s2 Hs1. by apply elem_of_nil in Hs1.
Qed.

Lemma sound_subscribe t h o m : sound m -> sound (subscribe t h o m).2.
Proof.
  intros (Ho & Hl & Hu). split; [by apply ordered_subscribe|].
  destruct h as [h|]; [|exact (conj Hl Hu)].
  destruct (subscribe_spec t h o m Hl) as (_ & _ & Hl' & _).
  split; [done|].
  intros t1 t2 s1 s2 Hs1 Hs2 Heq.
  destruct (elem_of_subscribe _ _ _ _ _ _ Hl Hs1) as [Hs1'|[-> ->]];
    destruct (elem_of_subscribe _ _ _ _ _ _ Hl Hs2) as [Hs2'|[-> ->]]; try done.
  - by eapply Hu.
  - by apply (ordered_fresh _ _ _ Ho) in Hs1'.
  - symmetry in Heq. by apply (ordered_fresh _ _ _ Ho) in Hs2'.
Qed.

Lemma sound_unsubscribe id m : sound m -> sound (unsubscribe id m).2.
Proof.
  intros (Ho & Hl & Hu). split; [by apply ordered_unsubscribe|].
  destruct (unsubscribe_lists id m Hl Hu (ordered_named m Ho)) as (Hl' & Hlists).
  split; [done|].
  intros t1 t2 s1 s2. rewrite !Hlists.
  intros [_ Hs1]%list_elem_of_filter [_ Hs2]%list_elem_of_filter. by apply Hu.
Qed.

Lemma sound_unsubscribeByContext c m : sound m -> sound (unsubscribeByContext c m).2.
Proof.
  intros (Ho & Hl & Hu). split; [by apply ordered_unsubscribeByContext|].
  destruct (decide (c = EmptyString)) as [->|Hc]; [exact (conj Hl Hu)|].
  destruct (unsubscribeByContext_lists c m Hl Hc) as (Hl' & _ & Hlists).
  split; [done|].
  intros t1 t2 s1 s2. rewrite !Hlists.
  intros [_ Hs1]%list_elem_of_filter [_ Hs2]%list_elem_of_filter. by apply Hu.
Qed.

Lemma sound_clearAllSubscriptions m : sound m -> sound (clearAllSubscriptions m).2.
Proof.
  intros (Ho & Hl & Hu). split; [done|]. split.
  - split; [constructor|]. split; intros; discriminate.
  - intros t1 t2 s1 s2 Hs1. by apply elem_of_nil in Hs1.
Qed.

(** Every state that calls of the public methods reach from a new mediator
    is sound, whatever the handlers do. *)
Lemma run_sound handler_body filter_body ops m :
  run handler_body filter_body ops new_mediator = Some m -> sound m.
Proof.
  apply (run_preserves handler_body filter_body sound);
    auto using sound_subscribe, sound_unsubscribe, sound_unsubscribeByContext,
      sound_clearAllSubscriptions, sound_new.
Qed.

(** ** Subscribing and unsubscribing *)

Lemma compare_priority_sorted y z :
  dispatch_before y z -> (compare_priority y z <= 0)%Z.
Proof. rewrite compare_priority_eq. intros [?|[? _]]; lia. Qed.

(** The array of a type after [push] and [sort], in a sound state. *)
Lemma sorted_push t x m :
  ordered m ->
  Js.sort compare_priority (subscriptions_of t m ++ [x])
  = Js.sort_insert compare_priority x (subscriptions_of t m).
Proof.
  intros Ho. rewrite Js.sort_snoc.
  by rewrite (Js.sort_sorted_id compare_priority dispatch_before)
    by (apply compare_priority_sorted || by apply ordered_subscriptions_of).
Qed.

Lemma filter_sort_insert_fresh {A} (compare : A -> A -> Z) (P : A -> Prop)
    `{!forall x, Decision (P x)} (x : A) (l : list A) :
  Forall P l -> ~ P x -> filter P (Js.sort_insert compare x l) = l.
Proof.
  intros Hall Hx. induction Hall as [|y l Hy Hall IH]; simpl.
  - by rewrite filter_cons_False.
  - destruct (0 <? compare y x)%Z.
    + rewrite filter_cons_False by done. apply filter_all. by constructor.
    + rewrite filter_cons_True by done. by rewrite IH.
Qed.

(** X1.  In every state that calls of the public methods reach from a new
    mediator, [subscribe] with a handler returns the identifier
    [sub_<counter + 1>], which no subscription of any type has yet; the new
    subscription joins the list of its type, which holds nothing else new,
    and the lists of the other types stay as they are. *)
Theorem subscribe_returns_fresh_id
    (handler_body : nat -> ProtectionEvent -> list action)
    (filter_body : nat -> ProtectionEvent -> option bool)
    (ops : list op) (m : Mediator)
    (t : ProtectionEventType) (h : nat) (o : option SubscriptionOptions) :
  run handler_body filter_body ops new_mediator = Some m ->
  (subscribe t (Some h) o m).1 = subscription_id (S (subscriptionCounter m)) /\
  (forall t' s, s ∈ getSubscriptions t' m -> sub_id s ≠ (subscribe t (Some h) o m).1) /\
  getSubscriptions t (subscribe t (Some h) o m).2
    ≡ₚ new_subscription t h o m :: getSubscriptions t m /\
  forall t', t' ≠ t ->
    getSubscriptions t' (subscribe t (Some h) o m).2 = getSubscriptions t' m.
Proof.
  intros (Ho & Hl & Hu)%run_sound. unfold getSubscriptions.
  destruct (subscribe_spec t h o m Hl) as (Hid & _ & _ & Hlists).
  split; [done|]. split; [|split].
  - intros t' s Hs. rewrite Hid. by eapply ordered_fresh.
  - rewrite Hlists, decide_True by done.
    rewrite Js.sort_perm. symmetry. apply Permutation_cons_append.
  - intros t' Hne. by rewrite Hlists, decide_False.
Qed.

Lemma subscribe_returns_fresh_id_witness :
  (subscribe CONTENT_HIDDEN (Some 7) None example_mediator).1 = "sub_3" /\
  (forall t' s, s ∈ getSubscriptions t' example_mediator ->
     sub_id s ≠ (subscribe CONTENT_HIDDEN (Some 7) None example_mediator).1) /\
  getSubscriptions CONTENT_HIDDEN (subscribe CONTENT_HIDDEN (Some 7) None example_mediator).2
    ≡ₚ new_subscription CONTENT_HIDDEN 7 None example_mediator
        :: getSubscriptions CONTENT_HIDDEN example_mediator /\
  forall t', t' ≠ CONTENT_HIDDEN ->
    getSubscriptions t' (subscribe CONTENT_HIDDEN (Some 7) None example_mediator).2
    = getSubscriptions t' example_mediator.
Proof.
  apply (subscribe_returns_fresh_id throwing_handlers no_filters example_ops
           example_mediator CONTENT_HIDDEN 7 None).
  reflexivity.
Defined.

(** X2.  Round trip: in every reachable state, unsubscribing the identifier
    that [subscribe] has just returned succeeds and gives every type the
    list of subscriptions it had before the [subscribe]. *)
Theorem subscribe_unsubscribe_round_trip
    (handler_body : nat -> ProtectionEvent -> list action)
    (filter_body : nat -> ProtectionEvent -> option bool)
    (ops : list op) (m : Mediator)
    (t : ProtectionEventType) (h : nat) (o : option SubscriptionOptions) :
  run handler_body filter_body ops new_mediator = Some m ->
  (unsubscribe (subscribe t (Some h) o m).1 (subscribe t (Some h) o m).2).1 = true /\
  forall t',
    getSubscriptions t'
      (unsubscribe (subscribe t (Some h) o m).1 (subscribe t (Some h) o m).2).2
    = getSubscriptions t' m.
Proof.
  intros Hrun. pose proof (run_sound _ _ _ _ Hrun) as Hsound.
  pose proof (sound_subscribe t (Some h) o m Hsound) as (Ho1 & Hl1 & Hu1).
  destruct Hsound as (Ho & Hl & Hu).
  destruct (subscribe_spec t h o m Hl) as (Hid & _ & _ & Hlists).
  rewrite Hid. set (id := subscription_id (S (subscriptionCounter m))).
  set (m1 := (subscribe t (Some h) o m).2) in *.
  assert (new_subscription t h o m ∈ subscriptions_of t m1) as Hnew.
  { rewrite Hlists, decide_True by done. rewrite Js.sort_perm.
    apply elem_of_app. right. by apply list_elem_of_singleton. }
  split.
  - destruct (unsubscribe_cases id m1 Hl1) as [[_ [Hid0|Hno]]|(_ & t0 & -> & _)];
      [done| |done].
    by specialize (Hno t _ Hnew).
  - intros t'. unfold getSubscriptions.
    destruct (unsubscribe_lists id m1 Hl1 Hu1 (ordered_named m1 Ho1)) as (_ & ->).
    rewrite Hlists. case_decide as Ht.
    + subst t'. rewrite sorted_push by done.
      apply filter_sort_insert_fresh.
      * apply Forall_forall. intros s Hs. by eapply ordered_fresh.
      * intros Hne. by apply Hne.
    + apply filter_all, Forall_forall. intros s Hs. by eapply ordered_fresh.
Qed.

Lemma subscribe_unsubscribe_round_trip_witness :
  (unsubscribe (subscribe OVERLAY_SHOWN (Some 7) (example_options 7) example_mediator).1
     (subscribe OVERLAY_SHOWN (Some 7) (example_options 7) example_mediator).2).1 = true /\
  forall t',
    getSubscriptions t'
      (unsubscribe (subscribe OVERLAY_SHOWN (Some 7) (example_options 7) example_mediator).1
         (subscribe OVERLAY_SHOWN (Some 7) (example_options 7) example_mediator).2).2
    = getSubscriptions t' example_mediator.
Proof.
  apply (subscribe_unsubscribe_round_trip throwing_handlers no_filters example_ops
           example_mediator OVERLAY_SHOWN 7 (example_options 7)).
  reflexivity.
Defined.

(** X3.  In every reachable state, [unsubscribe(id)] returns [true] exactly
    when some subscription has the identifier; every type keeps its list
    without that subscription, in the same order; and when it returns [false]
    (an empty or unknown identifier) the mediator is left as it was. *)
Theorem unsubscribe_removes_exactly
    (handler_body : nat -> ProtectionEvent -> list action)
    (filter_body : nat -> ProtectionEvent -> option bool)
    (ops : list op) (m : Mediator) (id : string) :
  run handler_body filter_body ops new_mediator = Some m ->
  ((unsubscribe id m).1 = true <->
     exists t s, s ∈ getSubscriptions t m /\ sub_id s = id) /\
  (forall t, getSubscriptions t (unsubscribe id m).2
     = filter (fun s => sub_id s ≠ id) (getSubscriptions t m)) /\
  ((unsubscribe id m).1 = false -> (unsubscribe id m).2 = m).
Proof.
  intros (Ho & Hl & Hu)%run_sound. unfold getSubscriptions.
  split; [|split].
  - destruct (unsubscribe_cases id m Hl) as [[-> Hno]|(_ & t & -> & s & Hs & Hid)];
      simpl.
    + split; [done|]. intros (t & s & Hs & Hid). destruct Hno as [->|Hno].
      * by apply (ordered_named m Ho) in Hs.
      * by apply Hno in Hs.
    + split; [|done]. intros _. by exists t, s.
  - apply (unsubscribe_lists id m Hl Hu (ordered_named m Ho)).
  - destruct (unsubscribe_cases id m Hl) as [[-> _]|(_ & t & -> & _)]; [done|].
    simpl. discriminate.
Qed.

Lemma unsubscribe_removes_exactly_witness :
  ((unsubscribe "sub_1" example_mediator).1 = true <->
     exists t s, s ∈ getSubscriptions t example_mediator /\ sub_id s = "sub_1") /\
  (forall t, getSubscriptions t (unsubscribe "sub_1" example_mediator).2
     = filter (fun s => sub_id s ≠ "sub_1") (getSubscriptions t example_mediator)) /\
  ((unsubscribe "sub_1" example_mediator).1 = false ->
     (unsubscribe "sub_1" example_mediator).2 = example_mediator).
Proof.
  apply (unsubscribe_removes_exactly throwing_handlers no_filters example_ops
           example_mediator "sub_1").
  reflexivity.
Defined.

Example unsubscribe_first_of_two :
  map sub_id (getSubscriptions OVERLAY_SHOWN (unsubscribe "sub_1" example_mediator).2)
  = ["sub_2"].
Proof. vm_compute. reflexivity. Qed.

(** X4.  In every reachable state, [unsubscribeByContext(context)] with a
    context that is not empty takes from every type exactly the subscriptions
    made with that context, keeps the others in their order, and returns the
    number of subscriptions it removed. *)
Theorem unsubscribeByContext_removes_context
    (handler_body : nat -> ProtectionEvent -> list action)
    (filter_body : nat -> ProtectionEvent -> option bool)
    (ops : list op) (m : Mediator) (context : string) :
  run handler_body filter_body ops new_mediator = Some m ->
  context ≠ EmptyString ->
  (unsubscribeByContext context m).1
    = length (filter (fun s => sub_context s = Some context)
                (concat (getAllSubscriptions m).*2)) /\
  forall t, getSubscriptions t (unsubscribeByContext context m).2
    = filter (fun s => sub_context s ≠ Some context) (getSubscriptions t m).
Proof.
  intros (Ho & Hl & Hu)%run_sound Hc.
  by destruct (unsubscribeByContext_lists context m Hl Hc) as (_ & ? & ?).
Qed.

(** Two strategies subscribe, one of them to two types. *)
Definition context_options (c : string) : option SubscriptionOptions :=
  Some {| so_filter := None; so_priority := None; so_context := Some c |}.

Definition context_ops : list op :=
  [OpSubscribe OVERLAY_SHOWN (Some 0) (context_options "A");
   OpSubscribe CONTENT_HIDDEN (Some 1) (context_options "A");
   OpSubscribe OVERLAY_SHOWN (Some 2) (context_options "B")].

Definition context_mediator : Mediator :=
  (subscribe OVERLAY_SHOWN (Some 2) (context_options "B")
     (subscribe CONTENT_HIDDEN (Some 1) (context_options "A")
        (subscribe OVERLAY_SHOWN (Some 0) (context_options "A") new_mediator).2).2).2.

Lemma unsubscribeByContext_removes_context_witness :
  (unsubscribeByContext "A" context_mediator).1
    = length (filter (fun s => sub_context s = Some "A")
                (concat (getAllSubscriptions context_mediator).*2)) /\
  forall t, getSubscriptions t (unsubscribeByContext "A" context_mediator).2
    = filter (fun s => sub_context s ≠ Some "A") (getSubscriptions t context_mediator).
Proof.
  apply (unsubscribeByContext_removes_context throwing_handlers no_filters context_ops
           context_mediator "A").
  - vm_compute. reflexivity.
  - discriminate.
Defined.

Example unsubscribeByContext_run :
  ((unsubscribeByContext "A" context_mediator).1,
   map sub_id (getSubscriptions OVERLAY_SHOWN (unsubscribeByContext "A" context_mediator).2),
   map sub_id (getSubscriptions CONTENT_HIDDEN (unsubscribeByContext "A" context_mediator).2))
  = (2, ["sub_3"], []).
Proof. vm_compute. reflexivity. Qed.

(** ** The event history *)

Lemma eventHistory_subscribe t h o m :
  eventHistory (subscribe t h o m).2 = eventHistory m.
Proof.
  unfold subscribe. destruct h as [h|]; [|done].
  set (m1 := with_counter _ m).
  set (m2 := if Js.mhas t (subscriptions m1) then m1 else _).
  assert (eventHistory m2 = eventHistory m) as <-.
  { subst m2. by destruct (Js.mhas t (subscriptions m1)). }
  clearbody m2. by destruct (Js.mget t (subscriptions m2)).
Qed.

Lemma eventHistory_unsubscribe id m :
  eventHistory (unsubscribe id m).2 = eventHistory m.
Proof.
  unfold unsubscribe. destruct (Js.nonempty id); [|done].
  induction (subscriptions m) as [|[t r] entries IH]; simpl; [done|].
  by case_match.
Qed.

Lemma eventHistory_unsubscribeByContext c m :
  eventHistory (unsubscribeByContext c m).2 = eventHistory m.
Proof.
  unfold unsubscribeByContext. destruct (Js.nonempty c); [|done].
  generalize 0. generalize (subscriptions m) at 1. intros entries.
  revert m. induction entries as [|[t r] entries IH]; intros m n; simpl; [done|].
  case_match; [|done]. by rewrite IH.
Qed.

(** [unshift], then [pop] above the bound, keeps the newest events. *)
Lemma unshift_pop_take {A} (n : nat) (e : A) (h all : list A) :
  h = take (S n) all ->
  (if S n <? length (e :: h) then removelast (e :: h) else e :: h)
  = take (S n) (e :: all).
Proof.
  intros ->. destruct (decide (S n <= length all)) as [Hlong|Hshort].
  - assert (length (take (S n) all) = S n) as Hlen by (rewrite length_take; lia).
    replace (S n <? length (e :: take (S n) all)) with true
      by (symmetry; apply Nat.ltb_lt; simpl; lia).
    rewrite removelast_firstn_len.
    replace (Init.Nat.pred (length (e :: take (S n) all))) with (S n)
      by (simpl; lia).
    rewrite !firstn_cons. f_equal. rewrite take_take. f_equal. lia.
  - rewrite (take_ge all (S n)) by lia.
    replace (S n <? length (e :: all)) with false
      by (symmetry; apply Nat.ltb_ge; simpl; lia).
    rewrite firstn_cons. f_equal. rewrite take_ge; [done|lia].
Qed.

Lemma addToEventHistory_take e m (all : list ProtectionEvent) :
  eventHistory m = take MAX_HISTORY_SIZE all ->
  eventHistory (addToEventHistory e m) = take MAX_HISTORY_SIZE (e :: all).
Proof.
  intros Hh. unfold addToEventHistory.
  change (eventHistory (with_history ?h m)) with h.
  by apply (unshift_pop_take 99).
Qed.

Definition bounded (m : Mediator) : Prop :=
  length (eventHistory m) <= MAX_HISTORY_SIZE.

Lemma bounded_addToEventHistory e m : bounded m -> bounded (addToEventHistory e m).
Proof.
  unfold bounded. intros Hb.
  rewrite (addToEventHistory_take e m (eventHistory m)) by (by rewrite take_ge).
  rewrite length_take. lia.
Qed.

Lemma run_bounded handler_body filter_body ops m :
  run handler_body filter_body ops new_mediator = Some m -> bounded m.
Proof.
  apply (run_preserves handler_body filter_body bounded).
  - intros t h o m0. unfold bounded. by rewrite eventHistory_subscribe.
  - intros id m0. unfold bounded. by rewrite eventHistory_unsubscribe.
  - intros c m0. unfold bounded. by rewrite eventHistory_unsubscribeByContext.
  - done.
  - done.
  - done.
  - intros e0 m0. apply bounded_addToEventHistory.
  - unfold bounded. simpl. lia.
Qed.

(** [publish] with passive handlers records the event and nothing else. *)
Lemma publish_passive_history handler_body filter_body now fuel e t m :
  ev_type e = Some t ->
  Forall (fun s => passive (handler_body (sub_handler s) (backfill now e)))
    (subscriptions_of t m) ->
  length (subscriptions_of t m) + 2 <= fuel ->
  exists m', publish handler_body filter_body now fuel e m = Some m' /\
    eventHistory m' = eventHistory (addToEventHistory (backfill now e) m).
Proof.
  intros Ht Hp Hfuel. destruct fuel as [|fuel]; [lia|].
  set (e' := backfill now e) in *. set (m1 := addToEventHistory e' m).
  cbn [publish]. unfold publish_body. rewrite Ht. fold e' m1.
  assert (subscriptions_of t m1 = subscriptions_of t m) as Hsubs by done.
  rewrite <-Hsubs in Hp, Hfuel. clearbody m1.
  unfold subscriptions_of in *.
  destruct (Js.mget t (subscriptions m1)) as [r|]; [|by exists m1].
  unfold array_at in *. destruct (arrays m1 !! r) as [subs|] eqn:Hr; simpl in *;
    [|by exists m1].
  destruct (Nat.eqb_spec (length subs) 0) as [H0|H0]; [by exists m1|].
  destruct (dispatch_passive handler_body filter_body
              (publish handler_body filter_body now fuel) e' r subs 0 fuel m1)
    as (m' & Hd & _ & _ & Hh & _); [done|done|rewrite drop_0; lia|].
  exists m'. split; [done|]. congruence.
Qed.

(** X5.  The event history that [getDebugInfo] reports never holds more than
    [MAX_HISTORY_SIZE] (100) events, in any state reached by the public
    methods with any handlers.  A [publish] of an event with a type, to
    handlers that neither publish nor subscribe, returns with the event, its
    timestamp filled in, put first in the history, in front of the events of
    before, of which the oldest is dropped when there were 100.  A [publish]
    of an event without a type leaves the history as it is. *)
Theorem event_history_bounded
    (handler_body : nat -> ProtectionEvent -> list action)
    (filter_body : nat -> ProtectionEvent -> option bool)
    (ops : list op) (m : Mediator) :
  run handler_body filter_body ops new_mediator = Some m ->
  length (recentEvents (getDebugInfo m)) <= MAX_HISTORY_SIZE /\
  (forall now fuel e t,
     ev_type e = Some t ->
     Forall (fun s => passive (handler_body (sub_handler s) (backfill now e)))
       (getSubscriptions t m) ->
     length (getSubscriptions t m) + 2 <= fuel ->
     exists m',
       publish handler_body filter_body now fuel e m = Some m' /\
       recentEvents (getDebugInfo m')
       = take MAX_HISTORY_SIZE (backfill now e :: recentEvents (getDebugInfo m))) /\
  (forall now fuel e,
     ev_type e = None ->
     exists m',
       publish handler_body filter_body now (S fuel) e m = Some m' /\
       recentEvents (getDebugInfo m') = recentEvents (getDebugInfo m)).
Proof.
  intros Hb%run_bounded. split; [done|]. split.
  - intros now fuel e t Ht Hp Hfuel.
    destruct (publish_passive_history handler_body filter_body now fuel e t m
                Ht Hp Hfuel) as (m' & Hpub & Hh).
    exists m'. split; [done|]. simpl. rewrite Hh.
    apply addToEventHistory_take. by rewrite take_ge.
  - intros now fuel e Ht. exists (log_error m). split; [|done].
    simpl. unfold publish_body. by rewrite Ht.
Qed.

Definition untyped_event : ProtectionEvent :=
  {| ev_type := None; ev_source := "test"; ev_timestamp := None; ev_data := None |}.

Lemma event_history_bounded_witness :
  length (recentEvents (getDebugInfo example_mediator)) <= MAX_HISTORY_SIZE /\
  (exists m',
     publish unsubscribing_handlers no_filters 7 4 example_event example_mediator
     = Some m' /\
     recentEvents (getDebugInfo m')
     = take MAX_HISTORY_SIZE
         (backfill 7 example_event :: recentEvents (getDebugInfo example_mediator))) /\
  (exists m',
     publish unsubscribing_handlers no_filters 7 1 untyped_event example_mediator
     = Some m' /\
     recentEvents (getDebugInfo m') = recentEvents (getDebugInfo example_mediator)).
Proof.
  pose proof (event_history_bounded unsubscribing_handlers no_filters example_ops
                example_mediator eq_refl) as (Hlen & Htyped & Huntyped).
  split; [exact Hlen|]. split.
  - apply (Htyped 7%Z 4 example_event OVERLAY_SHOWN).
    + reflexivity.
    + vm_compute. repeat constructor.
    + vm_compute. lia.
  - apply (Huntyped 7%Z 0 untyped_event). reflexivity.
Defined.

(** The history is cut at 100 events: of 101 published events the first is
    dropped. *)
Definition numbered_event (n : nat) : ProtectionEvent :=
  {| ev_type := Some OVERLAY_SHOWN; ev_source := "test";
     ev_timestamp := Some (Z.of_nat (S n)); ev_data := None |}.

Example event_history_cut :
  (fun m => (length (eventHistory m), ev_timestamp <$> last (eventHistory m),
             ev_timestamp <$> head (eventHistory m))) <$>
    run unsubscribing_handlers no_filters
      (map (fun n => OpPublish 3 0 (numbered_event n)) (seq 0 101)) new_mediator
  = Some (100, Some (Some 2%Z), Some (Some 101%Z)).
Proof. vm_compute. reflexivity. Qed.

(** The handler of the first subscriber publishes a [CONTENT_HIDDEN] event
    while the [OVERLAY_SHOWN] event is dispatched: it is recorded in front. *)
Example event_history_run :
  (fun m => map ev_type (eventHistory m)) <$>
    publish publishing_handlers no_filters 0 5 example_event example_mediator
  = Some [Some CONTENT_HIDDEN; Some OVERLAY_SHOWN].
Proof. vm_compute. reflexivity. Qed.

(** ** The order of dispatch *)

(** Where the insertion of [sort] puts a new element. *)
Lemma sort_insert_split {A} (compare : A -> A -> Z) (x : A) (l : list A) :
  exists before after,
    l = before ++ after /\
    Js.sort_insert compare x l = before ++ x :: after /\
    Forall (fun y => (compare y x <= 0)%Z) before /\
    match after with [] => True | y :: _ => (0 < compare y x)%Z end.
Proof.
  induction l as [|y l (before & after & -> & Hi & Hb & Ha)]; simpl.
  - by exists [], [].
  - destruct (Z.ltb_spec 0 (compare y x)) as [Hc|Hc].
    + by exists [], (y :: before ++ after).
    + exists (y :: before), after. rewrite Hi. repeat split; [|done].
      by constructor.
Qed.

(** The subscription [subscribe] makes goes behind the subscriptions of at
    least its priority and in front of those of lower priority. *)
Lemma subscribe_place t h o m :
  sound m ->
  exists before after,
    subscriptions_of t m = before ++ after /\
    subscriptions_of t (subscribe t (Some h) o m).2
      = before ++ new_subscription t h o m :: after /\
    Forall (fun s => (sub_priority (new_subscription t h o m) <= sub_priority s)%Z) before /\
    Forall (fun s => (sub_priority s < sub_priority (new_subscription t h o m))%Z) after.
Proof.
  intros (Ho & Hl & _).
  destruct (subscribe_spec t h o m Hl) as (_ & _ & _ & Hlists).
  rewrite Hlists, decide_True by done. rewrite sorted_push by done.
  set (x := new_subscription t h o m).
  destruct (sort_insert_split compare_priority x (subscriptions_of t m))
    as (before & after & Hsplit & Hins & Hb & Ha).
  exists before, after. split; [done|]. split; [done|]. split.
  - eapply Forall_impl; [exact Hb|]. intros y Hy. simpl in Hy.
    rewrite compare_priority_eq in Hy. lia.
  - pose proof (ordered_subscriptions_of t m Ho) as Hs. rewrite Hsplit in Hs.
    apply StronglySorted_app in Hs as (_ & _ & Hs).
    destruct after as [|y after]; [constructor|].
    rewrite compare_priority_eq in Ha.
    apply StronglySorted_inv in Hs as [_ Hy]. constructor; [lia|].
    eapply Forall_impl; [exact Hy|]. intros z [?|[? _]]; lia.
Qed.


Lemma publishing_handlers_tame_three :
  tame_store publishing_handlers example_rank 3
    (subscribe OVERLAY_SHOWN (Some 2) (example_options 7) example_mediator).2.
Proof.
  repeat constructor; intros e; unfold publishing_handlers; simpl;
    destruct (ev_type e) as [[]|] eqn:Ht; repeat constructor.
  unfold tame_action, event_rank. rewrite Ht. simpl. lia.
Qed.


Example subscribe_between :
  map sub_id
    (getSubscriptions OVERLAY_SHOWN
       (subscribe OVERLAY_SHOWN (Some 2) (example_options 7) example_mediator).2)
  = ["sub_1"; "sub_3"; "sub_2"] /\
  invoked_ids <$>
    publish publishing_handlers no_filters 0 6 example_event
      (subscribe OVERLAY_SHOWN (Some 2) (example_options 7) example_mediator).2
  = Some ["sub_1"; "sub_3"; "sub_2"].
Proof. vm_compute. done. Qed.

(** ** Handlers that unsubscribe while an event is dispatched *)

(** No subscription has the identifier. *)
Definition gone (id : string) (m : Mediator) : Prop :=
  forall t s, s ∈ subscriptions_of t m -> sub_id s ≠ id.

(** The lists of [m'] hold only subscriptions of the lists of [m]. *)
Definition thinned (m m' : Mediator) : Prop :=
  forall t s, s ∈ subscriptions_of t m' -> s ∈ subscriptions_of t m.

Lemma thinned_refl m : thinned m m.
Proof. by intros t s. Qed.

Lemma thinned_trans m1 m2 m3 : thinned m1 m2 -> thinned m2 m3 -> thinned m1 m3.
Proof. intros H1 H2 t s Hs. by apply H1, H2. Qed.

Lemma gone_thinned id m m' : thinned m m' -> gone id m -> gone id m'.
Proof. intros Ht Hg t s Hs. by apply (Hg t), Ht. Qed.

Lemma unsubscribe_thinned id m :
  sound m -> thinned m (unsubscribe id m).2 /\ gone id (unsubscribe id m).2.
Proof.
  intros (Ho & Hl & Hu).
  destruct (unsubscribe_lists id m Hl Hu (ordered_named m Ho)) as (_ & Hlists).
  split; intros t s; rewrite Hlists; by intros [? ?]%list_elem_of_filter.
Qed.

Lemma unsubscribeByContext_thinned c m :
  sound m -> thinned m (unsubscribeByContext c m).2.
Proof.
  intros (Ho & Hl & Hu).
  destruct (decide (c = EmptyString)) as [->|Hc]; [apply thinned_refl|].
  destruct (unsubscribeByContext_lists c m Hl Hc) as (_ & _ & Hlists).
  intros t s. rewrite Hlists. by intros [? ?]%list_elem_of_filter.
Qed.

Lemma clearAllSubscriptions_thinned m : thinned m (clearAllSubscriptions m).2.
Proof. intros t s Hs. by apply elem_of_nil in Hs. Qed.

Section Unsubscribing.
Variable handler_body : nat -> ProtectionEvent -> list action.
Variable filter_body : nat -> ProtectionEvent -> option bool.
Variable publish_rec : ProtectionEvent -> Mediator -> option Mediator.

(** The handler reaches a call of [unsubscribe(id)]. *)
Definition unsubscribes (id : string) (acts : list action) : Prop :=
  exists pre post, acts = pre ++ AUnsubscribe id :: post /\ AThrow ∉ pre.

Lemma run_actions_unsubscribing acts m c :
  passive acts -> sound m ->
  run_actions publish_rec acts m = Some c ->
  sound (state_of c) /\ thinned m (state_of c) /\
  forall id, unsubscribes id acts -> gone id (state_of c).
Proof.
  intros Hp. revert m. induction Hp as [|a acts Ha _ IH]; intros m Hs; simpl.
  - intros [= <-]. split; [done|]. split; [apply thinned_refl|].
    intros id (pre & post & Hacts & _). by destruct pre.
  - destruct a as [| id0 | ctx | | |]; try discriminate Ha.
    + intros Hrun.
      destruct (unsubscribe_thinned id0 m Hs) as [Hthin Hgone].
      destruct (IH _ (sound_unsubscribe id0 m Hs) Hrun) as (Hs' & Ht' & Hg').
      split; [done|]. split; [by eapply thinned_trans|].
      intros id (pre & post & Hacts & Hthrow). destruct pre as [|a pre].
      * simplify_eq/=. by eapply gone_thinned.
      * simplify_eq/=. apply Hg'. exists pre, post. split; [done|].
        intros Hin. apply Hthrow. by right.
    + intros Hrun.
      destruct (IH _ (sound_unsubscribeByContext ctx m Hs) Hrun) as (Hs' & Ht' & Hg').
      split; [done|]. split.
      { eapply thinned_trans; [by apply unsubscribeByContext_thinned|done]. }
      intros id (pre & post & Hacts & Hthrow). destruct pre as [|a pre]; [done|].
      simplify_eq/=. apply Hg'. exists pre, post. split; [done|].
      intros Hin. apply Hthrow. by right.
    + intros Hrun.
      destruct (IH _ (sound_clearAllSubscriptions m Hs) Hrun) as (Hs' & Ht' & Hg').
      split; [done|]. split.
      { eapply thinned_trans; [apply clearAllSubscriptions_thinned|done]. }
      intros id (pre & post & Hacts & Hthrow). destruct pre as [|a pre]; [done|].
      simplify_eq/=. apply Hg'. exists pre, post. split; [done|].
      intros Hin. apply Hthrow. by right.
    + intros [= <-]. split; [done|]. split; [apply thinned_refl|].
      intros id (pre & post & Hacts & Hthrow). destruct pre as [|a pre]; [done|].
      simplify_eq/=. exfalso. apply Hthrow. by left.
Qed.

Lemma dispatch_one_unsubscribing e s m m' :
  passive (handler_body (sub_handler s) e) -> sound m ->
  dispatch_one handler_body filter_body publish_rec e s m = Some m' ->
  sound m' /\ thinned m m' /\
  (accepts filter_body e s = true ->
   forall id, unsubscribes id (handler_body (sub_handler s) e) -> gone id m').
Proof.
  intros Hp Hs. unfold dispatch_one, accepts.
  assert (forall m1,
    match run_actions publish_rec (handler_body (sub_handler s) e) (record_call s e m) with
    | Some (Normal m') => Some m'
    | Some (Throws m') => Some (log_error m')
    | None => None
    end = Some m1 ->
    sound m1 /\ thinned m m1 /\
    forall id, unsubscribes id (handler_body (sub_handler s) e) -> gone id m1) as Hcall.
  { intros m1. destruct (run_actions _ _ _) as [c|] eqn:Hrun; [|done].
    apply (run_actions_unsubscribing _ _ _ Hp) in Hrun; [|exact Hs].
    destruct c; intros [= <-]; exact Hrun. }
  destruct (sub_filter s) as [f|].
  - destruct (filter_body f e) as [[]|].
    + intros H1. destruct (Hcall _ H1) as (? & ? & ?). split; [done|]. split; [done|]. auto.
    + intros [= <-]. split; [done|]. split; [apply thinned_refl|done].
    + intros [= <-]. split; [exact Hs|]. split; [by intros ? ?|done].
  - intros H1. destruct (Hcall _ H1) as (? & ? & ?). split; [done|]. split; [done|]. auto.
Qed.

Lemma dispatch_unsubscribing e r subs i steps m m' :
  arrays m !! r = Some subs ->
  Forall (fun s => passive (handler_body (sub_handler s) e)) (drop i subs) ->
  sound m ->
  dispatch handler_body filter_body publish_rec e r steps i m = Some m' ->
  sound m' /\ thinned m m' /\
  forall s, s ∈ drop i subs -> accepts filter_body e s = true ->
    forall id, unsubscribes id (handler_body (sub_handler s) e) -> gone id m'.
Proof.
  revert i m. induction steps as [|steps IH]; intros i m Hr Hp Hs; [done|].
  simpl. unfold array_at. rewrite Hr. simpl.
  destruct (subs !! i) as [s|] eqn:Hi.
  - rewrite (drop_S _ _ _ Hi) in Hp |- *.
    apply Forall_cons in Hp as [Hps Hp].
    destruct (dispatch_one_passive handler_body filter_body publish_rec e s m Hps)
      as (m1 & H1 & Hpre & _).
    rewrite H1.
    destruct (dispatch_one_unsubscribing e s m m1 Hps Hs H1) as (Hs1 & Ht1 & Hg1).
    intros Hd.
    destruct (IH (S i) m1 (prefix_lookup_Some _ _ _ _ Hr Hpre) Hp Hs1 Hd)
      as (Hs2 & Ht2 & Hg2).
    split; [done|]. split; [by eapply thinned_trans|].
    intros s' [->|Hs']%elem_of_cons Hacc id Hid.
    + eapply gone_thinned; [exact Ht2|]. by apply Hg1.
    + by eapply Hg2.
  - intros [= <-]. split; [done|]. split; [apply thinned_refl|].
    rewrite (drop_ge subs i) by by apply lookup_ge_None.
    intros s Hin. by apply elem_of_nil in Hin.
Qed.

End Unsubscribing.

(** [publish] to handlers that only unsubscribe or throw: it returns, it has
    called exactly the accepted subscriptions of the list it found, and the
    subscriptions their handlers unsubscribed are in no list afterwards. *)
Lemma publish_unsubscribing handler_body filter_body now fuel e t m :
  ev_type e = Some t ->
  sound m ->
  Forall (fun s => passive (handler_body (sub_handler s) (backfill now e)))
    (subscriptions_of t m) ->
  length (subscriptions_of t m) + 2 <= fuel ->
  exists m', publish handler_body filter_body now fuel e m = Some m' /\
    invoked m' = invoked m ++ deliveries filter_body (backfill now e) (subscriptions_of t m) /\
    sound m' /\ thinned m m' /\
    forall s, s ∈ subscriptions_of t m ->
      accepts filter_body (backfill now e) s = true ->
      forall id, unsubscribes id (handler_body (sub_handler s) (backfill now e)) ->
        gone id m'.
Proof.
  intros Ht Hs Hp Hfuel.
  destruct (publish_passive handler_body filter_body now fuel e t m Ht Hp Hfuel)
    as (m' & Hpub & Hinv).
  exists m'. split; [done|]. split; [done|].
  destruct fuel as [|fuel]; [lia|]. simpl in Hpub.
  unfold publish_body in Hpub. rewrite Ht in Hpub.
  set (e' := backfill now e) in *. set (m1 := addToEventHistory e' m) in *.
  assert (subscriptions_of t m1 = subscriptions_of t m) as Hsubs by done.
  assert (thinned m m1) as Hthin by (by intros t0 s0).
  assert (sound m1) as Hs1 by exact Hs.
  rewrite <-Hsubs in Hp |- *. clearbody m1.
  unfold subscriptions_of in Hp |- *.
  destruct (Js.mget t (subscriptions m1)) as [r|].
  2:{ injection Hpub as <-. split; [done|]. split; [done|].
      intros s Hin. by apply elem_of_nil in Hin. }
  unfold array_at in *. destruct (arrays m1 !! r) as [subs|] eqn:Hr; simpl in *.
  2:{ injection Hpub as <-. split; [done|]. split; [done|].
      intros s Hin. by apply elem_of_nil in Hin. }
  destruct (Nat.eqb_spec (length subs) 0) as [H0|H0].
  { apply nil_length_inv in H0 as ->. injection Hpub as <-.
    split; [done|]. split; [done|]. intros s Hin. by apply elem_of_nil in Hin. }
  destruct (dispatch_unsubscribing handler_body filter_body
              (publish handler_body filter_body now fuel) e' r subs 0 fuel m1 m'
              Hr) as (Hs' & Ht' & Hg'); [by rewrite drop_0|done|done|].
  split; [done|]. split; [by eapply thinned_trans|].
  intros s Hin. apply Hg'. by rewrite drop_0.
Qed.

(** C6, as the code has it.  When a handler called earlier in a run of
    [publish] unsubscribes a later subscription of the same type, the handler
    of the removed subscription is still called in that run: the loop
    iterates the array fetched before it started, and [unsubscribe] stores a
    filtered copy in the map without touching that array.  The removal shows
    once the run is over: no list of [getSubscriptions] holds a subscription
    with the identifier, and a later [publish] does not call it.  (The
    handlers of the subscriptions dispatched to only unsubscribe or throw.) *)
Theorem unsubscribed_during_publish_still_called
    (handler_body : nat -> ProtectionEvent -> list action)
    (filter_body : nat -> ProtectionEvent -> option bool)
    (ops : list op) (now : Z) (fuel : nat) (e : ProtectionEvent)
    (t : ProtectionEventType) (m : Mediator) (a b : Subscription)
    (l1 l2 l3 : list Subscription) (pre post : list action) :
  run handler_body filter_body ops new_mediator = Some m ->
  ev_type e = Some t ->
  getSubscriptions t m = l1 ++ a :: l2 ++ b :: l3 ->
  handler_body (sub_handler a) (backfill now e) = pre ++ AUnsubscribe (sub_id b) :: post ->
  AThrow ∉ pre ->
  accepts filter_body (backfill now e) a = true ->
  accepts filter_body (backfill now e) b = true ->
  Forall (fun s => passive (handler_body (sub_handler s) (backfill now e)))
    (getSubscriptions t m) ->
  length (getSubscriptions t m) + 2 <= fuel ->
  exists m',
    publish handler_body filter_body now fuel e m = Some m' /\
    invoked m' =
      invoked m ++ deliveries filter_body (backfill now e) l1
        ++ (a, backfill now e) :: deliveries filter_body (backfill now e) l2
        ++ (b, backfill now e) :: deliveries filter_body (backfill now e) l3 /\
    (b ∉ getSubscriptions t m') /\
    (forall t' s, s ∈ getSubscriptions t' m' -> sub_id s ≠ sub_id b) /\
    forall now' fuel' e' t',
      ev_type e' = Some t' ->
      Forall (fun s => passive (handler_body (sub_handler s) (backfill now' e')))
        (getSubscriptions t' m') ->
      length (getSubscriptions t' m') + 2 <= fuel' ->
      exists m'' later,
        publish handler_body filter_body now' fuel' e' m' = Some m'' /\
        invoked m'' = invoked m' ++ later /\
        Forall (fun c => sub_id c.1 ≠ sub_id b) later.
Proof.
  unfold getSubscriptions.
  intros Hrun Ht Hsubs Hbody Hthrow Ha Hb Hp Hfuel.
  pose proof (run_sound _ _ _ _ Hrun) as Hsound.
  destruct (publish_unsubscribing handler_body filter_body now fuel e t m
              Ht Hsound Hp Hfuel) as (m' & Hpub & Hinv & Hs' & _ & Hgone).
  assert (gone (sub_id b) m') as Hg.
  { apply (Hgone a); [|done|by exists pre, post].
    rewrite Hsubs. apply elem_of_app. right. by left. }
  exists m'. split; [done|]. split.
  { rewrite Hinv, Hsubs. unfold deliveries.
    rewrite filter_app, filter_cons_True, filter_app, filter_cons_True by done.
    rewrite map_app. simpl. by rewrite map_app. }
  split; [intros Hin; by apply (Hg t b)|]. split; [exact Hg|].
  intros now' fuel' e' t' Ht' Hp' Hfuel'.
  destruct (publish_passive handler_body filter_body now' fuel' e' t' m'
              Ht' Hp' Hfuel') as (m'' & Hpub' & Hinv').
  exists m'', (deliveries filter_body (backfill now' e') (subscriptions_of t' m')).
  split; [done|]. split; [done|].
  unfold deliveries. apply Forall_forall.
  intros c (s & -> & [_ Hs]%list_elem_of_filter)%list_elem_of_fmap.
  by apply (Hg t').
Qed.

(** Handler A (priority 10) unsubscribes B (priority 5) while the event is
    dispatched: B is called in that run, and not in the next. *)
Lemma unsubscribed_during_publish_still_called_witness :
  exists m',
    publish unsubscribing_handlers no_filters 0 4 example_event example_mediator = Some m' /\
    invoked m' =
      invoked example_mediator ++ []
        ++ (Build_Subscription "sub_1" OVERLAY_SHOWN 0 None 10 None,
            backfill 0 example_event)
        :: []
        ++ (Build_Subscription "sub_2" OVERLAY_SHOWN 1 None 5 None,
            backfill 0 example_event) :: [] /\
    (Build_Subscription "sub_2" OVERLAY_SHOWN 1 None 5 None
       ∉ getSubscriptions OVERLAY_SHOWN m') /\
    (forall t' s, s ∈ getSubscriptions t' m' -> sub_id s ≠ "sub_2") /\
    forall now' fuel' e' t',
      ev_type e' = Some t' ->
      Forall (fun s => passive (unsubscribing_handlers (sub_handler s) (backfill now' e')))
        (getSubscriptions t' m') ->
      length (getSubscriptions t' m') + 2 <= fuel' ->
      exists m'' later,
        publish unsubscribing_handlers no_filters now' fuel' e' m' = Some m'' /\
        invoked m'' = invoked m' ++ later /\
        Forall (fun c => sub_id c.1 ≠ "sub_2") later.
Proof.
  apply (unsubscribed_during_publish_still_called unsubscribing_handlers
           no_filters example_ops 0 4 example_event OVERLAY_SHOWN example_mediator
           (Build_Subscription "sub_1" OVERLAY_SHOWN 0 None 10 None)
           (Build_Subscription "sub_2" OVERLAY_SHOWN 1 None 5 None) [] [] [] [] []).
  - reflexivity.
  - reflexivity.
  - vm_compute. reflexivity.
  - vm_compute. reflexivity.
  - apply not_elem_of_nil.
  - reflexivity.
  - reflexivity.
  - vm_compute. repeat constructor.
  - vm_compute. lia.
Defined.

(** The next [publish] calls A only. *)
Example unsubscribed_not_called_again :
  invoked_ids <$>
    run unsubscribing_handlers no_filters
      [OpPublish 4 0 example_event; OpPublish 4 0 example_event] example_mediator
  = Some ["sub_1"; "sub_2"; "sub_1"].
Proof. vm_compute. reflexivity. Qed.

End MediatorLaws.

(* ===================================================================== *)
(** * The base class of the event handlers ([AbstractEventHandler]) *)
(* ===================================================================== *)

Module EventHandler.

Import Mediator MediatorLaws.

(** The fields [subscribe] and [dispose] use. *)
Record AbstractEventHandler := {
  COMPONENT_NAME : string;
  subscriptionIds : list string;
}.

(** [options?.context || this.COMPONENT_NAME]: [options] is absent, or an
    object whose [context] may be absent. *)
Definition context_of (options : option (option string)) (h : AbstractEventHandler)
    : string :=
  match options with
  | Some (Some c) => if Js.nonempty c then c else COMPONENT_NAME h
  | _ => COMPONENT_NAME h
  end.

(** [this.subscribe(eventType, handler, options)]: the mediator's
    [subscribe] with the context filled in; the identifier is kept. *)
Definition subscribe (eventType : ProtectionEventType) (handler : nat)
    (options : option (option string)) (h : AbstractEventHandler) (m : Mediator)
    : string * (AbstractEventHandler * Mediator) :=
  let '(subId, m) :=
    Mediator.subscribe eventType (Some handler)
      (Some {| so_filter := None; so_priority := None;
               so_context := Some (context_of options h) |}) m in
  (subId,
   ({| COMPONENT_NAME := COMPONENT_NAME h;
       subscriptionIds := subscriptionIds h ++ [subId] |}, m)).

(** [dispose()]: [unsubscribe] for every identifier kept, in order. *)
Definition dispose (h : AbstractEventHandler) (m : Mediator)
    : AbstractEventHandler * Mediator :=
  ({| COMPONENT_NAME := COMPONENT_NAME h; subscriptionIds := [] |},
   foldl (fun m id => (Mediator.unsubscribe id m).2) m (subscriptionIds h)).

(** The calls of [this.subscribe] an [initialize()] makes. *)
Definition subscribe_all
    (requests : list (ProtectionEventType * nat * option (option string)))
    (h : AbstractEventHandler) (m : Mediator) : AbstractEventHandler * Mediator :=
  foldl (fun st req => (subscribe req.1.1 req.1.2 req.2 st.1 st.2).2) (h, m) requests.

(** Taking the subscription just made out of the lists gives the lists of
    before. *)
Lemma filter_fresh_subscribe t h o m t' :
  sound m ->
  filter (fun s => sub_id s ≠ (Mediator.subscribe t (Some h) o m).1)
    (subscriptions_of t' (Mediator.subscribe t (Some h) o m).2)
  = subscriptions_of t' m.
Proof.
  intros (Ho & Hl & Hu).
  destruct (subscribe_spec t h o m Hl) as (-> & _ & _ & ->).
  case_decide as Ht.
  - subst t'. rewrite sorted_push by done.
    apply filter_sort_insert_fresh.
    + apply Forall_forall. intros s Hs. by eapply ordered_fresh.
    + intros Hne. by apply Hne.
  - apply filter_all, Forall_forall. intros s Hs. by eapply ordered_fresh.
Qed.

Lemma filter_not_in_cons id (ids : list string) (l : list Subscription) :
  filter (fun s => sub_id s ∉ id :: ids) l
  = filter (fun s => sub_id s ≠ id) (filter (fun s => sub_id s ∉ ids) l).
Proof.
  rewrite list_filter_filter. apply list_filter_iff. intros s.
  by rewrite not_elem_of_cons.
Qed.

Lemma filter_not_in_cons' id (ids : list string) (l : list Subscription) :
  filter (fun s => sub_id s ∉ id :: ids) l
  = filter (fun s => sub_id s ∉ ids) (filter (fun s => sub_id s ≠ id) l).
Proof.
  rewrite list_filter_filter. apply list_filter_iff. intros s.
  rewrite not_elem_of_cons. tauto.
Qed.

Lemma subscribe_all_spec requests h m :
  sound m ->
  sound (subscribe_all requests h m).2 /\
  COMPONENT_NAME (subscribe_all requests h m).1 = COMPONENT_NAME h /\
  exists new_ids,
    subscriptionIds (subscribe_all requests h m).1 = subscriptionIds h ++ new_ids /\
    length new_ids = length requests /\
    forall t, filter (fun s => sub_id s ∉ new_ids)
                (subscriptions_of t (subscribe_all requests h m).2)
              = subscriptions_of t m.
Proof.
  unfold subscribe_all. revert h m.
  induction requests as [|[[t hd] o] requests IH]; intros h m Hs.
  - split; [done|]. split; [done|]. exists []. rewrite app_nil_r.
    split; [done|]. split; [done|]. intros t. apply filter_all, Forall_forall.
    intros s _. apply not_elem_of_nil.
  - cbn [foldl fst snd].
    set (opts := Some {| so_filter := None; so_priority := None;
                         so_context := Some (context_of o h) |}).
    assert ((subscribe t hd o h m).2
            = ({| COMPONENT_NAME := COMPONENT_NAME h;
                  subscriptionIds :=
                    subscriptionIds h ++ [(Mediator.subscribe t (Some hd) opts m).1] |},
               (Mediator.subscribe t (Some hd) opts m).2)) as ->.
    { unfold subscribe. fold opts. by destruct (Mediator.subscribe t (Some hd) opts m). }
    pose proof (sound_subscribe t (Some hd) opts m Hs) as Hs1.
    pose proof (filter_fresh_subscribe t hd opts m) as Hfresh.
    set (id1 := (Mediator.subscribe t (Some hd) opts m).1) in *.
    set (m1 := (Mediator.subscribe t (Some hd) opts m).2) in *.
    destruct (IH {| COMPONENT_NAME := COMPONENT_NAME h;
                    subscriptionIds := subscriptionIds h ++ [id1] |} m1 Hs1)
      as (Hs2 & Hname & new' & Hids & Hlen & Hlists).
    split; [done|]. split; [done|]. exists (id1 :: new').
    split; [rewrite Hids; simpl; by rewrite <-app_assoc|].
    split; [simpl; by rewrite Hlen|].
    intros t'. rewrite filter_not_in_cons, Hlists. by apply Hfresh.
Qed.

Lemma dispose_spec ids m :
  sound m ->
  sound (foldl (fun m id => (Mediator.unsubscribe id m).2) m ids) /\
  forall t,
    subscriptions_of t (foldl (fun m id => (Mediator.unsubscribe id m).2) m ids)
    = filter (fun s => sub_id s ∉ ids) (subscriptions_of t m).
Proof.
  revert m. induction ids as [|id ids IH]; intros m Hs.
  - split; [done|]. intros t. symmetry. apply filter_all, Forall_forall.
    intros s _. apply not_elem_of_nil.
  - cbn [foldl]. pose proof (sound_unsubscribe id m Hs) as Hs1.
    destruct (IH _ Hs1) as (Hs2 & Hlists). split; [done|].
    intros t. rewrite Hlists, filter_not_in_cons'. f_equal.
    destruct Hs as (Ho & Hl & Hu).
    apply (unsubscribe_lists id m Hl Hu (ordered_named m Ho)).
Qed.

(** X6.  Life cycle of an event handler: in every state the mediator's
    public methods reach, after a handler that holds no subscription has made
    any number of subscriptions through [this.subscribe] and has then been
    disposed, it holds no subscription identifier and every event type has
    exactly the subscriptions, in the order, it had before the handler was
    initialised; meanwhile the handler holds one identifier for each call. *)
Theorem handler_dispose_round_trip
    (handler_body : nat -> ProtectionEvent -> list action)
    (filter_body : nat -> ProtectionEvent -> option bool)
    (ops : list op) (m : Mediator)
    (requests : list (ProtectionEventType * nat * option (option string)))
    (h : AbstractEventHandler) :
  run handler_body filter_body ops new_mediator = Some m ->
  subscriptionIds h = [] ->
  length (subscriptionIds (subscribe_all requests h m).1) = length requests /\
  subscriptionIds
    (dispose (subscribe_all requests h m).1 (subscribe_all requests h m).2).1 = [] /\
  forall t,
    getSubscriptions t
      (dispose (subscribe_all requests h m).1 (subscribe_all requests h m).2).2
    = getSubscriptions t m.
Proof.
  intros Hs%run_sound Hids.
  destruct (subscribe_all_spec requests h m Hs) as (Hs1 & _ & new & Hnew & Hlen & Hlists).
  rewrite Hids in Hnew. simpl in Hnew.
  split; [by rewrite Hnew|]. split; [done|].
  intros t. unfold getSubscriptions, dispose. cbn [snd].
  destruct (dispose_spec (subscriptionIds (subscribe_all requests h m).1) _ Hs1)
    as (_ & ->).
  rewrite Hnew. apply Hlists.
Qed.

(** The handler registry's four handlers, on a mediator that already has two
    subscribers. *)
Definition devtools_handler : AbstractEventHandler :=
  {| COMPONENT_NAME := "DevToolsEventHandler"; subscriptionIds := [] |}.

Lemma handler_dispose_round_trip_witness :
  length (subscriptionIds
            (subscribe_all [(DEVTOOLS_STATE_CHANGE, 0, None); (OVERLAY_SHOWN, 5, None)]
               devtools_handler example_mediator).1) = 2 /\
  subscriptionIds
    (dispose
       (subscribe_all [(DEVTOOLS_STATE_CHANGE, 0, None); (OVERLAY_SHOWN, 5, None)]
          devtools_handler example_mediator).1
       (subscribe_all [(DEVTOOLS_STATE_CHANGE, 0, None); (OVERLAY_SHOWN, 5, None)]
          devtools_handler example_mediator).2).1 = [] /\
  forall t,
    getSubscriptions t
      (dispose
         (subscribe_all [(DEVTOOLS_STATE_CHANGE, 0, None); (OVERLAY_SHOWN, 5, None)]
            devtools_handler example_mediator).1
         (subscribe_all [(DEVTOOLS_STATE_CHANGE, 0, None); (OVERLAY_SHOWN, 5, None)]
            devtools_handler example_mediator).2).2
    = getSubscriptions t example_mediator.
Proof.
  apply (handler_dispose_round_trip throwing_handlers no_filters example_ops
           example_mediator
           [(DEVTOOLS_STATE_CHANGE, 0, None); (OVERLAY_SHOWN, 5, None)]
           devtools_handler).
  - reflexivity.
  - reflexivity.
Defined.

Example handler_subscribe_context :
  map (fun s => (sub_id s, sub_context s))
    (getSubscriptions DEVTOOLS_STATE_CHANGE
       (subscribe_all [(DEVTOOLS_STATE_CHANGE, 0, None)] devtools_handler
          example_mediator).2)
  = [("sub_3", Some "DevToolsEventHandler")].
Proof. vm_compute. reflexivity. Qed.

End EventHandler.

(* ===================================================================== *)
(** * The overlay coordinator: removal, promotion and the page listeners *)
(* ===================================================================== *)

Module OverlayLaws.

Import Overlay.

(** [hasOverlay(overlayId)]. *)
Definition hasOverlay (overlayId : string) (m : Manager) : bool :=
  Js.mhas overlayId (overlays m).

(** [getActiveOverlayId()]. *)
Definition getActiveOverlayId (m : Manager) : option string := activeOverlayId m.

(** [getOverlayQueue()]: a copy of the queue. *)
Definition getOverlayQueue (m : Manager) : list string := overlayQueue m.

(** ** Outside a browser *)

Lemma step_not_browser o : step false o new_manager = new_manager.
Proof.
  destruct o as [owner ty opts p now|id|owner|owner| |e now|e|e|]; try done.
  - unfold step, handleOverlayShown. destruct (negb _); [done|].
    destruct (ev_data e) as [[]|]; try done. by destruct options.
  - unfold step, handleOverlayRemoved. destruct (negb _); [done|].
    by destruct (ev_data e) as [[]|].
  - unfold step, handleOverlayRestored. by destruct (ev_data e) as [[]|].
Qed.

(** X7.  Outside a browser ([isBrowser()] false, as in server-side
    rendering) the manager never stores, queues or shows anything: after any
    sequence of calls of its methods, overlay events and observer callbacks
    it is in the state it was created in, and [registerOverlay] returns the
    empty identifier. *)
Theorem no_overlay_outside_browser (ops : list op)
    (owner overlayType : string) (options : OverlayOptions) (priority : Z) (now : N) :
  run false ops new_manager = new_manager /\
  registerOverlay false owner overlayType options priority now
    (run false ops new_manager) = (EmptyString, new_manager).
Proof.
  assert (run false ops new_manager = new_manager) as Hrun.
  { unfold run. induction ops as [|o ops IH]; [done|].
    simpl. by rewrite step_not_browser. }
  split; [done|]. by rewrite Hrun.
Qed.

(** ** Which overlays are stored, in the order of the map *)

(** The identifier, owner and type of every stored overlay. *)
Definition roster (m : Manager) : list (string * string * string) :=
  map (fun e => (e.1, ov_owner e.2, ov_overlayType e.2)) (overlays m).

Lemma roster_mset id o o' (l : list (string * StoredOverlay)) :
  Js.mget id l = Some o ->
  ov_owner o' = ov_owner o -> ov_overlayType o' = ov_overlayType o ->
  map (fun e => (e.1, ov_owner e.2, ov_overlayType e.2)) (Js.mset id o' l)
  = map (fun e => (e.1, ov_owner e.2, ov_overlayType e.2)) l.
Proof.
  intros Hg Ho Ht. induction l as [|[k v] l IH]; simpl in *; [done|].
  destruct (decide (k = id)) as [->|Hne]; simpl.
  - injection Hg as ->. by rewrite Ho, Ht.
  - f_equal. by apply IH.
Qed.

Lemma roster_mdelete id (l : list (string * StoredOverlay)) :
  map (fun e => (e.1, ov_owner e.2, ov_overlayType e.2)) (Js.mdelete id l)
  = filter (fun x => x.1.1 ≠ id)
      (map (fun e => (e.1, ov_owner e.2, ov_overlayType e.2)) l).
Proof.
  induction l as [|[k v] l IH]; simpl; [done|].
  rewrite filter_cons. simpl. destruct (decide (k = id)) as [->|Hne].
  - by rewrite decide_False by (intros Hc; by apply Hc).
  - rewrite decide_True by done. simpl. by rewrite IH.
Qed.

Section Roster.
Variable isBrowser : bool.

Lemma roster_removeGlobalEventListeners m :
  roster (removeGlobalEventListeners isBrowser m) = roster m.
Proof. unfold removeGlobalEventListeners. by destruct isBrowser. Qed.

Lemma roster_showOverlayById id m :
  roster (showOverlayById isBrowser id m).2 = roster m.
Proof.
  unfold showOverlayById. destruct (Js.mget id (overlays m)) as [o|] eqn:Hg; [|done].
  destruct isBrowser; [|done]. simpl.
  assert (forall m', overlays m' = Js.mset id (shown o) (overlays m) ->
            roster m' = roster m) as Hset.
  { intros m' Hm'. unfold roster. rewrite Hm'. by eapply roster_mset. }
  destruct (auto_restores o); apply Hset; by destruct (Js.truthy _).
Qed.

Lemma roster_hideOverlayById id pq m :
  roster (hideOverlayById isBrowser id pq m).2 = roster m.
Proof.
  unfold hideOverlayById. destruct (Js.mget id (overlays m)) as [o|] eqn:Hg; [|done].
  destruct (negb (ov_isVisible o)); [done|]. simpl.
  set (m1 := with_overlays _ m).
  assert (roster m1 = roster m) as Hm1.
  { unfold roster, m1. simpl. by eapply roster_mset. }
  clearbody m1. case_bool_decide; [|done]. simpl.
  set (m2 := removeGlobalEventListeners isBrowser (with_active None m1)).
  assert (roster m2 = roster m) as Hm2.
  { unfold m2. by rewrite roster_removeGlobalEventListeners. }
  clearbody m2. destruct pq; [|done].
  destruct (overlayQueue m2) as [|next rest]; [done|].
  destruct (Js.nonempty next); [|done]. simpl.
  by rewrite roster_showOverlayById.
Qed.

Lemma roster_removeOverlayById id m :
  roster (removeOverlayById isBrowser id m).2
  = filter (fun x => x.1.1 ≠ id) (roster m).
Proof.
  unfold removeOverlayById. destruct (Js.mget id (overlays m)) as [o|] eqn:Hg; simpl.
  - set (m1 := if bool_decide _ then _ else _).
    assert (roster m1 = roster m) as Hm1.
    { unfold m1. case_bool_decide;
        [rewrite roster_removeGlobalEventListeners|];
        by rewrite roster_hideOverlayById. }
    clearbody m1. unfold roster at 1. simpl. rewrite roster_mdelete.
    by fold (roster m1); rewrite Hm1.
  - symmetry. apply MediatorLaws.filter_all, Forall_forall.
    intros x ([k v] & -> & Hin)%list_elem_of_fmap. simpl. intros ->.
    apply Js.elem_mget_is_Some in Hin as [? ?]. congruence.
Qed.

Lemma roster_remove_each ids n m :
  roster (remove_each isBrowser ids n m).2
  = filter (fun x => x.1.1 ∉ ids) (roster m).
Proof.
  revert n m. induction ids as [|id ids IH]; intros n m; simpl.
  - symmetry. apply MediatorLaws.filter_all, Forall_forall.
    intros x _. apply not_elem_of_nil.
  - destruct (removeOverlayById isBrowser id m) as [removed m1] eqn:Hrem.
    rewrite IH.
    assert (roster m1 = filter (fun x => x.1.1 ≠ id) (roster m)) as ->.
    { by rewrite <-roster_removeOverlayById, Hrem. }
    rewrite list_filter_filter. apply list_filter_iff. intros x.
    rewrite not_elem_of_cons. tauto.
Qed.

Lemma stored_roster id m :
  is_Some (Js.mget id (overlays m)) <-> id ∈ (roster m).*1.*1.
Proof.
  unfold roster. rewrite <-!list_fmap_compose. apply Js.mget_is_Some_keys.
Qed.

(** Each identifier of a list without repetitions that is stored gets
    removed. *)
Lemma remove_each_count ids n m :
  NoDup ids -> (forall id, id ∈ ids -> is_Some (Js.mget id (overlays m))) ->
  (remove_each isBrowser ids n m).1 = n + length ids.
Proof.
  revert n m. induction ids as [|id ids IH]; intros n m Hnd Hst; simpl; [lia|].
  apply NoDup_cons in Hnd as [Hid Hnd].
  destruct (removeOverlayById isBrowser id m) as [removed m1] eqn:Hrem.
  assert (removed = true) as ->.
  { destruct (Hst id) as [o Ho]; [by apply elem_of_cons; left|].
    unfold removeOverlayById in Hrem. rewrite Ho in Hrem. by injection Hrem as <- _. }
  rewrite IH; [lia|done|].
  intros id' Hin. apply stored_roster.
  assert (roster m1 = filter (fun x => x.1.1 ≠ id) (roster m)) as ->.
  { by rewrite <-roster_removeOverlayById, Hrem. }
  destruct (Hst id') as [o Ho]; [by apply elem_of_cons; right|].
  assert (id' ∈ (roster m).*1.*1) as Hr by (apply stored_roster; eauto).
  apply list_elem_of_fmap in Hr as (y & -> & (x & -> & Hx)%list_elem_of_fmap).
  apply list_elem_of_fmap. exists x.1. split; [done|].
  apply list_elem_of_fmap. exists x. split; [done|].
  apply list_elem_of_filter. split; [|done]. intros Heq. simpl in Hin.
  rewrite Heq in Hin. done.
Qed.

End Roster.

Lemma NoDup_fmap_elem {A B} (f : A -> B) (l : list A) (x y : A) :
  NoDup (f <$> l) -> x ∈ l -> y ∈ l -> f x = f y -> x = y.
Proof.
  induction l as [|a l IH]; simpl; [by intros _ ?%elem_of_nil|].
  intros [Ha Hnd]%NoDup_cons [->|Hx]%elem_of_cons [->|Hy]%elem_of_cons Heq.
  - done.
  - exfalso. apply Ha. rewrite Heq. apply list_elem_of_fmap. by exists y.
  - exfalso. apply Ha. rewrite <-Heq. apply list_elem_of_fmap. by exists x.
  - by apply IH.
Qed.

Lemma filter_fmap {A B} (f : A -> B) (P : B -> Prop) `{!forall y, Decision (P y)}
    (l : list A) :
  filter P (f <$> l) = f <$> filter (fun x => P (f x)) l.
Proof.
  induction l as [|x l IH]; [done|].
  rewrite fmap_cons, !filter_cons. destruct (decide (P (f x))).
  - by rewrite fmap_cons, IH.
  - done.
Qed.

Lemma filter_iff_elem {A} (P Q : A -> Prop) `{!forall x, Decision (P x)}
    `{!forall x, Decision (Q x)} (l : list A) :
  (forall x, x ∈ l -> P x <-> Q x) -> filter P l = filter Q l.
Proof.
  induction l as [|x l IH]; intros Hiff; [done|].
  rewrite !filter_cons.
  rewrite IH by (intros y Hy; apply Hiff; by apply elem_of_cons; right).
  destruct (decide (P x)) as [HP|HP].
  - by rewrite decide_True by (apply Hiff; [by apply elem_of_cons; left|done]).
  - rewrite decide_False; [done|].
    intros HQ. apply HP, Hiff; [by apply elem_of_cons; left|done].
Qed.

Lemma getOverlaysByOwner_roster owner m :
  getOverlaysByOwner owner m
  = (filter (fun x => x.1.2 = owner) (roster m)).*1.*1.
Proof.
  unfold getOverlaysByOwner, roster, Js.mkeys.
  change (map ?f ?l) with (f <$> l).
  by rewrite filter_fmap, <-!list_fmap_compose.
Qed.

(** X8.  In a browser, in every state the manager reaches,
    [removeOverlaysByOwner(owner)] returns the number of overlays the owner
    had; afterwards the owner has none, and every other owner has the
    overlays it had, in the same order. *)
Theorem removeOverlaysByOwner_removes_all (ops : list op) (owner : string) :
  (removeOverlaysByOwner true owner (run true ops new_manager)).1
    = length (getOverlaysByOwner owner (run true ops new_manager)) /\
  getOverlaysByOwner owner
    (removeOverlaysByOwner true owner (run true ops new_manager)).2 = [] /\
  forall other, other ≠ owner ->
    getOverlaysByOwner other
      (removeOverlaysByOwner true owner (run true ops new_manager)).2
    = getOverlaysByOwner other (run true ops new_manager).
Proof.
  set (m := run true ops new_manager).
  assert (wf m) as (_ & _ & _ & Hnd) by (apply wf_run, wf_new).
  unfold removeOverlaysByOwner. cbn [negb].
  assert (forall id, id ∈ getOverlaysByOwner owner m ->
            is_Some (Js.mget id (overlays m))) as Hstored.
  { intros id. unfold getOverlaysByOwner, Js.mkeys.
    intros ([k v] & -> & [_ Hin]%list_elem_of_filter)%list_elem_of_fmap.
    by eapply Js.elem_mget_is_Some. }
  assert (NoDup (getOverlaysByOwner owner m)) as Hnd'.
  { unfold getOverlaysByOwner, Js.mkeys.
    eapply sublist_NoDup; [exact Hnd|]. apply fmap_sublist, sublist_filter. }
  split; [|split].
  - by rewrite remove_each_count.
  - rewrite getOverlaysByOwner_roster, roster_remove_each, list_filter_filter.
    rewrite Js.filter_none; [done|]. apply Forall_forall.
    intros x Hx [Ho Hin]. apply Hin. rewrite getOverlaysByOwner_roster.
    apply list_elem_of_fmap. exists x.1. split; [done|].
    apply list_elem_of_fmap. exists x. split; [done|].
    by apply list_elem_of_filter.
  - intros other Hne.
    rewrite !getOverlaysByOwner_roster, roster_remove_each, list_filter_filter.
    f_equal. f_equal. apply filter_iff_elem. intros x Hx. split; [by intros [? _]|].
    intros Ho. split; [done|].
    intros (y & Hy & (z & -> & [Hz Hin]%list_elem_of_filter)%list_elem_of_fmap)%list_elem_of_fmap.
    apply Hne. rewrite <-Ho, <-Hz.
    assert (NoDup ((fun e => e.1.1) <$> roster m)) as Hndr.
    { unfold roster. by rewrite <-list_fmap_compose. }
    by rewrite (NoDup_fmap_elem _ _ x z Hndr Hx Hin Hy).
Qed.

(** X9.  In a browser, in every state the manager reaches,
    [clearAllOverlays()] returns the number of stored overlays and leaves the
    manager without stored, visible, active or queued overlays and without
    the page-wide listeners. *)
Theorem clearAllOverlays_empties (ops : list op) :
  (clearAllOverlays true (run true ops new_manager)).1
    = length (overlays (run true ops new_manager)) /\
  overlays (clearAllOverlays true (run true ops new_manager)).2 = [] /\
  getActiveOverlays (clearAllOverlays true (run true ops new_manager)).2 = [] /\
  activeOverlayId (clearAllOverlays true (run true ops new_manager)).2 = None /\
  overlayQueue (clearAllOverlays true (run true ops new_manager)).2 = [] /\
  globalListeners (clearAllOverlays true (run true ops new_manager)).2 = false.
Proof.
  set (m := run true ops new_manager).
  assert (wf m) as (_ & _ & _ & Hnd) by (apply wf_run, wf_new).
  unfold clearAllOverlays. cbn [negb].
  pose proof (remove_each_count true (Js.mkeys (overlays m)) 0 m Hnd) as Hcount.
  pose proof (roster_remove_each true (Js.mkeys (overlays m)) 0 m) as Hroster.
  destruct (remove_each true (Js.mkeys (overlays m)) 0 m) as [n m1]. simpl in *.
  assert (overlays m1 = []) as Hempty.
  { apply (fmap_nil_inv (fun e => (e.1, ov_owner e.2, ov_overlayType e.2))).
    change (roster m1 = []). rewrite Hroster. apply Js.filter_none, Forall_forall.
    intros x Hx Hnot. apply Hnot. unfold roster in Hx.
    apply list_elem_of_fmap in Hx as (e & -> & He). simpl.
    apply list_elem_of_fmap. by exists e. }
  split.
  { rewrite Hcount; [unfold Js.mkeys; by rewrite length_fmap|].
    intros id Hid. by apply Js.mget_is_Some_keys. }
  unfold getActiveOverlays. simpl. by rewrite Hempty.
Qed.

(** ** The page-wide listeners *)

(** The listeners that block scrolling are installed only while an overlay
    is active, and never outside a browser. *)
Definition listeners_ok (isBrowser : bool) (m : Manager) : Prop :=
  (isBrowser = false -> globalListeners m = false) /\
  (activeOverlayId m = None -> globalListeners m = false).

Lemma listeners_ok_fields isBrowser m m' :
  activeOverlayId m' = activeOverlayId m ->
  globalListeners m' = globalListeners m ->
  listeners_ok isBrowser m -> listeners_ok isBrowser m'.
Proof. unfold listeners_ok. intros -> ->. done. Qed.

Section Listeners.
Variable isBrowser : bool.

Lemma listeners_ok_removeGlobalEventListeners m :
  listeners_ok isBrowser m ->
  (isBrowser = true -> globalListeners (removeGlobalEventListeners isBrowser m) = false) /\
  listeners_ok isBrowser (removeGlobalEventListeners isBrowser m).
Proof.
  unfold removeGlobalEventListeners, listeners_ok. destruct isBrowser; simpl.
  - by intros _.
  - intros [H1 H2]. split; [done|]. by split.
Qed.

Lemma listeners_ok_cleared m :
  listeners_ok isBrowser m ->
  listeners_ok isBrowser (removeGlobalEventListeners isBrowser (with_active None m)).
Proof.
  unfold removeGlobalEventListeners, listeners_ok. destruct isBrowser; simpl.
  - by intros _.
  - intros [H1 H2]. split; intros _; by apply H1.
Qed.

Lemma listeners_ok_showOverlayById id m :
  listeners_ok isBrowser m -> listeners_ok isBrowser (showOverlayById isBrowser id m).2.
Proof.
  intros Hm. unfold showOverlayById.
  destruct (Js.mget id (overlays m)) as [o|]; [|done].
  destruct isBrowser eqn:Hb; [|done]. simpl.
  split; [done|]. by destruct (auto_restores o).
Qed.

Lemma listeners_ok_hideOverlayById id pq m :
  listeners_ok isBrowser m ->
  listeners_ok isBrowser (hideOverlayById isBrowser id pq m).2.
Proof.
  intros Hm. unfold hideOverlayById.
  destruct (Js.mget id (overlays m)) as [o|]; [|done].
  destruct (negb (ov_isVisible o)); [done|]. simpl.
  set (m1 := with_overlays _ m).
  assert (listeners_ok isBrowser m1) as Hm1 by done.
  clearbody m1. case_bool_decide; [|done].
  pose proof (listeners_ok_cleared m1 Hm1) as Hm2.
  set (m2 := removeGlobalEventListeners isBrowser (with_active None m1)) in *.
  clearbody m2. destruct pq; [|done].
  destruct (overlayQueue m2) as [|next rest] eqn:Hq; [done|].
  assert (listeners_ok isBrowser (with_queue rest m2)) as Hm3 by done.
  destruct (Js.nonempty next); [|done].
  by apply listeners_ok_showOverlayById.
Qed.

Lemma listeners_ok_addToQueue id m :
  listeners_ok isBrowser m -> listeners_ok isBrowser (addToQueue id m).
Proof. unfold addToQueue. by case_bool_decide. Qed.

Lemma listeners_ok_registerOverlay owner overlayType options priority now m :
  listeners_ok isBrowser m ->
  listeners_ok isBrowser
    (registerOverlay isBrowser owner overlayType options priority now m).2.
Proof.
  intros Hm. unfold registerOverlay. destruct (negb isBrowser); [done|].
  set (m1 := with_overlays _ m).
  assert (listeners_ok isBrowser m1) as Hm1 by done.
  clearbody m1. destruct (negb (has_active m1)).
  { by apply listeners_ok_showOverlayById. }
  pose proof (listeners_ok_addToQueue (overlay_id owner overlayType now) m1 Hm1) as Hm2.
  set (m2 := addToQueue _ m1) in *. clearbody m2.
  destruct (activeOverlayId m2) as [active|]; [|done].
  destruct (Js.mget active (overlays m2)) as [oa|]; [|done].
  destruct (Js.mget _ (overlays m2)) as [on|]; [|done].
  case_match; [|done].
  by apply listeners_ok_showOverlayById, listeners_ok_hideOverlayById.
Qed.

Lemma listeners_ok_removeOverlayById id m :
  listeners_ok isBrowser m ->
  listeners_ok isBrowser (removeOverlayById isBrowser id m).2.
Proof.
  intros Hm. unfold removeOverlayById.
  destruct (Js.mget id (overlays m)) as [o|]; [|done]. simpl.
  assert (listeners_ok isBrowser (with_observer None m)) as Hm1 by done.
  pose proof (listeners_ok_hideOverlayById id true _ Hm1) as Hm2.
  set (m2 := (hideOverlayById isBrowser id true (with_observer None m)).2) in *.
  clearbody m2.
  set (m3 := if bool_decide _ then _ else _).
  assert (listeners_ok isBrowser m3) as Hm3.
  { unfold m3. case_bool_decide; [|done].
    by apply listeners_ok_removeGlobalEventListeners. }
  done.
Qed.

Lemma listeners_ok_remove_each ids n m :
  listeners_ok isBrowser m -> listeners_ok isBrowser (remove_each isBrowser ids n m).2.
Proof.
  revert n m. induction ids as [|id ids IH]; intros n m Hm; simpl; [done|].
  pose proof (listeners_ok_removeOverlayById id m Hm) as Hm1.
  destruct (removeOverlayById isBrowser id m) as [removed m1]. by apply IH.
Qed.

Lemma listeners_ok_removeOverlaysByOwner owner m :
  listeners_ok isBrowser m ->
  listeners_ok isBrowser (removeOverlaysByOwner isBrowser owner m).2.
Proof.
  intros Hm. unfold removeOverlaysByOwner. destruct (negb isBrowser); [done|].
  by apply listeners_ok_remove_each.
Qed.

Lemma listeners_ok_restore_each owner ids n m :
  listeners_ok isBrowser m ->
  listeners_ok isBrowser (restore_each isBrowser owner ids n m).2.
Proof.
  revert n m. induction ids as [|id ids IH]; intros n m Hm; simpl; [done|].
  destruct (Js.mget id (overlays m)) as [o|]; [|by apply IH].
  destruct (_ && _); [|by apply IH].
  destruct (has_active m).
  - by apply IH, listeners_ok_addToQueue.
  - pose proof (listeners_ok_showOverlayById id m Hm) as Hm1.
    destruct (showOverlayById isBrowser id m) as [ok m1]. by apply IH.
Qed.

Lemma listeners_ok_checkAndRestoreOverlaysByOwner owner m :
  listeners_ok isBrowser m ->
  listeners_ok isBrowser (checkAndRestoreOverlaysByOwner isBrowser owner m).2.
Proof.
  intros Hm. unfold checkAndRestoreOverlaysByOwner. destruct (negb isBrowser); [done|].
  by apply listeners_ok_restore_each.
Qed.

Lemma listeners_ok_clearAllOverlays m :
  listeners_ok isBrowser m -> listeners_ok isBrowser (clearAllOverlays isBrowser m).2.
Proof.
  intros Hm. unfold clearAllOverlays. destruct (negb isBrowser); [done|].
  pose proof (listeners_ok_remove_each (Js.mkeys (overlays m)) 0 m Hm) as Hm1.
  destruct (remove_each isBrowser (Js.mkeys (overlays m)) 0 m) as [n m1]. simpl.
  by apply (listeners_ok_cleared (with_queue [] m1)).
Qed.

Lemma listeners_ok_step o m :
  listeners_ok isBrowser m -> listeners_ok isBrowser (step isBrowser o m).
Proof.
  intros Hm.
  destruct o as [owner ty opts p now|id|owner|owner| |e now|e|e|]; simpl.
  - by apply listeners_ok_registerOverlay.
  - by apply listeners_ok_removeOverlayById.
  - by apply listeners_ok_removeOverlaysByOwner.
  - by apply listeners_ok_checkAndRestoreOverlaysByOwner.
  - by apply listeners_ok_clearAllOverlays.
  - unfold handleOverlayShown. destruct (negb _); [done|].
    destruct (ev_data e) as [[]|]; try done. destruct options; [|done].
    apply listeners_ok_registerOverlay.
    destruct (hasOverlayByOwnerAndType _ _ _); [|done].
    destruct (find_owner_type _ _ _); [|done].
    by apply listeners_ok_removeOverlayById.
  - unfold handleOverlayRemoved. destruct (negb _); [done|].
    destruct (ev_data e) as [[]|]; try done.
    by apply listeners_ok_removeOverlaysByOwner.
  - unfold handleOverlayRestored.
    destruct (ev_data e) as [[]|]; try done;
      by apply listeners_ok_checkAndRestoreOverlaysByOwner.
  - unfold elementsRemoved. destruct (domObserver m) as [watched|]; [|done].
    destruct (Js.mget watched (overlays m)) as [o|]; [|done].
    destruct (auto_restores o); [|done].
    set (m1 := with_overlays _ m).
    assert (listeners_ok isBrowser m1) as Hm1 by done.
    clearbody m1. case_bool_decide.
    + by apply listeners_ok_showOverlayById.
    + by apply listeners_ok_addToQueue.
Qed.

Lemma listeners_ok_run ops m :
  listeners_ok isBrowser m -> listeners_ok isBrowser (run isBrowser ops m).
Proof.
  unfold run. revert m. induction ops as [|o ops IH]; intros m Hm; [done|].
  simpl. by apply IH, listeners_ok_step.
Qed.

End Listeners.

(** X10.  The manager never leaves the page blocked: after any sequence of
    calls of its methods, overlay events and observer callbacks, in a browser
    or not, when no overlay is active the page-wide listeners that block
    scrolling are removed. *)
Theorem no_listeners_without_active_overlay (isBrowser : bool) (ops : list op) :
  activeOverlayId (run isBrowser ops new_manager) = None ->
  globalListeners (run isBrowser ops new_manager) = false.
Proof. by apply (listeners_ok_run isBrowser ops new_manager). Qed.

Definition blocking_options : OverlayOptions :=
  {| oo_title := None; oo_message := None; oo_secondaryMessage := None;
     oo_textColor := None; oo_backgroundColor := None; oo_duration := None;
     oo_blockEvents := Some true; oo_autoRestore := None;
     oo_showCloseButton := None; oo_additionalContent := None |}.

Lemma no_listeners_without_active_overlay_witness :
  globalListeners
    (run true [RegisterOverlay "devtools" "warning" blocking_options 10 1;
               RemoveOverlaysByOwner "devtools"] new_manager) = false.
Proof.
  apply (no_listeners_without_active_overlay true
           [RegisterOverlay "devtools" "warning" blocking_options 10 1;
            RemoveOverlaysByOwner "devtools"]).
  reflexivity.
Defined.

Example listeners_while_active :
  globalListeners
    (run true [RegisterOverlay "devtools" "warning" blocking_options 10 1] new_manager)
  = true.
Proof. reflexivity. Qed.

(** ** Promotion from the queue *)

(** X11.  In a browser, removing the active overlay while the first overlay
    of the queue is stored promotes that overlay: [removeOverlayById] returns
    [true], the removed overlay is no longer stored, the head of the queue
    becomes the active overlay and is shown, and it leaves the queue.  The
    page-wide listeners are removed at the end of the call, also when the
    promoted overlay asks for events to be blocked. *)
Theorem removing_active_promotes_queue_head
    (m : Manager) (a next : string) (rest : list string) (oa on : StoredOverlay) :
  activeOverlayId m = Some a ->
  Js.mget a (overlays m) = Some oa ->
  ov_isVisible oa = true ->
  overlayQueue m = next :: rest ->
  next ≠ EmptyString ->
  next ≠ a ->
  Js.mget next (overlays m) = Some on ->
  (removeOverlayById true a m).1 = true /\
  Js.mget a (overlays (removeOverlayById true a m).2) = None /\
  activeOverlayId (removeOverlayById true a m).2 = Some next /\
  Js.mget next (overlays (removeOverlayById true a m).2) = Some (shown on) /\
  ov_isVisible (shown on) = true /\
  overlayQueue (removeOverlayById true a m).2 = filter (fun id => id ≠ next) rest /\
  globalListeners (removeOverlayById true a m).2 = false.
Proof.
  intros Ha Hga Hvis Hq Hne Hna Hgn.
  unfold removeOverlayById. rewrite Hga.
  rewrite (bool_decide_true _ Ha).
  unfold hideOverlayById.
  change (overlays (with_observer None m)) with (overlays m).
  rewrite Hga, Hvis. cbn [negb].
  change (activeOverlayId (with_overlays _ (with_observer None m)))
    with (activeOverlayId m).
  rewrite (bool_decide_true _ Ha).
  cbn [removeGlobalEventListeners overlayQueue with_listeners with_active
       with_overlays with_observer].
  rewrite Hq. destruct next as [|c next]; [done|]. cbn [Js.nonempty].
  set (m1 := with_queue rest _).
  assert (Js.mget (String c next) (overlays m1) = Some on) as Hgn1.
  { unfold m1. simpl. rewrite Js.mget_mset_ne by done. exact Hgn. }
  destruct (showOverlayById_browser (String c next) on m1 Hgn1) as (Hact & Hov & Hqu).
  assert (globalListeners (removeGlobalEventListeners true
            (showOverlayById true (String c next) m1).2) = false) as Hl by done.
  set (m2 := (showOverlayById true (String c next) m1).2) in *.
  clearbody m2. cbn [fst snd].
  split; [done|]. split; [|split; [|split; [|split; [|split]]]].
  - simpl. apply Js.mget_mdelete_eq.
  - done.
  - simpl. rewrite Js.mget_mdelete_ne by done. rewrite Hov. apply Js.mget_mset_eq.
  - done.
  - simpl. by rewrite Hqu.
  - done.
Qed.

(** A warning of priority 10 is shown and one of priority 5 waits. *)
Definition two_banners : Manager :=
  run true [RegisterOverlay "devtools" "warning" blocking_options 10 1;
            RegisterOverlay "screenshot" "notice" blocking_options 5 2] new_manager.

Lemma removing_active_promotes_queue_head_witness :
  (removeOverlayById true "overlay-devtools-warning-1" two_banners).1 = true /\
  Js.mget "overlay-devtools-warning-1"
    (overlays (removeOverlayById true "overlay-devtools-warning-1" two_banners).2) = None /\
  activeOverlayId (removeOverlayById true "overlay-devtools-warning-1" two_banners).2
    = Some "overlay-screenshot-notice-2" /\
  ov_isVisible <$>
    Js.mget "overlay-screenshot-notice-2"
      (overlays (removeOverlayById true "overlay-devtools-warning-1" two_banners).2)
    = Some true /\
  overlayQueue (removeOverlayById true "overlay-devtools-warning-1" two_banners).2 = [] /\
  globalListeners (removeOverlayById true "overlay-devtools-warning-1" two_banners).2
    = false.
Proof.
  destruct (removing_active_promotes_queue_head two_banners
              "overlay-devtools-warning-1" "overlay-screenshot-notice-2" []
              (default (shown (Build_StoredOverlay EmptyString EmptyString
                                 no_overlay_options EmptyString 0 false false false
                                 false 0))
                 (Js.mget "overlay-devtools-warning-1" (overlays two_banners)))
              (default (shown (Build_StoredOverlay EmptyString EmptyString
                                 no_overlay_options EmptyString 0 false false false
                                 false 0))
                 (Js.mget "overlay-screenshot-notice-2" (overlays two_banners))))
    as (H1 & H2 & H3 & H4 & H5 & H6 & H7);
    [reflexivity|reflexivity|reflexivity|reflexivity|discriminate|discriminate
    |reflexivity|].
  split; [exact H1|]. split; [exact H2|]. split; [exact H3|].
  split; [rewrite H4; reflexivity|]. split; [exact H6|exact H7].
Defined.

(** ** Registration without preemption *)

(** The overlay [registerOverlay] stores. *)
Definition stored_overlay (owner overlayType : string) (options : OverlayOptions)
    (priority : Z) (now : N) : StoredOverlay :=
  {| ov_id := overlay_id owner overlayType now; ov_overlayType := overlayType;
     ov_options := options; ov_owner := owner; ov_priority := priority;
     ov_element := false; ov_blocker := false; ov_timeoutId := false;
     ov_isVisible := false; ov_createdAt := now |}.

(** X12.  In a browser, while an overlay is active, registering an overlay
    under a new identifier with a priority that is not higher than the
    active one's does not disturb the active overlay: it stays active and
    stored as it is, the listeners stay as they are, and the new overlay is
    stored hidden and waits in the queue. *)
Theorem registration_without_preemption
    (m : Manager) (a : string) (oa : StoredOverlay)
    (owner overlayType : string) (options : OverlayOptions) (priority : Z) (now : N) :
  activeOverlayId m = Some a ->
  a ≠ EmptyString ->
  Js.mget a (overlays m) = Some oa ->
  (priority <= ov_priority oa)%Z ->
  Js.mget (overlay_id owner overlayType now) (overlays m) = None ->
  (registerOverlay true owner overlayType options priority now m).1
    = overlay_id owner overlayType now /\
  activeOverlayId (registerOverlay true owner overlayType options priority now m).2
    = Some a /\
  Js.mget a (overlays (registerOverlay true owner overlayType options priority now m).2)
    = Some oa /\
  Js.mget (overlay_id owner overlayType now)
    (overlays (registerOverlay true owner overlayType options priority now m).2)
    = Some (stored_overlay owner overlayType options priority now) /\
  overlay_id owner overlayType now
    ∈ overlayQueue (registerOverlay true owner overlayType options priority now m).2 /\
  globalListeners (registerOverlay true owner overlayType options priority now m).2
    = globalListeners m.
Proof.
  intros Ha Hne Hga Hp Hfresh.
  assert (overlay_id owner overlayType now ≠ a) as Hida by congruence.
  unfold registerOverlay. cbn [negb].
  fold (stored_overlay owner overlayType options priority now).
  set (id := overlay_id owner overlayType now) in *.
  set (st := stored_overlay owner overlayType options priority now).
  set (m1 := with_overlays (Js.mset id st (overlays m)) m).
  assert (has_active m1 = true) as ->.
  { unfold has_active, m1. simpl. rewrite Ha. by destruct a. }
  cbn [negb].
  destruct (addToQueue_fields id m1) as (Hov & Hact).
  pose proof (addToQueue_elem id m1 id) as Hin.
  assert (globalListeners (addToQueue id m1) = globalListeners m) as Hl.
  { unfold addToQueue. by case_bool_decide. }
  set (m2 := addToQueue id m1) in *. clearbody m2.
  rewrite Hact. change (activeOverlayId m1) with (activeOverlayId m). rewrite Ha.
  rewrite Hov. change (overlays m1) with (Js.mset id st (overlays m)).
  rewrite Js.mget_mset_ne by done. rewrite Hga, Js.mget_mset_eq.
  change (ov_priority st) with priority.
  destruct (Z.ltb_spec (ov_priority oa) priority) as [Hlt|_]; [lia|].
  cbn [fst snd]. split; [done|]. split; [by rewrite Hact|].
  rewrite Hov. change (overlays m1) with (Js.mset id st (overlays m)).
  rewrite Js.mget_mset_ne by done. rewrite Js.mget_mset_eq.
  split; [done|]. split; [done|]. split; [|done].
  apply Hin. by right.
Qed.

Lemma registration_without_preemption_witness :
  (registerOverlay true "print" "notice" no_overlay_options 5 3 two_banners).1
    = "overlay-print-notice-3" /\
  activeOverlayId (registerOverlay true "print" "notice" no_overlay_options 5 3 two_banners).2
    = Some "overlay-devtools-warning-1" /\
  overlayQueue (registerOverlay true "print" "notice" no_overlay_options 5 3 two_banners).2
    = ["overlay-screenshot-notice-2"; "overlay-print-notice-3"].
Proof.
  destruct (registration_without_preemption two_banners "overlay-devtools-warning-1"
              (default (shown (Build_StoredOverlay EmptyString EmptyString
                                 no_overlay_options EmptyString 0 false false false
                                 false 0))
                 (Js.mget "overlay-devtools-warning-1" (overlays two_banners)))
              "print" "notice" no_overlay_options 5 3)
    as (H1 & H2 & _);
    [reflexivity|discriminate|reflexivity|vm_compute; discriminate|reflexivity|].
  split; [exact H1|]. split; [exact H2|]. reflexivity.
Defined.

End OverlayLaws.

(* ===================================================================== *)
(** * The content-state coordinator: events, clearing and the element *)
(* ===================================================================== *)

Module ContentLaws.

Import Content.

(** [getActiveContentStateId()]. *)
Definition getActiveContentStateId (m : Manager) : option string := activeStateId m.

(** [getContentStatesByOwner(owner)]. *)
Definition getContentStatesByOwner (owner : string) (m : Manager) : list string :=
  Js.mkeys (filter (fun e => cs_owner e.2 = owner) (contentStates m)).

(** [data.strategyName] of a payload. *)
Definition data_strategyName (d : EventData) : option string :=
  match d with
  | ContentHiddenData strategyName _ _ _ _
  | ContentRestoredData strategyName _
  | OverlayShownData strategyName _ _ _ _
  | OverlayRemovedData strategyName _ _
  | OverlayRestoredData strategyName _ _
  | StrategyData strategyName _ => Some strategyName
  | _ => None
  end.

(** [clearAllContentStates()]. *)
Definition clearAllContentStates (m : Manager) : nat * Manager :=
  let stateCount := length (contentStates m) in
  let m := if isContentHidden m then (restoreContent m).2 else m in
  (stateCount, with_active None (with_queue [] (with_states [] m))).

(** [updateTargetElement(element)]. *)
Definition updateTargetElement (element : Element) (m : Manager) : Manager :=
  let m := if isContentHidden m then (restoreContent m).2 else m in
  let m := with_target (Some element) m in
  match activeStateId m with
  | Some active =>
      if Js.nonempty active then
        match Js.mget active (contentStates m) with
        | Some activeState => (hideContent (cs_options activeState) m).2
        | None => m
        end
      else m
  | None => m
  end.

(** [handleContentHidden(event)], with the value of [Date.now()], for a
    manager whose [this.targetElement] is the element [self].  The payload
    is read as [ContentHiddenEventData]. *)
Definition handleContentHidden (self : ElementRef) (event : ProtectionEvent)
    (now : N) (m : Manager) : Manager :=
  if negb (isEventType event CONTENT_HIDDEN) then log_error m
  else
    match ev_data event with
    | Some (ContentHiddenData strategyName reason (Some options) targetElement priority) =>
        match targetElement with
        | Some t =>
            if bool_decide (t ≠ self) then m
            else (registerContentState strategyName reason options
                    (Js.num_or priority 0) now m).2
        | None =>
            (registerContentState strategyName reason options
               (Js.num_or priority 0) now m).2
        end
    | _ => m
    end.

(** [handleContentRestored(event)]: without data, reading
    [data.strategyName] throws inside the [try]. *)
Definition handleContentRestored (self : ElementRef) (event : ProtectionEvent)
    (m : Manager) : Manager :=
  if negb (isEventType event CONTENT_RESTORED) then log_error m
  else
    match ev_data event with
    | None => log_error m
    | Some data =>
        match Handlers.data_targetElement data with
        | Some t =>
            if bool_decide (t ≠ self) then m
            else
              match data_strategyName data with
              | Some owner => (removeContentStatesByOwner owner m).2
              | None => m
              end
        | None =>
            match data_strategyName data with
            | Some owner => (removeContentStatesByOwner owner m).2
            | None => m
            end
        end
    end.

(** What happens to a manager that is driven by the mediator: the two events
    it subscribes to, and the calls that clear it or give it a new element
    (the reference that events name it by, and the element). *)
Inductive op :=
  | ContentHiddenEvent (event : ProtectionEvent) (now : N)
  | ContentRestoredEvent (event : ProtectionEvent)
  | ClearAllContentStates
  | UpdateTargetElement (ref : ElementRef) (element : Element).

(** A step on the element the manager holds and its other fields. *)
Definition step (o : op) (s : ElementRef * Manager) : ElementRef * Manager :=
  match o with
  | ContentHiddenEvent event now => (s.1, handleContentHidden s.1 event now s.2)
  | ContentRestoredEvent event => (s.1, handleContentRestored s.1 event s.2)
  | ClearAllContentStates => (s.1, (clearAllContentStates s.2).2)
  | UpdateTargetElement ref element => (ref, updateTargetElement element s.2)
  end.

Definition run (ops : list op) (s : ElementRef * Manager) : ElementRef * Manager :=
  foldl (fun s o => step o s) s ops.

(** A [CONTENT_HIDDEN] event carries the payload of its type, and the
    identifier it makes [registerContentState] use is not the identifier of a
    stored state: two states of one owner and reason are not registered
    within the same millisecond. *)
Definition expected_op (o : op) (m : Manager) : Prop :=
  match o with
  | ContentHiddenEvent event now =>
      match ev_data event with
      | Some (ContentHiddenData strategyName reason _ _ _) =>
          Js.mget (state_id strategyName reason now) (contentStates m) = None
      | Some _ => isEventType event CONTENT_HIDDEN = false
      | None => True
      end
  | _ => True
  end.

Fixpoint expected_run (ops : list op) (s : ElementRef * Manager) : Prop :=
  match ops with
  | [] => True
  | o :: ops' => expected_op o s.2 /\ expected_run ops' (step o s)
  end.

(** The element the manager protects at the end of [ops], as it was given
    to the manager: the last one it was given. *)
Definition current_element (element : Element) (ops : list op) : Element :=
  foldl (fun c o => match o with UpdateTargetElement _ given => given | _ => c end)
    element ops.

(** ** The invariant of a manager driven by events *)

(** The map has each key once and no empty key; the queue has each of its
    identifiers once, all of stored states other than the active one; the
    active state is stored. *)
Definition book_ok (m : Manager) : Prop :=
  NoDup (Js.mkeys (contentStates m)) /\
  (EmptyString ∉ Js.mkeys (contentStates m)) /\
  NoDup (stateQueue m) /\
  (forall id, id ∈ stateQueue m ->
     id ∈ Js.mkeys (contentStates m) /\ activeStateId m ≠ Some id) /\
  (forall a, activeStateId m = Some a -> a ∈ Js.mkeys (contentStates m)).

(** There is an element, and its content is kept aside in [originalContent]
    exactly while a state is active. *)
Definition element_ok (m : Manager) : Prop :=
  is_Some (targetElement m) /\
  match activeStateId m with
  | Some _ => is_Some (originalContent m)
  | None => originalContent m = None
  end.

Definition inv (m : Manager) : Prop :=
  book_ok m /\ element_ok m.

Lemma hideContent_fields options m t :
  targetElement m = Some t ->
  (exists h, targetElement (hideContent options m).2 = Some (holding h t)) /\
  originalContent (hideContent options m).2
    = Some (default (el_innerHTML t) (originalContent m)) /\
  contentStates (hideContent options m).2 = contentStates m /\
  activeStateId (hideContent options m).2 = activeStateId m /\
  stateQueue (hideContent options m).2 = stateQueue m /\
  onContentRestoredCallback (hideContent options m).2 = onContentRestoredCallback m.
Proof.
  intros Ht. unfold hideContent. rewrite Ht.
  destruct (originalContent m) as [orig|] eqn:Ho; simpl;
    (destruct (onContentHiddenCallback m) as [callback|] eqn:Hcb;
     [destruct (callback _ _)|]; simpl; rewrite ?Ho; (split; [by eexists|done])).
Qed.

Lemma restoreContent_fields m t orig :
  targetElement m = Some t -> originalContent m = Some orig ->
  (exists h, targetElement (restoreContent m).2 = Some (holding h t)) /\
  originalContent (restoreContent m).2 = None /\
  contentStates (restoreContent m).2 = contentStates m /\
  activeStateId (restoreContent m).2 = activeStateId m /\
  stateQueue (restoreContent m).2 = stateQueue m /\
  onContentRestoredCallback (restoreContent m).2 = onContentRestoredCallback m.
Proof.
  intros Ht Ho. unfold restoreContent. rewrite Ht, Ho. simpl.
  destruct (onContentRestoredCallback m) as [callback|] eqn:Hc;
    [destruct (callback _)|]; simpl; (split; [by eexists|done]).
Qed.

Lemma applyContentStateById_fields id st m t :
  Js.mget id (contentStates m) = Some st -> targetElement m = Some t ->
  (exists h, targetElement (applyContentStateById id m).2 = Some (holding h t)) /\
  originalContent (applyContentStateById id m).2
    = Some (default (el_innerHTML t) (originalContent m)) /\
  contentStates (applyContentStateById id m).2 = contentStates m /\
  activeStateId (applyContentStateById id m).2 = Some id /\
  stateQueue (applyContentStateById id m).2
    = filter (fun x => x ≠ id) (stateQueue m) /\
  onContentRestoredCallback (applyContentStateById id m).2
    = onContentRestoredCallback m.
Proof.
  intros Hg Ht. unfold applyContentStateById. rewrite Hg.
  destruct (hideContent_fields (cs_options st) (with_reason (cs_reason st) m) t Ht)
    as (H1 & H2 & H3 & H4 & H5 & H6).
  set (m1 := (hideContent (cs_options st) (with_reason (cs_reason st) m)).2) in *.
  clearbody m1. simpl in *. by rewrite H5.
Qed.

Lemma state_id_nonempty owner reason now : state_id owner reason now ≠ EmptyString.
Proof. done. Qed.

Lemma inv_registerContentState owner reason options priority now m :
  inv m ->
  Js.mget (state_id owner reason now) (contentStates m) = None ->
  inv (registerContentState owner reason options priority now m).2.
Proof.
  intros ((Hk & He & Hq & Hqk & Hak) & [t Ht] & Hel) Hfresh.
  unfold registerContentState.
  set (id := state_id owner reason now) in *.
  set (st := Build_StoredContentState _ _ _ _ _ _).
  set (m1 := with_states (Js.mset id st (contentStates m)) m).
  assert (id ∉ Js.mkeys (contentStates m)) as Hidk by by apply Js.mget_None_keys.
  assert (Js.mkeys (contentStates m1) = Js.mkeys (contentStates m) ++ [id]) as Hkeys.
  { unfold m1. simpl. by apply Js.mkeys_mset_notin. }
  assert (Js.mget id (contentStates m1) = Some st) as Hgid.
  { unfold m1. simpl. apply Js.mget_mset_eq. }
  assert (NoDup (Js.mkeys (contentStates m1))) as Hk1.
  { unfold m1. simpl. by apply Js.NoDup_mkeys_mset. }
  assert (EmptyString ∉ Js.mkeys (contentStates m1)) as He1.
  { rewrite Hkeys, not_elem_of_app. split; [done|].
    by intros ?%list_elem_of_singleton. }
  assert (id ∉ stateQueue m) as Hidq.
  { intros Hin. by apply Hqk in Hin as [? _]. }
  assert (forall x, x ∈ Js.mkeys (contentStates m) -> x ∈ Js.mkeys (contentStates m1))
    as Hmono.
  { intros x Hx. rewrite Hkeys. apply elem_of_app. by left. }
  (* Applying the new state. *)
  assert (forall m2,
    targetElement m2 = targetElement m -> originalContent m2 = originalContent m ->
    contentStates m2 = contentStates m1 ->
    (forall x, x ∈ filter (fun x => x ≠ id) (stateQueue m2) -> x ∈ stateQueue m) ->
    NoDup (stateQueue m2) ->
    inv (applyContentStateById id m2).2) as Happly.
  { intros m2 Ht2 Ho2 Hs2 Hq2 Hnd2.
    destruct (applyContentStateById_fields id st m2 t) as (A1 & A2 & A3 & A4 & A5 & A6);
      [by rewrite Hs2|by rewrite Ht2|].
    split.
    - split; [by rewrite A3, Hs2|]. split; [by rewrite A3, Hs2|].
      split; [rewrite A5; by apply NoDup_filter|]. split.
      + intros x. rewrite A5, A3, A4, Hs2. intros Hx.
        pose proof Hx as [Hne _]%list_elem_of_filter.
        split; [|congruence]. apply Hmono. by apply Hqk, Hq2.
      + intros a. rewrite A4, A3, Hs2. intros [= <-]. rewrite Hkeys.
        apply elem_of_app. right. by apply list_elem_of_singleton.
    - destruct A1 as [h Ht']. split; [by eexists|]. rewrite A4, A2. by eexists. }
  change (activeStateId m1) with (activeStateId m).
  destruct (activeStateId m) as [a|] eqn:Ha.
  2:{ apply Happly; try done. by intros x [_ ?]%list_elem_of_filter. }
  destruct (Js.nonempty a) eqn:Hna.
  2:{ destruct a; [|done]. exfalso. apply He. by apply Hak. }
  assert (stateQueue (addToQueue id m1) ≡ₚ stateQueue m ++ [id]) as Hperm.
  { unfold addToQueue. rewrite bool_decide_false by done. simpl.
    apply Js.sort_perm. }
  assert (contentStates (addToQueue id m1) = contentStates m1 /\
          activeStateId (addToQueue id m1) = Some a /\
          targetElement (addToQueue id m1) = targetElement m /\
          originalContent (addToQueue id m1) = originalContent m)
    as (B1 & B2 & B3 & B4).
  { unfold addToQueue. by case_bool_decide. }
  set (m2 := addToQueue id m1) in *. clearbody m2.
  assert (NoDup (stateQueue m2)) as Hnd2.
  { rewrite Hperm. apply NoDup_app. split; [done|]. split; [|apply NoDup_singleton].
    intros x Hx ->%list_elem_of_singleton. done. }
  assert (a ≠ id) as Haid.
  { intros ->. apply Hidk. by apply Hak. }
  assert (inv m2) as Hinv2.
  { split.
    - split; [by rewrite B1|]. split; [by rewrite B1|]. split; [done|]. split.
      + intros x. rewrite Hperm, B1, B2.
        intros [Hx|Hx%list_elem_of_singleton]%elem_of_app.
        * destruct (Hqk x Hx) as [? ?]. split; [by apply Hmono|done].
        * subst x. split; [|congruence]. rewrite Hkeys. apply elem_of_app. right.
          by apply list_elem_of_singleton.
      + intros a'. rewrite B2, B1. intros [= <-]. by apply Hmono, Hak.
    - split; [rewrite B3; by eexists|]. by rewrite B2, B4. }
  destruct (Js.mget a (contentStates m2)) as [activeState|]; [|done].
  destruct (Js.mget id (contentStates m2)) as [newState|]; [|done].
  case_match; [|done].
  apply Happly; try done.
  intros x [Hne Hx]%list_elem_of_filter. rewrite Hperm in Hx.
  apply elem_of_app in Hx as [?|?%list_elem_of_singleton]; done.
Qed.

Lemma mkeys_mdelete_elem {V} id x (l : list (string * V)) :
  NoDup (Js.mkeys l) ->
  x ∈ Js.mkeys (Js.mdelete id l) <-> x ∈ Js.mkeys l /\ x ≠ id.
Proof.
  intros Hnd. rewrite <-!Js.mget_is_Some_keys, Js.mget_mdelete.
  case_decide as Hx.
  - subst. split; [by intros [? ?]|]. by intros [_ ?].
  - split; [by intros ?|by intros [? _]].
Qed.

Lemma inv_remove_each ids n m :
  inv m -> inv (remove_each ids n m).2.
Proof.
  revert n m. induction ids as [|id ids IH]; intros n m Hinv; [done|].
  cbn [remove_each]. apply IH. clear IH.
  destruct Hinv as ((Hk & He & Hq & Hqk & Hak) & [t Ht] & Hel).
  set (m1 := with_states (Js.mdelete id (contentStates m)) m).
  assert (forall x, x ∈ Js.mkeys (contentStates m1)
            <-> x ∈ Js.mkeys (contentStates m) /\ x ≠ id) as Hkeys.
  { intros x. unfold m1. simpl. by apply mkeys_mdelete_elem. }
  assert (NoDup (Js.mkeys (contentStates m1))) as Hk1.
  { unfold m1. simpl. by apply Js.NoDup_mkeys_mdelete. }
  assert (EmptyString ∉ Js.mkeys (contentStates m1)) as He1.
  { rewrite Hkeys. by intros [? _]. }
  change (activeStateId m1) with (activeStateId m).
  case_bool_decide as Hact.
  - (* the active state is removed *)
    rewrite Hact in Hel.
    change (stateQueue (with_active None m1)) with (stateQueue m).
    destruct (stateQueue m) as [|next queue] eqn:Hqueue.
    + (* nothing waits: the content is restored *)
      destruct Hel as [orig Ho].
      destruct (restoreContent_fields (with_active None m1) t orig Ht Ho)
        as ([h R1] & R2 & R3 & R4 & R5 & R6).
      split.
      * split; [by rewrite R3|]. split; [by rewrite R3|].
        rewrite R5, R4. simpl. rewrite Hqueue.
        split; [constructor|]. split; [by intros x ?%elem_of_nil|done].
      * split; [by eexists|]. by rewrite R4.
    + (* the head of the queue is applied *)
      apply NoDup_cons in Hq as [Hnq Hq'].
      destruct (Hqk next) as [Hnk Hna]; [by apply elem_of_cons; left|].
      assert (next ≠ id) as Hnid by congruence.
      assert (Js.nonempty next = true) as ->.
      { destruct next; [|done]. done. }
      assert (is_Some (Js.mget next (contentStates m1))) as [st Hst].
      { apply Js.mget_is_Some_keys, Hkeys. done. }
      destruct (applyContentStateById_fields next st
                  (with_queue queue (with_active None m1)) t Hst Ht)
        as (A1 & A2 & A3 & A4 & A5 & A6).
      split.
      * split; [by rewrite A3|]. split; [by rewrite A3|].
        split; [rewrite A5; by apply NoDup_filter|]. split.
        -- intros x. rewrite A5, A3, A4. simpl.
           intros [Hne Hx]%list_elem_of_filter.
           split; [|congruence]. apply Hkeys.
           destruct (Hqk x) as [? Hxa]; [by apply elem_of_cons; right|].
           split; [done|congruence].
        -- intros a. rewrite A4, A3. intros [= <-]. by apply Hkeys.
      * destruct A1 as [h Ht']. split; [by eexists|]. rewrite A4, A2. by eexists.
  - (* another state is removed *)
    split.
    + split; [done|]. split; [done|]. simpl.
      split; [by apply NoDup_filter|]. split.
      * intros x [Hne Hx]%list_elem_of_filter. destruct (Hqk x Hx) as [? ?].
        split; [by apply Hkeys|done].
      * intros a Ha. apply Hkeys. split; [by apply Hak|]. congruence.
    + split; [by exists t|done].
Qed.

Lemma inv_removeContentStatesByOwner owner m :
  inv m -> inv (removeContentStatesByOwner owner m).2.
Proof. apply inv_remove_each. Qed.

Lemma inv_unhidden m :
  inv m ->
  let m' := if isContentHidden m then (restoreContent m).2 else m in
  is_Some (targetElement m') /\ originalContent m' = None /\
  contentStates m' = contentStates m /\ activeStateId m' = activeStateId m /\
  stateQueue m' = stateQueue m.
Proof.
  intros (_ & [t Ht] & Hel). unfold isContentHidden.
  destruct (originalContent m) as [orig|] eqn:Ho; simpl.
  - destruct (restoreContent_fields m t orig Ht Ho) as ([h R1] & R2 & R3 & R4 & R5 & _).
    split; [by eexists|done].
  - split; [by eexists|done].
Qed.

Lemma inv_clearAllContentStates m :
  inv m ->
  inv (clearAllContentStates m).2 /\
  contentStates (clearAllContentStates m).2 = [] /\
  originalContent (clearAllContentStates m).2 = None.
Proof.
  intros Hinv. destruct (inv_unhidden m Hinv) as (U1 & U2 & U3 & U4 & U5).
  unfold clearAllContentStates.
  set (m1 := if isContentHidden m then (restoreContent m).2 else m) in *.
  clearbody m1. cbn [snd]. split; [|done]. split.
  - split; [constructor|]. split; [apply not_elem_of_nil|].
    split; [constructor|]. split; [by intros x ?%elem_of_nil|done].
  - split; [exact U1|exact U2].
Qed.

Lemma inv_updateTargetElement element m :
  inv m -> inv (updateTargetElement element m).
Proof.
  intros Hinv. destruct (inv_unhidden m Hinv) as (U1 & U2 & U3 & U4 & U5).
  destruct Hinv as ((Hk & He & Hq & Hqk & Hak) & _).
  unfold updateTargetElement.
  set (m1 := if isContentHidden m then (restoreContent m).2 else m) in *.
  clearbody m1.
  set (m2 := with_target (Some element) m1).
  assert (book_ok m2) as Hbook.
  { unfold book_ok, m2. simpl. by rewrite U3, U4, U5. }
  change (activeStateId m2) with (activeStateId m1).
  change (contentStates m2) with (contentStates m1).
  rewrite U4, U3.
  destruct (activeStateId m) as [a|] eqn:Ha.
  2:{ split; [done|]. split; [by eexists|]. simpl. by rewrite U4. }
  assert (Js.nonempty a = true) as ->.
  { destruct a; [|done]. exfalso. apply He. by apply Hak. }
  destruct (Js.mget a (contentStates m)) as [st|] eqn:Hst.
  2:{ exfalso. apply Js.mget_None_keys in Hst. by apply Hst, Hak. }
  destruct (hideContent_fields (cs_options st) m2 element eq_refl)
    as ([h H1] & H2 & H3 & H4 & H5 & H6).
  split.
  - unfold book_ok. rewrite H3, H4, H5. exact Hbook.
  - split; [by eexists|]. rewrite H4, H2. simpl. rewrite U4. by eexists.
Qed.

(** ** Priorities of the waiting states *)

(** The priority of a stored state. *)
Definition priority_of (m : Manager) (id : string) : Z :=
  match Js.mget id (contentStates m) with
  | Some state => cs_priority state
  | None => 0%Z
  end.

Definition outranks (m : Manager) (a b : string) : Prop :=
  (priority_of m b <= priority_of m a)%Z.

#[local] Instance outranks_trans m : Transitive (outranks m).
Proof. unfold outranks. intros a b c ? ?. lia. Qed.

(** The queue is in descending order of priority, the active state has at
    least the priority of every waiting state, and no state waits while none
    is active. *)
Definition ranked (m : Manager) : Prop :=
  StronglySorted (outranks m) (stateQueue m) /\
  match activeStateId m with
  | Some a => Forall (outranks m a) (stateQueue m)
  | None => stateQueue m = []
  end.

Lemma sorted_agree (m m' : Manager) (l : list string) :
  (forall x, x ∈ l -> priority_of m' x = priority_of m x) ->
  StronglySorted (outranks m) l -> StronglySorted (outranks m') l.
Proof.
  intros Hagree Hs. induction Hs as [|x l Hs IH Hx]; [constructor|].
  constructor.
  - apply IH. intros y Hy. apply Hagree. by apply elem_of_cons; right.
  - apply Forall_forall. intros y Hy. unfold outranks.
    rewrite !Hagree; [|by apply elem_of_cons; left|by apply elem_of_cons; right].
    by eapply Forall_forall in Hx.
Qed.

Lemma hideContent_book options m :
  contentStates (hideContent options m).2 = contentStates m /\
  activeStateId (hideContent options m).2 = activeStateId m /\
  stateQueue (hideContent options m).2 = stateQueue m.
Proof.
  unfold hideContent. destruct (targetElement m); [|done].
  destruct (originalContent m); simpl;
    (destruct (onContentHiddenCallback m) as [callback|];
     [destruct (callback _ _)|]; done).
Qed.

Lemma restoreContent_book m :
  contentStates (restoreContent m).2 = contentStates m /\
  activeStateId (restoreContent m).2 = activeStateId m /\
  stateQueue (restoreContent m).2 = stateQueue m.
Proof.
  unfold restoreContent. destruct (targetElement m); [|done].
  destruct (originalContent m) as [orig|]; [|done]. simpl.
  destruct (onContentRestoredCallback m) as [callback|]; [|done].
  by destruct (callback _).
Qed.

Lemma applyContentStateById_book id st m :
  Js.mget id (contentStates m) = Some st ->
  contentStates (applyContentStateById id m).2 = contentStates m /\
  activeStateId (applyContentStateById id m).2 = Some id /\
  stateQueue (applyContentStateById id m).2
    = filter (fun x => x ≠ id) (stateQueue m).
Proof.
  intros Hg. unfold applyContentStateById. rewrite Hg.
  destruct (hideContent_book (cs_options st) (with_reason (cs_reason st) m))
    as (H1 & H2 & H3).
  set (m1 := (hideContent (cs_options st) (with_reason (cs_reason st) m)).2) in *.
  clearbody m1. simpl in *. by rewrite H3.
Qed.

Lemma priority_of_states m m' id :
  contentStates m' = contentStates m -> priority_of m' id = priority_of m id.
Proof. unfold priority_of. by intros ->. Qed.

Lemma ranked_book m m' :
  contentStates m' = contentStates m -> activeStateId m' = activeStateId m ->
  stateQueue m' = stateQueue m -> ranked m -> ranked m'.
Proof.
  intros Hs Ha Hq [Hsorted Hact]. unfold ranked. rewrite Ha, Hq. split.
  - eapply sorted_agree; [|done]. intros x _. by apply priority_of_states.
  - destruct (activeStateId m) as [a|]; [|done].
    eapply Forall_impl; [done|]. intros x. unfold outranks.
    by rewrite !(priority_of_states m m').
Qed.

Lemma compare_queued_outranks m y z :
  outranks m y z -> (compare_queued m y z <= 0)%Z.
Proof.
  unfold outranks, priority_of, compare_queued.
  destruct (Js.mget y _), (Js.mget z _); lia.
Qed.

Lemma compare_queued_stored m y z :
  is_Some (Js.mget y (contentStates m)) -> is_Some (Js.mget z (contentStates m)) ->
  compare_queued m y z = (priority_of m z - priority_of m y)%Z.
Proof.
  unfold priority_of, compare_queued. by intros [? ->] [? ->].
Qed.

Lemma ranked_registerContentState owner reason options priority now m :
  inv m -> ranked m ->
  Js.mget (state_id owner reason now) (contentStates m) = None ->
  ranked (registerContentState owner reason options priority now m).2.
Proof.
  intros ((Hk & He & Hq & Hqk & Hak) & _) [Hsorted Hact] Hfresh.
  unfold registerContentState.
  set (id := state_id owner reason now) in *.
  set (st := Build_StoredContentState _ _ _ _ _ _).
  set (m1 := with_states (Js.mset id st (contentStates m)) m).
  assert (Js.mget id (contentStates m1) = Some st) as Hgid.
  { unfold m1. simpl. apply Js.mget_mset_eq. }
  assert (forall x, x ≠ id -> priority_of m1 x = priority_of m x) as Hprio.
  { intros x Hx. unfold priority_of, m1. simpl. by rewrite Js.mget_mset_ne. }
  assert (forall x, x ∈ stateQueue m -> x ≠ id) as Hqid.
  { intros x Hx ->. apply Hqk in Hx as [Hx _].
    by apply Js.mget_None_keys in Hfresh. }
  assert (StronglySorted (outranks m1) (stateQueue m)) as Hsorted1.
  { eapply sorted_agree; [|done]. intros x Hx. by apply Hprio, Hqid. }
  change (activeStateId m1) with (activeStateId m).
  destruct (activeStateId m) as [a|] eqn:Ha.
  2:{ destruct (applyContentStateById_book id st m1 Hgid) as (A1 & A2 & A3).
      cbn [snd]. unfold ranked. rewrite A2, A3. simpl. rewrite Hact.
      split; constructor. }
  destruct (Js.nonempty a) eqn:Hna.
  2:{ destruct a; [|done]. exfalso. apply He. by apply Hak. }
  assert (a ≠ id) as Haid.
  { intros ->. apply Js.mget_None_keys in Hfresh. by apply Hfresh, Hak. }
  assert (is_Some (Js.mget a (contentStates m1))) as [sa Hsa].
  { unfold m1. simpl. rewrite Js.mget_mset_ne by done.
    by apply Js.mget_is_Some_keys, Hak. }
  assert (stateQueue (addToQueue id m1)
          = Js.sort_insert (compare_queued m1) id (stateQueue m)) as Hqueue.
  { unfold addToQueue. rewrite bool_decide_false.
    - simpl. rewrite Js.sort_snoc. f_equal.
      apply (Js.sort_sorted_id _ (outranks m1)); [|done].
      apply compare_queued_outranks.
    - intros Hin. by apply (Hqid id). }
  assert (contentStates (addToQueue id m1) = contentStates m1 /\
          activeStateId (addToQueue id m1) = Some a) as (B1 & B2).
  { unfold addToQueue. by case_bool_decide. }
  assert (StronglySorted (outranks m1) (stateQueue (addToQueue id m1))) as Hsorted2.
  { rewrite Hqueue. apply Js.sort_insert_sorted; [apply _|done|].
    apply Forall_forall. intros y Hy.
    rewrite compare_queued_stored; [unfold outranks; lia| |by eexists].
    unfold m1. simpl. rewrite Js.mget_mset_ne by (symmetry; by apply Hqid).
    by apply Js.mget_is_Some_keys, Hqk. }
  assert (Forall (outranks m1 a) (stateQueue m)) as Hact1.
  { apply Forall_forall. intros y Hy. unfold outranks.
    rewrite !Hprio by (done || by apply Hqid).
    by eapply Forall_forall in Hact. }
  set (m2 := addToQueue id m1) in *. clearbody m2.
  rewrite B1, Hsa, Hgid.
  destruct (Z.ltb_spec (cs_priority sa) (cs_priority st)) as [Hlt|Hge].
  - destruct (applyContentStateById_book id st m2) as (A1 & A2 & A3);
      [by rewrite B1|].
    cbn [snd]. unfold ranked. rewrite A2, A3. split.
    + apply Mediator.StronglySorted_filter.
      eapply sorted_agree; [|exact Hsorted2]. intros x _.
      apply priority_of_states. by rewrite A1.
    + apply Forall_forall. intros x [Hne Hx]%list_elem_of_filter.
      rewrite Hqueue, Js.sort_insert_perm in Hx.
      apply elem_of_cons in Hx as [?|Hx]; [done|].
      eapply Forall_forall in Hact1; [|done]. unfold outranks in *.
      assert (forall y, priority_of (applyContentStateById id m2).2 y
                = priority_of m1 y) as Hp.
      { intros y. apply priority_of_states. by rewrite A1, B1. }
      rewrite !Hp.
      assert (priority_of m1 a = cs_priority sa) as Hpa
        by (unfold priority_of; by rewrite Hsa).
      assert (priority_of m1 id = cs_priority st) as Hpid
        by (unfold priority_of; by rewrite Hgid).
      lia.
  - cbn [snd]. unfold ranked. rewrite B2. split.
    + eapply sorted_agree; [|exact Hsorted2]. intros x _.
      by apply priority_of_states.
    + apply Forall_forall. intros x Hx.
      rewrite Hqueue, Js.sort_insert_perm in Hx. unfold outranks.
      rewrite !(priority_of_states m1 m2) by done.
      apply elem_of_cons in Hx as [->|Hx].
      * unfold priority_of. rewrite Hsa, Hgid. lia.
      * by eapply Forall_forall in Hact1.
Qed.

Lemma ranked_remove_each ids n m :
  inv m -> ranked m -> ranked (remove_each ids n m).2.
Proof.
  revert n m. induction ids as [|id ids IH]; intros n m Hinv Hr; [done|].
  pose proof (inv_remove_each [id] n m Hinv) as Hinv1.
  cbn [remove_each] in *. apply IH; [done|]. clear IH Hinv1.
  destruct Hinv as ((Hk & He & Hq & Hqk & Hak) & _).
  destruct Hr as [Hsorted Hact].
  set (m1 := with_states (Js.mdelete id (contentStates m)) m).
  assert (forall x, x ≠ id -> priority_of m1 x = priority_of m x) as Hprio.
  { intros x Hx. unfold priority_of, m1. simpl. by rewrite Js.mget_mdelete_ne. }
  change (activeStateId m1) with (activeStateId m).
  case_bool_decide as Hactive.
  - (* the active state is removed *)
    rewrite Hactive in Hact.
    change (stateQueue (with_active None m1)) with (stateQueue m).
    destruct (stateQueue m) as [|next queue] eqn:Hqueue.
    + destruct (restoreContent_book (with_active None m1)) as (R1 & R2 & R3).
      unfold ranked. rewrite R2, R3. simpl. rewrite Hqueue. split; [constructor|done].
    + apply NoDup_cons in Hq as [Hnq Hq'].
      destruct (Hqk next) as [Hnk Hna]; [by apply elem_of_cons; left|].
      assert (next ≠ id) as Hnid by congruence.
      assert (Js.nonempty next = true) as ->.
      { destruct next; [|done]. done. }
      assert (is_Some (Js.mget next (contentStates m1))) as [st Hst].
      { unfold m1. simpl. rewrite Js.mget_mdelete_ne by done.
        by apply Js.mget_is_Some_keys. }
      destruct (applyContentStateById_book next st
                  (with_queue queue (with_active None m1)) Hst) as (A1 & A2 & A3).
      apply StronglySorted_inv in Hsorted as [Hsorted Hnext].
      assert (forall x, x ∈ queue -> x ≠ id) as Hqid.
      { intros x Hx ->. destruct (Hqk id); [by apply elem_of_cons; right|done]. }
      unfold ranked. rewrite A2, A3. simpl. split.
      * apply Mediator.StronglySorted_filter.
        eapply sorted_agree; [|exact Hsorted]. intros x Hx.
        rewrite (priority_of_states m1) by (by rewrite A1).
        by apply Hprio, Hqid.
      * apply Forall_forall. intros x [_ Hx]%list_elem_of_filter.
        unfold outranks.
        rewrite (priority_of_states m1 _ x), (priority_of_states m1 _ next)
          by (by rewrite A1).
        rewrite !Hprio by (done || by apply Hqid).
        by eapply Forall_forall in Hnext.
  - (* another state is removed *)
    unfold ranked. simpl. split.
    + eapply sorted_agree; [|by apply Mediator.StronglySorted_filter].
      intros x [Hne Hx]%list_elem_of_filter.
      rewrite (priority_of_states m1); [|done]. by apply Hprio.
    + destruct (activeStateId m) as [a|] eqn:Ha.
      * apply Forall_forall. intros x [Hne Hx]%list_elem_of_filter.
        unfold outranks.
        rewrite (priority_of_states m1 _ x), (priority_of_states m1 _ a) by done.
        rewrite !Hprio by (done || congruence).
        by eapply Forall_forall in Hact.
      * by rewrite Hact.
Qed.

Lemma updateTargetElement_book element m :
  contentStates (updateTargetElement element m) = contentStates m /\
  activeStateId (updateTargetElement element m) = activeStateId m /\
  stateQueue (updateTargetElement element m) = stateQueue m.
Proof.
  unfold updateTargetElement.
  assert (let m1 := if isContentHidden m then (restoreContent m).2 else m in
          contentStates m1 = contentStates m /\
          activeStateId m1 = activeStateId m /\
          stateQueue m1 = stateQueue m) as (U1 & U2 & U3).
  { destruct (isContentHidden m); [apply restoreContent_book|done]. }
  set (m1 := if isContentHidden m then (restoreContent m).2 else m) in *.
  clearbody m1.
  change (activeStateId (with_target (Some element) m1)) with (activeStateId m1).
  change (contentStates (with_target (Some element) m1)) with (contentStates m1).
  destruct (activeStateId m1) as [a|] eqn:Ha; [|by simpl; rewrite Ha].
  destruct (Js.nonempty a); [|by simpl; rewrite Ha].
  destruct (Js.mget a (contentStates m1)) as [st|]; [|by simpl; rewrite Ha].
  destruct (hideContent_book (cs_options st) (with_target (Some element) m1))
    as (H1 & H2 & H3).
  rewrite H1, H2, H3. by simpl; rewrite Ha.
Qed.

(** The invariant of the bookkeeping, of the element and of the priorities. *)
Definition kept (m : Manager) : Prop := inv m /\ ranked m.

Lemma kept_step o s :
  kept s.2 -> expected_op o s.2 -> kept (step o s).2.
Proof.
  destruct s as [self m]. cbn [fst snd].
  intros Hk Hfresh. pose proof Hk as [Hinv Hr].
  destruct o as [e now|e| |ref given]; cbn [step fst snd].
  - unfold handleContentHidden. destruct (negb _); [done|].
    simpl in Hfresh.
    destruct (ev_data e) as [[| | | |sn rs [opts|] [te|] pr| | | | | |]|]; try done;
      [case_bool_decide; [done|]|];
      (split; [by apply inv_registerContentState
              |by eapply ranked_registerContentState]).
  - unfold handleContentRestored. destruct (negb _); [done|].
    destruct (ev_data e) as [data|]; [|done].
    assert (kept
              match data_strategyName data with
              | Some owner => (removeContentStatesByOwner owner m).2
              | None => m
              end) as Hrem.
    { destruct (data_strategyName data); [|done].
      split; [by apply inv_removeContentStatesByOwner|].
      by eapply ranked_remove_each. }
    destruct (Handlers.data_targetElement data); [|done].
    by case_bool_decide.
  - split; [by apply inv_clearAllContentStates|]. split; [constructor|done].
  - split; [by apply inv_updateTargetElement|].
    destruct (updateTargetElement_book given m) as (U1 & U2 & U3).
    by apply (ranked_book m).
Qed.

Lemma kept_run ops s :
  kept s.2 -> expected_run ops s -> kept (run ops s).2.
Proof.
  revert s. induction ops as [|o ops IH]; intros s Hinv Hfresh; [done|].
  destruct Hfresh as [Ho Hfresh]. apply IH; [by apply kept_step|done].
Qed.

Lemma kept_new element onHidden onRestored :
  kept (setContentCallbacks onHidden onRestored (new_manager element)).
Proof.
  split; [split|].
  - split; [constructor|]. split; [apply not_elem_of_nil|].
    split; [constructor|]. split; [by intros x ?%elem_of_nil|done].
  - split; [by eexists|done].
  - split; [constructor|done].
Qed.

(** A manager as a page sets it up: created for an element and given its
    callbacks. *)
Definition content_manager (element : Element)
    (onHidden : option (string -> string -> callback_result))
    (onRestored : option (string -> callback_result)) : Manager :=
  setContentCallbacks onHidden onRestored (new_manager element).

(** The manager after it has handled [ops]. *)
Definition reached (element : Element)
    (onHidden : option (string -> string -> callback_result))
    (onRestored : option (string -> callback_result))
    (self : ElementRef) (ops : list op) : Manager :=
  (run ops (self, content_manager element onHidden onRestored)).2.

Lemma kept_reached element onHidden onRestored self ops :
  expected_run ops (self, content_manager element onHidden onRestored) ->
  kept (reached element onHidden onRestored self ops).
Proof. intros Hrun. apply kept_run; [|done]. apply kept_new. Qed.

(** ** The content of the element *)

(** What the element reads as [innerHTML] once the content it was given has
    gone [k] times through its setter. *)
Definition read_back (element : Element) (k : nat) : string :=
  Nat.iter k (el_parsed element) (el_innerHTML element).

Lemma read_back_stable element k :
  el_parsed element (el_innerHTML element) = el_innerHTML element ->
  read_back element k = el_innerHTML element.
Proof.
  intros Hsame. induction k as [|k IH]; [done|].
  unfold read_back in *. simpl. by rewrite IH.
Qed.

(** The manager holds [element], whose content, read back some number of
    times, is kept aside while the content is hidden and is in the element
    otherwise. *)
Definition tracks (element : Element) (m : Manager) : Prop :=
  restored_callback_keeps_element m /\
  exists held k,
    targetElement m = Some held /\ el_parsed held = el_parsed element /\
    default (el_innerHTML held) (originalContent m) = read_back element k.

Lemma tracks_hideContent options element m :
  tracks element m -> tracks element (hideContent options m).2.
Proof.
  intros (Hcb & held & k & Ht & Hp & Hc).
  destruct (hideContent_fields options m held Ht) as ([h H1] & H2 & _ & _ & _ & H6).
  split; [unfold restored_callback_keeps_element; by rewrite H6|].
  exists (holding h held), k. by rewrite H1, H2.
Qed.

Lemma restoreContent_kept m t orig :
  targetElement m = Some t -> originalContent m = Some orig ->
  restored_callback_keeps_element m ->
  targetElement (restoreContent m).2 = Some (holding (el_parsed t orig) t) /\
  originalContent (restoreContent m).2 = None /\
  onContentRestoredCallback (restoreContent m).2 = onContentRestoredCallback m.
Proof.
  intros Ht Ho Hcb. unfold restoreContent. rewrite Ht, Ho. simpl.
  destruct (onContentRestoredCallback m) as [callback|] eqn:Hc; [|done].
  specialize (Hcb callback (el_parsed t orig) Hc).
  destruct (callback _); simpl in *; by subst.
Qed.

Lemma tracks_restoreContent element m :
  tracks element m -> tracks element (restoreContent m).2.
Proof.
  intros (Hcb & held & k & Ht & Hp & Hc).
  destruct (originalContent m) as [orig|] eqn:Ho.
  - destruct (restoreContent_kept m held orig Ht Ho Hcb) as (R1 & R2 & R3).
    split; [unfold restored_callback_keeps_element; by rewrite R3|].
    exists (holding (el_parsed held orig) held), (S k).
    rewrite R1, R2. split; [done|]. split; [done|].
    simpl in Hc |- *. by rewrite Hp, Hc.
  - unfold restoreContent. rewrite Ht, Ho. cbn [snd]. split; [done|].
    exists held, k. by rewrite Ho.
Qed.

Lemma tracks_applyContentStateById id element m :
  tracks element m -> tracks element (applyContentStateById id m).2.
Proof.
  intros Htr. unfold applyContentStateById.
  destruct (Js.mget id (contentStates m)) as [st|]; [|done].
  exact (tracks_hideContent (cs_options st) element (with_reason (cs_reason st) m) Htr).
Qed.

Lemma tracks_addToQueue id element m :
  tracks element m -> tracks element (addToQueue id m).
Proof. unfold addToQueue. by case_bool_decide. Qed.

Lemma tracks_registerContentState owner reason options priority now element m :
  tracks element m ->
  tracks element (registerContentState owner reason options priority now m).2.
Proof.
  intros Htr. unfold registerContentState.
  set (id := state_id owner reason now).
  set (m1 := with_states _ m).
  assert (tracks element m1) as Htr1 by exact Htr. clearbody m1.
  destruct (activeStateId m1) as [a|]; [|by apply tracks_applyContentStateById].
  destruct (Js.nonempty a); [|by apply tracks_applyContentStateById].
  pose proof (tracks_addToQueue id element m1 Htr1) as Htr2.
  destruct (Js.mget a _); [|done].
  destruct (Js.mget id _); [|done].
  destruct (_ <? _)%Z; [|done].
  by apply tracks_applyContentStateById.
Qed.

Lemma tracks_remove_each ids n element m :
  tracks element m -> tracks element (remove_each ids n m).2.
Proof.
  revert n m. induction ids as [|id ids IH]; intros n m Htr; [done|].
  cbn [remove_each]. apply IH. clear IH.
  set (m1 := with_states _ m).
  assert (tracks element m1) as Htr1 by exact Htr. clearbody m1.
  case_bool_decide; [|exact Htr1].
  destruct (stateQueue (with_active None m1)) as [|next queue].
  - exact (tracks_restoreContent element (with_active None m1) Htr1).
  - destruct (Js.nonempty next); [|exact Htr1].
    exact (tracks_applyContentStateById next element
             (with_queue queue (with_active None m1)) Htr1).
Qed.

Lemma tracks_unhidden element m :
  tracks element m ->
  tracks element (if isContentHidden m then (restoreContent m).2 else m) /\
  originalContent (if isContentHidden m then (restoreContent m).2 else m) = None.
Proof.
  intros Htr. unfold isContentHidden.
  destruct (originalContent m) as [orig|] eqn:Ho; [|done].
  split; [by apply tracks_restoreContent|].
  destruct Htr as (Hcb & held & k & Ht & _).
  by destruct (restoreContent_kept m held orig Ht Ho Hcb) as (_ & R2 & _).
Qed.

Lemma tracks_clearAllContentStates element m :
  tracks element m ->
  tracks element (clearAllContentStates m).2 /\
  originalContent (clearAllContentStates m).2 = None.
Proof.
  intros Htr. destruct (tracks_unhidden element m Htr) as [Htr1 Ho1].
  unfold clearAllContentStates.
  set (m1 := if isContentHidden m then (restoreContent m).2 else m) in *.
  clearbody m1. cbn [snd]. split; [exact Htr1|exact Ho1].
Qed.

Lemma tracks_updateTargetElement given element m :
  tracks element m -> tracks given (updateTargetElement given m).
Proof.
  intros Htr. destruct (tracks_unhidden element m Htr) as [Htr1 Ho1].
  unfold updateTargetElement.
  set (m1 := if isContentHidden m then (restoreContent m).2 else m) in *.
  clearbody m1.
  set (m2 := with_target (Some given) m1).
  assert (tracks given m2) as Htr2.
  { split; [exact (proj1 Htr1)|]. exists given, 0. unfold m2. simpl.
    by rewrite Ho1. }
  clearbody m2.
  destruct (activeStateId m2) as [a|]; [|done].
  destruct (Js.nonempty a); [|done].
  destruct (Js.mget a (contentStates m2)) as [st|]; [|done].
  by apply tracks_hideContent.
Qed.

Lemma current_element_cons element o ops :
  current_element element (o :: ops) = current_element (current_element element [o]) ops.
Proof. done. Qed.

Lemma tracks_step o element s :
  tracks element s.2 -> tracks (current_element element [o]) (step o s).2.
Proof.
  destruct s as [self m]. cbn [fst snd]. intros Htr.
  destruct o as [e now|e| |ref given]; cbn [step fst snd current_element foldl].
  - unfold handleContentHidden. destruct (negb _); [done|].
    destruct (ev_data e) as [[| | | |sn rs [opts|] [te|] pr| | | | | |]|]; try done;
      [case_bool_decide; [done|]|]; by apply tracks_registerContentState.
  - unfold handleContentRestored. destruct (negb _); [done|].
    destruct (ev_data e) as [data|]; [|done].
    assert (tracks element
              match data_strategyName data with
              | Some owner => (removeContentStatesByOwner owner m).2
              | None => m
              end) as Hrem.
    { destruct (data_strategyName data); [|done]. by apply tracks_remove_each. }
    destruct (Handlers.data_targetElement data); [|done].
    by case_bool_decide.
  - by apply tracks_clearAllContentStates.
  - by eapply tracks_updateTargetElement.
Qed.

Lemma tracks_run ops element s :
  tracks element s.2 -> tracks (current_element element ops) (run ops s).2.
Proof.
  revert element s. induction ops as [|o ops IH]; intros element s Htr; [done|].
  rewrite current_element_cons. apply IH. by apply tracks_step.
Qed.

Lemma tracks_reached element onHidden onRestored self ops :
  restored_callback_keeps_element (content_manager element onHidden onRestored) ->
  tracks (current_element element ops)
    (reached element onHidden onRestored self ops).
Proof.
  intros Hcb. apply tracks_run. split; [done|]. by exists element, 0.
Qed.

(** A [CONTENT_HIDDEN] event of a strategy, for the default element. *)
Definition content_hidden_event (owner reason : string) (priority : Z)
    : ProtectionEvent :=
  {| ev_type := Some CONTENT_HIDDEN; ev_source := owner; ev_timestamp := Some 0%Z;
     ev_data := Some (ContentHiddenData owner reason (Some (title_options "Protected"))
                        None (Some priority)) |}.

(** A [CONTENT_RESTORED] event of a strategy, for the default element. *)
Definition content_restored_event (owner : string) : ProtectionEvent :=
  {| ev_type := Some CONTENT_RESTORED; ev_source := owner; ev_timestamp := Some 0%Z;
     ev_data := Some (ContentRestoredData owner None) |}.

Definition next_element : Element := plain_element "<p>next</p>".

(** Developer tools are opened, the page swaps the protected element, and a
    screenshot attempt follows. *)
Definition busy_session : list op :=
  [ContentHiddenEvent (content_hidden_event "DevToolsStrategy" "devtools_open" 10) 1;
   UpdateTargetElement 7 next_element;
   ContentHiddenEvent (content_hidden_event "ScreenshotStrategy" "screenshot_attempt" 5) 2].

Definition busy_manager : Manager :=
  reached secret None None 3 busy_session.

Lemma no_callback_keeps_element element onHidden :
  restored_callback_keeps_element (content_manager element onHidden None).
Proof. intros callback h. discriminate. Qed.

(** ** The content follows the active state *)



Example busy_session_content :
  (originalContent busy_manager, innerHTML (clearAllContentStates busy_manager).2)
  = (Some "<p>next</p>", Some "<p>next</p>").
Proof. vm_compute. reflexivity. Qed.

(** ** The waiting states *)

(** X14.  Provided no [CONTENT_HIDDEN] event makes [registerContentState]
    use the identifier of a stored state (and every such event carries the
    payload of its type): whatever a content manager has handled, its queue
    holds each waiting state once, in descending order of priority; a
    waiting state is stored and is not the active one; the active state is
    stored and has at least the priority of every waiting state; and no
    state waits while none is active. *)
Theorem waiting_states_ranked (element : Element)
    (onHidden : option (string -> string -> callback_result))
    (onRestored : option (string -> callback_result))
    (self : ElementRef) (ops : list op) :
  expected_run ops (self, content_manager element onHidden onRestored) ->
  NoDup (stateQueue (reached element onHidden onRestored self ops)) /\
  StronglySorted
    (fun a b =>
       (priority_of (reached element onHidden onRestored self ops) b
        <= priority_of (reached element onHidden onRestored self ops) a)%Z)
    (stateQueue (reached element onHidden onRestored self ops)) /\
  (forall id, id ∈ stateQueue (reached element onHidden onRestored self ops) ->
     is_Some (Js.mget id (contentStates (reached element onHidden onRestored self ops)))
     /\ getActiveContentStateId (reached element onHidden onRestored self ops)
        ≠ Some id) /\
  match getActiveContentStateId (reached element onHidden onRestored self ops) with
  | Some a =>
      is_Some (Js.mget a (contentStates (reached element onHidden onRestored self ops)))
      /\ Forall
           (fun q =>
              (priority_of (reached element onHidden onRestored self ops) q
               <= priority_of (reached element onHidden onRestored self ops) a)%Z)
           (stateQueue (reached element onHidden onRestored self ops))
  | None => stateQueue (reached element onHidden onRestored self ops) = []
  end.
Proof.
  intros Hrun.
  destruct (kept_reached element onHidden onRestored self ops Hrun)
    as [((Hk & He & Hq & Hqk & Hak) & _) [Hsorted Hact]].
  set (m := reached _ _ _ _ _) in *. clearbody m.
  unfold getActiveContentStateId.
  split; [done|]. split; [done|]. split.
  - intros id Hid. destruct (Hqk id Hid) as [? ?].
    split; [by apply Js.mget_is_Some_keys|done].
  - destruct (activeStateId m) as [a|]; [|done].
    split; [|done]. by apply Js.mget_is_Some_keys, Hak.
Qed.

Lemma waiting_states_ranked_witness :
  NoDup (stateQueue busy_manager) /\
  StronglySorted
    (fun a b =>
       (priority_of busy_manager b
        <= priority_of busy_manager a)%Z)
    (stateQueue busy_manager) /\
  (forall id, id ∈ stateQueue busy_manager ->
     is_Some (Js.mget id (contentStates busy_manager))
     /\ getActiveContentStateId busy_manager
        ≠ Some id) /\
  is_Some
    (Js.mget "content-state-DevToolsStrategy-devtools_open-1"
       (contentStates busy_manager)) /\
  Forall
    (fun q =>
       (priority_of busy_manager q
        <= priority_of busy_manager
             "content-state-DevToolsStrategy-devtools_open-1")%Z)
    (stateQueue busy_manager).
Proof.
  apply (waiting_states_ranked secret None None 3 busy_session).
  vm_compute. tauto.
Defined.

Example busy_session_queue :
  (fun m => (activeStateId m, stateQueue m))
    busy_manager
  = (Some "content-state-DevToolsStrategy-devtools_open-1",
     ["content-state-ScreenshotStrategy-screenshot_attempt-2"]).
Proof. vm_compute. reflexivity. Qed.

(** Without the proviso the queue can hold the active state: two
    [CONTENT_HIDDEN] events of one owner and reason within one millisecond
    get the same identifier, and the second puts it in the queue while it is
    active. *)
Example colliding_states_queue_active :
  (fun m => (activeStateId m, stateQueue m))
    (reached secret None None 3
       [ContentHiddenEvent (content_hidden_event "DevToolsStrategy" "devtools_open" 10) 1;
        ContentHiddenEvent (content_hidden_event "DevToolsStrategy" "devtools_open" 10) 1])
  = (Some "content-state-DevToolsStrategy-devtools_open-1",
     ["content-state-DevToolsStrategy-devtools_open-1"]).
Proof. vm_compute. reflexivity. Qed.

(** ** Clearing *)



(** ** Restoring the content of an owner *)

Lemma mdelete_filter {V} (k : string) (l : list (string * V)) :
  Js.mdelete k l = filter (fun e => e.1 ≠ k) l.
Proof.
  induction l as [|[k' v] l IH]; [done|]. simpl. rewrite filter_cons. simpl.
  destruct (decide (k' = k)) as [->|Hne].
  - by rewrite decide_False by (by intros ?).
  - by rewrite decide_True, IH by done.
Qed.

Lemma applyContentStateById_states id m :
  contentStates (applyContentStateById id m).2 = contentStates m.
Proof.
  destruct (Js.mget id (contentStates m)) as [st|] eqn:Hg.
  - by destruct (applyContentStateById_book id st m Hg) as (-> & _).
  - unfold applyContentStateById. by rewrite Hg.
Qed.

Lemma contentStates_remove_each ids n m :
  contentStates (remove_each ids n m).2
  = filter (fun e => e.1 ∉ ids) (contentStates m).
Proof.
  revert n m. induction ids as [|id ids IH]; intros n m.
  - symmetry. apply MediatorLaws.filter_all, Forall_forall.
    intros x _. apply not_elem_of_nil.
  - cbn [remove_each]. rewrite IH.
    set (m1 := with_states (Js.mdelete id (contentStates m)) m).
    assert (contentStates
              (if bool_decide (activeStateId m1 = Some id)
               then
                 match stateQueue (with_active None m1) with
                 | [] => (restoreContent (with_active None m1)).2
                 | nextStateId :: queue =>
                     if Js.nonempty nextStateId
                     then (applyContentStateById nextStateId
                             (with_queue queue (with_active None m1))).2
                     else with_queue queue (with_active None m1)
                 end
               else with_queue (filter (fun x => x ≠ id) (stateQueue m1)) m1)
            = Js.mdelete id (contentStates m)) as ->.
    { case_bool_decide; [|done].
      destruct (stateQueue (with_active None m1)) as [|next queue].
      - by destruct (restoreContent_book (with_active None m1)) as (-> & _).
      - destruct (Js.nonempty next); [|done].
        by rewrite applyContentStateById_states. }
    rewrite mdelete_filter, list_filter_filter. apply list_filter_iff.
    intros x. rewrite not_elem_of_cons. tauto.
Qed.

Lemma getContentStatesByOwner_removed owner m :
  getContentStatesByOwner owner (removeContentStatesByOwner owner m).2 = [].
Proof.
  unfold getContentStatesByOwner, removeContentStatesByOwner.
  rewrite contentStates_remove_each.
  rewrite list_filter_filter, Js.filter_none; [done|]. apply Forall_forall.
  intros x Hx [Ho Hin]. apply Hin. unfold Js.mkeys.
  apply list_elem_of_fmap. exists x. split; [done|].
  by apply list_elem_of_filter.
Qed.

(** Removing the active state, with nothing waiting, leaves no active
    state. *)
Lemma remove_each_active ids n m :
  stateQueue m = [] ->
  (forall a, activeStateId m = Some a -> a ∈ ids) ->
  activeStateId (remove_each ids n m).2 = None /\
  stateQueue (remove_each ids n m).2 = [].
Proof.
  revert n m. induction ids as [|id ids IH]; intros n m Hq Ha.
  - simpl. split; [|done]. destruct (activeStateId m) as [a|]; [|done].
    by destruct (not_elem_of_nil a); apply Ha.
  - cbn [remove_each]. apply IH.
    + change (activeStateId (with_states _ m)) with (activeStateId m).
      case_bool_decide.
      * simpl. rewrite Hq. by destruct (restoreContent_book
          (with_active None (with_states (Js.mdelete id (contentStates m)) m)))
          as (_ & _ & ->).
      * simpl. by rewrite Hq.
    + change (activeStateId (with_states _ m)) with (activeStateId m).
      case_bool_decide as Hact.
      * simpl. rewrite Hq.
        destruct (restoreContent_book
          (with_active None (with_states (Js.mdelete id (contentStates m)) m)))
          as (_ & -> & _). done.
      * simpl. intros a Hsome.
        pose proof (Ha a Hsome) as [->|?]%elem_of_cons; done.
Qed.

Lemma registerContentState_states owner reason options priority now m :
  contentStates (registerContentState owner reason options priority now m).2
  = Js.mset (state_id owner reason now)
      {| cs_id := state_id owner reason now; cs_owner := owner; cs_reason := reason;
         cs_options := options; cs_priority := priority; cs_hiddenAt := now |}
      (contentStates m).
Proof.
  unfold registerContentState.
  set (id := state_id owner reason now).
  set (st := Build_StoredContentState _ _ _ _ _ _).
  set (m1 := with_states (Js.mset id st (contentStates m)) m).
  assert (contentStates (addToQueue id m1) = contentStates m1) as Hadd.
  { unfold addToQueue. by case_bool_decide. }
  destruct (activeStateId m1) as [a|];
    [|cbn [snd]; by rewrite applyContentStateById_states].
  destruct (Js.nonempty a); [|cbn [snd]; by rewrite applyContentStateById_states].
  destruct (Js.mget a _); [|by cbn [snd]; rewrite Hadd].
  destruct (Js.mget id _); [|by cbn [snd]; rewrite Hadd].
  destruct (_ <? _)%Z; cbn [snd];
    [by rewrite applyContentStateById_states, Hadd|by rewrite Hadd].
Qed.

(** The map of states has each identifier once, whatever the manager has
    handled. *)
Definition keyed (m : Manager) : Prop := NoDup (Js.mkeys (contentStates m)).

Lemma keyed_filter (P : string * StoredContentState -> Prop)
    `{!forall x, Decision (P x)} (l : list (string * StoredContentState)) :
  NoDup (Js.mkeys l) -> NoDup (Js.mkeys (filter P l)).
Proof.
  unfold Js.mkeys. intros Hnd. eapply sublist_NoDup; [exact Hnd|].
  apply fmap_sublist, sublist_filter.
Qed.

Lemma keyed_step o s : keyed s.2 -> keyed (step o s).2.
Proof.
  destruct s as [self m]. cbn [fst snd]. unfold keyed. intros Hk.
  destruct o as [e now|e| |ref given]; cbn [step fst snd].
  - unfold handleContentHidden. destruct (negb _); [done|].
    destruct (ev_data e) as [[| | | |sn rs [opts|] [te|] pr| | | | | |]|]; try done;
      [case_bool_decide; [done|]|];
      rewrite registerContentState_states; by apply Js.NoDup_mkeys_mset.
  - unfold handleContentRestored. destruct (negb _); [done|].
    destruct (ev_data e) as [data|]; [|done].
    assert (NoDup (Js.mkeys (contentStates
              match data_strategyName data with
              | Some owner => (removeContentStatesByOwner owner m).2
              | None => m
              end))) as Hrem.
    { destruct (data_strategyName data); [|done].
      unfold removeContentStatesByOwner. rewrite contentStates_remove_each.
      by apply keyed_filter. }
    destruct (Handlers.data_targetElement data); [|done].
    by case_bool_decide.
  - constructor.
  - by destruct (updateTargetElement_book given m) as (-> & _).
Qed.

Lemma keyed_run ops s : keyed s.2 -> keyed (run ops s).2.
Proof.
  revert s. induction ops as [|o ops IH]; intros s Hk; [done|].
  apply IH. by apply keyed_step.
Qed.

(** X16.  Whatever a content manager has handled, a [CONTENT_RESTORED] event
    of an owner, for the element of the manager or for no element in
    particular, leaves no content state of this owner, and the states of the
    other owners stored as they were. *)
Theorem content_restored_removes_owner (element : Element)
    (onHidden : option (string -> string -> callback_result))
    (onRestored : option (string -> callback_result))
    (self : ElementRef) (ops : list op)
    (event : ProtectionEvent) (owner : string) (target : option ElementRef) :
  ev_type event = Some CONTENT_RESTORED ->
  ev_data event = Some (ContentRestoredData owner target) ->
  target = None \/
  target = Some (run ops (self, content_manager element onHidden onRestored)).1 ->
  getContentStatesByOwner owner
    (step (ContentRestoredEvent event)
       (run ops (self, content_manager element onHidden onRestored))).2 = [] /\
  forall other, other ≠ owner ->
    getContentStatesByOwner other
      (step (ContentRestoredEvent event)
         (run ops (self, content_manager element onHidden onRestored))).2
    = getContentStatesByOwner other
        (run ops (self, content_manager element onHidden onRestored)).2.
Proof.
  intros Htype Hdata Htarget.
  assert (keyed (run ops (self, content_manager element onHidden onRestored)).2)
    as Hk by (apply keyed_run; constructor).
  unfold keyed in Hk.
  destruct (run ops _) as [el m]. cbn [step fst snd] in *.
  unfold handleContentRestored, isEventType.
  rewrite bool_decide_true by done. cbn [negb]. rewrite Hdata.
  cbn [Handlers.data_targetElement data_strategyName].
  assert (match target with
          | Some t =>
              if bool_decide (t ≠ el) then m
              else (removeContentStatesByOwner owner m).2
          | None => (removeContentStatesByOwner owner m).2
          end = (removeContentStatesByOwner owner m).2) as ->.
  { destruct Htarget as [->| ->]; [done|]. by rewrite bool_decide_false by naive_solver. }
  unfold getContentStatesByOwner, removeContentStatesByOwner.
  rewrite contentStates_remove_each. split.
  - rewrite list_filter_filter, Js.filter_none; [done|]. apply Forall_forall.
    intros x Hx [Ho Hin]. apply Hin. unfold Js.mkeys.
    apply list_elem_of_fmap. exists x. split; [done|].
    by apply list_elem_of_filter.
  - intros other Hne. rewrite list_filter_filter. f_equal.
    apply OverlayLaws.filter_iff_elem. intros x Hx. split; [by intros [? _]|].
    intros Ho. split; [done|]. unfold Js.mkeys.
    intros (y & Hy & [Hyo Hin]%list_elem_of_filter)%list_elem_of_fmap.
    apply Hne. rewrite <-Ho, <-Hyo.
    by rewrite (OverlayLaws.NoDup_fmap_elem _ _ x y Hk Hx Hin Hy).
Qed.

(** Two strategies hide the content, then the first one restores it. *)
Definition two_hidden : list op :=
  [ContentHiddenEvent (content_hidden_event "DevToolsStrategy" "devtools_open" 10) 1;
   ContentHiddenEvent (content_hidden_event "ScreenshotStrategy" "screenshot_attempt" 5) 2].

Lemma content_restored_removes_owner_witness :
  getContentStatesByOwner "DevToolsStrategy"
    (step (ContentRestoredEvent (content_restored_event "DevToolsStrategy"))
       (run two_hidden (3, content_manager secret None None))).2 = [] /\
  forall other, other ≠ "DevToolsStrategy" ->
    getContentStatesByOwner other
      (step (ContentRestoredEvent (content_restored_event "DevToolsStrategy"))
         (run two_hidden (3, content_manager secret None None))).2
    = getContentStatesByOwner other
        (run two_hidden (3, content_manager secret None None)).2.
Proof.
  apply (content_restored_removes_owner secret None None 3 two_hidden
           (content_restored_event "DevToolsStrategy") "DevToolsStrategy" None).
  - reflexivity.
  - reflexivity.
  - left. reflexivity.
Defined.

Example restored_owner_promotes_waiting :
  (fun m => (activeStateId m, stateQueue m, Js.mkeys (contentStates m)))
    (step (ContentRestoredEvent (content_restored_event "DevToolsStrategy"))
       (run two_hidden (3, content_manager secret None None))).2
  = (Some "content-state-ScreenshotStrategy-screenshot_attempt-2", [],
     ["content-state-ScreenshotStrategy-screenshot_attempt-2"]).
Proof. vm_compute. reflexivity. Qed.

(** ** Hiding by priority *)

Lemma run_snoc ops o s : run (ops ++ [o]) s = step o (run ops s).
Proof. unfold run. by rewrite foldl_app. Qed.

Lemma registerContentState_book owner reason options priority now m :
  inv m -> ranked m ->
  Js.mget (state_id owner reason now) (contentStates m) = None ->
  Js.mkeys (contentStates (registerContentState owner reason options priority now m).2)
  = Js.mkeys (contentStates m) ++ [state_id owner reason now] /\
  match activeStateId m with
  | Some a =>
      if decide (priority_of m a < priority)%Z
      then
        activeStateId (registerContentState owner reason options priority now m).2
        = Some (state_id owner reason now) /\
        stateQueue (registerContentState owner reason options priority now m).2
        = stateQueue m
      else
        activeStateId (registerContentState owner reason options priority now m).2
        = Some a /\
        stateQueue (registerContentState owner reason options priority now m).2
        ≡ₚ state_id owner reason now :: stateQueue m
  | None =>
      activeStateId (registerContentState owner reason options priority now m).2
      = Some (state_id owner reason now) /\
      stateQueue (registerContentState owner reason options priority now m).2 = []
  end.
Proof.
  intros ((Hk & He & Hq & Hqk & Hak) & _) [Hsorted Hact] Hfresh.
  unfold registerContentState.
  set (id := state_id owner reason now) in *.
  set (st := Build_StoredContentState _ _ _ _ _ _).
  set (m1 := with_states (Js.mset id st (contentStates m)) m).
  assert (Js.mget id (contentStates m1) = Some st) as Hgid.
  { unfold m1. simpl. apply Js.mget_mset_eq. }
  assert (Js.mkeys (contentStates m1) = Js.mkeys (contentStates m) ++ [id]) as Hkeys.
  { unfold m1. simpl. by apply Js.mkeys_mset_notin, Js.mget_None_keys. }
  assert (forall x, x ∈ stateQueue m -> x ≠ id) as Hqid.
  { intros x Hx ->. apply Hqk in Hx as [Hx _].
    by apply Js.mget_None_keys in Hfresh. }
  change (activeStateId m1) with (activeStateId m).
  destruct (activeStateId m) as [a|] eqn:Ha.
  2:{ destruct (applyContentStateById_book id st m1 Hgid) as (A1 & A2 & A3).
      cbn [snd]. rewrite A1, A2, A3. simpl. by rewrite Hact. }
  destruct (Js.nonempty a) eqn:Hna.
  2:{ destruct a; [|done]. exfalso. apply He. by apply Hak. }
  assert (a ≠ id) as Haid.
  { intros ->. apply Js.mget_None_keys in Hfresh. by apply Hfresh, Hak. }
  assert (is_Some (Js.mget a (contentStates m))) as [sa Hsa]
    by (by apply Js.mget_is_Some_keys, Hak).
  assert (Js.mget a (contentStates m1) = Some sa) as Hsa1.
  { unfold m1. simpl. by rewrite Js.mget_mset_ne. }
  assert (priority_of m a = cs_priority sa) as Hpa
    by (unfold priority_of; by rewrite Hsa).
  assert (stateQueue (addToQueue id m1)
          = Js.sort (compare_queued m1) (stateQueue m ++ [id])) as Hqueue.
  { unfold addToQueue. rewrite bool_decide_false; [done|].
    intros Hin. by apply (Hqid id). }
  assert (contentStates (addToQueue id m1) = contentStates m1 /\
          activeStateId (addToQueue id m1) = Some a) as (B1 & B2).
  { unfold addToQueue. by case_bool_decide. }
  set (m2 := addToQueue id m1) in *. clearbody m2.
  rewrite B1, Hsa1, Hgid, Hpa.
  change (cs_priority st) with priority.
  destruct (Z.ltb_spec (cs_priority sa) priority) as [Hlt|Hge].
  - rewrite decide_True by done.
    destruct (applyContentStateById_book id st m2) as (A1 & A2 & A3);
      [by rewrite B1|].
    cbn [snd]. rewrite A1, A2, A3, B1. split; [done|]. split; [done|].
    rewrite Hqueue, Js.sort_snoc.
    rewrite (Js.sort_sorted_id _ (outranks m1) (stateQueue m)).
    + apply MediatorLaws.filter_sort_insert_fresh; [|by intros ?].
      apply Forall_forall. intros x Hx. by apply Hqid.
    + apply compare_queued_outranks.
    + eapply sorted_agree; [|done]. intros x Hx. unfold priority_of, m1. simpl.
      rewrite Js.mget_mset_ne; [done|]. symmetry. by apply Hqid.
  - rewrite decide_False by lia. cbn [snd]. rewrite B1, B2.
    split; [done|]. split; [done|].
    rewrite Hqueue, Js.sort_perm. symmetry. apply Permutation_cons_append.
Qed.

(** X17.  Provided no [CONTENT_HIDDEN] event, the last one included, makes
    [registerContentState] use the identifier of a stored state (and every
    such event carries the payload of its type): a [CONTENT_HIDDEN] event
    for the element of the manager registers a new state, stored after the
    others.  With no active state the new state becomes the active one.
    With an active state of strictly lower priority the new state replaces
    it, and the replaced state stays stored but does not enter the queue;
    otherwise the active state stays and the new state joins the queue. *)
Theorem content_hidden_by_priority (element : Element)
    (onHidden : option (string -> string -> callback_result))
    (onRestored : option (string -> callback_result))
    (self : ElementRef) (ops : list op)
    (event : ProtectionEvent) (now : N) (owner reason : string)
    (options : PlaceholderOptions) (target : option ElementRef)
    (priority : option Z) :
  expected_run (ops ++ [ContentHiddenEvent event now])
    (self, content_manager element onHidden onRestored) ->
  ev_type event = Some CONTENT_HIDDEN ->
  ev_data event = Some (ContentHiddenData owner reason (Some options) target priority) ->
  target = None \/
  target = Some (run ops (self, content_manager element onHidden onRestored)).1 ->
  Js.mkeys (contentStates
              (reached element onHidden onRestored self
                 (ops ++ [ContentHiddenEvent event now])))
  = Js.mkeys (contentStates (reached element onHidden onRestored self ops))
    ++ [state_id owner reason now] /\
  match getActiveContentStateId (reached element onHidden onRestored self ops) with
  | Some a =>
      if decide (priority_of (reached element onHidden onRestored self ops) a
                 < Js.num_or priority 0)%Z
      then
        getActiveContentStateId
          (reached element onHidden onRestored self
             (ops ++ [ContentHiddenEvent event now]))
        = Some (state_id owner reason now) /\
        stateQueue
          (reached element onHidden onRestored self
             (ops ++ [ContentHiddenEvent event now]))
        = stateQueue (reached element onHidden onRestored self ops)
      else
        getActiveContentStateId
          (reached element onHidden onRestored self
             (ops ++ [ContentHiddenEvent event now]))
        = Some a /\
        stateQueue
          (reached element onHidden onRestored self
             (ops ++ [ContentHiddenEvent event now]))
        ≡ₚ state_id owner reason now
             :: stateQueue (reached element onHidden onRestored self ops)
  | None =>
      getActiveContentStateId
        (reached element onHidden onRestored self
           (ops ++ [ContentHiddenEvent event now]))
      = Some (state_id owner reason now) /\
      stateQueue
        (reached element onHidden onRestored self
           (ops ++ [ContentHiddenEvent event now])) = []
  end.
Proof.
  intros Hrun Htype Hdata Htarget.
  assert (expected_run ops (self, content_manager element onHidden onRestored) /\
          expected_op (ContentHiddenEvent event now)
            (run ops (self, content_manager element onHidden onRestored)).2)
    as [Hrun' Hfresh].
  { clear -Hrun. revert Hrun.
    generalize (self, content_manager element onHidden onRestored).
    induction ops as [|o ops IH]; intros s; simpl.
    - by intros [? _].
    - intros [Ho Hrest]. destruct (IH _ Hrest) as [? ?]. done. }
  destruct (kept_reached element onHidden onRestored self ops Hrun')
    as [Hinv Hr].
  unfold reached in *. rewrite !run_snoc.
  destruct (run ops _) as [el m]. cbn [step fst snd] in *.
  cbn [expected_op] in Hfresh. rewrite Hdata in Hfresh.
  unfold handleContentHidden, isEventType.
  rewrite bool_decide_true by done. cbn [negb]. rewrite Hdata.
  assert (match target with
          | Some t =>
              if bool_decide (t ≠ el) then m
              else (registerContentState owner reason options
                      (Js.num_or priority 0) now m).2
          | None => (registerContentState owner reason options
                       (Js.num_or priority 0) now m).2
          end = (registerContentState owner reason options
                   (Js.num_or priority 0) now m).2) as ->.
  { destruct Htarget as [->| ->]; [done|]. by rewrite bool_decide_false by naive_solver. }
  unfold getActiveContentStateId.
  exact (registerContentState_book owner reason options (Js.num_or priority 0) now
           m Hinv Hr Hfresh).
Qed.

(** A screenshot attempt of priority 5 hides the content, then developer
    tools are opened with priority 10. *)
Definition screenshot_first : list op :=
  [ContentHiddenEvent (content_hidden_event "ScreenshotStrategy" "screenshot_attempt" 5) 1].

Definition devtools_next : op :=
  ContentHiddenEvent (content_hidden_event "DevToolsStrategy" "devtools_open" 10) 2.

Lemma content_hidden_by_priority_witness :
  Js.mkeys (contentStates
              (reached secret None None 3 (screenshot_first ++ [devtools_next])))
  = Js.mkeys (contentStates (reached secret None None 3 screenshot_first))
    ++ ["content-state-DevToolsStrategy-devtools_open-2"] /\
  getActiveContentStateId
    (reached secret None None 3 (screenshot_first ++ [devtools_next]))
  = Some "content-state-DevToolsStrategy-devtools_open-2" /\
  stateQueue (reached secret None None 3 (screenshot_first ++ [devtools_next]))
  = stateQueue (reached secret None None 3 screenshot_first).
Proof.
  apply (content_hidden_by_priority secret None None 3 screenshot_first
           (content_hidden_event "DevToolsStrategy" "devtools_open" 10) 2
           "DevToolsStrategy" "devtools_open" (title_options "Protected") None
           (Some 10%Z)).
  - vm_compute. tauto.
  - reflexivity.
  - reflexivity.
  - left. reflexivity.
Defined.

(** The replaced state is stored but waits nowhere: when the developer tools
    are closed the content is shown, with the screenshot state still stored. *)
Example replaced_state_does_not_return :
  (fun m => (activeStateId m, stateQueue m, Js.mkeys (contentStates m),
             isContentHidden m))
    (reached secret None None 3
       (screenshot_first ++
        [devtools_next;
         ContentRestoredEvent (content_restored_event "DevToolsStrategy")]))
  = (None, [], ["content-state-ScreenshotStrategy-screenshot_attempt-1"], false).
Proof. vm_compute. reflexivity. Qed.

End ContentLaws.

(* ===================================================================== *)
(** * The interval manager ([IntervalManager]) *)
(* ===================================================================== *)

Module Interval.

(** [type IntervalTask].  The callback is named by a handle; what a call of
    it does to the manager is nothing (the tasks of the strategies do not
    call the manager back), and whether it throws is an input of the
    operation that calls it. *)
Record IntervalTask := {
  task_id : string;
  task_callback : nat;
  task_frequency : Z;
  task_lastRun : Z;
  task_isActive : bool;
}.

(** The fields of an [IntervalManager], and the interval timers of [window]
    that its calls of [setInterval] have created and [clearInterval] has not
    cleared: each with its handle and delay. *)
Record Manager := {
  tasks : list (string * IntervalTask);
  intervalId : option nat;
  intervalFrequency : Z;
  isRunning : bool;
  timers : list (nat * Z);
  next_handle : nat;
  errors : nat;
}.

Definition new_manager : Manager :=
  {| tasks := []; intervalId := None; intervalFrequency := 500; isRunning := false;
     timers := []; next_handle := 1; errors := 0 |}.

Definition with_tasks (t : list (string * IntervalTask)) (m : Manager) : Manager :=
  {| tasks := t; intervalId := intervalId m;
     intervalFrequency := intervalFrequency m; isRunning := isRunning m;
     timers := timers m; next_handle := next_handle m; errors := errors m |}.

Definition with_lastRun (t : Z) (task : IntervalTask) : IntervalTask :=
  {| task_id := task_id task; task_callback := task_callback task;
     task_frequency := task_frequency task; task_lastRun := t;
     task_isActive := task_isActive task |}.

Definition with_isActive (a : bool) (task : IntervalTask) : IntervalTask :=
  {| task_id := task_id task; task_callback := task_callback task;
     task_frequency := task_frequency task; task_lastRun := task_lastRun task;
     task_isActive := a |}.

(** [logger.error(...)] in a [catch]. *)
Definition log_error (m : Manager) : Manager :=
  {| tasks := tasks m; intervalId := intervalId m;
     intervalFrequency := intervalFrequency m; isRunning := isRunning m;
     timers := timers m; next_handle := next_handle m; errors := S (errors m) |}.

Section Code.
Variable isBrowser : bool.

(** [startInterval()]. *)
Definition startInterval (m : Manager) : Manager :=
  if isRunning m || negb isBrowser then m
  else
    {| tasks := tasks m; intervalId := Some (next_handle m);
       intervalFrequency := intervalFrequency m; isRunning := true;
       timers := timers m ++ [(next_handle m, intervalFrequency m)];
       next_handle := S (next_handle m); errors := errors m |}.

(** [stopInterval()]. *)
Definition stopInterval (m : Manager) : Manager :=
  if negb (isRunning m) || negb isBrowser then m
  else
    match intervalId m with
    | Some h =>
        {| tasks := tasks m; intervalId := None;
           intervalFrequency := intervalFrequency m; isRunning := false;
           timers := filter (fun t => t.1 ≠ h) (timers m);
           next_handle := next_handle m; errors := errors m |}
    | None =>
        {| tasks := tasks m; intervalId := None;
           intervalFrequency := intervalFrequency m; isRunning := false;
           timers := timers m; next_handle := next_handle m; errors := errors m |}
    end.

(** [registerTask(id, callback, frequency)], with the value of [Date.now()]. *)
Definition registerTask (id : string) (callback : nat) (frequency : Z) (now : Z)
    (m : Manager) : string * Manager :=
  if negb isBrowser then (id, m)
  else
    let taskId := if Js.mhas id (tasks m) then id +:+ "-" +:+ pretty now else id in
    let m :=
      with_tasks
        (Js.mset taskId
           {| task_id := taskId; task_callback := callback;
              task_frequency := frequency; task_lastRun := 0;
              task_isActive := true |} (tasks m)) m in
    (taskId, startInterval m).

(** [unregisterTask(id)]. *)
Definition unregisterTask (id : string) (m : Manager) : bool * Manager :=
  if negb isBrowser then (false, m)
  else
    let result := Js.mhas id (tasks m) in
    let m := with_tasks (Js.mdelete id (tasks m)) m in
    (result, if bool_decide (length (tasks m) = 0) then stopInterval m else m).

(** [pauseTask(id)] and [resumeTask(id)]. *)
Definition set_active (a : bool) (id : string) (m : Manager) : bool * Manager :=
  if negb isBrowser then (false, m)
  else
    match Js.mget id (tasks m) with
    | Some task => (true, with_tasks (Js.mset id (with_isActive a task) (tasks m)) m)
    | None => (false, m)
    end.

Definition pauseTask (id : string) (m : Manager) : bool * Manager :=
  set_active false id m.

Definition resumeTask (id : string) (m : Manager) : bool * Manager :=
  set_active true id m.

(** Whether [executeEligibleTasks] at [now] runs a task. *)
Definition due (now : Z) (task : IntervalTask) : bool :=
  task_isActive task && (task_frequency task <=? now - task_lastRun task)%Z.

(** The body of the [forEach] of [executeEligibleTasks] for one task; the
    task identifiers whose callbacks are called are collected. *)
Definition execute_one (now : Z) (throws : nat -> bool)
    (s : list string * Manager) (task : IntervalTask) : list string * Manager :=
  if negb (task_isActive task) then s
  else if (task_frequency task <=? now - task_lastRun task)%Z then
    if throws (task_callback task) then (s.1 ++ [task_id task], log_error s.2)
    else
      (s.1 ++ [task_id task],
       with_tasks (Js.mset (task_id task) (with_lastRun now task) (tasks s.2)) s.2)
  else s.

(** [executeEligibleTasks()], the callback of the timer, with the value of
    [Date.now()] and the callbacks that throw. *)
Definition executeEligibleTasks (now : Z) (throws : nat -> bool) (m : Manager)
    : list string * Manager :=
  foldl (execute_one now throws) ([], m) (tasks m).*2.

(** [executeTaskNow(id)]. *)
Definition executeTaskNow (id : string) (now : Z) (throws : nat -> bool) (m : Manager)
    : bool * (list string * Manager) :=
  if negb isBrowser then (false, ([], m))
  else
    match Js.mget id (tasks m) with
    | Some task =>
        if task_isActive task then
          if throws (task_callback task) then (false, ([id], log_error m))
          else (true, ([id], with_tasks (Js.mset id (with_lastRun now task) (tasks m)) m))
        else (false, ([], m))
    | None => (false, ([], m))
    end.

(** [dispose()]. *)
Definition dispose (m : Manager) : Manager :=
  if negb isBrowser then m else with_tasks [] (stopInterval m).

(** [setIntervalFrequency(frequency)]. *)
Definition setIntervalFrequency (frequency : Z) (m : Manager) : Manager :=
  let m :=
    {| tasks := tasks m; intervalId := intervalId m;
       intervalFrequency := frequency; isRunning := isRunning m;
       timers := timers m; next_handle := next_handle m; errors := errors m |} in
  if isRunning m then startInterval (stopInterval m) else m.

(** The calls of the public methods, and the ticks of the timer. *)
Inductive op :=
  | RegisterTask (id : string) (callback : nat) (frequency : Z) (now : Z)
  | UnregisterTask (id : string)
  | PauseTask (id : string)
  | ResumeTask (id : string)
  | Tick (now : Z) (throws : nat -> bool)
  | ExecuteTaskNow (id : string) (now : Z) (throws : nat -> bool)
  | Dispose
  | SetIntervalFrequency (frequency : Z).

(** A step gives the tasks whose callbacks it calls, in order, and the next
    state.  The timer only ticks while it is set. *)
Definition step (o : op) (m : Manager) : list string * Manager :=
  match o with
  | RegisterTask id callback frequency now =>
      ([], (registerTask id callback frequency now m).2)
  | UnregisterTask id => ([], (unregisterTask id m).2)
  | PauseTask id => ([], (pauseTask id m).2)
  | ResumeTask id => ([], (resumeTask id m).2)
  | Tick now throws =>
      match timers m with
      | [] => ([], m)
      | _ :: _ => executeEligibleTasks now throws m
      end
  | ExecuteTaskNow id now throws => (executeTaskNow id now throws m).2
  | Dispose => ([], dispose m)
  | SetIntervalFrequency frequency => ([], setIntervalFrequency frequency m)
  end.

Fixpoint run (ops : list op) (m : Manager) : list string * Manager :=
  match ops with
  | [] => ([], m)
  | o :: ops' =>
      let r := step o m in
      let r' := run ops' r.2 in
      (r.1 ++ r'.1, r'.2)
  end.

End Code.

(** ** Invariants *)

(** Each task is stored once, under its identifier. *)
Definition keyed (m : Manager) : Prop :=
  NoDup (Js.mkeys (tasks m)) /\ Forall (fun e => task_id e.2 = e.1) (tasks m).

(** The timer of the manager is the only one it has set, it is set exactly
    while the manager runs, and the manager runs exactly while it has
    tasks. *)
Definition timer_set (m : Manager) : Prop :=
  match intervalId m with
  | Some h => isRunning m = true /\ timers m = [(h, intervalFrequency m)]
  | None => isRunning m = false /\ timers m = []
  end.

Definition timer_ok (m : Manager) : Prop :=
  (isRunning m = true <-> tasks m ≠ []) /\ timer_set m.

Lemma Forall_mset {V} (P : string * V -> Prop) (k : string) (v : V)
    (l : list (string * V)) :
  P (k, v) -> Forall P l -> Forall P (Js.mset k v l).
Proof.
  intros Hv. induction 1 as [|[k' v'] l Hx Hl IH]; simpl.
  - by repeat constructor.
  - destruct (decide (k' = k)) as [->|Hne]; by constructor.
Qed.

Lemma Forall_mdelete {V} (P : string * V -> Prop) (k : string)
    (l : list (string * V)) :
  Forall P l -> Forall P (Js.mdelete k l).
Proof.
  induction 1 as [|[k' v'] l Hx Hl IH]; simpl; [done|].
  destruct (decide (k' = k)); [done|by constructor].
Qed.

Lemma mset_nonempty {V} (k : string) (v : V) (l : list (string * V)) :
  Js.mset k v l ≠ [].
Proof. destruct l as [|[k' v'] l]; simpl; [done|]. by destruct (decide (k' = k)). Qed.

Lemma keyed_mset k task m :
  task_id task = k -> keyed m -> keyed (with_tasks (Js.mset k task (tasks m)) m).
Proof.
  intros Hk [Hnd Hall]. split; simpl.
  - by apply Js.NoDup_mkeys_mset.
  - by apply Forall_mset.
Qed.

Lemma keyed_mdelete k m :
  keyed m -> keyed (with_tasks (Js.mdelete k (tasks m)) m).
Proof.
  intros [Hnd Hall]. split; simpl.
  - by apply Js.NoDup_mkeys_mdelete.
  - by apply Forall_mdelete.
Qed.

Lemma keyed_fields m m' : tasks m' = tasks m -> keyed m -> keyed m'.
Proof. unfold keyed. by intros ->. Qed.

Lemma keyed_stored id task m :
  keyed m -> Js.mget id (tasks m) = Some task -> task_id task = id.
Proof.
  intros [_ Hall] Hg%Js.mget_Some_elem.
  rewrite Forall_forall in Hall. exact (Hall _ Hg).
Qed.

Section Laws.
Variable isBrowser : bool.

Lemma startInterval_tasks m : tasks (startInterval isBrowser m) = tasks m.
Proof. unfold startInterval. by destruct (_ || _). Qed.

Lemma stopInterval_tasks m : tasks (stopInterval isBrowser m) = tasks m.
Proof. unfold stopInterval. destruct (_ || _); [done|]. by destruct (intervalId m). Qed.

Lemma execute_one_tasks_keys now throws s task :
  Js.mget (task_id task) (tasks s.2) ≠ None ->
  Js.mkeys (tasks (execute_one now throws s task).2) = Js.mkeys (tasks s.2).
Proof.
  intros Hin. unfold execute_one. destruct (negb _); [done|].
  destruct (_ <=? _)%Z; [|done]. destruct (throws _); [done|]. simpl.
  apply Js.mkeys_mset_in, Js.mget_is_Some_keys.
  by destruct (Js.mget _ _).
Qed.

(** The tick, task by task: what it calls and what it stores. *)
Definition ticked (now : Z) (throws : nat -> bool) (e : string * IntervalTask)
    : string * IntervalTask :=
  if due now e.2 && negb (throws (task_callback e.2))
  then (e.1, with_lastRun now e.2) else e.

Lemma mset_middle {V} (k : string) (v v' : V) (pre rest : list (string * V)) :
  k ∉ Js.mkeys pre ->
  Js.mset k v' (pre ++ (k, v) :: rest) = pre ++ (k, v') :: rest.
Proof.
  induction pre as [|[k0 v0] pre IH]; simpl.
  - intros _. by rewrite decide_True.
  - intros [Hne Hpre]%not_elem_of_cons. rewrite decide_False by done.
    by rewrite IH.
Qed.

Lemma execute_fold now throws (pre rest : list (string * IntervalTask)) calls m :
  NoDup (Js.mkeys (pre ++ rest)) ->
  Forall (fun e => task_id e.2 = e.1) rest ->
  tasks m = pre ++ rest ->
  (foldl (execute_one now throws) (calls, m) rest.*2).1
  = calls ++ (filter (fun e => due now e.2 = true) rest).*1 /\
  tasks (foldl (execute_one now throws) (calls, m) rest.*2).2
  = pre ++ (ticked now throws <$> rest) /\
  forall P : Manager -> Prop,
    (forall m1 t, P m1 -> P (with_tasks t m1)) ->
    (forall m1, P m1 -> P (log_error m1)) ->
    P m -> P (foldl (execute_one now throws) (calls, m) rest.*2).2.
Proof.
  revert pre calls m. induction rest as [|[k task] rest IH];
    intros pre calls m Hnd Hall Htasks.
  - simpl. rewrite !app_nil_r. rewrite app_nil_r in Htasks. auto.
  - apply Forall_cons in Hall as [Hk Hall]. simpl in Hk. subst k.
    assert (task_id task ∉ Js.mkeys pre) as Hpre.
    { unfold Js.mkeys in *. rewrite fmap_app in Hnd.
      apply NoDup_app in Hnd as (_ & Hdis & _). intros Hin.
      apply (Hdis _ Hin). by apply elem_of_cons; left. }
    cbn [fmap list_fmap snd foldl].
    set (s1 := execute_one now throws (calls, m) task).
    assert (s1.1 = calls ++ (if due now task then [task_id task] else []) /\
            tasks s1.2 = (pre ++ [ticked now throws (task_id task, task)]) ++ rest /\
            forall P : Manager -> Prop,
              (forall m1 t, P m1 -> P (with_tasks t m1)) ->
              (forall m1, P m1 -> P (log_error m1)) -> P m -> P s1.2)
      as (Hc1 & Ht1 & HP1).
    { unfold s1, execute_one, ticked, due. cbn [fst snd].
      destruct (task_isActive task); cbn [negb andb].
      2:{ rewrite app_nil_r, <-app_assoc. done. }
      destruct (_ <=? _)%Z.
      2:{ rewrite app_nil_r, <-app_assoc. done. }
      destruct (throws _); cbn [negb].
      - rewrite <-app_assoc. split; [done|]. split; [done|].
        intros P H1 H2 H0. by apply H2.
      - split; [done|]. split; [|intros P H1 H2 H0; by apply H1].
        simpl. rewrite Htasks, <-app_assoc. by apply mset_middle. }
    destruct s1 as [calls1 m1]. cbn [fst snd] in *.
    destruct (IH (pre ++ [ticked now throws (task_id task, task)]) calls1 m1)
      as (Hc & Ht & HP); [| done | done |].
    { unfold Js.mkeys in *. rewrite <-app_assoc. 
      replace ((pre ++ [ticked now throws (task_id task, task)] ++ rest).*1)
        with ((pre ++ (task_id task, task) :: rest).*1); [done|].
      rewrite !fmap_app. f_equal. simpl. f_equal.
      unfold ticked. by destruct (_ && _). }
    split; [|split].
    + rewrite Hc, Hc1, <-app_assoc. f_equal. rewrite filter_cons. simpl.
      by destruct (due now task).
    + rewrite Ht, <-app_assoc. done.
    + intros P H1 H2 H0. apply HP; [done|done|]. by apply HP1.
Qed.

(** What the operations on tasks leave alone. *)
Definition same_timer (m m' : Manager) : Prop :=
  isRunning m' = isRunning m /\ intervalId m' = intervalId m /\
  timers m' = timers m /\ intervalFrequency m' = intervalFrequency m.

Lemma executeEligibleTasks_spec now throws m :
  keyed m ->
  (executeEligibleTasks now throws m).1
  = (filter (fun e => due now e.2 = true) (tasks m)).*1 /\
  tasks (executeEligibleTasks now throws m).2 = ticked now throws <$> tasks m /\
  same_timer m (executeEligibleTasks now throws m).2.
Proof.
  intros [Hnd Hall].
  destruct (execute_fold now throws [] (tasks m) [] m Hnd Hall eq_refl)
    as (Hc & Ht & HP).
  split; [done|]. split; [done|].
  by apply (HP (same_timer m)).
Qed.

Lemma ticked_key now throws e : (ticked now throws e).1 = e.1.
Proof. unfold ticked. by destruct (_ && _). Qed.

Lemma ticked_id now throws e : task_id (ticked now throws e).2 = task_id e.2.
Proof. unfold ticked. by destruct (_ && _). Qed.

Lemma keyed_ticked now throws m m' :
  tasks m' = ticked now throws <$> tasks m -> keyed m -> keyed m'.
Proof.
  intros Ht [Hnd Hall]. unfold keyed, Js.mkeys. rewrite Ht. split.
  - rewrite <-list_fmap_compose.
    rewrite (list_fmap_ext (fst ∘ ticked now throws) fst (tasks m)); [done|].
    intros i e _. apply ticked_key.
  - apply Forall_fmap. eapply Forall_impl; [done|]. intros e He. simpl.
    by rewrite ticked_id, ticked_key.
Qed.

(** The invariant of a manager. *)
Definition tidy (m : Manager) : Prop :=
  keyed m /\ timer_ok m /\ (tasks m ≠ [] -> isBrowser = true).

Lemma tidy_new : tidy new_manager.
Proof.
  split; [split; constructor|]. split; [|done].
  split; [|done]. split; [done|]. by intros [].
Qed.

Lemma tidy_same m m' :
  keyed m' -> (tasks m' = [] <-> tasks m = []) -> same_timer m m' -> tidy m -> tidy m'.
Proof.
  intros Hk Hiff (H1 & H2 & H3 & H4) (_ & [Hrun Hid] & Hb).
  split; [done|]. split; [split|].
  - rewrite H1, Hrun. by rewrite Hiff.
  - unfold timer_set. by rewrite H2, H1, H3, H4.
  - rewrite Hiff. done.
Qed.

Lemma tidy_registerTask id callback frequency now m :
  tidy m -> tidy (registerTask isBrowser id callback frequency now m).2.
Proof.
  intros Hwf. unfold registerTask. destruct isBrowser eqn:Hb; [|done]. cbn [negb snd].
  set (taskId := if Js.mhas id (tasks m) then _ else _).
  set (task := Build_IntervalTask _ _ _ _ _).
  destruct Hwf as (Hk & [Hrun Hid] & _).
  assert (keyed (with_tasks (Js.mset taskId task (tasks m)) m)) as Hk1
    by (by apply keyed_mset).
  unfold timer_ok, timer_set in *. unfold startInterval. cbn [negb orb]. rewrite orb_false_r.
  change (isRunning (with_tasks _ m)) with (isRunning m).
  destruct (isRunning m) eqn:Hr.
  - split; [done|]. split; [|done]. split; [|unfold timer_set; simpl; by rewrite Hr].
    simpl. rewrite Hr. split; [intros _; apply mset_nonempty|done].
  - split; [done|]. split; [|done]. simpl.
    split; [split; [intros _; apply mset_nonempty|done]|].
    unfold timer_set. simpl.
    split; [done|]. destruct (intervalId m) as [h|]; [by destruct Hid|].
    destruct Hid as [_ ->]. done.
Qed.

Lemma stopInterval_spec m :
  isBrowser = true ->
  match intervalId m with
  | Some h => isRunning m = true /\ exists delay, timers m = [(h, delay)]
  | None => isRunning m = false /\ timers m = []
  end ->
  isRunning (stopInterval isBrowser m) = false /\
  intervalId (stopInterval isBrowser m) = None /\
  timers (stopInterval isBrowser m) = [] /\
  intervalFrequency (stopInterval isBrowser m) = intervalFrequency m /\
  next_handle (stopInterval isBrowser m) = next_handle m /\
  errors (stopInterval isBrowser m) = errors m.
Proof.
  intros -> Hid. unfold stopInterval. cbn [negb]. rewrite orb_false_r.
  destruct (isRunning m) eqn:Hr; cbn [negb].
  - destruct (intervalId m) as [h|]; [|by destruct Hid].
    destruct Hid as [_ [delay Ht]]. simpl.
    rewrite Ht, filter_cons, decide_False; [done|]. by intros ?.
  - destruct (intervalId m) as [h|]; [destruct Hid; congruence|].
    by destruct Hid as [_ ->].
Qed.

Lemma timer_set_handle m :
  timer_set m ->
  match intervalId m with
  | Some h => isRunning m = true /\ exists delay, timers m = [(h, delay)]
  | None => isRunning m = false /\ timers m = []
  end.
Proof.
  unfold timer_set. destruct (intervalId m); [|done]. intros [? ?]. eauto.
Qed.

Lemma tidy_stopped m :
  isBrowser = true -> keyed m -> timer_set m -> tasks m = [] ->
  tidy (stopInterval isBrowser m).
Proof.
  intros Hb Hk Hset Hnil.
  destruct (stopInterval_spec m Hb (timer_set_handle m Hset))
    as (S1 & S2 & S3 & S4 & S5 & S6).
  split; [apply (keyed_fields m); [apply stopInterval_tasks|done]|].
  split; [|by rewrite stopInterval_tasks, Hnil].
  split; [|unfold timer_set; by rewrite S2, S1, S3].
  rewrite S1, stopInterval_tasks, Hnil. done.
Qed.

Lemma tidy_unregisterTask id m : tidy m -> tidy (unregisterTask isBrowser id m).2.
Proof.
  intros Hwf. unfold unregisterTask. destruct isBrowser eqn:Hb; [|done]. cbn [negb snd].
  destruct Hwf as (Hk & [Hrun Hid] & _).
  set (m1 := with_tasks (Js.mdelete id (tasks m)) m).
  assert (keyed m1) as Hk1 by (by apply keyed_mdelete).
  case_bool_decide as Hlen.
  - rewrite <-Hb. apply tidy_stopped; [done|done|done|].
    by apply nil_length_inv.
  - split; [done|]. split; [|done]. split; [|done]. simpl. split.
    + intros _ Hnil. apply Hlen. unfold m1. simpl. by rewrite Hnil.
    + intros Hne. apply Hrun. intros Hnil. rewrite Hnil in Hne. done.
Qed.

Lemma tidy_set_active a id m : tidy m -> tidy (set_active isBrowser a id m).2.
Proof.
  intros Hwf. unfold set_active. destruct isBrowser eqn:Hb; [|done]. cbn [negb].
  destruct (Js.mget id (tasks m)) as [task|] eqn:Hg; [|done]. cbn [snd].
  apply (tidy_same m); [| |done|done].
  - apply keyed_mset; [|apply Hwf]. simpl. by eapply keyed_stored; [apply Hwf|].
  - simpl. split; [by intros ?%mset_nonempty|].
    intros Hnil. by rewrite Hnil in Hg.
Qed.

Lemma tidy_executeEligibleTasks now throws m :
  tidy m -> tidy (executeEligibleTasks now throws m).2.
Proof.
  intros Hwf.
  destruct (executeEligibleTasks_spec now throws m) as (_ & Ht & Hsame);
    [apply Hwf|].
  apply (tidy_same m); [|rewrite Ht|done|done].
  - eapply keyed_ticked; [done|apply Hwf].
  - split; [apply fmap_nil_inv|by intros ->].
Qed.

Lemma tidy_executeTaskNow id now throws m :
  tidy m -> tidy (executeTaskNow isBrowser id now throws m).2.2.
Proof.
  intros Hwf. unfold executeTaskNow. destruct isBrowser eqn:Hb; [|done]. cbn [negb].
  destruct (Js.mget id (tasks m)) as [task|] eqn:Hg; [|done].
  destruct (task_isActive task); [|done].
  destruct (throws _); [done|]. cbn [snd].
  apply (tidy_same m); [| |done|done].
  - apply keyed_mset; [|apply Hwf]. simpl. by eapply keyed_stored; [apply Hwf|].
  - simpl. split; [by intros ?%mset_nonempty|].
    intros Hnil. by rewrite Hnil in Hg.
Qed.

Lemma tidy_dispose m : tidy m -> tidy (dispose isBrowser m).
Proof.
  intros Hwf. unfold dispose. destruct isBrowser eqn:Hb; [|done]. cbn [negb].
  rewrite <-Hb.
  destruct (stopInterval_spec m Hb) as (S1 & S2 & S3 & S4 & S5 & S6);
    [apply timer_set_handle, Hwf|].
  split; [split; constructor|]. split; [|done].
  split; [|unfold timer_set; simpl; by rewrite S2, S1, S3].
  simpl. rewrite S1. done.
Qed.

Lemma tidy_setIntervalFrequency frequency m :
  tidy m -> tidy (setIntervalFrequency isBrowser frequency m).
Proof.
  intros (Hk & [Hrun Hset] & Hb). unfold setIntervalFrequency. cbn [isRunning].
  destruct (isRunning m) eqn:Hr.
  - assert (isBrowser = true) as Hbrowser by (by apply Hb, Hrun).
    set (m1 := Build_Manager _ _ _ _ _ _ _).
    destruct (stopInterval_spec m1 Hbrowser) as (S1 & S2 & S3 & S4 & S5 & S6).
    { unfold timer_set in Hset. simpl.
      destruct (intervalId m) as [h|]; [|destruct Hset; congruence].
      destruct Hset as [_ Ht]. eauto. }
    pose proof (stopInterval_tasks m1) as S0.
    set (m2 := stopInterval isBrowser m1) in *. clearbody m2.
    unfold startInterval. rewrite S1, Hbrowser. cbn [negb orb].
    split; [apply (keyed_fields m); [by simpl; rewrite S0|done]|].
    split; [|simpl; by rewrite S0].
    split; simpl.
    + rewrite S0. simpl. split; [by intros _; apply Hrun|done].
    + unfold timer_set. simpl. by rewrite S3.
  - split; [done|]. split; [|done]. split; [done|].
    unfold timer_set in *. simpl.
    destruct (intervalId m) as [h|]; [destruct Hset; congruence|].
    destruct Hset as [_ ?]. by split.
Qed.

Lemma tidy_step o m : tidy m -> tidy (step isBrowser o m).2.
Proof.
  intros Hwf. destruct o; cbn [step snd].
  - by apply tidy_registerTask.
  - by apply tidy_unregisterTask.
  - by apply tidy_set_active.
  - by apply tidy_set_active.
  - destruct (timers m); [done|]. by apply tidy_executeEligibleTasks.
  - by apply tidy_executeTaskNow.
  - by apply tidy_dispose.
  - by apply tidy_setIntervalFrequency.
Qed.

Lemma tidy_run ops m : tidy m -> tidy (run isBrowser ops m).2.
Proof.
  revert m. induction ops as [|o ops IH]; intros m Hwf; [done|].
  cbn [run snd]. by apply IH, tidy_step.
Qed.

(** ** A paused task *)

(** The task [id], if there is one, is paused. *)
Definition paused (id : string) (m : Manager) : Prop :=
  forall task, Js.mget id (tasks m) = Some task -> task_isActive task = false.

Lemma ticked_elem now throws id task m :
  keyed m -> (id, task) ∈ ticked now throws <$> tasks m ->
  exists task0, Js.mget id (tasks m) = Some task0 /\
    (id, task) = ticked now throws (id, task0).
Proof.
  intros [Hnd _] (e & He & Hin)%list_elem_of_fmap.
  destruct e as [k task0].
  assert (k = id) as ->.
  { apply (f_equal fst) in He. rewrite ticked_key in He. done. }
  exists task0. split; [by apply Js.elem_mget|done].
Qed.

(** The operation [o] neither resumes the task [id] nor registers a task
    under this identifier. *)
Definition keeps_paused (id : string) (o : op) (m : Manager) : Prop :=
  match o with
  | ResumeTask id' => id' ≠ id
  | RegisterTask id' callback frequency now =>
      (registerTask isBrowser id' callback frequency now m).1 ≠ id
  | _ => True
  end.

Lemma paused_step id o m :
  tidy m -> paused id m -> keeps_paused id o m ->
  (id ∉ (step isBrowser o m).1) /\ paused id (step isBrowser o m).2.
Proof.
  intros Hwf Hp Ho. destruct o as [id' cb f now|id'|id'|id'|now throws|id' now throws| |f];
    cbn [step fst snd keeps_paused] in *.
  - split; [apply not_elem_of_nil|]. revert Ho. unfold registerTask.
    destruct (negb isBrowser); [done|]. cbn [fst snd]. intros Hne task.
    rewrite startInterval_tasks. simpl. rewrite Js.mget_mset_ne by done. apply Hp.
  - split; [apply not_elem_of_nil|]. unfold unregisterTask.
    destruct (negb isBrowser); [done|]. cbn [snd]. intros task.
    assert (Js.mget id (Js.mdelete id' (tasks m)) = Some task ->
            task_isActive task = false) as Hdel.
    { rewrite Js.mget_mdelete. case_decide; [done|]. apply Hp. }
    case_bool_decide; [|done]. by rewrite stopInterval_tasks.
  - split; [apply not_elem_of_nil|]. unfold pauseTask, set_active.
    destruct (negb isBrowser); [done|].
    destruct (Js.mget id' (tasks m)) as [t|] eqn:Hg; [|done]. cbn [snd]. intros task.
    simpl. rewrite Js.mget_mset. case_decide; [by intros [= <-]|apply Hp].
  - split; [apply not_elem_of_nil|]. unfold resumeTask, set_active.
    destruct (negb isBrowser); [done|].
    destruct (Js.mget id' (tasks m)) as [t|] eqn:Hg; [|done]. cbn [snd]. intros task.
    simpl. rewrite Js.mget_mset. case_decide; [done|apply Hp].
  - destruct (timers m); [split; [apply not_elem_of_nil|done]|].
    destruct (executeEligibleTasks_spec now throws m) as (Hc & Ht & _); [apply Hwf|].
    split.
    + rewrite Hc. intros ([k task] & -> & [Hdue Hin]%list_elem_of_filter)%list_elem_of_fmap.
      simpl in *. apply Js.elem_mget in Hin; [|apply Hwf].
      apply Hp in Hin. unfold due in Hdue. by rewrite Hin in Hdue.
    + intros task Hg%Js.mget_Some_elem. rewrite Ht in Hg.
      destruct (ticked_elem now throws id task m) as (task0 & Hg0 & Heq);
        [apply Hwf|done|].
      apply Hp in Hg0. apply (f_equal snd) in Heq. simpl in Heq. subst task.
      unfold ticked. by destruct (_ && _).
  - unfold executeTaskNow.
    destruct (negb isBrowser); [split; [apply not_elem_of_nil|done]|].
    destruct (Js.mget id' (tasks m)) as [t|] eqn:Hg;
      [|split; [apply not_elem_of_nil|done]].
    destruct (task_isActive t) eqn:Ha; [|split; [apply not_elem_of_nil|done]].
    assert (id' ≠ id) as Hne.
    { intros ->. apply Hp in Hg. congruence. }
    destruct (throws _); cbn [fst snd].
    + split; [by intros ?%list_elem_of_singleton|done].
    + split; [by intros ?%list_elem_of_singleton|]. intros task. simpl.
      rewrite Js.mget_mset_ne by done. apply Hp.
  - split; [apply not_elem_of_nil|]. unfold dispose.
    destruct (negb isBrowser); [done|]. by intros task.
  - split; [apply not_elem_of_nil|]. unfold setIntervalFrequency. cbn [isRunning].
    destruct (isRunning m); [|done]. intros task.
    rewrite startInterval_tasks, stopInterval_tasks. apply Hp.
Qed.

(** Nothing resumes the task [id] or registers a task under this
    identifier during [ops]. *)
Fixpoint stays_paused (id : string) (ops : list op) (m : Manager) : Prop :=
  match ops with
  | [] => True
  | o :: ops' => keeps_paused id o m /\ stays_paused id ops' (step isBrowser o m).2
  end.

Lemma paused_run id ops m :
  tidy m -> paused id m -> stays_paused id ops m -> id ∉ (run isBrowser ops m).1.
Proof.
  revert m. induction ops as [|o ops IH]; intros m Hwf Hp Hs.
  - apply not_elem_of_nil.
  - destruct Hs as [Ho Hs]. cbn [run fst].
    destruct (paused_step id o m Hwf Hp Ho) as [Hc Hp'].
    rewrite not_elem_of_app. split; [done|].
    apply IH; [by apply tidy_step|done|done].
Qed.

Lemma paused_pauseTask id m : tidy m -> paused id (pauseTask isBrowser id m).2.
Proof.
  intros (_ & _ & Hb). unfold pauseTask, set_active.
  destruct isBrowser; cbn [negb].
  - destruct (Js.mget id (tasks m)) as [t|] eqn:Hg.
    + intros task. simpl. rewrite Js.mget_mset_eq. by intros [= <-].
    + intros task. simpl. congruence.
  - cbn [snd]. intros task Hg. destruct (tasks m) as [|e l]; [by simpl in Hg|].
    by specialize (Hb ltac:(done)).
Qed.

End Laws.

(** ** The timer follows the tasks *)

(** X18.  Whatever has been called on an interval manager, it has set a
    timer exactly while tasks are registered: with no task no timer of its
    own is left running, and with tasks (which takes a browser) exactly one
    is, with the delay [intervalFrequency]. *)
Theorem timer_runs_while_tasks_registered (isBrowser : bool) (ops : list op) :
  (tasks (run isBrowser ops new_manager).2 = [] ->
   timers (run isBrowser ops new_manager).2 = [] /\
   isRunning (run isBrowser ops new_manager).2 = false) /\
  (tasks (run isBrowser ops new_manager).2 ≠ [] ->
   isBrowser = true /\
   isRunning (run isBrowser ops new_manager).2 = true /\
   exists handle,
     intervalId (run isBrowser ops new_manager).2 = Some handle /\
     timers (run isBrowser ops new_manager).2
     = [(handle, intervalFrequency (run isBrowser ops new_manager).2)]).
Proof.
  destruct (tidy_run isBrowser ops new_manager (tidy_new isBrowser))
    as (_ & [Hrun Hset] & Hb).
  set (m := (run isBrowser ops new_manager).2) in *. clearbody m.
  unfold timer_set in Hset. split.
  - intros Hnil.
    assert (isRunning m = false) as Hr.
    { destruct (isRunning m); [|done]. by destruct Hrun as [Hrun _]; apply Hrun in Hnil. }
    split; [|done]. destruct (intervalId m); [destruct Hset; congruence|apply Hset].
  - intros Hne. split; [by apply Hb|].
    assert (isRunning m = true) as Hr by (by apply Hrun).
    split; [done|]. destruct (intervalId m) as [h|]; [|destruct Hset; congruence].
    exists h. split; [done|apply Hset].
Qed.

Example timer_replaced_with_new_delay :
  (fun m => (timers m, intervalId m))
    (run true [RegisterTask "frame-check" 1 1000 5; SetIntervalFrequency 250;
               RegisterTask "devtools-check" 2 500 7] new_manager).2
  = ([(2, 250%Z)], Some 2).
Proof. vm_compute. reflexivity. Qed.

(** ** A tick *)

(** X19.  A tick of the timer calls the callbacks of exactly the active tasks
    whose frequency has elapsed since their last run, in the order of
    registration, whether or not a callback throws; it records the time as
    the last run of the tasks whose callback returned and leaves every other
    task as it was. *)
Theorem tick_runs_due_tasks (isBrowser : bool) (ops : list op)
    (now : Z) (throws : nat -> bool) :
  (executeEligibleTasks now throws (run isBrowser ops new_manager).2).1
  = (filter (fun e => due now e.2 = true)
       (tasks (run isBrowser ops new_manager).2)).*1 /\
  tasks (executeEligibleTasks now throws (run isBrowser ops new_manager).2).2
  = (fun e =>
       if due now e.2 && negb (throws (task_callback e.2))
       then (e.1, with_lastRun now e.2) else e)
    <$> tasks (run isBrowser ops new_manager).2.
Proof.
  destruct (tidy_run isBrowser ops new_manager (tidy_new isBrowser)) as (Hk & _).
  destruct (executeEligibleTasks_spec now throws _ Hk) as (Hc & Ht & _).
  done.
Qed.

Example tick_retries_throwing_task :
  (fun r => (r.1, (fun e => (e.1, task_lastRun e.2)) <$> tasks r.2))
    (run true [RegisterTask "a" 1 1000 0; RegisterTask "b" 2 1000 0;
               PauseTask "b"; RegisterTask "c" 3 1000 0;
               Tick 1500 (fun callback => bool_decide (callback = 1));
               Tick 1600 (fun _ => false)] new_manager)
  = (["a"; "c"; "a"], [("a", 1600%Z); ("b", 0%Z); ("c", 1500%Z)]).
Proof. vm_compute. reflexivity. Qed.

(** X20.  A task whose callback returned in a tick is not called by a later
    tick that comes before its frequency has elapsed. *)
Theorem task_not_rerun_before_frequency (isBrowser : bool) (ops : list op)
    (id : string) (task : IntervalTask) (now now' : Z) (throws throws' : nat -> bool) :
  Js.mget id (tasks (run isBrowser ops new_manager).2) = Some task ->
  due now task = true ->
  throws (task_callback task) = false ->
  (now' - now < task_frequency task)%Z ->
  id ∈ (executeEligibleTasks now throws (run isBrowser ops new_manager).2).1 /\
  id ∉ (executeEligibleTasks now' throws'
          (executeEligibleTasks now throws (run isBrowser ops new_manager).2).2).1.
Proof.
  intros Hg Hdue Hthrows Hlt.
  pose proof (tidy_run isBrowser ops new_manager (tidy_new isBrowser)) as Hwf.
  set (m := (run isBrowser ops new_manager).2) in *. clearbody m.
  destruct (executeEligibleTasks_spec now throws m) as (Hc & Ht & _); [apply Hwf|].
  pose proof (tidy_executeEligibleTasks isBrowser now throws m Hwf) as Hwf1.
  destruct (executeEligibleTasks_spec now' throws' _ (proj1 Hwf1)) as (Hc' & _).
  split.
  - rewrite Hc. apply list_elem_of_fmap. exists (id, task). split; [done|].
    apply list_elem_of_filter. split; [done|]. by apply Js.mget_Some_elem.
  - rewrite Hc', Ht.
    intros ([k t] & -> & [Hdue' Hin]%list_elem_of_filter)%list_elem_of_fmap.
    simpl in *.
    destruct (ticked_elem now throws k t m) as (task0 & Hg0 & Heq); [apply Hwf|done|].
    rewrite Hg in Hg0. injection Hg0 as <-.
    unfold ticked in Heq. simpl in Heq. rewrite Hdue, Hthrows in Heq.
    injection Heq as ->. unfold due in Hdue'. simpl in Hdue'.
    apply andb_true_iff in Hdue' as [_ Hle]. apply Z.leb_le in Hle. lia.
Qed.

Definition frame_check : IntervalTask :=
  {| task_id := "frame-check"; task_callback := 1; task_frequency := 1000;
     task_lastRun := 0; task_isActive := true |}.

Lemma task_not_rerun_before_frequency_witness :
  "frame-check"
    ∈ (executeEligibleTasks 1500 (fun _ => false)
         (run true [RegisterTask "frame-check" 1 1000 5] new_manager).2).1 /\
  "frame-check"
    ∉ (executeEligibleTasks 2000 (fun _ => false)
         (executeEligibleTasks 1500 (fun _ => false)
            (run true [RegisterTask "frame-check" 1 1000 5] new_manager).2).2).1.
Proof.
  apply (task_not_rerun_before_frequency true [RegisterTask "frame-check" 1 1000 5]
           "frame-check" frame_check 1500 2000 (fun _ => false) (fun _ => false)).
  - reflexivity.
  - reflexivity.
  - reflexivity.
  - vm_compute. reflexivity.
Defined.

(** ** Pausing *)

(** X21.  After [pauseTask(id)], neither the ticks of the timer nor
    [executeTaskNow] call the task [id], as long as no call resumes it and
    none registers a task under its identifier. *)
Theorem paused_task_not_called (isBrowser : bool) (ops : list op) (id : string)
    (later : list op) :
  stays_paused isBrowser id later
    (pauseTask isBrowser id (run isBrowser ops new_manager).2).2 ->
  id ∉ (run isBrowser later
          (pauseTask isBrowser id (run isBrowser ops new_manager).2).2).1.
Proof.
  intros Hs.
  pose proof (tidy_run isBrowser ops new_manager (tidy_new isBrowser)) as Hwf.
  apply paused_run; [|by apply paused_pauseTask|done].
  by apply (tidy_step isBrowser (PauseTask id)).
Qed.

Lemma paused_task_not_called_witness :
  "frame-check"
    ∉ (run true
         [Tick 1500 (fun _ => false); ExecuteTaskNow "frame-check" 1600 (fun _ => false);
          RegisterTask "frame-check" 2 500 1700; Tick 3000 (fun _ => false)]
         (pauseTask true "frame-check"
            (run true [RegisterTask "frame-check" 1 1000 5] new_manager).2).2).1.
Proof.
  apply (paused_task_not_called true [RegisterTask "frame-check" 1 1000 5]
           "frame-check").
  vm_compute. repeat split; discriminate.
Defined.

Example paused_task_skipped :
  (run true
     [Tick 1500 (fun _ => false); ExecuteTaskNow "frame-check" 1600 (fun _ => false);
      RegisterTask "frame-check" 2 500 1700; Tick 3000 (fun _ => false)]
     (pauseTask true "frame-check"
        (run true [RegisterTask "frame-check" 1 1000 5] new_manager).2).2).1
  = ["frame-check-1700"].
Proof. vm_compute. reflexivity. Qed.

End Interval.

(* ===================================================================== *)
(** * The strategies over time *)
(* ===================================================================== *)

Module StrategyLaws.

Import Strategies.

(** ** The DevTools strategy over a series of reports *)

(** The detectors report the state of the developer tools again and again:
    [handleDevToolsStateChange] for each report, with the value of
    [Date.now()], and the events published in all. *)
Fixpoint reports (rs : list (bool * Z)) (s : DevToolsStrategy)
    : DevToolsStrategy * list ProtectionEvent :=
  match rs with
  | [] => (s, [])
  | (isOpen, now) :: rs' =>
      let r := handleDevToolsStateChange isOpen now s in
      let r' := reports rs' r.1 in
      (r'.1, r.2 ++ r'.2)
  end.

(** [event.data.isOpen]. *)
Definition event_isOpen (e : ProtectionEvent) : option bool :=
  ev_data e ≫= Handlers.data_isOpen.

Lemma default_last_cons {A} (d x : A) (l : list A) :
  default d (last (x :: l)) = default x (last l).
Proof.
  revert d x. induction l as [|y l IH]; intros d x; [done|].
  change (last (x :: y :: l)) with (last (y :: l)). by rewrite (IH d), (IH x).
Qed.

Lemma handleDevToolsStateChange_spec isOpen now s :
  dt_mediator s = true ->
  if bool_decide (isOpen = isDevToolsOpen s)
  then handleDevToolsStateChange isOpen now s = (s, [])
  else
    isDevToolsOpen (handleDevToolsStateChange isOpen now s).1 = isOpen /\
    dt_mediator (handleDevToolsStateChange isOpen now s).1 = true /\
    exists e, (handleDevToolsStateChange isOpen now s).2 = [e] /\
      ev_type e = Some DEVTOOLS_STATE_CHANGE /\ event_isOpen e = Some isOpen.
Proof.
  intros Hm. unfold handleDevToolsStateChange. case_bool_decide as Heq.
  - by rewrite bool_decide_false by (by intros ?).
  - rewrite bool_decide_true by done. rewrite Hm. cbn [fst snd].
    split; [done|]. split; [done|]. by eexists.
Qed.

(** X22.  However often the detectors report the state of the developer
    tools, a DevTools strategy with a mediator publishes
    [DEVTOOLS_STATE_CHANGE] events that alternate: the first one carries the
    opposite of the state the strategy started in, each further one the
    opposite of the one before, and the state the strategy ends in is the
    last report, which is also what the last event carried. *)
Theorem devtools_events_alternate (s : DevToolsStrategy) (rs : list (bool * Z)) :
  dt_mediator s = true ->
  Forall (fun e => ev_type e = Some DEVTOOLS_STATE_CHANGE) (reports rs s).2 /\
  length (omap event_isOpen (reports rs s).2) = length (reports rs s).2 /\
  (forall x, head (omap event_isOpen (reports rs s).2) = Some x ->
     x = negb (isDevToolsOpen s)) /\
  (forall i a b,
     omap event_isOpen (reports rs s).2 !! i = Some a ->
     omap event_isOpen (reports rs s).2 !! S i = Some b -> b = negb a) /\
  isDevToolsOpen (reports rs s).1
  = default (isDevToolsOpen s) (last (omap event_isOpen (reports rs s).2)) /\
  isDevToolsOpen (reports rs s).1 = default (isDevToolsOpen s) (last rs.*1).
Proof.
  revert s. induction rs as [|[isOpen now] rs IH]; intros s Hm.
  - simpl. split; [constructor|]. split; [done|]. split; [done|]. split; [|done].
    intros i a b Ha. by rewrite lookup_nil in Ha.
  - cbn [reports fst snd].
    pose proof (handleDevToolsStateChange_spec isOpen now s Hm) as Hstep.
    case_bool_decide as Heq.
    + rewrite Hstep. cbn [fst snd app].
      destruct (IH s Hm) as (Hall & Hlen & Hhead & Halt & Hlast & Hrep).
      split; [done|]. split; [done|]. split; [done|]. split; [done|].
      split; [done|]. rewrite Hrep. cbn [fmap list_fmap fst].
      change (list_fmap _ _ fst rs) with (rs.*1).
      by rewrite default_last_cons, Heq.
    + destruct Hstep as (Hopen & Hm1 & e & He & Htype & Hdata).
      set (s1 := (handleDevToolsStateChange isOpen now s).1) in *. clearbody s1.
      rewrite He. cbn [app].
      destruct (IH s1 Hm1) as (Hall & Hlen & Hhead & Halt & Hlast & Hrep).
      rewrite Hopen in *.
      assert (omap event_isOpen (e :: (reports rs s1).2)
              = isOpen :: omap event_isOpen (reports rs s1).2) as ->.
      { cbn [omap list_omap]. by rewrite Hdata. }
      split; [by constructor|]. split; [by simpl; rewrite Hlen|].
      split; [intros x [= <-]; by destruct isOpen, (isDevToolsOpen s)|].
      split.
      * intros [|i] a b; cbn [lookup list_lookup]; intros Ha Hb.
        -- injection Ha as <-. apply Hhead.
           by destruct (omap event_isOpen (reports rs s1).2).
        -- by eapply Halt.
      * cbn [fmap list_fmap fst].
        change (list_fmap _ _ fst rs) with (rs.*1). split.
        -- by rewrite Hlast, default_last_cons.
        -- by rewrite Hrep, default_last_cons.
Qed.

Definition flickering : list (bool * Z) :=
  [(false, 1%Z); (true, 2%Z); (true, 3%Z); (true, 4%Z); (false, 5%Z); (false, 6%Z);
   (true, 7%Z)].

Lemma devtools_events_alternate_witness :
  Forall (fun e => ev_type e = Some DEVTOOLS_STATE_CHANGE)
    (reports flickering devtools_strategy).2 /\
  length (omap event_isOpen (reports flickering devtools_strategy).2)
  = length (reports flickering devtools_strategy).2 /\
  (forall x, head (omap event_isOpen (reports flickering devtools_strategy).2) = Some x ->
     x = negb (isDevToolsOpen devtools_strategy)) /\
  (forall i a b,
     omap event_isOpen (reports flickering devtools_strategy).2 !! i = Some a ->
     omap event_isOpen (reports flickering devtools_strategy).2 !! S i = Some b ->
     b = negb a) /\
  isDevToolsOpen (reports flickering devtools_strategy).1
  = default (isDevToolsOpen devtools_strategy)
      (last (omap event_isOpen (reports flickering devtools_strategy).2)) /\
  isDevToolsOpen (reports flickering devtools_strategy).1
  = default (isDevToolsOpen devtools_strategy) (last flickering.*1).
Proof.
  apply (devtools_events_alternate devtools_strategy flickering). reflexivity.
Defined.

Example flickering_events :
  omap event_isOpen (reports flickering devtools_strategy).2 = [true; false; true].
Proof. vm_compute. reflexivity. Qed.

(** ** The extension strategy over a series of detections *)

(** [handleDetection] for each detection, with the value of [Date.now()],
    and the events published in all. *)
Fixpoint detections (ds : list (string * Z)) (s : ExtensionStrategy)
    : ExtensionStrategy * list ProtectionEvent :=
  match ds with
  | [] => (s, [])
  | (extensionId, now) :: ds' =>
      let r := handleDetection extensionId now s in
      let r' := detections ds' r.1 in
      (r'.1, r.2 ++ r'.2)
  end.

Lemma handleDetection_spec extensionId now s :
  ex_mediator (handleDetection extensionId now s).1 = ex_mediator s /\
  if bool_decide (extensionId ≠ EmptyString /\ extensionId ∉ detectedExtensions s)
  then
    detectedExtensions (handleDetection extensionId now s).1
    = detectedExtensions s ++ [extensionId] /\
    length (handleDetection extensionId now s).2 = (if ex_mediator s then 1 else 0)
  else
    detectedExtensions (handleDetection extensionId now s).1 = detectedExtensions s /\
    (handleDetection extensionId now s).2 = [].
Proof.
  unfold handleDetection. destruct extensionId as [|c rest]; cbn [Js.nonempty negb].
  - split; [done|]. rewrite bool_decide_false; [done|]. by intros [? _].
  - change (Js.nonempty (String c rest)) with true. cbn [negb].
    case_bool_decide as Hin.
    + split; [done|]. rewrite bool_decide_false; [done|]. by intros [_ ?].
    + split; [done|]. rewrite bool_decide_true by done. cbn [fst snd].
      split; [done|]. by destruct (ex_mediator s).
Qed.

(** X23.  However often extensions are detected, the extension strategy
    keeps each detected identifier once, in the order of first detection:
    it adds exactly the non-empty identifiers it did not have, and with a
    mediator it publishes one event for each identifier it adds and none
    for a repeated or empty one. *)
Theorem extensions_reported_once (s : ExtensionStrategy) (ds : list (string * Z)) :
  NoDup (detectedExtensions s) ->
  NoDup (detectedExtensions (detections ds s).1) /\
  detectedExtensions s `prefix_of` detectedExtensions (detections ds s).1 /\
  (forall id, id ∈ detectedExtensions (detections ds s).1 <->
     id ∈ detectedExtensions s \/ (id ∈ ds.*1 /\ id ≠ EmptyString)) /\
  length (detections ds s).2
  = if ex_mediator s
    then length (detectedExtensions (detections ds s).1) - length (detectedExtensions s)
    else 0.
Proof.
  revert s. induction ds as [|[extensionId now] ds IH]; intros s Hnd.
  - simpl. split; [done|]. split; [done|]. split.
    + intros id. split; [by left|]. intros [?|[?%elem_of_nil _]]; done.
    + destruct (ex_mediator s); lia.
  - cbn [detections fst snd].
    destruct (handleDetection_spec extensionId now s) as [Hm Hstep].
    set (r := handleDetection extensionId now s) in *. clearbody r.
    case_bool_decide as Hnew.
    + destruct Hstep as [Hd Hlen]. destruct Hnew as [Hne Hnotin].
      destruct (IH r.1) as (Hnd' & Hpre & Hin & Hcount).
      { rewrite Hd. apply NoDup_app. split; [done|]. split; [|apply NoDup_singleton].
        by intros x Hx ->%list_elem_of_singleton. }
      split; [done|]. split.
      { etrans; [|exact Hpre]. rewrite Hd. by apply prefix_app_r. }
      split.
      * intros id. rewrite Hin, Hd, elem_of_app, list_elem_of_singleton.
        cbn [fmap list_fmap fst]. change (list_fmap _ _ fst ds) with (ds.*1).
        rewrite elem_of_cons. split.
        -- intros [[?| ->]|[? ?]]; [by left|right; split; [by left|done]|].
           right. split; [by right|done].
        -- intros [?|[[->|?] ?]]; [by left; left|by left; right|by right].
      * rewrite length_app, Hlen, Hcount, Hm.
        apply prefix_length in Hpre. rewrite Hd, length_app in Hpre. simpl in Hpre.
        rewrite Hd, length_app. simpl. destruct (ex_mediator s); lia.
    + destruct Hstep as [Hd Hnil].
      destruct (IH r.1) as (Hnd' & Hpre & Hin & Hcount); [by rewrite Hd|].
      split; [done|]. split; [by rewrite <-Hd|]. split.
      * intros id. rewrite Hin, Hd.
        cbn [fmap list_fmap fst]. change (list_fmap _ _ fst ds) with (ds.*1).
        rewrite elem_of_cons. split.
        -- intros [?|[? ?]]; [by left|]. right. split; [by right|done].
        -- intros [?|[[->|?] ?]]; [by left| |by right].
           left. apply dec_stable. intros Hnotin. by apply Hnew.
      * rewrite Hnil. cbn [app]. by rewrite Hcount, Hm, Hd.
Qed.

Definition extension_strategy : ExtensionStrategy :=
  {| detectedExtensions := []; extensionsConfig := []; ex_mediator := true;
     ex_showOverlay := Some true; ex_overlayOptions := None;
     ex_hideContent := Some false; ex_targetElement := None;
     ex_customHandler := None; ex_errors := 0 |}.

Definition scans : list (string * Z) :=
  [("react-devtools", 1%Z); ("redux-devtools", 2%Z); ("react-devtools", 3%Z);
   (EmptyString, 4%Z)].

Lemma extensions_reported_once_witness :
  NoDup (detectedExtensions (detections scans extension_strategy).1) /\
  detectedExtensions extension_strategy
    `prefix_of` detectedExtensions (detections scans extension_strategy).1 /\
  (forall id, id ∈ detectedExtensions (detections scans extension_strategy).1 <->
     id ∈ detectedExtensions extension_strategy \/
     (id ∈ scans.*1 /\ id ≠ EmptyString)) /\
  length (detections scans extension_strategy).2
  = length (detectedExtensions (detections scans extension_strategy).1)
    - length (detectedExtensions extension_strategy).
Proof.
  apply (extensions_reported_once extension_strategy scans). constructor.
Defined.

Example scans_detected :
  (fun r => (detectedExtensions r.1, length r.2, ex_errors r.1))
    (detections scans extension_strategy)
  = (["react-devtools"; "redux-devtools"], 2, 1).
Proof. vm_compute. reflexivity. Qed.

End StrategyLaws.

(* ===================================================================== *)
(** * From a detection to the protected content *)
(* ===================================================================== *)

Module Pipeline.

Import Content ContentLaws.

(** The mediator hands the content manager the events of the two types it
    subscribes to in [setMediator]; [now] is the value of [Date.now()] when
    the manager handles the event. *)
Definition content_delivery (now : N) (e : ProtectionEvent) : list op :=
  if isEventType e CONTENT_HIDDEN then [ContentHiddenEvent e now]
  else if isEventType e CONTENT_RESTORED then [ContentRestoredEvent e]
  else [].

(** What reaches the content manager when the DevTools event handler
    handles the detection event [e] at time [t]. *)
Definition devtools_protection (e : ProtectionEvent) (t : Z) (now : N) : list op :=
  Handlers.published (Handlers.handleDevToolsStateChange e t)
    ≫= content_delivery now.

(** The detection event of a DevTools strategy that asks for the content to
    be hidden. *)
Definition devtools_event (isOpen : bool) (t : Z) (target : option ElementRef)
    (showOverlay : option bool) (overlayOptions : option OverlayOptions)
    : ProtectionEvent :=
  Handlers.make_event DEVTOOLS_STATE_CHANGE Strategies.DEVTOOLS_STRATEGY t
    (DevToolsData isOpen target showOverlay overlayOptions (Some true)).

Lemma devtools_protection_opened t t' target showOverlay overlayOptions now :
  devtools_protection (devtools_event true t target showOverlay overlayOptions) t' now
  = [ContentHiddenEvent
       (Handlers.make_event CONTENT_HIDDEN Handlers.DEVTOOLS_HANDLER t'
          (ContentHiddenData Handlers.DEVTOOLS_HANDLER "devtools_opened"
             (Some {| po_title := overlayOptions ≫= oo_title;
                      po_message := overlayOptions ≫= oo_message;
                      po_secondaryMessage := overlayOptions ≫= oo_secondaryMessage;
                      po_textColor := Some "black";
                      po_backgroundColor := overlayOptions ≫= oo_backgroundColor |})
             target (Some 10%Z))) now].
Proof.
  unfold devtools_protection, devtools_event, Handlers.handleDevToolsStateChange,
    Handlers.handleDevToolsOpened. simpl.
  by case_bool_decide.
Qed.

Lemma devtools_protection_closed t t' target showOverlay overlayOptions now :
  devtools_protection (devtools_event false t target showOverlay overlayOptions) t' now
  = [ContentRestoredEvent
       (Handlers.make_event CONTENT_RESTORED Handlers.DEVTOOLS_HANDLER t'
          (ContentRestoredData Handlers.DEVTOOLS_HANDLER target))].
Proof.
  unfold devtools_protection, devtools_event, Handlers.handleDevToolsStateChange,
    Handlers.handleDevToolsClosed. simpl.
  by case_bool_decide.
Qed.

(** Once nothing is active and nothing waits, removing states leaves the
    element alone. *)
Lemma remove_each_idle ids n m :
  activeStateId m = None -> stateQueue m = [] ->
  targetElement (remove_each ids n m).2 = targetElement m /\
  originalContent (remove_each ids n m).2 = originalContent m /\
  activeStateId (remove_each ids n m).2 = None.
Proof.
  revert n m. induction ids as [|id ids IH]; intros n m Ha Hq; [done|].
  cbn [remove_each].
  change (activeStateId (with_states _ m)) with (activeStateId m).
  rewrite Ha, bool_decide_false by done.
  apply (IH (S n) (with_queue _ (with_states _ m))); [done|].
  simpl. by rewrite Hq.
Qed.

(** Removing the active state, with nothing waiting, assigns the content
    kept aside to the element. *)
Lemma remove_each_restores ids n m held orig a :
  restored_callback_keeps_element m ->
  targetElement m = Some held -> originalContent m = Some orig ->
  stateQueue m = [] -> activeStateId m = Some a -> a ∈ ids ->
  innerHTML (remove_each ids n m).2 = Some (el_parsed held orig) /\
  originalContent (remove_each ids n m).2 = None /\
  activeStateId (remove_each ids n m).2 = None.
Proof.
  revert n m. induction ids as [|id ids IH]; intros n m Hcb Ht Ho Hq Ha Hin.
  { by apply elem_of_nil in Hin. }
  cbn [remove_each].
  set (m1 := with_states (Js.mdelete id (contentStates m)) m).
  change (activeStateId m1) with (activeStateId m). rewrite Ha.
  case_bool_decide as Hid.
  - change (stateQueue (with_active None m1)) with (stateQueue m). rewrite Hq.
    destruct (restoreContent_kept (with_active None m1) held orig Ht Ho Hcb)
      as (R1 & R2 & _).
    destruct (restoreContent_book (with_active None m1)) as (_ & R4 & R5).
    destruct (remove_each_idle ids (S n) (restoreContent (with_active None m1)).2)
      as (I1 & I2 & I3); [by rewrite R4|by rewrite R5|].
    unfold innerHTML. rewrite I1, I2, R1, R2. done.
  - apply (IH (S n) (with_queue _ m1)); try done.
    + simpl. by rewrite Hq.
    + apply elem_of_cons in Hin as [->|Hin]; [done|exact Hin].
Qed.

(** What an element reads as [innerHTML] after its own [innerHTML] has been
    assigned to it. *)
Definition reassigned (element : Element) : string :=
  el_parsed element (el_innerHTML element).


(** The page swaps the protected element; the tools are opened and closed. *)
Definition swapped : list op := [UpdateTargetElement 7 next_element].

Definition tools_opened : list op :=
  devtools_protection (devtools_event true 10 (Some 7) (Some true) None) 11 12.

Definition tools_closed : list op :=
  devtools_protection (devtools_event false 20 (Some 7) (Some true) None) 21 22.


Example tools_opened_hides :
  innerHTML (reached secret None None 3 (swapped ++ tools_opened))
  ≠ Some "<p>next</p>".
Proof. vm_compute. discriminate. Qed.

(** An element whose content does not read back as assigned comes out of the
    round trip with the content read back. *)
Example tools_closed_reparsed :
  innerHTML
    (reached table_element None None 3
       (devtools_protection (devtools_event true 10 None (Some true) None) 11 12
        ++ devtools_protection (devtools_event false 20 None (Some true) None) 21 22))
  = Some table_body.
Proof. vm_compute. reflexivity. Qed.

End Pipeline.
